(* ===== verification/_CoqProject ===== *)
-Q . S2P
Prelude.v
CInt.v
CStr.v
Stdio.v
Sys.v
RawNet.v
EchoRaw.v
Drivers.v
ChatMq.v
ChatMqNet.v
ChatShm.v
BoundedQueue.v
WorkerPool.v
Shops.v
Console.v
PhoneBook.v
PhoneList.v
FileManager.v
Shell.v
Calc.v
Lessons.v
CharDev.v
Endpoint.v
EchoMain.v
ShmPair.v
ChatShmMain.v
Sockets.v
Exchange.v
Servers.v
RawClients.v
OptClient.v
Ipc.v
