(* ===== verification/Prelude.v ===== *)
(** * The homework programs, verified

    The repository is a collection of small systems programs in C: servers and clients over
    sockets, queues, shared memory, pipes and raw frames; threads and pools of workers; a
    shell, a file manager, phone books; a character device. Each stands for itself; what
    they share is the C library and the operating system.

    ** The layers

    - Prelude: [outcome], a computation that is done with a value or has no defined meaning
      ([undef] names the reason); arrays that are indexed by an integer and checked
      ([znth], [zset], [put_at], [get_at]); counted loops; lemmas on lists and sums.
    - CInt, CStr, Stdio: integers of the machine (LP64, little endian) with wrap-around of
      the unsigned types and undefined overflow of [int]; strings in byte arrays; [printf]
      and [scanf] of numbers and tokens. A function of the C library is defined here as the
      standard describes it, and reading or writing past an array is [Undef OutOfBounds].
    - Console: programs that read a stream of bytes and print lines (hw1 to hw8).
    - Sys: programs as trees of system calls; a reply of the kernel is any that the manual
      page of the call allows ([reply_ok]). [exec] is the set of runs under a monitor, [wp]
      proves what holds of all of them ([wp_sound]). The monitor [kernel] records which
      descriptors are open and which named objects were created, and a run stays inside it
      when no descriptor is used that is not open.
    - Endpoint: what the small clients and servers have in common, and the monitor
      [courier] of what is sent and printed after which message.

    ** The components

    - RawNet, EchoRaw: src/final_hw_1, the echo service over raw frames, and the headers and
      the checksum it shares with src/hw16_sockets/p5 to p7. [EchoRaw.account] and its
      refinement say what the table of clients keeps; the reply is built in the buffer of the
      request, as in the code. EchoMain: its server and its client as programs, with their
      options and sockets.
    - Drivers: src/final_hw_2/main.c, the taxi dispatcher. Command line, connection process
      and driver are three programs over their own copies of the globals.
    - ChatMq: src/hw13_mqueue/part2; ChatMqNet: its server and any number of clients as whole
      programs, with the queues between them ([Sys.many_step]). ChatShm: src/hw14_shmemory/part2, with the steps of any
      number of processes interleaved under the semaphore; ChatShmMain: its two programs,
      where a critical section is one call on the shared room.
    - ShmPair: src/hw14_shmemory/part1, with every load and store of a byte a step of its own.
    - BoundedQueue, WorkerPool, Servers: the servers of src/hw16_sockets/p2_server_template
      (pool of threads, pool of processes, TCP and UDP with epoll, a thread for each client)
      and their clients. Sockets: p1, p3 and p4; Exchange: server and client of each kind of
      p1 running together. RawClients: p5, p6 and p7; OptClient: p7 with options.
    - Shops: src/hw11_thread/main.c, threads over mutexes.
    - PhoneBook, PhoneList: src/hw4, hw5 and hw6. The menu is a client of the interface
      [Book]; both the array and the linked list on a heap implement it, and each refines a
      specification that is a list.
    - FileManager: src/hw9_vfs/file_manager. Shell: src/hw10_proc/p3_bash and
      src/hw12_pipe/part3. Ipc: hw12 part1 and part2, hw13 part1, hw15, hw10 p1 and p2,
      and the programs that only print (src/hw18_fs_arm_slim, hw20_modules_linux/p1).
    - CharDev: src/hw20_modules_linux/p2/test2.c, readers and writers interleaved at
      the lock; an open file, loading and unloading.
    - Calc, Lessons: src/hw7_static_lib, hw8_dinamic_lib, hw1, hw2, hw3 with
      hw3_2 and hw3_3, hw5_p2 and hw9_vfs/output.

    ** What the theorems show

    - Refinement: the table of the echo server keeps, for each address, what the
      specification keeps as long as a slot is free; the dispatcher of the taxis and the
      three phone books implement abstract states; server and client of the chat in shared
      memory change the room in the same way.
    - Safety under every run of the kernel: descriptors are used while they are open and
      closed once; named objects are removed; processes answer only what they received
      ([multi_server_polite], [sockets_safe], [exchanges_safe], [dispatch_keeps_descriptors],
      [client_cleans_up], [connection_process_safe]). A monitor of a protocol also names what
      has to come next, so that a run that leaves it out is not allowed: the reply to a client,
      the print of a text received, the child that runs the line, the removal of a queue
      ([Servers.owner], [RawClients.raw_watch], [Shell.next_call], [Ipc.talker]); where a
      program has no choice its calls are given as a list ([Sys.makes]).
    - Invariants and liveness of interleaved threads: the room, the queue, the stocks and the
      device stay consistent; whoever is inside the semaphore leaves it; the pool of threads
      serves every connection, the shops never deadlock. Two programs on one object are proved apart, each against a monitor, and
      joined by a relation of the object to both monitors ([Sys.together_rtc]): a reply in
      shared memory is whole when it is read, two clients of the room give back their slots.
    - Two programs that only share their messages: how server and client of one exchange can
      end when they run together ([exchange_outcomes]); they never run for ever, since every
      step leaves a smaller pair of programs ([Sys.many_step_sn]).
    - Bounds and errors: which inputs stay inside their arrays and which leave them
      ([server_receive_bounds], [user_list_bounds], [raw_clients_receive],
      [unreadable_directory_overruns], [full_book_cannot_shrink], [substring_session]); a
      thread that is cancelled inside the semaphore blocks the room, and a client that is
      early is never heard ([cancelled_inside_blocks], [early_client_unheard]).
    - Round trips: a request is received as it was built, a line of the chat arrives as it
      was typed; of all the lines that were sent, every window shows some in their order
      ([chat_in_order]).
    A theorem also states where the program falls short, as it is: the echo server's reply is
    never accepted by its client, the command line of the taxis never reaches a driver, whose
    connections belong to another process, the first exercise loses the number it has
    counted.

    ** Fuel and bounds

    A loop that the code runs until an event ([forever], [rounds], [beat]) has a number of
    rounds as its argument, over which the theorems quantify; a run that is cut short is
    marked ([Cut], or [None]), and where the code ends its loop by itself a bound is proved
    to be enough: the typed session and one round for the menus, 32 rounds for the bits of a
    number, [N] turns for a matrix of [N] rows. Loops over an array take its length. The
    liveness theorems of the threads are about schedules of any length.

    ** What is not modelled

    - The vendored BusyBox of src/hw18_fs_arm_busybox, which is not code of this repository,
      and the kernel images of hw17.
    - Addresses of sockets and of peers, except where a program compares or prints what it
      computes from them; the layout of the screen beyond the rows that are shown; options of
      the command line but those of final_hw_1 and of hw16 p7; a client of hw14 part1 that maps the segment
      before it has a size; memory that runs out where the code does not test for it.
    - Signals are delivered at the calls that wait for them. *)

From Stdlib Require Export ZArith Lia.
From stdpp Require Export base tactics strings numbers gmap list.

#[export] Set Default Goal Selector "!".
Open Scope Z_scope.

(** * Undefined behaviour as a value *)

(** The reasons for which the C abstract machine gives a program no meaning. *)
Inductive undef :=
  | OutOfBounds       (** access outside an array, or a string without its NUL *)
  | SignedOverflow    (** signed arithmetic that leaves the type *)
  | DivByZero
  | Unrepresentable   (** a scanf conversion that does not fit its object *)
  | Uninitialised     (** an indeterminate object is read *)
  | NullDeref
  | UseAfterFree
  | BadFree
  | OutOfFuel         (** not of the program: the evaluation of a loop was cut short *).

#[export] Instance undef_eq_dec : EqDecision undef.
Proof. solve_decision. Defined.

(** A computation either is done with a value or has no defined meaning. *)
Inductive outcome (A : Type) : Type :=
  | Done (a : A)
  | Undef (u : undef).
Arguments Done {A} a.
Arguments Undef {A} u.

#[export] Instance outcome_eq_dec `{EqDecision A} : EqDecision (outcome A).
Proof. solve_decision. Defined.

#[export] Instance outcome_ret : MRet outcome := fun A a => Done a.
#[export] Instance outcome_bind : MBind outcome :=
  fun A B f m => match m with Done a => f a | Undef u => Undef u end.
#[export] Instance outcome_fmap : FMap outcome :=
  fun A B f m => match m with Done a => Done (f a) | Undef u => Undef u end.

(** The computation has a meaning. *)
Definition defined {A} (m : outcome A) : Prop := exists a, m = Done a.

Definition of_option {A} (u : undef) (o : option A) : outcome A :=
  match o with Some a => Done a | None => Undef u end.

Definition check (b : bool) (u : undef) : outcome unit :=
  if b then Done tt else Undef u.

Lemma outcome_bind_done {A B} (m : outcome A) (f : A -> outcome B) b :
  (m ≫= f) = Done b <-> exists a, m = Done a /\ f a = Done b.
Proof. destruct m as [a|u]; cbn; split; naive_solver. Qed.

Lemma outcome_bind_assoc {A B C} (m : outcome A) (f : A -> outcome B) (g : B -> outcome C) :
  ((m ≫= f) ≫= g) = (m ≫= fun a => f a ≫= g).
Proof. by destruct m. Qed.

Lemma defined_bind {A B} (m : outcome A) (f : A -> outcome B) a :
  m = Done a -> defined (f a) -> defined (m ≫= f).
Proof. by intros ->. Qed.

(** * Tactics *)

(** Reduce the monad of outcomes in the goal or in a hypothesis. *)
Ltac obind := unfold mbind, outcome_bind, mret, outcome_ret, fmap, outcome_fmap in *; cbn beta iota in *.

(** Split a hypothesis [m ≫= f = Done b] into its two steps. *)
Ltac obind_inv H :=
  apply outcome_bind_done in H;
  let a := fresh "a" in let Ha := fresh "Ha" in destruct H as (a & Ha & H).

(** Case analysis on every boolean comparison of integers in the goal or context. *)
Ltac zbool :=
  repeat match goal with
  | |- context [Z.eqb ?a ?b] => destruct (Z.eqb_spec a b)
  | |- context [Z.leb ?a ?b] => destruct (Z.leb_spec a b)
  | |- context [Z.ltb ?a ?b] => destruct (Z.ltb_spec a b)
  | |- context [Z.geb ?a ?b] => rewrite (Z.geb_leb a b)
  | |- context [Z.gtb ?a ?b] => rewrite (Z.gtb_ltb a b)
  | H : context [Z.eqb ?a ?b] |- _ => destruct (Z.eqb_spec a b)
  | H : context [Z.leb ?a ?b] |- _ => destruct (Z.leb_spec a b)
  | H : context [Z.ltb ?a ?b] |- _ => destruct (Z.ltb_spec a b)
  | H : context [Z.geb ?a ?b] |- _ => rewrite (Z.geb_leb a b) in H
  | H : context [Z.gtb ?a ?b] |- _ => rewrite (Z.gtb_ltb a b) in H
  end.

(** Close the goals about lengths and integer bounds. *)
Ltac len :=
  repeat first
    [ rewrite length_app | rewrite length_take | rewrite length_drop
    | rewrite length_insert | rewrite length_replicate | rewrite length_cons
    | rewrite length_fmap | rewrite length_reverse | rewrite length_nil ];
  first [ lia | cbn [length]; lia ].

Create HintDb cmodel.

(** * Arrays *)

Section arrays.
Context {A : Type}.
Implicit Types (l src : list A) (x : A).

(** [a[i]] as a value. *)
Definition znth l (i : Z) : outcome A :=
  if 0 <=? i then of_option OutOfBounds (l !! Z.to_nat i) else Undef OutOfBounds.

(** [a[i] = x]. *)
Definition zset l (i : Z) x : outcome (list A) :=
  if (0 <=? i) && (i <? Z.of_nat (length l))
  then Done (<[Z.to_nat i := x]> l) else Undef OutOfBounds.

(** [memcpy(a + off, src, n)] with [n] the length of [src]. *)
Definition put_at l (off : Z) src : outcome (list A) :=
  if (0 <=? off) && (off + Z.of_nat (length src) <=? Z.of_nat (length l))
  then Done (take (Z.to_nat off) l ++ src ++ drop (Z.to_nat off + length src) l)
  else Undef OutOfBounds.

(** The [n] elements at [a + off]. *)
Definition get_at l (off n : Z) : outcome (list A) :=
  if (0 <=? off) && (0 <=? n) && (off + n <=? Z.of_nat (length l))
  then Done (take (Z.to_nat n) (drop (Z.to_nat off) l))
  else Undef OutOfBounds.

Lemma znth_Done l i x : znth l i = Done x <-> 0 <= i /\ l !! Z.to_nat i = Some x.
Proof.
  unfold znth, of_option. destruct (Z.leb_spec 0 i).
  - destruct (l !! Z.to_nat i); naive_solver.
  - split; [done | lia].
Qed.

Lemma znth_ok l i :
  0 <= i < Z.of_nat (length l) -> exists x, znth l i = Done x /\ l !! Z.to_nat i = Some x.
Proof.
  intros [H0 H1]. destruct (lookup_lt_is_Some_2 l (Z.to_nat i)) as [x Hx]; [lia |].
  exists x. split; [|done]. by apply znth_Done.
Qed.

Lemma znth_oob l i : i < 0 \/ Z.of_nat (length l) <= i -> znth l i = Undef OutOfBounds.
Proof.
  intros H. unfold znth. destruct (Z.leb_spec 0 i); [|done].
  rewrite lookup_ge_None_2; [done | lia].
Qed.

Lemma zset_ok l i x :
  0 <= i < Z.of_nat (length l) -> zset l i x = Done (<[Z.to_nat i := x]> l).
Proof. intros H. unfold zset. zbool; cbn; done || lia. Qed.

Lemma zset_oob l i x :
  i < 0 \/ Z.of_nat (length l) <= i -> zset l i x = Undef OutOfBounds.
Proof. intros H. unfold zset. zbool; cbn; done || lia. Qed.

Lemma zset_Done l i x l' :
  zset l i x = Done l' <-> 0 <= i < Z.of_nat (length l) /\ l' = <[Z.to_nat i := x]> l.
Proof. unfold zset. zbool; cbn; split; intros; destruct_and?; simplify_eq; done || lia. Qed.

Lemma zset_length l i x l' : zset l i x = Done l' -> length l' = length l.
Proof. intros [_ ->]%zset_Done. apply length_insert. Qed.

Lemma znth_zset_eq l i x l' : zset l i x = Done l' -> znth l' i = Done x.
Proof.
  intros [Hi ->]%zset_Done. apply znth_Done. split; [lia|].
  apply list_lookup_insert_eq. lia.
Qed.

Lemma znth_zset_ne l i j x l' : zset l i x = Done l' -> i <> j -> znth l' j = znth l j.
Proof.
  intros [Hi ->]%zset_Done Hne. unfold znth. destruct (Z.leb_spec 0 j); [|done].
  rewrite list_lookup_insert_ne; [done | lia].
Qed.

Lemma put_at_ok l off src :
  0 <= off -> off + Z.of_nat (length src) <= Z.of_nat (length l) ->
  put_at l off src
    = Done (take (Z.to_nat off) l ++ src ++ drop (Z.to_nat off + length src) l).
Proof. intros. unfold put_at. zbool; cbn; done || lia. Qed.

Lemma put_at_Done l off src l' :
  put_at l off src = Done l' <->
  0 <= off /\ off + Z.of_nat (length src) <= Z.of_nat (length l) /\
  l' = take (Z.to_nat off) l ++ src ++ drop (Z.to_nat off + length src) l.
Proof. unfold put_at. zbool; cbn; split; intros; destruct_and?; simplify_eq; done || lia. Qed.

Lemma put_at_length l off src l' : put_at l off src = Done l' -> length l' = length l.
Proof. intros (? & ? & ->)%put_at_Done. len. Qed.

Lemma get_put_same l off src l' :
  put_at l off src = Done l' -> get_at l' off (Z.of_nat (length src)) = Done src.
Proof.
  intros H. pose proof (put_at_length _ _ _ _ H) as Hl.
  apply put_at_Done in H as (? & ? & ->). unfold get_at. rewrite Hl.
  zbool; cbn; try lia. f_equal.
  rewrite drop_app_length' by len. rewrite Nat2Z.id. by rewrite take_app_length.
Qed.

Lemma lookup_put_at_out l off src l' (k : nat) :
  put_at l off src = Done l' ->
  (Z.of_nat k < off \/ off + Z.of_nat (length src) <= Z.of_nat k) -> l' !! k = l !! k.
Proof.
  intros (? & ? & ->)%put_at_Done [Hk|Hk].
  - rewrite lookup_app_l by len. rewrite lookup_take_lt by lia. done.
  - rewrite lookup_app_r by len. rewrite lookup_app_r by len.
    rewrite lookup_drop. f_equal. len.
Qed.

Lemma lookup_put_at_in l off src l' (k : nat) :
  put_at l off src = Done l' ->
  off <= Z.of_nat k < off + Z.of_nat (length src) ->
  l' !! k = src !! (k - Z.to_nat off)%nat.
Proof.
  intros (? & ? & ->)%put_at_Done Hk.
  rewrite lookup_app_r by len. rewrite lookup_app_l by len. f_equal. len.
Qed.

Lemma put_at_total l off src :
  0 <= off -> off + Z.of_nat (length src) <= Z.of_nat (length l) ->
  exists l', put_at l off src = Done l' /\ length l' = length l.
Proof. intros H1 H2. rewrite put_at_ok by done. eexists. split; [done|]. len. Qed.

(** An element store is a store of one element. *)
Lemma zset_total l i x :
  0 <= i < Z.of_nat (length l) ->
  exists l', zset l i x = Done l' /\ put_at l i [x] = Done l' /\ length l' = length l.
Proof.
  intros Hi. exists (<[Z.to_nat i := x]> l). rewrite zset_ok by done.
  split_and!; [done | | apply length_insert].
  rewrite put_at_ok by (cbn; lia). f_equal. cbn [length app].
  rewrite Nat.add_1_r. symmetry. apply insert_take_drop. lia.
Qed.

Lemma get_at_total l off n :
  0 <= off -> 0 <= n -> off + n <= Z.of_nat (length l) ->
  exists r : list A, get_at l off n = Done r /\ Z.of_nat (length r) = n.
Proof.
  intros. unfold get_at. zbool; cbn; try lia. eexists. split; [done|]. len.
Qed.

(** A store does not change what lies outside the stored range. *)
Lemma get_put_out l off src l' o n :
  put_at l off src = Done l' -> (o + n <= off \/ off + Z.of_nat (length src) <= o) ->
  get_at l' o n = get_at l o n.
Proof.
  intros H Ho. pose proof (put_at_length _ _ _ _ H) as Hl. unfold get_at. rewrite Hl.
  zbool; cbn; try done. f_equal. apply list_eq. intros k.
  destruct (decide (k < Z.to_nat n)%nat).
  - rewrite !lookup_take_lt, !lookup_drop by done.
    eapply lookup_put_at_out; [exact H | lia].
  - rewrite !lookup_take_ge by lia. done.
Qed.

(** Reading inside a stored range, or inside a block that was read. *)
Lemma get_put_in l off src l' o n :
  put_at l off src = Done l' -> 0 <= o -> o + n <= Z.of_nat (length src) ->
  get_at l' (off + o) n = get_at src o n.
Proof.
  intros H Ho Hn. pose proof (put_at_length _ _ _ _ H) as Hl.
  pose proof (proj1 (put_at_Done _ _ _ _) H) as (H0 & H1 & _). unfold get_at. rewrite Hl.
  zbool; cbn; try (done || lia). f_equal. apply list_eq. intros k.
  destruct (decide (k < Z.to_nat n)%nat).
  - rewrite !lookup_take_lt, !lookup_drop by done.
    erewrite lookup_put_at_in; [|exact H|lia]. f_equal. lia.
  - rewrite !lookup_take_ge by lia. done.
Qed.

Lemma get_at_sub l off n r o m :
  get_at l off n = Done r -> 0 <= o -> o + m <= n -> get_at r o m = get_at l (off + o) m.
Proof.
  unfold get_at. intros H Ho Hm. zbool; cbn in *; try done; injection H as <-.
  all: rewrite ?length_take, ?length_drop in *; try lia.
  f_equal. rewrite Z2Nat.inj_add, <- drop_drop by lia.
  rewrite skipn_firstn_comm, take_take. f_equal. lia.
Qed.

Lemma get_at_length l off n r : get_at l off n = Done r -> Z.of_nat (length r) = n.
Proof. unfold get_at. intros H. zbool; cbn in *; try done. injection H as <-. len. Qed.

Lemma znth_get_sub l off n r o :
  get_at l off n = Done r -> 0 <= o < n -> znth r o = znth l (off + o).
Proof.
  unfold get_at. intros H Ho. zbool; cbn in *; try done. injection H as <-.
  unfold znth. destruct (Z.leb_spec 0 o), (Z.leb_spec 0 (off + o)); try lia.
  rewrite lookup_take_lt, lookup_drop by lia. do 2 f_equal. lia.
Qed.

Lemma znth_put_out l off src l' o :
  put_at l off src = Done l' -> (o < off \/ off + Z.of_nat (length src) <= o) ->
  znth l' o = znth l o.
Proof.
  intros H Ho. unfold znth. destruct (Z.leb_spec 0 o); [|done].
  erewrite lookup_put_at_out; [done | exact H | lia].
Qed.

Lemma znth_put_in l off src l' o :
  put_at l off src = Done l' -> off <= o < off + Z.of_nat (length src) ->
  znth l' o = znth src (o - off).
Proof.
  intros H Ho. assert (0 <= off) by (apply put_at_Done in H; lia).
  unfold znth. destruct (Z.leb_spec 0 o), (Z.leb_spec 0 (o - off)); try lia.
  erewrite lookup_put_at_in; [|exact H|lia]. do 2 f_equal. lia.
Qed.
End arrays.

#[export] Hint Resolve zset_length put_at_length : cmodel.

(** * Counted loops *)

(** [for (i = i0; i < i0 + n; i++) body]. *)
Fixpoint for_z {S} (n : nat) (i : Z) (body : Z -> S -> outcome S) (s : S) : outcome S :=
  match n with
  | O => Done s
  | Datatypes.S n' => s' ← body i s; for_z n' (i + 1) body s'
  end.

(** The loop rule: an invariant kept by every iteration holds at the end,
    and the loop has a meaning. *)
Lemma for_z_inv {S} (I : Z -> S -> Prop) n i body (s : S) :
  (forall k t, i <= k < i + Z.of_nat n -> I k t ->
     exists t', body k t = Done t' /\ I (k + 1) t') ->
  I i s -> exists s', for_z n i body s = Done s' /\ I (i + Z.of_nat n) s'.
Proof.
  revert i s. induction n as [|n IH]; intros i s Hb Hi.
  - exists s. split; [done|]. by replace (i + Z.of_nat 0) with i by lia.
  - destruct (Hb i s) as (t & Ht & HI); [lia | done |].
    destruct (IH (i + 1) t) as (s' & Hs' & HI'); [ | done | ].
    { intros k u Hk. apply Hb. lia. }
    exists s'. cbn. rewrite Ht. cbn. split; [done|].
    by replace (i + Z.of_nat (Datatypes.S n)) with (i + 1 + Z.of_nat n) by lia.
Qed.

(** * Lists *)

(** The longest prefix whose elements satisfy [p], and what follows it. *)
Fixpoint span {A} (p : A -> bool) (l : list A) : list A * list A :=
  match l with
  | [] => ([], [])
  | x :: l' => if p x then let '(a, b) := span p l' in (x :: a, b) else ([], l)
  end.

Lemma span_app {A} (p : A -> bool) l : (span p l).1 ++ (span p l).2 = l.
Proof. induction l as [|x l IH]; [done|]. cbn. destruct (p x); [|done]. destruct (span p l); cbn in *. by rewrite IH. Qed.

Lemma span_all {A} (p : A -> bool) l : Forall (fun x => p x = true) (span p l).1.
Proof. induction l as [|x l IH]; cbn; [done|]. destruct (p x) eqn:E; [|done]. destruct (span p l). by constructor. Qed.

Lemma span_forall {A} (p : A -> bool) l r :
  Forall (fun x => p x = true) l -> head r = None \/ (exists y, head r = Some y /\ p y = false) ->
  span p (l ++ r) = (l, r).
Proof.
  intros Hl Hr. induction Hl as [|x l Hx Hl IH]; cbn.
  - destruct r as [|y r]; [done|]. cbn in *. destruct Hr as [Hr|(z & [= <-] & Hp)]; [done|].
    by rewrite Hp.
  - by rewrite Hx, IH.
Qed.

(** First index at or after [i] whose element satisfies [p]: the shape of every
    linear search of the sources. *)
Fixpoint find_from {A} (p : A -> bool) (i : nat) (l : list A) : option nat :=
  match l with
  | [] => None
  | x :: l' => if p x then Some i else find_from p (S i) l'
  end.

Lemma find_from_Some {A} (p : A -> bool) i l k :
  find_from p i l = Some k <->
  (i <= k)%nat /\ (exists x, l !! (k - i)%nat = Some x /\ p x = true) /\
  (forall j y, (j < k - i)%nat -> l !! j = Some y -> p y = false).
Proof.
  revert i. induction l as [|x l IH]; intros i; cbn.
  - split; [done | intros (_ & (y & Hy & _) & _)]. by rewrite lookup_nil in Hy.
  - destruct (p x) eqn:Hp; [split|rewrite IH; split].
    + intros [= ->]. rewrite Nat.sub_diag. split_and!; [lia | by exists x | lia].
    + intros (Hik & (y & Hy & Hpy) & Hmin). destruct (decide (i = k)) as [->|Hne]; [done|].
      exfalso. specialize (Hmin 0%nat x ltac:(lia) eq_refl). congruence.
    + intros (Hik & (y & Hy & Hpy) & Hmin). split_and!.
      * lia.
      * exists y. replace (k - i)%nat with (S (k - S i)) by lia. done.
      * intros [|j] z Hj Hz; cbn in Hz; [by simplify_eq|]. apply (Hmin j); [lia | done].
    + intros (Hik & (y & Hy & Hpy) & Hmin).
      assert (k <> i). { intros ->. rewrite Nat.sub_diag in Hy. cbn in Hy. simplify_eq. congruence. }
      split_and!.
      * lia.
      * exists y. replace (k - i)%nat with (S (k - S i)) in Hy by lia. done.
      * intros j z Hj Hz. apply (Hmin (S j)); [lia | done].
Qed.

Lemma find_from_None {A} (p : A -> bool) i l :
  find_from p i l = None <-> Forall (fun x => p x = false) l.
Proof.
  revert i. induction l as [|x l IH]; intros i; cbn; [by split|].
  rewrite Forall_cons_iff. destruct (p x); [naive_solver|]. rewrite IH. naive_solver.
Qed.

(** * Association lists as finite maps *)

(** Updating the value of a key of an association list updates its map. *)
Lemma list_to_map_update {K V} `{Countable K} (l : list (K * V)) i k v v' :
  NoDup l.*1 -> l !! i = Some (k, v) ->
  list_to_map (M := gmap K V) (<[i := (k, v')]> l) = <[k := v']> (list_to_map l).
Proof.
  intros Hnd Hi. pose proof (take_drop_middle l i (k, v) Hi) as Hl.
  assert (Hi' : (i < length l)%nat) by (by eapply lookup_lt_Some).
  rewrite insert_take_drop by done. rewrite <- Hl in Hnd.
  set (l1 := take i l) in *. set (l2 := drop (S i) l) in *.
  assert (Hp : forall w, l1 ++ (k, w) :: l2 ≡ₚ (k, w) :: l1 ++ l2) by (intros; by rewrite Permutation_middle).
  assert (Hnd' : forall w, NoDup ((k, w) :: l1 ++ l2).*1).
  { intros w. rewrite (Hp v) in Hnd. cbn in *. done. }
  rewrite <- Hl. rewrite (list_to_map_proper (l1 ++ (k, v') :: l2) ((k, v') :: l1 ++ l2)).
  - rewrite (list_to_map_proper (l1 ++ (k, v) :: l2) ((k, v) :: l1 ++ l2)); [|done|apply Hp].
    cbn. by rewrite insert_insert_eq.
  - rewrite (Hp v'). apply Hnd'.
  - apply Hp.
Qed.

(** ** Sums *)

Definition total (l : list Z) : Z := foldr Z.add 0 l.

Lemma total_app l l' : total (l ++ l') = total l + total l'.
Proof. unfold total. induction l; cbn in *; lia. Qed.

Lemma total_insert (l : list Z) (i : nat) x y : l !! i = Some x -> total (<[i := y]> l) = total l - x + y.
Proof.
  unfold total. revert i. induction l as [|z l IH]; intros i Hi; [by rewrite lookup_nil in Hi|].
  destruct i as [|i]; cbn in Hi.
  - injection Hi as ->. cbn. lia.
  - change (<[S i := y]> (z :: l)) with (z :: <[i := y]> l). cbn [foldr]. rewrite (IH i Hi). lia.
Qed.

Lemma total_nonneg l : Forall (fun x => 0 <= x) l -> 0 <= total l.
Proof. unfold total. induction 1; cbn in *; lia. Qed.

(** A sum over a list of records, after a change of one of them. *)
Lemma total_fmap_insert {A} (f : A -> Z) (l : list A) (i : nat) x y :
  l !! i = Some x -> total (f <$> <[i := y]> l) = total (f <$> l) - f x + f y.
Proof. intros Hi. rewrite list_fmap_insert. apply total_insert. by rewrite list_lookup_fmap, Hi. Qed.

Arguments total : simpl never.

(** How many elements satisfy [p]. *)
Definition count_of {A} (p : A -> bool) (l : list A) : Z := total ((fun x => if p x then 1 else 0) <$> l).

Lemma count_of_bounds {A} (p : A -> bool) l : 0 <= count_of p l <= Z.of_nat (length l).
Proof. unfold count_of, total. induction l as [|x l IH]; cbn [fmap list_fmap foldr length] in *; [lia|]. case_match; lia. Qed.

Lemma count_of_all {A} (p : A -> bool) l :
  count_of p l = Z.of_nat (length l) <-> Forall (fun x => p x = true) l.
Proof.
  induction l as [|x l IH]; [split; [constructor|done]|]. rewrite Forall_cons, <- IH.
  pose proof (count_of_bounds p l). unfold count_of, total in *. cbn [fmap list_fmap foldr length] in *.
  destruct (p x); split; intros; try lia; destruct_and?; done || lia.
Qed.

Arguments count_of : simpl never.

(** What follows the longest prefix does not satisfy [p]. *)
Lemma span_stop {A} (p : A -> bool) l x r : (span p l).2 = x :: r -> p x = false.
Proof.
  induction l as [|y l IH]; cbn; [done|]. destruct (p y) eqn:E; [|by intros [= <- <-]].
  destruct (span p l); cbn in *. exact IH.
Qed.
