(* ===== verification/CInt.v ===== *)
(** Machine integers of the target (LP64, little endian): wrap-around of the
    unsigned types, undefined overflow of [int], and the byte orders used by the
    socket programs ([htons]/[ntohs], [memcpy] of a 16 or 32 bit word). *)

From S2P Require Import Prelude.

Definition u8 (z : Z) : Z := z mod 2 ^ 8.
Definition u16 (z : Z) : Z := z mod 2 ^ 16.
Definition u32 (z : Z) : Z := z mod 2 ^ 32.
Definition u64 (z : Z) : Z := z mod 2 ^ 64.

Definition int_min : Z := - 2 ^ 31.
Definition int_max : Z := 2 ^ 31 - 1.
Definition in_int (z : Z) : bool := (int_min <=? z) && (z <=? int_max).

(** The value of a 32-bit pattern read back as an [int] (two's complement). *)
Definition to_int (z : Z) : Z := let w := u32 z in if w <? 2 ^ 31 then w else w - 2 ^ 32.

(** ** [int] arithmetic: no meaning when the result leaves the type *)

Definition int_result (r : Z) : outcome Z := if in_int r then Done r else Undef SignedOverflow.
Definition iadd (a b : Z) : outcome Z := int_result (a + b).
Definition isub (a b : Z) : outcome Z := int_result (a - b).
Definition imul (a b : Z) : outcome Z := int_result (a * b).
Definition idiv (a b : Z) : outcome Z :=
  if b =? 0 then Undef DivByZero else int_result (Z.quot a b).

Definition is_int (z : Z) : Prop := int_min <= z <= int_max.

Lemma in_int_spec z : in_int z = true <-> is_int z.
Proof. unfold in_int, is_int. rewrite andb_true_iff, !Z.leb_le. done. Qed.

Lemma int_result_Done r v : int_result r = Done v <-> v = r /\ is_int r.
Proof.
  unfold int_result. destruct (in_int r) eqn:E.
  - apply in_int_spec in E. naive_solver.
  - split; [done|]. intros [_ H%in_int_spec]. congruence.
Qed.

Lemma int_result_Done2 r : is_int r -> int_result r = Done r.
Proof. intros H. by apply int_result_Done. Qed.

Lemma int_result_cases r :
  (is_int r /\ int_result r = Done r) \/ (~ is_int r /\ int_result r = Undef SignedOverflow).
Proof.
  unfold int_result. destruct (in_int r) eqn:E; [left|right]; split; try done.
  - by apply in_int_spec.
  - intros H%in_int_spec. congruence.
Qed.

Ltac unfold_int := unfold is_int, int_min, int_max, u8, u16, u32, u64 in *.

Lemma u8_range z : 0 <= u8 z < 256.
Proof. apply Z.mod_pos_bound. lia. Qed.
Lemma u16_range z : 0 <= u16 z < 65536.
Proof. apply Z.mod_pos_bound. lia. Qed.
Lemma u32_range z : 0 <= u32 z < 4294967296.
Proof. apply Z.mod_pos_bound. lia. Qed.

Lemma u64_small z : 0 <= z < 2 ^ 64 -> u64 z = z.
Proof. intros. by apply Z.mod_small. Qed.

Lemma u16_small z : 0 <= z < 65536 -> u16 z = z.
Proof. intros. apply Z.mod_small. lia. Qed.

Lemma to_int_id z : is_int z -> to_int z = z.
Proof.
  intros H. unfold to_int. unfold_int. destruct (Z.ltb_spec (z mod 2 ^ 32) (2 ^ 31)).
  - destruct (Z.lt_ge_cases z 0); [|apply Z.mod_small; lia].
    exfalso. rewrite <- (Z.mod_unique z (2 ^ 32) (-1) (z + 2 ^ 32)) in H0; lia.
  - destruct (Z.lt_ge_cases z 0).
    + rewrite <- (Z.mod_unique z (2 ^ 32) (-1) (z + 2 ^ 32)); lia.
    + rewrite Z.mod_small in H0; lia.
Qed.

(** ** Byte order *)

(** [htons] and [ntohs] on a little-endian host: the two bytes change places. *)
Definition htons (v : Z) : Z := (u16 v mod 256) * 256 + u16 v / 256.
Definition ntohs (v : Z) : Z := htons v.

Lemma htons_range v : 0 <= htons v < 65536.
Proof.
  unfold htons. pose proof (u16_range v).
  pose proof (Z.mod_pos_bound (u16 v) 256 ltac:(lia)).
  pose proof (Z.div_lt_upper_bound (u16 v) 256 256 ltac:(lia) ltac:(lia)).
  pose proof (Z.div_pos (u16 v) 256). lia.
Qed.

Lemma ntohs_htons v : ntohs (htons v) = u16 v.
Proof.
  unfold ntohs. unfold htons at 1. rewrite (u16_small (htons v)) by apply htons_range.
  unfold htons. pose proof (u16_range v) as Hr. set (w := u16 v) in *.
  pose proof (Z.mod_pos_bound w 256 ltac:(lia)).
  assert (0 <= w / 256 < 256) by (split; [apply Z.div_pos | apply Z.div_lt_upper_bound]; lia).
  rewrite (Z.add_comm (w mod 256 * 256)), Z.mod_add, Z.div_add by lia.
  rewrite (Z.mod_small (w / 256)), (Z.div_small (w / 256)) by lia.
  rewrite (Z.div_mod w 256) at 3 by lia. lia.
Qed.

Lemma htons_ntohs_inj a b :
  0 <= a < 65536 -> 0 <= b < 65536 -> htons a = htons b -> a = b.
Proof.
  intros Ha Hb H. apply (f_equal ntohs) in H.
  by rewrite !ntohs_htons, !u16_small in H.
Qed.

(** The bytes of a word in memory, least significant first. *)
Definition le16 (v : Z) : list Z := [v mod 256; v / 256 mod 256].
Definition le32 (v : Z) : list Z :=
  [v mod 256; v / 256 mod 256; v / 65536 mod 256; v / 16777216 mod 256].

Definition of_le (l : list Z) : Z := foldr (fun b acc => b + 256 * acc) 0 l.

Definition is_byte (b : Z) : Prop := 0 <= b < 256.

Lemma of_le_le16 v : 0 <= v < 65536 -> of_le (le16 v) = v.
Proof.
  intros H. unfold of_le, le16. cbn [foldr].
  rewrite (Z.mod_small (v / 256)) by (split; [apply Z.div_pos | apply Z.div_lt_upper_bound]; lia).
  rewrite (Z.div_mod v 256) at 3 by lia. lia.
Qed.

Lemma le16_of_le a b : is_byte a -> is_byte b -> le16 (of_le [a; b]) = [a; b].
Proof.
  unfold is_byte, le16, of_le. intros. cbn [foldr].
  rewrite Z.mul_0_r, Z.add_0_r, (Z.mul_comm 256 b), Z.mod_add, Z.div_add by lia.
  rewrite (Z.mod_small a), (Z.div_small a) by lia. by rewrite Z.mod_small by lia.
Qed.

(** A word sent as [htons v] travels most significant byte first. *)
Lemma le16_htons v : 0 <= v < 65536 -> le16 (htons v) = [v / 256; v mod 256].
Proof.
  intros H. unfold le16, htons. rewrite u16_small by lia.
  pose proof (Z.mod_pos_bound v 256 ltac:(lia)).
  assert (0 <= v / 256 < 256) by (split; [apply Z.div_pos | apply Z.div_lt_upper_bound]; lia).
  rewrite (Z.add_comm (v mod 256 * 256)), Z.mod_add, Z.div_add by lia.
  rewrite (Z.mod_small (v / 256)), (Z.div_small (v / 256)) by lia.
  by rewrite Z.add_0_l, Z.mod_small by lia.
Qed.

Lemma of_le_le32 v : 0 <= v < 2 ^ 32 -> of_le (le32 v) = v.
Proof.
  intros H. unfold of_le, le32. cbn [foldr].
  assert (H1 : v / 65536 = v / 256 / 256) by (by rewrite Z.div_div by lia).
  assert (H2 : v / 16777216 = v / 65536 / 256) by (by rewrite Z.div_div by lia).
  pose proof (Z.div_mod v 256 ltac:(lia)). pose proof (Z.div_mod (v / 256) 256 ltac:(lia)).
  pose proof (Z.div_mod (v / 65536) 256 ltac:(lia)).
  assert (0 <= v / 16777216 < 256) by (split; [apply Z.div_pos | apply Z.div_lt_upper_bound]; lia).
  rewrite (Z.mod_small (v / 16777216)) by lia. lia.
Qed.

(** Loads and stores of words in a byte buffer. *)
Definition load16 (buf : list Z) (off : Z) : outcome Z := of_le <$> get_at buf off 2.
Definition store16 (buf : list Z) (off v : Z) : outcome (list Z) := put_at buf off (le16 v).
Definition load32 (buf : list Z) (off : Z) : outcome Z := of_le <$> get_at buf off 4.
Definition store32 (buf : list Z) (off v : Z) : outcome (list Z) := put_at buf off (le32 v).

Lemma load16_store16 buf off v buf' :
  0 <= v < 65536 -> store16 buf off v = Done buf' -> load16 buf' off = Done v.
Proof.
  intros Hv H. unfold load16. unfold store16 in H.
  pose proof (get_put_same _ _ _ _ H) as Hg. change (Z.of_nat (length (le16 v))) with 2 in Hg.
  rewrite Hg. cbn. f_equal. by apply of_le_le16.
Qed.
