(* ===== verification/CStr.v ===== *)
(** The C library as the sources use it: NUL-terminated strings in byte arrays
    ([strlen], [strcmp], [strncpy], [strncat], [strchr], [strcspn], [strtok]),
    formatted output of an [int] and the conversions of [scanf].

    A byte array is a [list Z]; a pointer into it is the suffix it points to. A
    function that would run past the end of the array yields [Undef OutOfBounds]. *)

From S2P Require Import Prelude CInt.

(** ** Literals *)

Definition byte_of (a : Ascii.ascii) : Z := Z.of_N (Ascii.N_of_ascii a).

(** The characters of a literal, without the terminating NUL. *)
Fixpoint str (s : string) : list Z :=
  match s with
  | EmptyString => []
  | String a s' => byte_of a :: str s'
  end.

(** The characters of a literal with the terminating NUL. *)
Definition lit (s : string) : list Z := str s ++ [0].

Definition nonzero (b : Z) : bool := negb (b =? 0).

(** The string held by an array: what precedes the first NUL. *)
Definition cstr (l : list Z) : list Z := (span nonzero l).1.

Definition terminated (l : list Z) : Prop := 0 ∈ l.

(** No character of the list is the NUL. *)
Definition text (s : list Z) : Prop := Forall (fun b => nonzero b = true) s.

#[export] Instance terminated_dec l : Decision (terminated l).
Proof. unfold terminated. apply _. Defined.
#[export] Instance text_dec s : Decision (text s).
Proof. unfold text. apply _. Defined.

Lemma nonzero_spec b : nonzero b = true <-> b <> 0.
Proof. unfold nonzero. by rewrite negb_true_iff, Z.eqb_neq. Qed.

Lemma span_nonzero s r : text s -> span nonzero (s ++ 0 :: r) = (s, 0 :: r).
Proof. intros H. apply span_forall; [exact H|]. right. by exists 0. Qed.

Lemma cstr_app s r : text s -> cstr (s ++ 0 :: r) = s.
Proof. intros H. unfold cstr. by rewrite span_nonzero. Qed.

Lemma cstr_text l : text (cstr l).
Proof. apply span_all. Qed.

(** A terminated array splits at its first NUL. *)
Lemma terminated_split l : terminated l <-> exists r, l = cstr l ++ 0 :: r.
Proof.
  unfold terminated, cstr. split.
  - induction l as [|b l IH]; intros H; [by apply not_elem_of_nil in H|].
    cbn. destruct (nonzero b) eqn:Hb.
    + apply elem_of_cons in H as [<-|H]; [by vm_compute in Hb|]. destruct (IH H) as [r Hr].
      exists r. destruct (span nonzero l); cbn in *. by rewrite Hr at 1.
    + apply not_true_iff_false in Hb. rewrite nonzero_spec in Hb.
      assert (b = 0) by lia. subst. by exists l.
  - intros [r ->]. apply elem_of_app. right. left.
Qed.

Lemma text_str_lit s : text (str s) -> terminated (lit s) /\ cstr (lit s) = str s.
Proof.
  intros H. unfold lit. split; [apply elem_of_app; right; left | by apply cstr_app].
Qed.

(** ** Length and comparison *)

Fixpoint strlen (l : list Z) : outcome Z :=
  match l with
  | [] => Undef OutOfBounds
  | b :: l' => if b =? 0 then Done 0 else n ← strlen l'; Done (n + 1)
  end.

(** Difference of the first unequal bytes, 0 for equal strings. *)
Fixpoint strcmp (a b : list Z) : outcome Z :=
  match a, b with
  | x :: a', y :: b' =>
      if x =? y then if x =? 0 then Done 0 else strcmp a' b' else Done (x - y)
  | _, _ => Undef OutOfBounds
  end.

Fixpoint strncmp (a b : list Z) (n : nat) {struct n} : outcome Z :=
  match n with
  | O => Done 0
  | S n' =>
      match a, b with
      | x :: a', y :: b' =>
          if x =? y then if x =? 0 then Done 0 else strncmp a' b' n' else Done (x - y)
      | _, _ => Undef OutOfBounds
      end
  end.

Lemma strlen_app s r : text s -> strlen (s ++ 0 :: r) = Done (Z.of_nat (length s)).
Proof.
  induction 1 as [|b s Hb Hs IH]; [done|]. cbn [app strlen length].
  apply nonzero_spec in Hb. destruct (Z.eqb_spec b 0); [done|].
  rewrite IH. obind. f_equal. lia.
Qed.

Lemma strlen_terminated l : terminated l -> strlen l = Done (Z.of_nat (length (cstr l))).
Proof. intros [r ->]%terminated_split. rewrite strlen_app, cstr_app; auto using cstr_text. Qed.

Lemma strcmp_app s t r1 r2 : text s -> text t ->
  exists d, strcmp (s ++ 0 :: r1) (t ++ 0 :: r2) = Done d /\ (d = 0 <-> s = t).
Proof.
  intros Hs Ht. revert t Ht. induction Hs as [|x s Hx Hs IH]; intros t Ht.
  - destruct Ht as [|y t Hy Ht]; [by exists 0|]. cbn [app strcmp].
    apply nonzero_spec in Hy. destruct (Z.eqb_spec 0 y); [lia|].
    exists (0 - y). split; [done|]. split; [lia | done].
  - apply nonzero_spec in Hx. destruct Ht as [|y t Hy Ht]; cbn [app strcmp].
    + destruct (Z.eqb_spec x 0); [done|]. exists (x - 0). split; [done|]. split; [lia | done].
    + destruct (Z.eqb_spec x y) as [->|Hne].
      * destruct (Z.eqb_spec y 0); [done|]. destruct (IH t Ht) as (d & -> & Hd).
        exists d. split; [done|]. rewrite Hd. naive_solver.
      * exists (x - y). split; [done|]. split; [lia|]. naive_solver.
Qed.

(** [strcmp] decides equality of the strings held by two terminated arrays. *)
Lemma strcmp_terminated a b : terminated a -> terminated b ->
  exists d, strcmp a b = Done d /\ (d = 0 <-> cstr a = cstr b).
Proof.
  intros [r1 ->]%terminated_split [r2 ->]%terminated_split.
  rewrite !cstr_app by apply cstr_text. apply strcmp_app; apply cstr_text.
Qed.

(** [strcmp(a, b) == 0]. *)
Definition streq (a b : list Z) : outcome bool := d ← strcmp a b; Done (d =? 0).

Lemma streq_terminated a b : terminated a -> terminated b ->
  streq a b = Done (bool_decide (cstr a = cstr b)).
Proof.
  intros Ha Hb. destruct (strcmp_terminated a b Ha Hb) as (d & Hd & Heq).
  unfold streq. rewrite Hd. obind. f_equal.
  destruct (Z.eqb_spec d 0); symmetry; [apply bool_decide_eq_true | apply bool_decide_eq_false]; tauto.
Qed.

(** ** Copying *)

(** The [n] bytes [strncpy] stores: the string, padded with NULs, cut at [n]. *)
Fixpoint strncpy_bytes (src : list Z) (n : nat) : outcome (list Z) :=
  match n with
  | O => Done []
  | S n' =>
      match src with
      | [] => Undef OutOfBounds
      | b :: src' =>
          if b =? 0 then Done (replicate n 0)
          else r ← strncpy_bytes src' n'; Done (b :: r)
      end
  end.

Definition strncpy (dst src : list Z) (n : Z) : outcome (list Z) :=
  b ← strncpy_bytes src (Z.to_nat n); put_at dst 0 b.

(** [strcpy]: the string and its NUL. *)
Definition strcpy (dst : list Z) (off : Z) (src : list Z) : outcome (list Z) :=
  n ← strlen src; put_at dst off (take (Z.to_nat n) src ++ [0]).

(** [strncat(dst, src, n)]: at most [n] characters of [src] and a NUL, after the
    string in [dst]. *)
Definition strncat (dst src : list Z) (n : Z) : outcome (list Z) :=
  d ← strlen dst; s ← strlen src;
  put_at dst d (take (Z.to_nat (Z.min n s)) src ++ [0]).

Lemma strncpy_bytes_app s r n : text s ->
  strncpy_bytes (s ++ 0 :: r) n
    = Done (take n s ++ replicate (n - length s) 0).
Proof.
  intros Hs. revert n. induction Hs as [|b s Hb Hs IH]; intros [|n]; cbn [app strncpy_bytes]; [done | done | done |].
  apply nonzero_spec in Hb. destruct (Z.eqb_spec b 0); [done|]. rewrite IH. done.
Qed.

(** The idiom [strncpy(d, s, sizeof d - 1); d[sizeof d - 1] = 0]: whatever was in
    the array, it then holds the string cut to [sizeof d - 1] characters. *)
Definition strncpy_z (dst src : list Z) : outcome (list Z) :=
  let n := Z.of_nat (length dst) in
  d ← strncpy dst src (n - 1); zset d (n - 1) 0.

Lemma strncpy_fill dst s r n : text s -> (n <= length dst)%nat ->
  strncpy dst (s ++ 0 :: r) (Z.of_nat n)
    = Done (take n s ++ replicate (n - length s) 0 ++ drop n dst).
Proof.
  intros Hs Hn. unfold strncpy. rewrite Nat2Z.id, strncpy_bytes_app by done.
  unfold mbind, outcome_bind. rewrite put_at_ok; [|lia|len].
  assert (Hl : length (take n s ++ replicate (n - length s) 0) = n) by len.
  change (Z.to_nat 0) with 0%nat. rewrite Hl. cbn. by rewrite <- app_assoc.
Qed.

Lemma strncpy_z_spec dst s r : text s -> (0 < length dst)%nat ->
  exists d, strncpy_z dst (s ++ 0 :: r) = Done d /\ length d = length dst /\
    terminated d /\ cstr d = take (length dst - 1) s.
Proof.
  intros Hs Hd. unfold strncpy_z.
  replace (Z.of_nat (length dst) - 1) with (Z.of_nat (length dst - 1)) by lia.
  rewrite strncpy_fill by (done || lia). cbn [mbind outcome_bind].
  set (n := (length dst - 1)%nat).
  assert (Hdrop : exists x, drop n dst = [x]).
  { destruct (drop n dst) as [|x [|y l]] eqn:E; [| by exists x |];
      apply (f_equal length) in E; rewrite length_drop in E; cbn in E; lia. }
  destruct Hdrop as [x Hx]. rewrite Hx, app_assoc.
  assert (Hl : length (take n s ++ replicate (n - length s) 0) = n) by len.
  rewrite zset_ok by (rewrite length_app, Hl; cbn [length]; lia).
  rewrite Nat2Z.id. eexists. split; [done|].
  rewrite insert_app_r_alt by lia. rewrite Hl, Nat.sub_diag. cbn.
  split_and!.
  - rewrite length_app, Hl. cbn. lia.
  - apply elem_of_app. right. left.
  - assert (text (take n s)) by (by apply Forall_take).
    destruct (n - length s)%nat as [|k].
    + rewrite app_nil_r. by apply cstr_app.
    + cbn. rewrite <- app_assoc. by apply cstr_app.
Qed.

(** ** Searching *)

(** [strchr(l, c)]: the index of the first [c], the NUL being searched too. *)
Fixpoint strchr_from (i : Z) (l : list Z) (c : Z) : outcome (option Z) :=
  match l with
  | [] => Undef OutOfBounds
  | b :: l' =>
      if b =? c then Done (Some i)
      else if b =? 0 then Done None else strchr_from (i + 1) l' c
  end.
Definition strchr := strchr_from 0.

(** [strrchr(l, c)]: the index of the last one. *)
Fixpoint strrchr_from (i : Z) (last : option Z) (l : list Z) (c : Z) : outcome (option Z) :=
  match l with
  | [] => Undef OutOfBounds
  | b :: l' =>
      let last' := if b =? c then Some i else last in
      if b =? 0 then Done last' else strrchr_from (i + 1) last' l' c
  end.
Definition strrchr := strrchr_from 0 None.

(** [strcspn(l, s)] for a one-character reject string. *)
Fixpoint strcspn (l : list Z) (c : Z) : outcome Z :=
  match l with
  | [] => Undef OutOfBounds
  | b :: l' =>
      if (b =? 0) || (b =? c) then Done 0 else n ← strcspn l' c; Done (n + 1)
  end.

Definition newline : Z := 10.
Definition space : Z := 32.

(** [s[strcspn(s, "\n")] = 0]. *)
Definition chomp (l : list Z) : outcome (list Z) := n ← strcspn l newline; zset l n 0.

Lemma strcspn_app s c x r : Forall (fun b => nonzero b && negb (b =? c) = true) s ->
  x = 0 \/ x = c -> strcspn (s ++ x :: r) c = Done (Z.of_nat (length s)).
Proof.
  intros Hs Hx. induction Hs as [|b s Hb Hs IH]; cbn [app strcspn length].
  - replace ((x =? 0) || (x =? c)) with true; [done|].
    destruct Hx as [->| ->]; [done|]. by rewrite Z.eqb_refl, orb_true_r.
  - apply andb_true_iff in Hb as [Hb1 Hb2]. apply nonzero_spec in Hb1.
    apply negb_true_iff in Hb2. destruct (Z.eqb_spec b 0); [done|]. rewrite Hb2. cbn.
    rewrite IH. cbn. f_equal. lia.
Qed.

Definition line_char (b : Z) : bool := nonzero b && negb (b =? newline).

(** [chomp] cuts the line at its newline; without one it changes nothing visible. *)
Lemma chomp_spec s x r : Forall (fun b => line_char b = true) s -> x = 0 \/ x = newline ->
  chomp (s ++ x :: r) = Done (s ++ 0 :: r).
Proof.
  intros Hs Hx. unfold chomp. rewrite strcspn_app by done. cbn [mbind outcome_bind].
  rewrite zset_ok by len. rewrite Nat2Z.id. f_equal.
  rewrite insert_app_r_alt by lia. by rewrite Nat.sub_diag.
Qed.

Lemma line_text s : Forall (fun b => line_char b = true) s -> text s.
Proof. intros H. eapply Forall_impl; [exact H|]. cbn. intros b Hb. by apply andb_true_iff in Hb as [??]. Qed.

(** The line a read delivers: its bytes up to the newline. *)
Definition line_of (data : list Z) : list Z := (span line_char data).1.

(** Stored with its NUL in an array of [n] bytes and chomped, it is the string there. *)
Lemma line_of_read n input data : length input = n -> (length data < n)%nat ->
  exists input' r, put_at input 0 (data ++ [0]) = Done input' /\ length input' = n /\
    chomp input' = Done (line_of data ++ 0 :: r) /\ length (line_of data ++ 0 :: r) = n /\ text (line_of data).
Proof.
  intros Hi Hd. rewrite put_at_ok by len. change (Z.to_nat 0) with 0%nat. rewrite take_0, app_nil_l.
  set (tail := drop _ _). pose proof (span_app line_char data) as Happ. pose proof (span_all line_char data) as Hall.
  pose proof (span_stop line_char data) as Hstop. fold (line_of data) in Happ, Hall.
  assert (Hx : exists x q, ((line_of data ++ (span line_char data).2) ++ [0]) ++ tail = line_of data ++ x :: q /\
    (x = 0 \/ x = newline)).
  { destruct ((span line_char data).2) as [|x q] eqn:E.
    - exists 0, tail. rewrite app_nil_r, <- app_assoc. split; [done|by left].
    - exists x, (q ++ [0] ++ tail). rewrite <- !app_assoc. split; [done|]. pose proof (Hstop x q eq_refl) as Hc.
      unfold line_char in Hc. apply andb_false_iff in Hc as [Hc|Hc].
      + left. unfold nonzero in Hc. apply negb_false_iff, Z.eqb_eq in Hc. done.
      + right. by apply negb_false_iff, Z.eqb_eq in Hc. }
  rewrite Happ in Hx. destruct Hx as (x & q & E & Hx). rewrite E.
  assert (Hlen : length (line_of data ++ x :: q) = n) by (rewrite <- E; subst tail; len).
  exists (line_of data ++ x :: q), q. split_and!; [done|done|by apply chomp_spec| |by apply line_text].
  rewrite length_app in *. done.
Qed.

(** ** [strtok] with a one-character delimiter *)

(** One call: the token found in the remaining text and what the next call scans. *)
Definition strtok_next (d : Z) (s : list Z) : option (list Z * list Z) :=
  match (span (Z.eqb d) s).2 with
  | [] => None
  | s1 => let '(tok, rest) := span (fun b => negb (d =? b)) s1 in Some (tok, drop 1 rest)
  end.

Lemma span_shorter {A} (p : A -> bool) l : (length (span p l).2 <= length l)%nat.
Proof. rewrite <- (span_app p l) at 2. rewrite length_app. lia. Qed.

(** A token is not empty, holds no delimiter, and the next call has less to scan. *)
Lemma strtok_next_Some d s tok rest : strtok_next d s = Some (tok, rest) ->
  tok <> [] /\ Forall (fun b => b <> d) tok /\ (length rest < length s)%nat.
Proof.
  unfold strtok_next. pose proof (span_shorter (Z.eqb d) s) as Hlen.
  assert (Hhd : forall b l, (span (Z.eqb d) s).2 = b :: l -> b <> d).
  { clear Hlen. induction s as [|x s IH]; cbn; [done|]. destruct (Z.eqb_spec d x).
    - destruct (span (Z.eqb d) s) as [p q]; cbn in *. intros b l H. by apply (IH b l).
    - intros b l [= <- <-]. done. }
  destruct ((span (Z.eqb d) s).2) as [|b l] eqn:E; [done|]. specialize (Hhd b l eq_refl).
  pose proof (span_all (fun b => negb (d =? b)) (b :: l)) as Hall.
  pose proof (span_app (fun b => negb (d =? b)) (b :: l)) as Happ.
  destruct (span (fun b => negb (d =? b)) (b :: l)) as [t r] eqn:E2. cbn [fst snd] in *.
  intros [= <- <-]. split_and!.
  - intros ->. cbn in E2. destruct (Z.eqb_spec d b); [done|].
    cbn in E2. by destruct (span (fun b => negb (d =? b)) l).
  - eapply Forall_impl; [exact Hall|]. cbn. intros x Hx.
    apply negb_true_iff, Z.eqb_neq in Hx. done.
  - apply (f_equal length) in Happ. rewrite length_app in Happ. rewrite length_drop.
    destruct t; cbn [length] in *; [|lia].
    cbn in E2. destruct (Z.eqb_spec d b); [done|]. cbn in E2.
    by destruct (span (fun b => negb (d =? b)) l).
Qed.

(** ** Strings handed to [printf("%s")] and to system calls *)

Definition chars (l : list Z) : outcome (list Z) := n ← strlen l; Done (take (Z.to_nat n) l).

Lemma chars_app s r : text s -> chars (s ++ 0 :: r) = Done s.
Proof.
  intros H. unfold chars. rewrite strlen_app by done. cbn [mbind outcome_bind].
  by rewrite Nat2Z.id, take_app_length.
Qed.

Lemma chars_terminated l : terminated l -> chars l = Done (cstr l).
Proof. intros [r ->]%terminated_split. rewrite chars_app, cstr_app by apply cstr_text. done. Qed.

(** Without a NUL byte they read past the array. *)
Lemma strlen_undef l u : strlen l = Undef u -> u = OutOfBounds.
Proof.
  induction l as [|b l IH]; cbn; [by intros [= <-]|]. destruct (b =? 0); [done|].
  destruct (strlen l); cbn; [done|]. intros [= ->]. by apply IH.
Qed.

Lemma chars_undef l u : chars l = Undef u -> u = OutOfBounds.
Proof.
  unfold chars. destruct (strlen l) eqn:E; [done|]. cbn. intros [= ->]. by apply strlen_undef in E.
Qed.

(** A field filled with [strncpy(dst, src, sizeof dst - 1)] over zeros. *)
Lemma strncpy_zeros n m s r : text s -> (length s < n)%nat -> m = Z.of_nat n - 1 ->
  strncpy (replicate n 0) (s ++ 0 :: r) m = Done (s ++ replicate (n - length s) 0).
Proof.
  intros Hs Hn ->. replace (Z.of_nat n - 1) with (Z.of_nat (n - 1)) by lia.
  rewrite strncpy_fill by (done || len). rewrite take_ge by lia. do 2 f_equal.
  rewrite drop_replicate, <- replicate_add. f_equal. lia.
Qed.

Lemma replicate_S_zero n s : (length s < n)%nat ->
  s ++ replicate (n - length s) 0 = s ++ 0 :: replicate (n - length s - 1) 0.
Proof. intros H. f_equal. by destruct (n - length s)%nat eqn:E; [lia|]; cbn; rewrite Nat.sub_0_r. Qed.

(** [strncat] on strings: what fits is appended, and a copy that does not fit leaves
    the array. *)
Lemma strncat_ok (d r s q : list Z) n : text d -> text s -> 0 <= n ->
  let k := Z.to_nat (Z.min n (Z.of_nat (length s))) in
  (length d + k < length (d ++ 0%Z :: r))%nat ->
  exists r', strncat (d ++ 0 :: r) (s ++ 0 :: q) n = Done ((d ++ take k s) ++ 0 :: r') /\
    length ((d ++ take k s) ++ 0 :: r') = length (d ++ 0 :: r).
Proof.
  intros Hd Hs Hn k Hk. unfold strncat. rewrite !strlen_app by done. cbn [mbind outcome_bind].
  fold k. assert (Hkl : (k <= length s)%nat) by lia.
  rewrite (take_app_le s) by lia.
  assert (Hl : length (take k s ++ [0]) = S k) by len.
  rewrite put_at_ok by (rewrite ?Hl; lia). rewrite Hl, Nat2Z.id, take_app_length.
  exists (drop (length d + S k) (d ++ 0 :: r)). split; [by rewrite <- !app_assoc|].
  rewrite !length_app, length_take, length_cons, length_drop, length_app in *. cbn [length] in *. lia.
Qed.

Lemma strncat_oob (d r s q : list Z) n : text d -> text s ->
  (length (d ++ 0%Z :: r) <= length d + Z.to_nat (Z.min n (Z.of_nat (length s))))%nat ->
  strncat (d ++ 0 :: r) (s ++ 0 :: q) n = Undef OutOfBounds.
Proof.
  intros Hd Hs Hk. unfold strncat. rewrite !strlen_app by done. cbn [mbind outcome_bind].
  rewrite (take_app_le s) by lia. unfold put_at. rewrite length_app, length_take. cbn [length] in *.
  zbool; cbn; done || lia.
Qed.

(** ** Comparison without case *)

Definition tolower (b : Z) : Z := if (65 <=? b) && (b <=? 90) then b + 32 else b.

Fixpoint strcasecmp (a b : list Z) : outcome Z :=
  match a, b with
  | x :: a', y :: b' =>
      if tolower x =? tolower y then if x =? 0 then Done 0 else strcasecmp a' b'
      else Done (tolower x - tolower y)
  | _, _ => Undef OutOfBounds
  end.

(** The same on texts: a text is followed by its NUL. *)
Fixpoint casecmp (s t : list Z) : Z :=
  match s, t with
  | [], [] => 0
  | [], y :: _ => 0 - tolower y
  | x :: _, [] => tolower x
  | x :: s', y :: t' => if tolower x =? tolower y then casecmp s' t' else tolower x - tolower y
  end.

Lemma tolower_nonzero b : is_byte b -> b <> 0 -> 0 < tolower b.
Proof. unfold is_byte, tolower. intros. destruct (Z.leb_spec 65 b), (Z.leb_spec b 90); cbn; lia. Qed.

Lemma strcasecmp_app s t r1 r2 : text s -> text t -> Forall is_byte s -> Forall is_byte t ->
  strcasecmp (s ++ 0 :: r1) (t ++ 0 :: r2) = Done (casecmp s t).
Proof.
  intros Hs Ht Bs Bt. revert t Ht Bt. induction Hs as [|x s Hx Hs IH]; intros t Ht Bt.
  - destruct Ht as [|y t Hy Ht]; [done|]. apply nonzero_spec in Hy. apply Forall_cons in Bt as [Bt _].
    pose proof (tolower_nonzero y Bt Hy). cbn [app strcasecmp casecmp]. change (tolower 0) with 0.
    destruct (Z.eqb_spec 0 (tolower y)); [lia|]. f_equal.
  - apply nonzero_spec in Hx. apply Forall_cons in Bs as [Bx Bs]. pose proof (tolower_nonzero x Bx Hx).
    destruct Ht as [|y t Hy Ht]; cbn [app strcasecmp casecmp].
    + change (tolower 0) with 0. destruct (Z.eqb_spec (tolower x) 0); [lia|]. f_equal. lia.
    + apply Forall_cons in Bt as [By Bt]. destruct (Z.eqb_spec (tolower x) (tolower y)); [|done].
      destruct (Z.eqb_spec x 0); [done|]. by apply IH.
Qed.

Lemma casecmp_flip s t : casecmp t s = - casecmp s t.
Proof.
  revert t. induction s as [|x s IH]; intros [|y t]; cbn; try lia.
  rewrite (Z.eqb_sym (tolower y)). destruct (Z.eqb_spec (tolower x) (tolower y)); [apply IH|lia].
Qed.

Lemma casecmp_trans s t u : text s -> text t -> text u -> Forall is_byte s -> Forall is_byte t -> Forall is_byte u ->
  casecmp s t <= 0 -> casecmp t u <= 0 -> casecmp s u <= 0.
Proof.
  intros Hs. revert t u. induction Hs as [|x s Hx Hs IH]; intros t u Ht Hu Bs Bt Bu.
  - destruct Hu as [|z u Hz Hu]; cbn; [lia|]. apply nonzero_spec in Hz. apply Forall_cons in Bu as [Bz _].
    pose proof (tolower_nonzero z Bz Hz). lia.
  - apply nonzero_spec in Hx. apply Forall_cons in Bs as [Bx Bs]. pose proof (tolower_nonzero x Bx Hx).
    destruct Ht as [|y t Hy Ht]; cbn; [lia|]. apply nonzero_spec in Hy. apply Forall_cons in Bt as [By Bt].
    pose proof (tolower_nonzero y By Hy).
    destruct Hu as [|z u Hz Hu]; cbn; [lia|]. apply Forall_cons in Bu as [Bz Bu].
    destruct (Z.eqb_spec (tolower x) (tolower y)), (Z.eqb_spec (tolower y) (tolower z)),
      (Z.eqb_spec (tolower x) (tolower z)); try lia. by apply IH.
Qed.
