(* ===== verification/Stdio.v ===== *)
(** Formatted input and output of the sources: [printf("%d")] and the [scanf]
    conversions, on streams of bytes.

    A conversion either matches and yields a value, fails and leaves the object
    untouched, or meets the end of the stream; a number that does not fit its
    object has no defined meaning. *)

From S2P Require Import Prelude CInt CStr.

(** ** Decimal output *)

Fixpoint digits (fuel : nat) (n : Z) : list Z :=
  match fuel with
  | O => []
  | S f => if n <? 10 then [48 + n] else digits f (n / 10) ++ [48 + n mod 10]
  end.

(** [printf("%d", z)]: ten digits are enough for an [int]. *)
Definition print_d (z : Z) : list Z := if z <? 0 then 45 :: digits 10 (- z) else digits 10 z.

(** ** Character classes *)

Definition isdigit (b : Z) : bool := (48 <=? b) && (b <=? 57).
Definition isspace (b : Z) : bool := (b =? 32) || ((9 <=? b) && (b <=? 13)).

Definition value (ds : list Z) : Z := fold_left (fun acc d => acc * 10 + (d - 48)) ds 0.

(** ** Conversions *)

Inductive scan (A : Type) :=
  | Matched (a : A) (rest : list Z)
  | NoMatch (rest : list Z)
  | AtEof.
Arguments Matched {A} a rest.
Arguments NoMatch {A} rest.
Arguments AtEof {A}.

Definition skip_ws (s : list Z) : list Z := (span isspace s).2.

(** The optional sign of a number. *)
Definition sign (s : list Z) : bool * list Z :=
  match s with
  | b :: s' => if b =? 45 then (true, s') else if b =? 43 then (false, s') else (false, s)
  | [] => (false, s)
  end.

(** [scanf("%d", &i)]. *)
Definition scanf_d (s : list Z) : outcome (scan Z) :=
  match skip_ws s with
  | [] => Done AtEof
  | s1 =>
      let '(neg, s2) := sign s1 in
      let '(ds, rest) := span isdigit s2 in
      match ds with
      | [] => Done (NoMatch s2)
      | _ =>
          let v := if neg then - value ds else value ds in
          if in_int v then Done (Matched v rest) else Undef Unrepresentable
      end
  end.

(** The token of [%s] and [%<w>s]. *)
Definition scan_token (width : option nat) (s : list Z) : scan (list Z) :=
  match skip_ws s with
  | [] => AtEof
  | s1 =>
      let tok := (span (fun b => negb (isspace b)) s1).1 in
      let tok' := match width with Some w => take w tok | None => tok end in
      Matched tok' (drop (length tok') s1)
  end.

(** [scanf("%s", a)] and [scanf("%9s", a)] into the array [a]: the token and a NUL. *)
Definition scanf_s (width : option nat) (a s : list Z) : outcome (scan (list Z)) :=
  match scan_token width s with
  | Matched tok rest => a' ← put_at a 0 (tok ++ [0]); Done (Matched a' rest)
  | NoMatch rest => Done (NoMatch rest)
  | AtEof => Done AtEof
  end.

(** [getchar()], its value ignored. *)
Definition getchar (s : list Z) : list Z := drop 1 s.

(** ** Lemmas *)

Lemma value_app ds d : value (ds ++ [d]) = value ds * 10 + (d - 48).
Proof. unfold value. by rewrite fold_left_app. Qed.

Lemma digits_spec f n : 0 <= n < 10 ^ Z.of_nat (S f) ->
  value (digits (S f) n) = n /\ Forall (fun b => isdigit b = true) (digits (S f) n) /\
  digits (S f) n <> [].
Proof.
  revert n. induction f as [|f IH]; intros n Hn.
  - cbn. change (10 ^ Z.of_nat 1) with 10 in Hn. destruct (Z.ltb_spec n 10); [|lia].
    unfold value. cbn. split_and!; [lia | | done]. constructor; [|done].
    unfold isdigit. zbool; done || lia.
  - cbn [digits]. destruct (Z.ltb_spec n 10).
    + unfold value. cbn. split_and!; [lia | | done]. constructor; [|done].
      unfold isdigit. zbool; done || lia.
    + replace (Z.of_nat (S (S f))) with (1 + Z.of_nat (S f)) in Hn by lia.
      rewrite Z.pow_add_r in Hn by lia. change (10 ^ 1) with 10 in Hn.
      pose proof (Z.mod_pos_bound n 10 ltac:(lia)). pose proof (Z.div_mod n 10 ltac:(lia)).
      destruct (IH (n / 10)) as (Hv & Hd & Hne).
      { split; [apply Z.div_pos; lia|]. apply Z.div_lt_upper_bound; lia. }
      change (if n / 10 <? 10 then [48 + n / 10]
              else digits f (n / 10 / 10) ++ [48 + (n / 10) mod 10])
        with (digits (S f) (n / 10)).
      rewrite value_app, Hv. split_and!; [lia | | by destruct (digits (S f) (n / 10))].
      apply Forall_app. split; [done|]. constructor; [|done].
      unfold isdigit. zbool; done || lia.
Qed.

Lemma isdigit_not_space b : isdigit b = true -> isspace b = false.
Proof. unfold isdigit, isspace. zbool; cbn; done || lia. Qed.

(** Reading back what [%d] printed yields the number and stops where it ended. *)
Lemma scanf_print_d z rest : is_int z ->
  (head rest = None \/ exists b, head rest = Some b /\ isdigit b = false) ->
  scanf_d (print_d z ++ rest) = Done (Matched z rest).
Proof.
  intros Hz Hr. assert (Hi : in_int z = true) by (by apply in_int_spec).
  unfold print_d, scanf_d. unfold_int. destruct (Z.ltb_spec z 0).
  - destruct (digits_spec 9 (- z)) as (Hv & Hd & Hne); [lia|].
    cbn [app]. unfold skip_ws. cbn [span]. change (isspace 45) with false. cbn [snd].
    unfold sign. cbn [Z.eqb Pos.eqb]. rewrite span_forall by done.
    destruct (digits 10 (- z)) eqn:E; [done|]. rewrite <- E in *. rewrite Hv, Z.opp_involutive, Hi. done.
  - destruct (digits_spec 9 z) as (Hv & Hd & Hne); [lia|].
    destruct (digits 10 z) as [|d ds] eqn:E; [done|]. rewrite <- E in *.
    assert (Hdd : isdigit d = true) by (rewrite E in Hd; by apply Forall_cons_iff in Hd as [??]).
    assert (Hskip : skip_ws (digits 10 z ++ rest) = digits 10 z ++ rest).
    { unfold skip_ws. rewrite E. cbn. by rewrite (isdigit_not_space d Hdd). }
    rewrite Hskip, E. cbn [app]. rewrite (app_comm_cons ds rest d), <- E.
    assert (Hsign : sign (digits 10 z ++ rest) = (false, digits 10 z ++ rest)).
    { rewrite E. cbn. unfold isdigit in Hdd. zbool; cbn; done || lia. }
    rewrite Hsign, span_forall by done. rewrite E at 1. rewrite Hv, Hi. done.
Qed.

(** A token of at most [n - 1] characters fits an array of [n] bytes. *)
Lemma scanf_s_fits width a s :
  match scan_token width s with
  | Matched tok _ => (length tok < length a)%nat
  | _ => True
  end -> defined (scanf_s width a s).
Proof.
  unfold scanf_s, defined. destruct (scan_token width s) as [tok rest| |]; intros H; try by eexists.
  rewrite put_at_ok by len. by eexists.
Qed.

Lemma scan_token_width w s tok rest :
  scan_token (Some w) s = Matched tok rest -> (length tok <= w)%nat.
Proof.
  unfold scan_token. destruct (skip_ws s); [done|]. intros [= <- <-].
  rewrite length_take. lia.
Qed.

(** [%9s] into [char a[10]] never leaves the array. *)
Lemma scanf_s_width_defined w a s : (w < length a)%nat -> defined (scanf_s (Some w) a s).
Proof.
  intros Hw. apply scanf_s_fits. destruct (scan_token (Some w) s) eqn:E; [|done..].
  apply scan_token_width in E. lia.
Qed.

(** ** The shape of a printed number *)

Lemma digits_nonzero f n : 0 <= n -> Forall (fun b => nonzero b = true) (digits f n).
Proof.
  revert n. induction f as [|f IH]; intros n Hn; cbn; [constructor|].
  destruct (Z.ltb_spec n 10).
  - constructor; [|constructor]. apply nonzero_spec. lia.
  - apply Forall_app. split; [apply IH, Z.div_pos; lia|]. constructor; [|constructor].
    apply nonzero_spec. pose proof (Z.mod_pos_bound n 10). lia.
Qed.

Lemma print_d_text z : text (print_d z).
Proof.
  unfold print_d, text. destruct (Z.ltb_spec z 0).
  - constructor; [done|]. apply digits_nonzero. lia.
  - apply digits_nonzero. lia.
Qed.

Lemma digits_length f n : (length (digits f n) <= f)%nat.
Proof.
  revert n. induction f as [|f IH]; intros n; cbn; [lia|]. destruct (n <? 10); cbn; [lia|].
  rewrite length_app. specialize (IH (n / 10)). cbn. lia.
Qed.

Lemma print_d_length z : (length (print_d z) <= 11)%nat.
Proof.
  unfold print_d. pose proof (digits_length 10 z). pose proof (digits_length 10 (- z)).
  destruct (z <? 0); cbn [length]; lia.
Qed.
