(* ===== verification/Sys.v ===== *)
(** Programs that talk to the operating system.

    A [prog] is the tree of the system calls a program makes: each call continues
    with the reply of the kernel. The kernel is not part of the sources, so a reply
    is arbitrary among those its manual page allows ([reply_ok]); a theorem about a
    program quantifies over all of them. [exec] is the set of runs, [run] replays a
    program against a given list of replies, and [wp] is the weakest precondition
    that proves a property of every run. The [world] records which descriptors are
    open and which named objects (socket files, queues, segments) the process has
    created. A loop that never ends is observed for an arbitrary number of rounds. *)

From Stdlib Require Import FunctionalExtensionality.
From stdpp Require Import relations.
From S2P Require Import Prelude CInt CStr.

(** * Calls and replies *)

Inductive call :=
  (* sockets *)
  | c_socket (domain type protocol : Z)
  | c_setsockopt (fd level opt : Z)
  | c_bind (fd : Z) (name : option (list Z))      (** the path of an AF_LOCAL address *)
  | c_listen (fd backlog : Z)
  | c_accept (fd : Z)
  | c_connect (fd : Z)
  | c_send (fd : Z) (data : list Z)
  | c_sendto (fd : Z) (data : list Z)
  | c_recv (fd n : Z)
  | c_recvfrom (fd n : Z)
  | c_inet_pton (addr : string)
  | c_if_nametoindex (name : list Z)
  (* files and pipes *)
  | c_open (path : list Z)
  | c_read (fd n : Z)
  | c_write (fd : Z) (data : list Z)
  | c_close (fd : Z)
  | c_unlink (name : list Z)
  | c_mkfifo (name : list Z)
  | c_pipe
  | c_dup2 (fd target : Z)
  (* pairs of sockets and passed descriptors *)
  | c_socketpair
  | c_sendmsg (fd payload : Z)
  | c_recvmsg (fd : Z)
  (* epoll *)
  | c_epoll_create
  | c_epoll_add (epfd fd : Z)
  | c_epoll_wait (epfd max : Z)
  (* POSIX message queues and shared memory *)
  | c_mq_open (name : list Z) (create : bool)
  | c_mq_send (mq : Z) (data : list Z)
  | c_mq_receive (mq n : Z)
  | c_mq_close (mq : Z)
  | c_mq_unlink (name : list Z)
  | c_shm_open (name : list Z) (create : bool)
  | c_ftruncate (fd n : Z)
  | c_mmap (fd n : Z)
  | c_munmap (n : Z)
  | c_shm_unlink (name : list Z)
  (* a byte of the memory that is shared *)
  | c_load (i : Z)
  | c_store (i v : Z)
  (* a critical section on a shared object, as a whole *)
  | c_section (name : string) (args : list (list Z))
  (* System V IPC *)
  | c_ftok
  | c_msgget (create : bool)
  | c_msgsnd (id mtype : Z) (data : list Z)
  | c_msgrcv (id n mtype : Z)
  | c_msgctl_rmid (id : Z)
  | c_shmget (create : bool)
  | c_shmat (id : Z)
  | c_shmdt
  | c_shmctl_rmid (id : Z)
  (* processes, threads, signals, time *)
  | c_fork
  | c_wait
  | c_waitpid (pid : Z)
  | c_execvp (args : list (list Z))
  | c_thread_create
  | c_spawn (arg v : Z)                          (** [pthread_create], for a cell that holds [v] *)
  | c_malloc (n : Z)                             (** 0 when there is no memory *)
  | c_free (p : Z)
  | c_thread_cancel
  | c_thread_join
  | c_sigaction (signo : Z)
  | c_sigprocmask (signo : Z)
  | c_sigwait
  | c_pause
  | c_kill (pid signo : Z)
  | c_getpid
  | c_getppid
  | c_sleep (n : Z)
  | c_time
  (* the terminal *)
  | c_fcntl (fd : Z)
  | c_epoll_mod (epfd fd : Z)
  | c_usleep (n : Z)
  (* mutexes and the screen *)
  | c_lock (m : Z)
  | c_unlock (m : Z)
  | c_curses (op : string) (args : list (list Z))
  | c_wgetnstr (n : Z)                           (** at most [n] bytes *)
  | c_gets (n : Z)                               (** fgets of at most [n - 1] bytes *)
  | c_perror (s : string)
  | c_print (s : string) (args : list (list Z)).

(** What a call returns: its value, the bytes it stored and [errno]. *)
Record reply := Reply { r_val : Z; r_data : list Z; r_errno : Z }.

Definition ok0 : reply := Reply 0 [] 0.
Definition failed : reply := Reply (-1) [] 1.
Definition value_reply (v : Z) : reply := Reply v [] 0.
Definition data_reply (d : list Z) : reply := Reply (Z.of_nat (length d)) d 0.

(** * Programs *)

(** Why a program stops before it returns: [exit], undefined behaviour, or the end
    of the observation of an endless loop. *)
Inductive halt := Exited (status : Z) | Crashed (u : undef) | Cut.

Inductive prog (A : Type) : Type :=
  | Ret (a : A)
  | Halt (h : halt)
  | Step (c : call) (k : reply -> prog A).
Arguments Ret {A} a.
Arguments Halt {A} h.
Arguments Step {A} c k.

Fixpoint prog_bind {A B} (p : prog A) (f : A -> prog B) : prog B :=
  match p with
  | Ret a => f a
  | Halt h => Halt h
  | Step c k => Step c (fun r => prog_bind (k r) f)
  end.

Lemma prog_bind_ret {A} (p : prog A) : prog_bind p Ret = p.
Proof.
  induction p as [| |c k IH]; cbn; [done..|]. f_equal. apply functional_extensionality. exact IH.
Qed.

Lemma prog_bind_assoc {A B C} (p : prog A) (f : A -> prog B) (g : B -> prog C) :
  prog_bind (prog_bind p f) g = prog_bind p (fun a => prog_bind (f a) g).
Proof.
  induction p as [| |c k IH]; cbn; [done..|]. f_equal. apply functional_extensionality. exact IH.
Qed.

#[export] Instance prog_ret : MRet prog := fun A a => Ret a.
#[export] Instance prog_mbind : MBind prog := fun A B f p => prog_bind p f.

(** A call, by its value, and by the bytes it delivered with their number. *)
Definition sys (c : call) : prog Z := Step c (fun r => Ret (r_val r)).
Definition sys_data (c : call) : prog (Z * list Z) := Step c (fun r => Ret (r_val r, r_data r)).
(** A call with all of its reply, [errno] included. *)
Definition sys_full (c : call) : prog reply := Step c (fun r => Ret r).
(** A call whose result the code ignores. *)
Definition sys_ (c : call) : prog unit := Step c (fun _ => Ret tt).

Definition exit {A} (status : Z) : prog A := Halt (Exited status).
Definition of_outcome {A} (m : outcome A) : prog A :=
  match m with Done a => Ret a | Undef u => Halt (Crashed u) end.

(** [while (1)], at most [fuel] rounds of it: the body goes on with [inl] and leaves
    the loop with [inr]. *)
Fixpoint forever {S A} (fuel : nat) (body : S -> prog (S + A)) (s : S) : prog A :=
  match fuel with
  | O => Halt Cut
  | Datatypes.S n =>
      prog_bind (body s) (fun r => match r with inl s' => forever n body s' | inr a => Ret a end)
  end.

(** [for (x : l) body]. *)
Fixpoint foreach {B S} (l : list B) (body : B -> S -> prog S) (s : S) : prog S :=
  match l with
  | [] => Ret s
  | x :: l' => prog_bind (body x s) (foreach l' body)
  end.

(** * The world of a process *)

Record world := World { fds : gset Z; names : gset (list Z) }.

Definition start : world := World ∅ ∅.

(** The descriptors a call works on, and those it closes. *)
Definition uses (c : call) : list Z :=
  match c with
  | c_setsockopt fd _ _ | c_bind fd _ | c_listen fd _ | c_accept fd | c_connect fd
  | c_send fd _ | c_sendto fd _ | c_recv fd _ | c_recvfrom fd _ | c_read fd _
  | c_write fd _ | c_epoll_wait fd _ | c_fcntl fd | c_ftruncate fd _ | c_mmap fd _
  | c_mq_send fd _ | c_mq_receive fd _ | c_dup2 fd _ => [fd]
  | c_recvmsg fd => [fd]
  | c_epoll_add ep fd | c_epoll_mod ep fd | c_sendmsg ep fd => [ep; fd]
  | _ => []
  end.

Definition closes (c : call) : list Z :=
  match c with c_close fd | c_mq_close fd => [fd] | _ => [] end.

(** Calls that return a new descriptor. *)
Definition opening (c : call) : bool :=
  match c with
  | c_socket _ _ _ | c_accept _ | c_open _ | c_epoll_create | c_mq_open _ _ | c_shm_open _ _ => true
  | _ => false
  end.

(** The names a successful call creates, and those a call removes. *)
Definition creates (c : call) : list (list Z) :=
  match c with
  | c_bind _ (Some n) | c_mkfifo n | c_mq_open n true | c_shm_open n true => [n]
  | _ => []
  end.

Definition removes (c : call) : list (list Z) :=
  match c with c_unlink n | c_mq_unlink n | c_shm_unlink n => [n] | _ => [] end.

(** A call is legal when every descriptor it names is open. *)
Definition legal (w : world) (c : call) : Prop := Forall (fun fd => fd ∈ fds w) (uses c ++ closes c).

(** Calls that store descriptors: two of them, or the one that was passed. *)
Definition storing (c : call) : bool :=
  match c with c_pipe | c_socketpair | c_recvmsg _ => true | _ => false end.

Definition opened (c : call) (r : reply) : list Z :=
  if 0 <=? r_val r then
    if opening c then [r_val r] else if storing c then r_data r else []
  else [].

Definition after (w : world) (c : call) (r : reply) : world :=
  World
    (list_to_set (opened c r) ∪ (fds w ∖ list_to_set (closes c)))
    ((if 0 <=? r_val r then list_to_set (creates c) else ∅)
       ∪ (names w ∖ list_to_set (removes c))).

(** Up to how many bytes a receiving call may deliver. *)
Definition receives (c : call) : option Z :=
  match c with
  | c_recv _ n | c_recvfrom _ n | c_read _ n | c_mq_receive _ n | c_msgrcv _ n _ => Some n
  | c_gets n => Some (n - 1)
  | c_wgetnstr n => Some n
  | _ => None
  end.

(** Calls that return 0 or -1. *)
Definition status_call (c : call) : bool :=
  match c with
  | c_bind _ _ | c_listen _ _ | c_connect _ | c_setsockopt _ _ _ | c_epoll_add _ _ | c_epoll_mod _ _
  | c_unlink _
  | c_mkfifo _ | c_mq_send _ _ | c_mq_unlink _ | c_ftruncate _ _ | c_munmap _ | c_shm_unlink _
  | c_msgsnd _ _ _ | c_msgctl_rmid _ | c_shmctl_rmid _ | c_shmdt | c_sigaction _
  | c_sigprocmask _ | c_close _ | c_mq_close _ | c_kill _ _ => true
  | _ => false
  end.

(** The descriptor and the mask of every event [epoll_wait] stored. *)
Fixpoint events_of (data : list Z) : list (Z * Z) :=
  match data with fd :: ev :: rest => (fd, ev) :: events_of rest | _ => [] end.

(** The replies the manual pages allow: a descriptor is not one already open, a
    receiving call returns -1 or the number of bytes it stored, at most as many as
    it was given room for, and [epoll_wait] reports descriptors that were added. *)
Definition reply_ok (w : world) (c : call) (r : reply) : Prop :=
  -1 <= r_val r /\
  (NoDup (opened c r) /\ Forall (fun fd => 0 <= fd /\ fd ∉ fds w) (opened c r)) /\
  (status_call c = true -> r_val r <= 0) /\
  (forall n, receives c = Some n ->
     r_val r <= n /\
     (0 <= r_val r -> Z.of_nat (length (r_data r)) = r_val r /\ Forall is_byte (r_data r))) /\
  (forall ep n, c = c_epoll_wait ep n -> Forall (fun e => 0 <= e.1) (events_of (r_data r))) /\
  (c = c_pipe \/ c = c_socketpair -> 0 <= r_val r -> length (r_data r) = 2%nat) /\
  (forall fd, c = c_recvmsg fd -> (length (r_data r) <= 1)%nat).

(** * Runs *)

Inductive result (A : Type) := Returned (a : A) | Halted (h : halt).
Arguments Returned {A} a.
Arguments Halted {A} h.

Definition trace : Type := list (call * reply).

(** A monitor watches the calls of a run: which calls it allows in a state, which
    replies the kernel may give, and how a call changes the state. *)
Record monitor (W : Type) := Monitor {
  pre : W -> call -> Prop;
  rep : W -> call -> reply -> Prop;
  post : W -> call -> reply -> W }.
Arguments Monitor {W} pre rep post.
Arguments pre {W} _ w c.
Arguments rep {W} _ w c r.
Arguments post {W} _ w c r.

Section runs.
Context {W : Type} (M : monitor W).

(** [exec p w t w' r]: from state [w] the program makes the calls [t], gets the
    replies recorded in it, and ends in [w'] with result [r]; [None] is a prefix of a
    run. *)
Inductive exec {A} : prog A -> W -> trace -> W -> option (result A) -> Prop :=
  | exec_ret a w : exec (Ret a) w [] w (Some (Returned a))
  | exec_halt h w : exec (Halt h) w [] w (Some (Halted h))
  | exec_prefix p w : exec p w [] w None
  | exec_step c k r w t w' res :
      rep M w c r -> exec (k r) (post M w c r) t w' res ->
      exec (Step c k) w ((c, r) :: t) w' res.

(** Every call of every run is allowed, and every run that ends satisfies [Q]. *)
Fixpoint wp {A} (p : prog A) (w : W) (Q : result A -> W -> Prop) : Prop :=
  match p with
  | Ret a => Q (Returned a) w
  | Halt h => Q (Halted h) w
  | Step c k => pre M w c /\ forall r, rep M w c r -> wp (k r) (post M w c r) Q
  end.

(** All the calls of a trace are allowed. *)
Fixpoint allowed (w : W) (t : trace) : Prop :=
  match t with
  | [] => True
  | (c, r) :: t' => pre M w c /\ allowed (post M w c r) t'
  end.

Lemma wp_sound {A} (p : prog A) w Q t w' res :
  wp p w Q -> exec p w t w' res ->
  allowed w t /\ match res with Some r => Q r w' | None => True end.
Proof.
  intros H E. induction E as [| | |c k r w t w' res Hr E IH]; cbn in *; try tauto.
  destruct H as [Hl H]. specialize (H r Hr). destruct (IH H). tauto.
Qed.

Lemma wp_mono {A} (p : prog A) w (Q Q' : result A -> W -> Prop) :
  (forall r w', Q r w' -> Q' r w') -> wp p w Q -> wp p w Q'.
Proof.
  intros HQ. revert w. induction p as [a|h|c k IH]; intros w; cbn; auto.
  intros [Hl H]. split; [done|]. intros r Hr. apply IH, H, Hr.
Qed.

(** What holds of the continuation of a sequence. *)
Definition seq_post {A B} (f : A -> prog B) (Q : result B -> W -> Prop) : result A -> W -> Prop :=
  fun r w' => match r with Returned a => wp (f a) w' Q | Halted h => Q (Halted h) w' end.

Lemma wp_bind {A B} (p : prog A) (f : A -> prog B) w Q :
  wp p w (seq_post f Q) -> wp (prog_bind p f) w Q.
Proof.
  revert w. induction p as [a|h|c k IH]; intros w; cbn; auto.
  intros [Hl H]. split; [done|]. intros r Hr. apply IH, H, Hr.
Qed.

(** A specification of the first part, then the rest. *)
Lemma wp_seq {A B} (p : prog A) (f : A -> prog B) w P Q :
  wp p w P -> (forall r w', P r w' -> seq_post f Q r w') -> wp (prog_bind p f) w Q.
Proof. intros Hp HP. apply wp_bind. by eapply wp_mono. Qed.

(** The loop rule: the invariant is kept by every round that goes on. *)
Lemma wp_forever {S A} (I : S -> W -> Prop) fuel (body : S -> prog (S + A)) s w
    (Q : result A -> W -> Prop) :
  (forall s w, I s w -> wp (body s) w (fun r w' =>
     match r with
     | Returned (inl s') => I s' w'
     | Returned (inr a) => Q (Returned a) w'
     | Halted h => Q (Halted h) w'
     end)) ->
  (forall s w, I s w -> Q (Halted Cut) w) ->
  I s w -> wp (forever fuel body s) w Q.
Proof.
  intros Hb HC. revert s w. induction fuel as [|n IH]; intros s w HI; cbn.
  - by apply (HC s).
  - apply wp_bind. eapply wp_mono; [|exact (Hb s w HI)].
    intros [[s'|a]|h] w' HQ; cbn; auto.
Qed.

(** The same with the number of rounds that are left. *)
Lemma wp_rounds {S A} (I : nat -> S -> W -> Prop) (body : S -> prog (S + A)) (Q : result A -> W -> Prop) :
  (forall n s w, I (Datatypes.S n) s w -> wp (body s) w (fun r w' =>
     match r with
     | Returned (inl s') => I n s' w'
     | Returned (inr a) => Q (Returned a) w'
     | Halted h => Q (Halted h) w'
     end)) ->
  (forall s w, I O s w -> Q (Halted Cut) w) ->
  forall fuel s w, I fuel s w -> wp (forever fuel body s) w Q.
Proof.
  intros Hb HC fuel. induction fuel as [|n IH]; intros s w HI; cbn; [by apply (HC s)|].
  apply wp_bind. eapply wp_mono; [|exact (Hb n s w HI)].
  intros [[s'|a]|h] w' HQ; cbn; auto.
Qed.

(** The rule for the loop over a list. *)
Lemma wp_foreach {B S} (I : S -> W -> Prop) (l : list B) (body : B -> S -> prog S) s w
    (Q : result S -> W -> Prop) :
  (forall x s w, x ∈ l -> I s w -> wp (body x s) w (fun r w' =>
     match r with Returned s' => I s' w' | Halted h => Q (Halted h) w' end)) ->
  (forall s w, I s w -> Q (Returned s) w) ->
  I s w -> wp (foreach l body s) w Q.
Proof.
  intros Hb HQ. revert s w. induction l as [|x l IH]; intros s w HI; cbn; [by apply HQ|].
  apply wp_bind. eapply wp_mono; [|apply (Hb x s w); [left | done]].
  intros [s'|h] w' H; cbn; [|done]. apply IH; [|done]. intros. apply Hb; [by right | done].
Qed.

End runs.

(** The run in which the kernel gives the replies of a script, and the condition that
    it may give them. *)
Section play.
Context {W : Type} (M : monitor W).

Fixpoint play {A} (p : prog A) (w : W) (script : list reply) : trace * W * option (result A) :=
  match p with
  | Ret a => ([], w, Some (Returned a))
  | Halt h => ([], w, Some (Halted h))
  | Step c k =>
      match script with
      | [] => ([], w, None)
      | r :: rs => let '(t, w', res) := play (k r) (post M w c r) rs in ((c, r) :: t, w', res)
      end
  end.

Fixpoint fair {A} (p : prog A) (w : W) (script : list reply) : Prop :=
  match p, script with
  | Step c k, r :: rs => rep M w c r /\ fair (k r) (post M w c r) rs
  | _, _ => True
  end.

Lemma play_exec {A} (p : prog A) w script t w' res :
  fair p w script -> play p w script = (t, w', res) -> exec M p w t w' res.
Proof.
  revert p w t w' res. induction script as [|r rs IH]; intros p w t w' res.
  - destruct p; cbn; intros _ [= <- <- <-]; constructor.
  - destruct p as [a|h|c k]; cbn; [intros _ [= <- <- <-]; constructor.. |].
    intros [Hr Hf] E. destruct (play (k r) (post M w c r) rs) as [[t0 w0] res0] eqn:E0.
    injection E as <- <- <-. constructor; [done|]. by apply IH.
Qed.
End play.

(** * Two processes that share an object *)

(** [act s c r s'] is what a call does to the object and what it answers; the calls of the
    two processes are interleaved. *)
Section pair.
Context {S A B : Type} (act : S -> call -> reply -> S -> Prop).

Definition configuration : Type := S * prog A * prog B.

Inductive pair_step : configuration -> configuration -> Prop :=
  | step_left s c r s' k q : act s c r s' -> pair_step (s, Step c k, q) (s', k r, q)
  | step_right s c r s' k p : act s c r s' -> pair_step (s, p, Step c k) (s', p, k r).

(** Each process is proved alone against its monitor: [pre] is what it guarantees, [rep]
    what it relies on. The relation [J] of the object to the states of both monitors turns
    what one guarantees into what the other relies on. *)
Context {W1 W2 : Type} (M1 : monitor W1) (M2 : monitor W2) (J : S -> W1 -> W2 -> Prop).
Context (Q1 : result A -> W1 -> Prop) (Q2 : result B -> W2 -> Prop).

Definition together (c : configuration) : Prop :=
  let '(s, p, q) := c in exists w1 w2, J s w1 w2 /\ wp M1 p w1 Q1 /\ wp M2 q w2 Q2.

Hypothesis left_ok : forall s w1 w2 c r s', J s w1 w2 -> pre M1 w1 c -> act s c r s' ->
  rep M1 w1 c r /\ J s' (post M1 w1 c r) w2.
Hypothesis right_ok : forall s w1 w2 c r s', J s w1 w2 -> pre M2 w2 c -> act s c r s' ->
  rep M2 w2 c r /\ J s' w1 (post M2 w2 c r).

Lemma together_step c c' : pair_step c c' -> together c -> together c'.
Proof using left_ok right_ok.
  intros H Ht. destruct H as [s c r s' k q Ha|s c r s' k p Ha]; destruct Ht as (w1 & w2 & HJ & H1 & H2).
  - destruct H1 as [Hp H1]. destruct (left_ok _ _ _ _ _ _ HJ Hp Ha) as [Hr HJ'].
    exists (post M1 w1 c r), w2. auto.
  - destruct H2 as [Hp H2]. destruct (right_ok _ _ _ _ _ _ HJ Hp Ha) as [Hr HJ'].
    exists w1, (post M2 w2 c r). auto.
Qed.

Lemma together_rtc c c' : rtc pair_step c c' -> together c -> together c'.
Proof using left_ok right_ok. induction 1; [done|]. eauto using together_step. Qed.
End pair.

(** * Any number of processes on one object *)

Section many.
Context {S A : Type} (act : nat -> S -> call -> reply -> S -> Prop).

Definition system : Type := S * list (prog A).

(** Process [i] makes its next call. *)
Inductive many_step : system -> system -> Prop :=
  | step_of s ps i c k r s' : ps !! i = Some (Step c k) -> act i s c r s' -> many_step (s, ps) (s', <[i := k r]> ps).

Context {W : Type} (M : nat -> monitor W) (J : S -> list W -> Prop) (Q : nat -> result A -> W -> Prop).

Definition in_step (x : system) : Prop :=
  exists ws, length ws = length x.2 /\ J x.1 ws /\ forall i p w, x.2 !! i = Some p -> ws !! i = Some w -> wp (M i) p w (Q i).

Hypothesis one_ok : forall i s ws w c r s', J s ws -> ws !! i = Some w -> pre (M i) w c -> act i s c r s' ->
  rep (M i) w c r /\ J s' (<[i := post (M i) w c r]> ws).

Lemma in_step_rtc x y : rtc many_step x y -> in_step x -> in_step y.
Proof using one_ok.
  induction 1 as [|x y z Hs _ IH]; [done|]. intros H. apply IH. clear IH z.
  destruct Hs as [s ps i c k r s' Hi Ha]. destruct H as (ws & Hl & HJ & Hw). cbn in *.
  assert (exists w, ws !! i = Some w) as [w Hwi] by (apply lookup_lt_is_Some; rewrite Hl; by eapply lookup_lt_Some).
  destruct (Hw i _ w Hi Hwi) as [Hp Hk]. destruct (one_ok _ _ _ _ _ _ _ HJ Hwi Hp Ha) as [Hr HJ'].
  exists (<[i := post (M i) w c r]> ws). cbn. rewrite !length_insert. split_and!; [done|done|].
  intros j p v Hp' Hv. apply list_lookup_insert_Some in Hp', Hv.
  destruct Hp' as [(<- & <- & _)|[Hne Hj]], Hv as [(E & <- & _)|[Hne' Hv]]; [by apply Hk|by destruct Hne'|by destruct Hne|by eapply (Hw j)].
Qed.
End many.

(** Programs are finite trees: many of them end, whatever is shared. *)
Section ends.
Context {S A : Type} (act : nat -> S -> call -> reply -> S -> Prop).

(** [l'] after one call of a process of [l]. *)
Definition one_less (l' l : list (prog A)) : Prop := exists i c k r, l !! i = Some (Step c k) /\ l' = <[i := k r]> l.

Lemma one_less_cons (p : prog A) l : Acc one_less l -> Acc one_less (p :: l).
Proof.
  intros Hl. revert p. induction Hl as [l Hl IHl]. intros p.
  assert (Htail : forall i c k r q, l !! i = Some (Step c k) -> Acc one_less (q :: <[i := k r]> l)).
  { intros i c k r q Hi. apply IHl. by exists i, c, k, r. }
  induction p as [a|h|c k IHp]; constructor; intros l' ([|i] & c' & k' & r & Hi & ->); cbn in *;
    [by simplify_eq|by eapply Htail|by simplify_eq|by eapply Htail|simplify_eq; apply IHp|by eapply Htail].
Qed.

Lemma one_less_wf : well_founded one_less.
Proof.
  intros l. induction l as [|p l IH]; [|by apply one_less_cons].
  constructor. intros l' (i & c & k & r & Hi & _). by rewrite lookup_nil in Hi.
Qed.

Lemma many_step_sn (x : S * list (prog A)) : sn (many_step act) x.
Proof.
  destruct x as [s l]. revert s. induction (one_less_wf l) as [l _ IH]. intros s. constructor.
  intros y Hy. unfold flip in Hy. inversion Hy as [? ? i c k r s' Hi Ha E1 E2]; subst. apply IH. by exists i, c, k, r.
Qed.
End ends.

(** Whatever is replied, the program makes exactly these calls and returns [a]. *)
Fixpoint makes {A} (p : prog A) (cs : list call) (a : A) : Prop :=
  match p, cs with
  | Ret b, [] => b = a
  | Step c k, c' :: cs' => c = c' /\ forall r, makes (k r) cs' a
  | _, _ => False
  end.

Lemma makes_bind {A B} (p : prog A) (f : A -> prog B) cs cs' a b :
  makes p cs a -> makes (f a) cs' b -> makes (prog_bind p f) (cs ++ cs') b.
Proof.
  revert cs. induction p as [x|h|c k IH]; intros [|c' cs]; cbn; try done; [by intros ->|].
  intros [-> H] Hf. split; [done|]. intros r. by apply IH.
Qed.

(** A loop that makes one call for each element. *)
Lemma makes_each {B C} (body : B -> unit -> prog unit) (call_of : C -> call) (l : list B) (l' : list C) :
  Forall2 (fun x y => forall u, makes (body x u) [call_of y] tt) l l' -> makes (foreach l body tt) (call_of <$> l') tt.
Proof.
  induction 1 as [|x y l l' Hx Hl IH]; [done|].
  change (call_of <$> y :: l') with ([call_of y] ++ (call_of <$> l')). cbn [foreach]. by eapply makes_bind.
Qed.

(** Replay against scripted replies; when the script is used up the run stops. *)
Fixpoint run {A} (script : list reply) (p : prog A) : list call * option (result A) :=
  match p with
  | Ret a => ([], Some (Returned a))
  | Halt h => ([], Some (Halted h))
  | Step c k =>
      match script with
      | [] => ([c], None)
      | r :: rs => let '(cs, res) := run rs (k r) in (c :: cs, res)
      end
  end.

(** * Descriptors and names *)

(** The monitor of the world of a process: its calls work on open descriptors. *)
Definition kernel : monitor world := Monitor legal reply_ok after.

(** ** Rules for the kinds of calls *)

Lemma world_eta w : World (fds w) (names w) = w.
Proof. by destruct w. Qed.

(** The world after a call, from the descriptors it opens and the names it makes. *)
Lemma after_eq w c r O F N :
  opened c r = O -> list_to_set O ∪ fds w ∖ list_to_set (closes c) = F ->
  (if 0 <=? r_val r then list_to_set (creates c) else ∅) ∪ names w ∖ list_to_set (removes c) = N ->
  after w c r = World F N.
Proof. unfold after. by intros -> -> ->. Qed.

Lemma opened_none c r : opening c = false -> storing c = false -> opened c r = [].
Proof. intros Ho Hs. unfold opened. rewrite Ho, Hs. by destruct (0 <=? r_val r). Qed.

Lemma opened_one c r : opening c = true -> opened c r = if 0 <=? r_val r then [r_val r] else [].
Proof. intros Ho. unfold opened. by rewrite Ho. Qed.

Lemma opened_stored c r : opening c = false -> storing c = true ->
  opened c r = if 0 <=? r_val r then r_data r else [].
Proof. intros Ho Hs. unfold opened. by rewrite Ho, Hs. Qed.

(** A call that opens a descriptor, of a new name or of none. *)
Lemma wp_open_gen {A} c (k : reply -> prog A) w Q :
  opening c = true -> removes c = [] -> closes c = [] -> Forall (fun fd => fd ∈ fds w) (uses c) ->
  (forall r, r_val r = -1 -> wp kernel (k r) w Q) ->
  (forall r, 0 <= r_val r -> r_val r ∉ fds w ->
     wp kernel (k r) (World ({[r_val r]} ∪ fds w) (list_to_set (creates c) ∪ names w)) Q) ->
  wp kernel (Step c k) w Q.
Proof.
  intros Ho Hrm Hcl Hu Hf Hs. split; [cbn; unfold legal; by rewrite Hcl, app_nil_r|].
  intros r (Hge & (_ & Hfresh) & _). cbn. rewrite opened_one in Hfresh by done.
  destruct (Z.leb_spec 0 (r_val r)).
  - apply Forall_cons in Hfresh as [[_ Hfresh] _].
    rewrite (after_eq w c r [r_val r] ({[r_val r]} ∪ fds w) (list_to_set (creates c) ∪ names w)); [by apply Hs|..].
    + rewrite opened_one by done. by destruct (Z.leb_spec 0 (r_val r)); [|lia].
    + rewrite Hcl. cbn. set_solver.
    + rewrite Hrm. destruct (Z.leb_spec 0 (r_val r)); [cbn; set_solver|lia].
  - rewrite (after_eq w c r [] (fds w) (names w)); [rewrite world_eta; apply Hf; lia|..].
    + rewrite opened_one by done. by destruct (Z.leb_spec 0 (r_val r)); [lia|].
    + rewrite Hcl. cbn. set_solver.
    + rewrite Hrm. destruct (Z.leb_spec 0 (r_val r)); [lia|cbn; set_solver].
Qed.

Lemma wp_open {A} c (k : reply -> prog A) w Q :
  opening c = true -> creates c = [] -> removes c = [] -> closes c = [] ->
  Forall (fun fd => fd ∈ fds w) (uses c) ->
  (forall r, r_val r = -1 -> wp kernel (k r) w Q) ->
  (forall r, 0 <= r_val r -> r_val r ∉ fds w ->
     wp kernel (k r) (World ({[r_val r]} ∪ fds w) (names w)) Q) ->
  wp kernel (Step c k) w Q.
Proof.
  intros Ho Hc Hrm Hcl Hu Hf Hs. apply wp_open_gen; try done. intros r Hr Hfr. rewrite Hc.
  replace (list_to_set [] ∪ names w) with (names w) by set_solver. by apply Hs.
Qed.

Lemma wp_open_named {A} c n (k : reply -> prog A) w Q :
  opening c = true -> closes c = [] -> uses c = [] -> creates c = [n] -> removes c = [] ->
  (forall r, r_val r = -1 -> wp kernel (k r) w Q) ->
  (forall r, 0 <= r_val r -> r_val r ∉ fds w ->
     wp kernel (k r) (World ({[r_val r]} ∪ fds w) ({[n]} ∪ names w)) Q) ->
  wp kernel (Step c k) w Q.
Proof.
  intros Ho Hcl Hu Hc Hrm Hf Hs. apply wp_open_gen; try done; [by rewrite Hu|].
  intros r Hr Hfr. rewrite Hc. replace (list_to_set [n] ∪ names w) with ({[n]} ∪ names w) by set_solver. by apply Hs.
Qed.

(** Two new descriptors. *)
Lemma wp_pair {A} c (k : reply -> prog A) w Q :
  c = c_pipe \/ c = c_socketpair ->
  (forall r, r_val r = -1 -> wp kernel (k r) w Q) ->
  (forall r a b, 0 <= r_val r -> r_data r = [a; b] -> a <> b -> 0 <= a -> 0 <= b -> a ∉ fds w -> b ∉ fds w ->
     wp kernel (k r) (World ({[a; b]} ∪ fds w) (names w)) Q) ->
  wp kernel (Step c k) w Q.
Proof.
  intros Hc Hf Hs. split; [by destruct Hc; subst; repeat constructor|].
  intros r (Hge & (Hnd & Hfresh) & _ & _ & _ & Htwo & _). specialize (Htwo Hc). cbn.
  assert (Ho : opened c r = if 0 <=? r_val r then r_data r else []) by (destruct Hc; by subst).
  assert (Hcl : closes c = [] /\ creates c = [] /\ removes c = []) by (destruct Hc; by subst).
  destruct Hcl as (Hcl & Hcr & Hrm). rewrite Ho in Hnd, Hfresh. destruct (Z.leb_spec 0 (r_val r)).
  - specialize (Htwo ltac:(done)). destruct (r_data r) as [|a [|b [|]]] eqn:Ed; try done.
    apply NoDup_cons in Hnd as [Hnab _]. apply Forall_cons in Hfresh as [[? ?] Hfresh].
    apply Forall_cons in Hfresh as [[? ?] _].
    rewrite (after_eq w c r [a; b] ({[a; b]} ∪ fds w) (names w)); [apply (Hs r a b); set_solver|done|..].
    + rewrite Hcl. cbn. set_solver.
    + rewrite Hcr, Hrm. destruct (0 <=? r_val r); cbn; set_solver.
  - rewrite (after_eq w c r [] (fds w) (names w)); [rewrite world_eta; apply Hf; lia|done|..].
    + rewrite Hcl. cbn. set_solver.
    + rewrite Hcr, Hrm. destruct (0 <=? r_val r); cbn; set_solver.
Qed.

(** A descriptor received from another process, if one came. *)
Lemma wp_recvmsg {A} fd (k : reply -> prog A) w Q :
  fd ∈ fds w ->
  (forall r, r_val r = -1 -> wp kernel (k r) w Q) ->
  (forall r, 0 <= r_val r -> r_data r = [] -> wp kernel (k r) w Q) ->
  (forall r x, 0 <= r_val r -> r_data r = [x] -> 0 <= x -> x ∉ fds w ->
     wp kernel (k r) (World ({[x]} ∪ fds w) (names w)) Q) ->
  wp kernel (Step (c_recvmsg fd) k) w Q.
Proof.
  intros Hfd Hf Hn Hs. split; [by repeat constructor|].
  intros r (Hge & (_ & Hfresh) & _ & _ & _ & _ & Hone). specialize (Hone fd eq_refl). cbn.
  rewrite opened_stored in Hfresh by done. destruct (Z.leb_spec 0 (r_val r)).
  - assert (Ho : opened (c_recvmsg fd) r = r_data r).
    { rewrite opened_stored by done. by destruct (Z.leb_spec 0 (r_val r)); [|lia]. }
    destruct (r_data r) as [|x [|]] eqn:Ed; [| |cbn in Hone; lia].
    + rewrite (after_eq w _ r [] (fds w) (names w)); [rewrite world_eta; by apply Hn|done|..];
        cbn; [|case_match]; set_solver.
    + apply Forall_cons in Hfresh as [[? ?] _].
      rewrite (after_eq w _ r [x] ({[x]} ∪ fds w) (names w)); [by apply (Hs r x)|done|..];
        cbn; [|case_match]; set_solver.
  - assert (Ho : opened (c_recvmsg fd) r = []).
    { rewrite opened_stored by done. by destruct (Z.leb_spec 0 (r_val r)); [lia|]. }
    rewrite (after_eq w _ r [] (fds w) (names w)); [rewrite world_eta; apply Hf; lia|done|..];
      cbn; [|case_match]; set_solver.
Qed.

Lemma wp_close {A} c fd (k : reply -> prog A) w Q :
  closes c = [fd] -> uses c = [] -> opening c = false -> storing c = false -> creates c = [] -> removes c = [] ->
  fd ∈ fds w -> (forall r, wp kernel (k r) (World (fds w ∖ {[fd]}) (names w)) Q) ->
  wp kernel (Step c k) w Q.
Proof.
  intros Hcl Hu Ho Hst Hc Hr Hfd H. split; [cbn; unfold legal; rewrite Hu, Hcl; by repeat constructor|].
  intros r _. cbn. rewrite (after_eq w c r [] (fds w ∖ {[fd]}) (names w)); [apply H|by apply opened_none|..].
  - rewrite Hcl. cbn. set_solver.
  - rewrite Hc, Hr. case_match; cbn; set_solver.
Qed.

(** A call that neither opens nor closes anything. *)
Definition neutral (c : call) : bool :=
  negb (opening c) && negb (storing c) &&
  match closes c, creates c, removes c with [], [], [] => true | _, _, _ => false end.

Lemma wp_neutral {A} c (k : reply -> prog A) w Q :
  neutral c = true -> Forall (fun fd => fd ∈ fds w) (uses c) ->
  (forall r, reply_ok w c r -> wp kernel (k r) w Q) -> wp kernel (Step c k) w Q.
Proof.
  unfold neutral. intros Hn Hu H. rewrite !andb_true_iff, !negb_true_iff in Hn. destruct Hn as [[Ho Hst] Hn].
  destruct (closes c) eqn:Hcl; [|done]. destruct (creates c) eqn:Hcr; [|done].
  destruct (removes c) eqn:Hrm; [|done].
  split. { cbn. unfold legal. by rewrite Hcl, app_nil_r. }
  intros r Hr. cbn. rewrite (after_eq w c r [] (fds w) (names w)); [rewrite world_eta; by apply H|by apply opened_none|..].
  - rewrite Hcl. cbn. set_solver.
  - rewrite Hcr, Hrm. case_match; cbn; set_solver.
Qed.

(** A call that creates or removes names. *)
Lemma wp_named {A} c (k : reply -> prog A) w Q :
  opening c = false -> storing c = false -> closes c = [] -> Forall (fun fd => fd ∈ fds w) (uses c) ->
  (forall r, r_val r = -1 -> wp kernel (k r) (World (fds w) (names w ∖ list_to_set (removes c))) Q) ->
  (forall r, 0 <= r_val r ->
     wp kernel (k r) (World (fds w) (list_to_set (creates c) ∪ names w ∖ list_to_set (removes c))) Q) ->
  wp kernel (Step c k) w Q.
Proof.
  intros Ho Hst Hcl Hu Hf Hs. split. { cbn. unfold legal. by rewrite Hcl, app_nil_r. }
  intros r (Hge & _). cbn.
  rewrite (after_eq w c r [] (fds w) (if 0 <=? r_val r then list_to_set (creates c) ∪ names w ∖ list_to_set (removes c)
                    else names w ∖ list_to_set (removes c))); [|by apply opened_none|..].
  - destruct (Z.leb_spec 0 (r_val r)); [by apply Hs|]. apply Hf. lia.
  - rewrite Hcl. cbn. set_solver.
  - case_match; set_solver.
Qed.

(** ** Automation *)

(** A computation of the program without calls: it is done, or it is undefined. *)
Lemma wp_pure {A B W} (M : monitor W) (m : outcome A) (f : A -> prog B) w Q :
  (forall a, m = Done a -> wp M (f a) w Q) ->
  (forall u, m = Undef u -> Q (Halted (Crashed u)) w) ->
  wp M (prog_bind (of_outcome m) f) w Q.
Proof. destruct m; cbn; auto. Qed.

Lemma wp_done {A B W} (M : monitor W) (m : outcome A) a (f : A -> prog B) w Q :
  m = Done a -> wp M (f a) w Q -> wp M (prog_bind (of_outcome m) f) w Q.
Proof. by intros ->. Qed.


(** Reduce the binds of a program to its next call. *)
Ltac prog_simp :=
  unfold sys, sys_, sys_data, sys_full, exit;
  cbn [mbind prog_mbind prog_bind mret prog_ret sys sys_data sys_ sys_full exit seq_post].

(** A descriptor among those opened. *)
Ltac fds_in :=
  cbn [fds names];
  repeat first
    [ assumption
    | apply elem_of_singleton; reflexivity
    | apply elem_of_union; left; apply elem_of_singleton; reflexivity
    | apply elem_of_union; right ].

Ltac fds_solve := cbn [fds names]; first [solve [fds_in] | set_solver].

Lemma wp_ret {A W} (M : monitor W) (a : A) w (Q : result A -> W -> Prop) :
  Q (Returned a) w -> wp M (Ret a) w Q.
Proof. done. Qed.

Lemma wp_halt {A W} (M : monitor W) h w (Q : result A -> W -> Prop) :
  Q (Halted h) w -> wp M (Halt h) w Q.
Proof. done. Qed.

Lemma wp_one {A W} (M : monitor W) c (k : reply -> prog A) w Q :
  pre M w c -> (forall r, rep M w c r -> wp M (k r) (post M w c r) Q) -> wp M (Step c k) w Q.
Proof. done. Qed.

(** One call of a program under the monitor [kernel]. *)
Ltac wp_call :=
  first
    [ eapply wp_close;
        [reflexivity | reflexivity | reflexivity | reflexivity | reflexivity | reflexivity
        | fds_solve | intros ?r]
    | apply wp_pair; [first [by left | by right] | intros ?r ?Hr | intros ?r ?a ?b ?Hr ?Hd ?Hab ?Ha ?Hb ?Hfa ?Hfb]
    | apply wp_recvmsg;
        [fds_solve | intros ?r ?Hr | intros ?r ?Hr ?Hd | intros ?r ?x ?Hr ?Hd ?Hx ?Hfresh]
    | eapply wp_open_named;
        [reflexivity | reflexivity | reflexivity | reflexivity | reflexivity
        | intros ?r ?Hr | intros ?r ?Hr ?Hfresh]
    | apply wp_neutral;
        [reflexivity | repeat (constructor; [fds_solve|]); constructor | intros ?r ?Hr]
    | apply wp_open;
        [reflexivity | reflexivity | reflexivity | reflexivity
        | repeat (constructor; [fds_solve|]); constructor
        | intros ?r ?Hr | intros ?r ?Hr ?Hfresh]
    | apply wp_named;
        [reflexivity | reflexivity | reflexivity | repeat (constructor; [fds_solve|]); constructor
        | intros ?r ?Hr | intros ?r ?Hr] ].

(** The undefined outcome of a pure step, when the postcondition allows it. *)
Ltac halts := intros ? _; cbn [seq_post]; solve [auto | done | exact I].

(** As many steps as need no choice: calls, tests and returns. *)
Ltac wp_step :=
  prog_simp;
  lazymatch goal with
  | |- wp _ (Step _ _) _ _ => wp_call
  | |- wp _ (prog_bind (if ?b then _ else _) _) _ _ => destruct b eqn:?
  | |- wp _ (mbind _ (if ?b then _ else _)) _ _ => destruct b eqn:?
  | |- wp _ (if ?b then _ else _) _ _ => destruct b eqn:?
  | |- wp _ (Ret _) _ _ => apply wp_ret; cbn [seq_post]
  | |- wp _ (Halt _) _ _ => apply wp_halt; cbn [seq_post]
  end.

Ltac wp_steps := repeat wp_step.

(** The same, dropping the branches that contradict the replies. *)
Ltac wp_auto := repeat (wp_step; try (exfalso; lia)).

(** Under a monitor without descriptors. *)
Ltac wp_plain_call :=
  apply wp_one;
    [ try done
    | intros ?r ?Hr;
      try match goal with
          | |- wp _ _ ?s _ => lazymatch type of s with unit => destruct s end
          end ].

Ltac wp_plain :=
  prog_simp;
  lazymatch goal with
  | |- wp _ (Step _ _) _ _ => wp_plain_call
  | |- wp _ (prog_bind (if ?b then _ else _) _) _ _ => destruct b eqn:?
  | |- wp _ (mbind _ (if ?b then _ else _)) _ _ => destruct b eqn:?
  | |- wp _ (if ?b then _ else _) _ _ => destruct b eqn:?
  | |- wp _ (Ret _) _ _ => apply wp_ret; cbn [seq_post]
  | |- wp _ (Halt _) _ _ => apply wp_halt; cbn [seq_post]
  end.
Ltac wp_plains := repeat wp_plain.

