(* ===== verification/RawNet.v ===== *)
(** Hand-made Ethernet, IPv4 and UDP frames (src/hw16_sockets/p5..p7 and
    src/final_hw_1): the header fields as the programs store and load them in a
    byte buffer, the Internet checksum and the MAC address parser, which these
    programs share. *)

From S2P Require Import Prelude CInt CStr Stdio.

(** * Header fields *)

(** [struct iphdr] at [o]: on a little-endian machine the low nibble of its first
    byte is [ihl], the high one [version]. *)
Definition set_version (buf : list Z) (o v : Z) : outcome (list Z) :=
  b ← znth buf o; put_at buf o [Z.lor (Z.land b 15) (Z.shiftl v 4)].
Definition set_ihl (buf : list Z) (o v : Z) : outcome (list Z) :=
  b ← znth buf o; put_at buf o [Z.lor (Z.land b 240) v].
Definition get_ihl (buf : list Z) (o : Z) : outcome Z := b ← znth buf o; Done (Z.land b 15).

Definition ETH_HLEN : Z := 14.
Definition IPHDR : Z := 20.
Definition UDPHDR : Z := 8.
Definition IPPROTO_UDP : Z := 17.

(** Offsets in [struct iphdr] and [struct udphdr]. *)
Definition ip_tot_len : Z := 2.
Definition ip_id : Z := 4.
Definition ip_frag_off : Z := 6.
Definition ip_ttl : Z := 8.
Definition ip_protocol : Z := 9.
Definition ip_check : Z := 10.
Definition ip_saddr : Z := 12.
Definition ip_daddr : Z := 16.
Definition udp_source : Z := 0.
Definition udp_dest : Z := 2.
Definition udp_len : Z := 4.
Definition udp_check : Z := 6.

(** * The Internet checksum *)

(** [acc += ntohs(word); if (acc > 0xffff) acc -= 0xffff;] on a [uint32_t]. *)
Definition add_word (acc word : Z) : Z :=
  let a := u32 (acc + ntohs word) in if 65535 <? a then a - 65535 else a.

(** The loop over the 16-bit words, and the odd byte at the end padded with a zero. *)
Fixpoint checksum_acc (acc : Z) (data : list Z) : Z :=
  match data with
  | a :: b :: rest => checksum_acc (add_word acc (of_le [a; b])) rest
  | [a] => add_word acc (of_le [a; 0])
  | [] => acc
  end.

(** [htons(~acc)]. *)
Definition checksum (data : list Z) : Z := htons (u32 (Z.lnot (checksum_acc 65535 data))).

(** The sum of the big-endian 16-bit words of the data. *)
Fixpoint word_sum (data : list Z) : Z :=
  match data with
  | a :: b :: rest => a * 256 + b + word_sum rest
  | [a] => a * 256
  | [] => 0
  end.

Lemma ntohs_of_le a b : is_byte a -> is_byte b -> ntohs (of_le [a; b]) = a * 256 + b.
Proof.
  unfold is_byte. intros Ha Hb. unfold ntohs, htons, of_le. cbn [foldr].
  rewrite Z.mul_0_r, Z.add_0_r, u16_small, (Z.mul_comm 256 b), Z.mod_add, Z.div_add by lia.
  rewrite (Z.mod_small a), (Z.div_small a) by lia. lia.
Qed.

(** The accumulator never leaves [1, 0xffff]. *)
Lemma add_word_spec acc w : 0 < acc <= 65535 -> 0 <= ntohs w < 65536 ->
  0 < add_word acc w <= 65535 /\ (add_word acc w) mod 65535 = (acc + ntohs w) mod 65535.
Proof.
  intros Ha Hw. unfold add_word, u32.
  rewrite Z.mod_small by lia. destruct (Z.ltb_spec 65535 (acc + ntohs w)); split; try lia.
  replace (acc + ntohs w) with (acc + ntohs w - 65535 + 1 * 65535) at 2 by lia.
  by rewrite Z.mod_add by lia.
Qed.

(** Induction two elements at a time, the recursion of the checksum loop. *)
Lemma pair_ind {A} (P : list A -> Prop) :
  P [] -> (forall a, P [a]) -> (forall a b l, P l -> P (a :: b :: l)) -> forall l, P l.
Proof.
  intros H0 H1 H2. fix IH 1. intros [|a [|b l]]; [exact H0 | apply H1 | apply H2, IH].
Qed.

Lemma checksum_acc_spec data acc : 0 < acc <= 65535 -> Forall is_byte data ->
  0 < checksum_acc acc data <= 65535 /\
  (checksum_acc acc data) mod 65535 = (acc + word_sum data) mod 65535.
Proof.
  revert acc. induction data as [|a|a b l IH] using pair_ind; intros acc Hacc Hd; cbn [checksum_acc word_sum].
  - split; [done|]. f_equal. lia.
  - apply Forall_cons in Hd as [Ha _].
    assert (Hw : ntohs (of_le [a; 0]) = a * 256) by (rewrite ntohs_of_le by (done || unfold is_byte; lia); lia).
    unfold is_byte in Ha. rewrite <- Hw. apply add_word_spec; lia.
  - apply Forall_cons in Hd as [Ha Hd]. apply Forall_cons in Hd as [Hb Hd].
    pose proof (ntohs_of_le a b Ha Hb) as Hw. unfold is_byte in Ha, Hb.
    destruct (add_word_spec acc (of_le [a; b])) as [H1 H2]; [done | lia |].
    destruct (IH _ H1 Hd) as [H3 H4]. split; [done|].
    rewrite H4, <- Zplus_mod_idemp_l, H2, Zplus_mod_idemp_l. f_equal. lia.
Qed.

Lemma checksum_acc_app acc l1 l2 : Nat.even (length l1) = true ->
  checksum_acc acc (l1 ++ l2) = checksum_acc (checksum_acc acc l1) l2.
Proof.
  revert acc. induction l1 as [|a|a b l IH] using pair_ind; intros acc H; cbn in *; try done.
  by apply IH.
Qed.

Lemma word_sum_app l1 l2 : Nat.even (length l1) = true ->
  word_sum (l1 ++ l2) = word_sum l1 + word_sum l2.
Proof.
  induction l1 as [|a|a b l IH] using pair_ind; intros H; cbn in *; try done.
  rewrite IH by done. lia.
Qed.

Lemma lnot_u16 a : 0 <= a <= 65535 -> u16 (u32 (Z.lnot a)) = 65535 - a.
Proof.
  intros. unfold u16, u32, Z.lnot. symmetry.
  change (2 ^ 32) with (65536 * 65536). change (2 ^ 16) with 65536.
  replace (Z.pred (- a) mod (65536 * 65536)) with (65536 * 65536 - 1 - a).
  - apply Z.mod_unique with 65535; lia.
  - apply Z.mod_unique with (-1); lia.
Qed.

Lemma htons_u16 v : htons v = htons (u16 v).
Proof. unfold htons. by rewrite (u16_small (u16 v)) by apply u16_range. Qed.

(** The stored checksum is a 16-bit word; in memory it is the complement of the
    accumulator, most significant byte first. *)
Lemma checksum_bytes data : Forall is_byte data ->
  let c := 65535 - checksum_acc 65535 data in
  0 <= c < 65535 /\ le16 (checksum data) = [c / 256; c mod 256].
Proof.
  intros Hd c. destruct (checksum_acc_spec data 65535) as [Hr _]; [lia | done |].
  split; [lia|]. unfold checksum. rewrite <- (le16_htons c) by lia. f_equal.
  unfold htons. f_equal; [f_equal; f_equal|f_equal]; subst c;
    rewrite lnot_u16, (u16_small (65535 - _)) by lia; done.
Qed.

(** The word sum of a block with its own checksum in place is a multiple of 65535. *)
Lemma checksum_in_place pre post :
  Nat.even (length pre) = true -> Forall is_byte pre -> Forall is_byte post ->
  checksum (pre ++ le16 (checksum (pre ++ [0; 0] ++ post)) ++ post) = 0.
Proof.
  intros He Hpre Hpost.
  assert (Hd : Forall is_byte (pre ++ [0; 0] ++ post)).
  { apply Forall_app; split; [done|]. repeat (constructor; [unfold is_byte; lia|]). done. }
  destruct (checksum_bytes _ Hd) as [Hc Hb]. rewrite Hb. clear Hb.
  destruct (checksum_acc_spec _ 65535 ltac:(lia) Hd) as [Hr Hm].
  set (a := checksum_acc 65535 (pre ++ [0; 0] ++ post)) in *. set (c := 65535 - a) in *.
  assert (Hcb : is_byte (c / 256) /\ is_byte (c mod 256)).
  { unfold is_byte. split; [split; [apply Z.div_pos | apply Z.div_lt_upper_bound]; lia|].
    apply Z.mod_pos_bound. lia. }
  assert (Hd' : Forall is_byte (pre ++ [c / 256; c mod 256] ++ post)).
  { apply Forall_app; split; [done|]. destruct Hcb. repeat (constructor; [done|]). done. }
  destruct (checksum_acc_spec _ 65535 ltac:(lia) Hd') as [Hr' Hm'].
  set (a' := checksum_acc 65535 (pre ++ [c / 256; c mod 256] ++ post)) in *.
  assert (Ha' : a' = 65535).
  { rewrite word_sum_app in Hm, Hm' by done. cbn [app word_sum] in Hm, Hm'.
    rewrite (Z.mul_comm (c / 256)), (Z.add_assoc (word_sum pre)) in Hm'.
    rewrite <- Z.div_mod in Hm' by lia.
    assert (Hz : a' mod 65535 = 0).
    { rewrite Hm'. replace (65535 + (word_sum pre + c + word_sum post))
        with ((65535 + (word_sum pre + (0 * 256 + 0 + word_sum post))) + c) by lia.
      rewrite <- Zplus_mod_idemp_l, <- Hm, Zplus_mod_idemp_l. subst c.
      replace (a + (65535 - a)) with (1 * 65535) by lia. by rewrite Z.mod_mul. }
    apply Z.mod_divide in Hz; [|lia]. destruct Hz as [q Hq]. lia. }
  unfold checksum. fold a'. rewrite Ha'. reflexivity.
Qed.

(** The one's complement checksum works as an error check: a header summed with its
    own checksum in place sums to zero, whatever the other fields, and a block sums to
    zero exactly when its big-endian word sum is a multiple of 65535, so the change of
    one word is noticed unless it exchanges 0 and 65535. *)
Theorem checksum_verifies pre post data :
  Nat.even (length pre) = true -> Forall is_byte pre -> Forall is_byte post ->
  Forall is_byte data ->
  checksum (pre ++ le16 (checksum (pre ++ [0; 0] ++ post)) ++ post) = 0 /\
  (checksum data = 0 <-> word_sum data mod 65535 = 0).
Proof.
  intros He Hpre Hpost Hd. split; [by apply checksum_in_place|].
  destruct (checksum_acc_spec data 65535 ltac:(lia) Hd) as [Hr Hm].
  unfold checksum. set (a := checksum_acc 65535 data) in *.
  rewrite (htons_u16 (u32 (Z.lnot a))), lnot_u16 by lia.
  replace (65535 + word_sum data) with (word_sum data + 1 * 65535) in Hm by lia.
  rewrite Z.mod_add in Hm by lia. rewrite <- Hm. split.
  - intros Hz. change 0 with (htons 0) in Hz. apply htons_ntohs_inj in Hz; [|lia..].
    by replace a with (1 * 65535) by lia.
  - intros Hz. apply Z.mod_divide in Hz; [|lia]. destruct Hz as [q Hq].
    by replace a with 65535 by lia.
Qed.

(** * MAC addresses in text *)

Definition colon : Z := 58.

Definition ishex (b : Z) : bool :=
  isdigit b || ((97 <=? b) && (b <=? 102)) || ((65 <=? b) && (b <=? 70)).
Definition hex_val (b : Z) : Z :=
  if isdigit b then b - 48 else if 97 <=? b then b - 87 else b - 55.
Definition value_hex (ds : list Z) : Z := fold_left (fun acc d => acc * 16 + hex_val d) ds 0.

(** The optional [0x] of a hexadecimal conversion. *)
Definition hex_prefix (s : list Z) : list Z :=
  match s with
  | a :: b :: s' => if (a =? 48) && ((b =? 120) || (b =? 88)) then s' else s
  | _ => s
  end.

(** [%hhx] into an [unsigned char]. *)
Definition scanf_hhx (s : list Z) : outcome (scan Z) :=
  match skip_ws s with
  | [] => Done AtEof
  | s1 =>
      let '(neg, s2) := sign s1 in
      let '(ds, rest) := span ishex (hex_prefix s2) in
      match ds with
      | [] => Done (NoMatch s2)
      | _ =>
          let v := if neg then - value_hex ds else value_hex ds in
          if (0 <=? v) && (v <? 256) then Done (Matched v rest) else Undef Unrepresentable
      end
  end.

(** The [n] conversions left, of the sixth part of the format each: the number of
    parts assigned so far is [i]. *)
Fixpoint parse_mac_from (n : nat) (i : Z) (s mac : list Z) : outcome (Z * list Z) :=
  match n with
  | O => Done (i, mac)
  | S n' =>
      r ← scanf_hhx s;
      match r with
      | Matched v rest =>
          mac' ← zset mac i v;
          match n', rest with
          | S _, b :: rest' => if b =? colon then parse_mac_from n' (i + 1) rest' mac' else Done (i + 1, mac')
          | _, _ => Done (i + 1, mac')
          end
      | _ => Done (i, mac)
      end
  end.

(** [sscanf(str, "%hhx:%hhx:%hhx:%hhx:%hhx:%hhx", ...) == 6], with the array after it. *)
Definition parse_mac (s mac : list Z) : outcome (bool * list Z) :=
  '(n, mac') ← parse_mac_from 6 0 s mac; Done (n =? 6, mac').

Definition hexdig (d : Z) : Z := if d <? 10 then 48 + d else 87 + d.
Definition print_02x (b : Z) : list Z := [hexdig (b / 16); hexdig (b mod 16)].

(** [printf("%02x:%02x:...")]. *)
Definition print_mac (mac : list Z) : list Z :=
  match mac with
  | [] => []
  | b :: mac' => print_02x b ++ flat_map (fun x => colon :: print_02x x) mac'
  end.

Lemma hexdig_spec d : 0 <= d < 16 ->
  ishex (hexdig d) = true /\ hex_val (hexdig d) = d /\ isspace (hexdig d) = false /\
  hexdig d <> 45 /\ hexdig d <> 43 /\ hexdig d <> 120 /\ hexdig d <> 88.
Proof.
  intros. unfold ishex, hex_val, isspace, isdigit, hexdig.
  split_and!; zbool; cbn; done || lia.
Qed.

Lemma scanf_hhx_print b rest : is_byte b ->
  (head rest = None \/ exists y, head rest = Some y /\ ishex y = false) ->
  scanf_hhx (print_02x b ++ rest) = Done (Matched b rest).
Proof.
  unfold is_byte. intros Hb Hr.
  pose proof (Z.mod_pos_bound b 16 ltac:(lia)). pose proof (Z.div_mod b 16 ltac:(lia)).
  assert (0 <= b / 16 < 16) by (split; [apply Z.div_pos | apply Z.div_lt_upper_bound]; lia).
  destruct (hexdig_spec (b / 16)) as (Hx & Hv & Hs & Hn1 & Hn2 & _); [done|].
  destruct (hexdig_spec (b mod 16)) as (Hx' & Hv' & _ & _ & _ & Hn3 & Hn4); [done|].
  unfold scanf_hhx, print_02x, skip_ws. cbn [app span]. rewrite Hs. cbn [snd].
  unfold sign. destruct (Z.eqb_spec (hexdig (b / 16)) 45); [done|].
  destruct (Z.eqb_spec (hexdig (b / 16)) 43); [done|]. unfold hex_prefix.
  destruct (Z.eqb_spec (hexdig (b mod 16)) 120); [done|].
  destruct (Z.eqb_spec (hexdig (b mod 16)) 88); [done|]. rewrite andb_false_r.
  change (hexdig (b / 16) :: hexdig (b mod 16) :: rest) with (print_02x b ++ rest).
  rewrite span_forall by (done || (repeat constructor; done)).
  unfold print_02x, value_hex. cbn [fold_left]. rewrite Hv, Hv'.
  replace ((0 * 16 + b / 16) * 16 + b mod 16) with b by lia.
  zbool; cbn; done || lia.
Qed.

(** One step of the parser over a printed byte followed by a colon. *)
Lemma parse_mac_step n i b rest mac : is_byte b -> 0 <= i < Z.of_nat (length mac) ->
  parse_mac_from (S (S n)) i (print_02x b ++ colon :: rest) mac
    = parse_mac_from (S n) (i + 1) rest (<[Z.to_nat i := b]> mac).
Proof.
  intros Hb Hi. cbn [parse_mac_from].
  rewrite scanf_hhx_print by (done || (right; by exists colon)).
  cbn [mbind outcome_bind]. rewrite zset_ok by done. cbn [outcome_bind].
  by rewrite Z.eqb_refl.
Qed.

(** [parse_mac] reads back exactly the six bytes the programs print with [%02x], and
    reports success. *)
Lemma parse_print_mac mac old : Forall is_byte mac -> length mac = 6%nat -> length old = 6%nat ->
  parse_mac (print_mac mac) old = Done (true, mac).
Proof.
  intros Hb Hm Ho.
  destruct mac as [|b0 [|b1 [|b2 [|b3 [|b4 [|b5 [|]]]]]]]; try done.
  destruct old as [|o0 [|o1 [|o2 [|o3 [|o4 [|o5 [|]]]]]]]; try done.
  repeat match goal with H : Forall is_byte (_ :: _) |- _ => apply Forall_cons in H as [? ?] end.
  unfold parse_mac, print_mac. cbn [flat_map].
  rewrite !app_nil_r. cbn [app].
  repeat (rewrite parse_mac_step by (done || (cbn; lia)); cbn [Z.add Z.to_nat insert list_insert Pos.to_nat Pos.iter_op]).
  cbn [parse_mac_from]. rewrite <- (app_nil_r (print_02x b5)).
  rewrite scanf_hhx_print by (done || by left). done.
Qed.

(** * Reasoning about chains of stores *)

Lemma of_le_fmap_Done m v : (of_le <$> m) = Done v -> exists l, m = Done l /\ v = of_le l.
Proof. destruct m; cbn; [|done]. intros [= <-]. by eexists. Qed.

(** Split the chains [x ← m; k] that are [Done] into their steps. *)
Ltac chain :=
  repeat match goal with
  | H : (match ?p with (_, _) => _ end) = Done _ |- _ => destruct p
  | H : (_ ≫= _) = Done _ |- _ => obind_inv H
  | H : (of_le <$> _) = Done _ |- _ =>
      let l := fresh "l" in let Hl := fresh "Hl" in
      apply of_le_fmap_Done in H as (l & Hl & ->)
  end.

(** Lengths of the stored blocks. *)
Ltac block_len :=
  repeat match goal with E : get_at _ _ _ = Done _ |- _ => apply get_at_length in E end;
  unfold le16, le32, replicate in *; rewrite ?length_app in *; cbn [length] in *; lia.

(** Move a load down a chain of stores to the store it reads, or to the bottom. *)
Ltac peel :=
  repeat match goal with
  | E : put_at ?b ?off ?src = Done ?b' |- context [get_at ?b' ?o ?n] =>
      rewrite (get_put_out b off src b' o n E) by block_len
  | E : put_at ?b ?off ?src = Done ?b' |- context [znth ?b' ?o] =>
      rewrite (znth_put_out b off src b' o E) by block_len
  end.

Ltac unfold_fields :=
  unfold set_version, set_ihl, get_ihl, load16, load32, store16, store32,
    ETH_HLEN, IPHDR, UDPHDR, IPPROTO_UDP, ip_tot_len, ip_id, ip_frag_off, ip_ttl, ip_protocol,
    ip_check, ip_saddr, ip_daddr, udp_source, udp_dest, udp_len, udp_check in *.

(** Evaluate a load of the last chain element, given the store it comes from. *)
Ltac loaded E := peel; first [exact (get_put_same _ _ _ _ E) | rewrite (get_put_same _ _ _ _ E)].

Lemma znth_get1 (buf : list Z) o x : get_at buf o 1 = Done [x] -> znth buf o = Done x.
Proof.
  intros H. pose proof (znth_get_sub _ _ _ _ 0 H ltac:(lia)) as Hz.
  rewrite Z.add_0_r in Hz. by rewrite <- Hz.
Qed.

(** Replace the stores of a chain by the equality of lengths. *)
Ltac put_lengths :=
  repeat match goal with E : put_at _ _ _ = Done _ |- _ => apply put_at_length in E end.

(** ** Every step of a chain has a meaning *)

Lemma defined_bind_intro {A B} (m : outcome A) (f : A -> outcome B) :
  (exists a, m = Done a /\ defined (f a)) -> defined (m ≫= f).
Proof. intros (a & -> & H). exact H. Qed.

(** One store or load of a chain: what is left is the rest of the chain, with the
    equation of this step and, for a store, the length of the new buffer. *)
Ltac total_step :=
  match goal with
  | |- defined (put_at ?b ?o ?src ≫= _) =>
      let b' := fresh "b" in let E := fresh "E" in let L := fresh "L" in
      destruct (put_at_total b o src) as (b' & E & L); [block_len | block_len |];
      rewrite E; cbn [mbind outcome_bind]
  | |- defined (get_at ?b ?o ?n ≫= _) =>
      let r := fresh "r" in let E := fresh "E" in let L := fresh "L" in
      destruct (get_at_total b o n) as (r & E & L); [lia | lia | lia |];
      rewrite E; cbn [mbind outcome_bind]
  | |- defined ((of_le <$> get_at ?b ?o ?n) ≫= _) =>
      let r := fresh "r" in let E := fresh "E" in let L := fresh "L" in
      destruct (get_at_total b o n) as (r & E & L); [lia | lia | lia |];
      rewrite E; cbn [mbind outcome_bind fmap outcome_fmap]
  | |- defined (znth ?b ?o ≫= _) =>
      let x := fresh "x" in let E := fresh "E" in
      destruct (znth_ok b o) as (x & E & _); [lia |]; rewrite E; cbn [mbind outcome_bind]
  | |- defined ((_ ≫= _) ≫= _) => rewrite outcome_bind_assoc
  end.

(** ** Buffers of bytes *)

Lemma le16_bytes v : Forall is_byte (le16 v).
Proof. repeat constructor; apply Z.mod_pos_bound; lia. Qed.
Lemma le32_bytes v : Forall is_byte (le32 v).
Proof. repeat constructor; apply Z.mod_pos_bound; lia. Qed.

Lemma put_at_bytes b o src b' : put_at b o src = Done b' ->
  Forall is_byte b -> Forall is_byte src -> Forall is_byte b'.
Proof.
  intros (_ & _ & ->)%put_at_Done Hb Hs. apply Forall_app. split; [by apply Forall_take|].
  apply Forall_app. split; [done | by apply Forall_drop].
Qed.

Lemma get_at_bytes b o n r : get_at b o n = Done r -> Forall is_byte b -> Forall is_byte r.
Proof.
  unfold get_at. intros H Hb. case_match; [|done]. injection H as <-.
  by apply Forall_take, Forall_drop.
Qed.

(** A 20-byte header at [o] whose checksum field was zero sums to zero once its
    checksum is stored. *)
Lemma header_checksum b o hdr b' :
  get_at b o 20 = Done hdr -> get_at b (o + 10) 2 = Done [0; 0] -> Forall is_byte hdr ->
  put_at b (o + 10) (le16 (checksum hdr)) = Done b' ->
  exists hdr', get_at b' o 20 = Done hdr' /\ checksum hdr' = 0.
Proof.
  intros Hh Hz Hb E. pose proof (get_at_length _ _ _ _ Hh) as Hl.
  assert (0 <= o /\ o + 20 <= Z.of_nat (length b)) as [Ho Hob].
  { unfold get_at in Hh. zbool; cbn in Hh; done || lia. }
  assert (Hhdr : hdr = take 10 hdr ++ [0; 0] ++ drop 12 hdr).
  { rewrite <- (get_at_sub _ _ _ _ 10 2 Hh) in Hz by lia. unfold get_at in Hz.
    zbool; cbn in Hz; try done. injection Hz as Hz. change (Z.to_nat 2) with 2%nat in Hz. change (Z.to_nat 10) with 10%nat in Hz.
    rewrite <- (take_drop 10 hdr) at 1. f_equal.
    rewrite <- (take_drop 2 (drop 10 hdr)). rewrite drop_drop. by rewrite Hz. }
  assert (Hpre : Forall is_byte (take 10 hdr)) by (by apply Forall_take).
  assert (Hpost : Forall is_byte (drop 12 hdr)) by (by apply Forall_drop).
  exists (take 10 hdr ++ le16 (checksum hdr) ++ drop 12 hdr). split.
  - pose proof (put_at_length _ _ _ _ E) as Hl'.
    destruct (get_at_total b' o 20) as (r & Hr & Hrl); [lia..|]. rewrite Hr. f_equal.
    apply list_eq_same_length with 20%nat; [rewrite !length_app, length_take, length_drop; cbn [le16 length]; lia | lia | ].
    intros k x y Hk Hx Hy.
    assert (Hxb : znth b' (o + Z.of_nat k) = Done x).
    { rewrite <- (znth_get_sub _ _ _ _ _ Hr) by lia. apply znth_Done. split; [lia|]. by rewrite Nat2Z.id. }
    assert (Hold : forall z, hdr !! k = Some z -> znth b (o + Z.of_nat k) = Done z).
    { intros z Hzk. rewrite <- (znth_get_sub _ _ _ _ _ Hh) by lia. apply znth_Done.
      split; [lia|]. by rewrite Nat2Z.id. }
    destruct (decide (k < 10)%nat); [|destruct (decide (k < 12)%nat)].
    + rewrite (znth_put_out _ _ _ _ _ E) in Hxb by (cbn; lia).
      rewrite lookup_app_l, lookup_take_lt in Hy by (rewrite ?length_take; cbn [le16 length]; lia). apply Hold in Hy. congruence.
    + rewrite (znth_put_in _ _ _ _ _ E) in Hxb by (cbn; lia).
      rewrite lookup_app_r, lookup_app_l in Hy by (rewrite ?length_take; cbn [le16 length]; lia). apply znth_Done in Hxb as [_ Hxb].
      rewrite length_take in Hy.
      replace (k - 10 `min` length hdr)%nat with (Z.to_nat (o + Z.of_nat k - (o + 10))) in Hy by lia.
      congruence.
    + rewrite (znth_put_out _ _ _ _ _ E) in Hxb by (cbn; lia).
      rewrite lookup_app_r, lookup_app_r, lookup_drop in Hy by (rewrite ?length_take; cbn [le16 length]; lia).
      replace (12 + _)%nat with k in Hy by (rewrite ?length_take; cbn [le16 length]; lia). apply Hold in Hy. congruence.
  - rewrite Hhdr at 2. apply checksum_in_place; [|done|done].
    rewrite length_take. by replace (10 `min` length hdr)%nat with 10%nat by lia.
Qed.

(** After the [memset] of the header, setting [version = 4] and [ihl = 5] stores the
    byte 0x45. *)
Lemma set_version_ihl b0 o b : put_at b0 o (replicate 20 0) = Done b ->
  exists b1 b2,
    set_version b o 4 = Done b1 /\ put_at b o [64] = Done b1 /\
    set_ihl b1 o 5 = Done b2 /\ put_at b1 o [69] = Done b2 /\
    length b1 = length b0 /\ length b2 = length b0.
Proof.
  intros E. pose proof (put_at_length _ _ _ _ E) as L.
  pose proof (proj1 (put_at_Done _ _ _ _) E) as (Ho & Hn & _). cbn in Hn.
  destruct (put_at_total b o [64]) as (b1 & E1 & L1); [lia | cbn; lia |].
  destruct (put_at_total b1 o [69]) as (b2 & E2 & L2); [lia | cbn; lia |].
  exists b1, b2. unfold set_version, set_ihl.
  assert (znth b o = Done 0) as ->.
  { rewrite (znth_put_in _ _ _ _ _ E) by (cbn; lia). by rewrite Z.sub_diag. }
  assert (znth b1 o = Done 64) as ->.
  { rewrite (znth_put_in _ _ _ _ _ E1) by (cbn; lia). by rewrite Z.sub_diag. }
  cbn [mbind outcome_bind]. split_and!; try done; lia.
Qed.

(** As [total_step], for a goal [exists ..., chain = Done _ /\ _]. *)
Ltac done_step :=
  match goal with
  | |- context [put_at ?b ?o ?src ≫= _] =>
      let b' := fresh "b" in let E := fresh "E" in let L := fresh "L" in
      destruct (put_at_total b o src) as (b' & E & L); [block_len | block_len |];
      rewrite E; cbn [mbind outcome_bind]
  end.

(** Every byte of a buffer built by stores of bytes is a byte. *)
Ltac put_bytes :=
  repeat match goal with
  | E : put_at _ _ _ = Done ?b |- Forall is_byte ?b =>
      apply (put_at_bytes _ _ _ _ E); clear E
  | |- Forall is_byte (le16 _) => apply le16_bytes
  | |- Forall is_byte (le32 _) => apply le32_bytes
  | |- Forall is_byte (replicate _ _) => repeat (constructor; [unfold is_byte; lia|]); constructor
  | |- Forall is_byte (_ :: _) => constructor; [unfold is_byte; lia|]
  | |- Forall is_byte [] => constructor
  end; try assumption.

(** The header of a real packet, its checksum field at offset 10. *)
Lemma checksum_verifies_witness :
  let hdr := [69; 0; 0; 60; 28; 70; 64; 0; 64; 6] in
  let adr := [172; 16; 10; 99; 172; 16; 10; 12] in
  le16 (checksum (hdr ++ [0; 0] ++ adr)) = [177; 230] /\
  checksum (hdr ++ le16 (checksum (hdr ++ [0; 0] ++ adr)) ++ adr) = 0.
Proof.
  cbv zeta. split; [by vm_compute|].
  apply (checksum_verifies [69; 0; 0; 60; 28; 70; 64; 0; 64; 6] [172; 16; 10; 99; 172; 16; 10; 12] []);
    [done | repeat (constructor; [unfold is_byte; lia|]); constructor..].
Defined.

Lemma parse_print_mac_witness :
  print_mac [0; 17; 34; 51; 68; 255] = str "00:11:22:33:44:ff" /\
  parse_mac (print_mac [0; 17; 34; 51; 68; 255]) [1; 1; 1; 1; 1; 1] = Done (true, [0; 17; 34; 51; 68; 255]).
Proof.
  split; [by vm_compute|]. apply parse_print_mac; [|done|done].
  repeat (constructor; [unfold is_byte; lia|]); constructor.
Defined.
