(* ===== verification/EchoRaw.v ===== *)
(** The raw-socket echo service of src/final_hw_1: the server keeps a table of
    clients with a message counter each, the client sends lines in frames it builds
    itself and filters what comes back.

    The server works in one [buffer]: [ip], [reply_ip], [udp], [reply_udp] and
    [client_mac] are pointers into it, so the reply is built over the request it is
    built from. The model keeps that: every field is loaded from and stored to the
    same list of bytes, in the order of the code. *)

From S2P Require Import Prelude CInt CStr Stdio RawNet.

Definition BUF_SIZE : Z := 1500.
Definition SERVER_PORT : Z := 12345.
Definition CLIENT_PORT : Z := 54321.
Definition MAX_TABLE : Z := 100.

(** * The server (echo_server.c) *)

Record client_t := Client { ip : Z; port : Z; counter : Z }.

#[export] Instance client_t_eq_dec : EqDecision client_t.
Proof. solve_decision. Defined.

(** The globals: [clients], [client_count] and [server_mac]. *)
Record server := Server { clients : list client_t; client_count : Z; server_mac : list Z }.

Definition same_client (addr prt : Z) (c : client_t) : bool := (ip c =? addr) && (port c =? prt).

Definition find_client (st : server) (addr prt : Z) : Z :=
  match find_from (same_client addr prt) 0 (take (Z.to_nat (client_count st)) (clients st)) with
  | Some i => Z.of_nat i
  | None => -1
  end.

Definition add_client (st : server) (addr prt : Z) : outcome server :=
  if 100 <=? client_count st then Done st
  else
    cs ← zset (clients st) (client_count st) (Client addr prt 0);
    Done (Server cs (client_count st + 1) (server_mac st)).

(** [client_idx = find_client(...)]; a new client is added and given the last index. *)
Definition locate (st : server) (addr prt : Z) : outcome (server * Z) :=
  let client_idx := find_client st addr prt in
  if client_idx =? -1
  then st' ← add_client st addr prt; Done (st', client_count st' - 1)
  else Done (st, client_idx).

Definition set_counter (st : server) (i v : Z) : outcome server :=
  c ← znth (clients st) i;
  cs ← zset (clients st) i (Client (ip c) (port c) v);
  Done (Server cs (client_count st) (server_mac st)).

(** [++clients[client_idx].counter]. *)
Definition bump (st : server) (i : Z) : outcome (server * Z) :=
  c ← znth (clients st) i; v ← iadd (counter c) 1; st' ← set_counter st i v; Done (st', v).

(** The request a received frame carries: sender, offset of the UDP header and the
    payload, whose end is marked with a NUL in the buffer. *)
Record request := Request { rq_ip : Z; rq_port : Z; rq_iplen : Z; rq_data : list Z }.

(** From [recvfrom] to [data[data_len] = 0]: [None] is [continue]. *)
Definition server_receive (buf : list Z) (bytes : Z) : outcome (list Z * option request) :=
  if bytes <? ETH_HLEN + IPHDR then Done (buf, None) else
  protocol ← znth buf (ETH_HLEN + ip_protocol);
  if negb (protocol =? IPPROTO_UDP) then Done (buf, None) else
  ihl ← get_ihl buf ETH_HLEN;
  let ip_len := ihl * 4 in
  let udp := ETH_HLEN + ip_len in
  dest ← load16 buf (udp + udp_dest);
  source ← load16 buf (udp + udp_source);
  if negb (ntohs dest =? SERVER_PORT) || negb (ntohs source =? CLIENT_PORT)
  then Done (buf, None) else
  client_ip ← load32 buf (ETH_HLEN + ip_saddr);
  let client_port := ntohs source in
  let data_len := to_int (bytes - ETH_HLEN - ip_len - UDPHDR) in
  if (data_len <=? 0) || (BUF_SIZE <=? data_len) then Done (buf, None) else
  let data := ETH_HLEN + ip_len + UDPHDR in
  buf' ← zset buf (data + data_len) 0;
  Done (buf', Some (Request client_ip client_port ip_len (drop (Z.to_nat data) buf'))).

(** [snprintf(reply, sizeof(reply), "%s %d", data, counter)]: the characters of the
    reply, cut to what the array holds. *)
Definition format_reply (data : list Z) (n : Z) : list Z :=
  take (Z.to_nat (BUF_SIZE - 1)) (cstr data ++ [32] ++ print_d n).

(** The frame handed to [sendto] and the link-layer address in [addr]. *)
Record sent := Sent { frame : list Z; sll_addr : list Z }.

(** From the Ethernet header of the reply to [sendto], with [ip] and [reply_ip] the
    same bytes, and [udp] at [ETH_HLEN + ip_len]. *)
Definition build_reply (buf : list Z) (ip_len : Z) (smac reply : list Z) : outcome (list Z * sent) :=
  let strlen_reply := Z.of_nat (length reply) in
  let udp := ETH_HLEN + ip_len in
  client_mac ← get_at buf 6 6;
  b ← put_at buf 0 client_mac;
  b ← put_at b 6 smac;
  b ← put_at b 12 [8; 0];
  b ← put_at b ETH_HLEN (replicate 20 0);
  b ← set_version b ETH_HLEN 4;
  b ← set_ihl b ETH_HLEN 5;
  b ← store16 b (ETH_HLEN + ip_tot_len) (htons (IPHDR + UDPHDR + strlen_reply));
  b ← store16 b (ETH_HLEN + ip_id) (htons 12345);
  b ← store16 b (ETH_HLEN + ip_frag_off) 0;
  b ← put_at b (ETH_HLEN + ip_ttl) [64];
  b ← put_at b (ETH_HLEN + ip_protocol) [IPPROTO_UDP];
  daddr ← load32 b (ETH_HLEN + ip_daddr);
  b ← store32 b (ETH_HLEN + ip_saddr) daddr;
  saddr ← load32 b (ETH_HLEN + ip_saddr);
  b ← store32 b (ETH_HLEN + ip_daddr) saddr;
  hdr ← get_at b ETH_HLEN IPHDR;
  b ← store16 b (ETH_HLEN + ip_check) (checksum hdr);
  let reply_udp := ETH_HLEN + IPHDR in
  b ← store16 b (reply_udp + udp_source) (htons SERVER_PORT);
  source ← load16 b (udp + udp_source);
  b ← store16 b (reply_udp + udp_dest) source;
  b ← store16 b (reply_udp + udp_len) (htons (UDPHDR + strlen_reply));
  b ← store16 b (reply_udp + udp_check) 0;
  b ← put_at b (ETH_HLEN + IPHDR + UDPHDR) (reply ++ [0]);
  mac ← get_at b 6 6;
  tot_len ← load16 b (ETH_HLEN + ip_tot_len);
  f ← get_at b 0 (ETH_HLEN + ntohs tot_len);
  Done (b, Sent f mac).

(** The bookkeeping of one request: the client is located or added; [CLOSE] resets its
    counter and is not answered, any other message is counted and echoed. *)
Definition account (st : server) (rq : request) : outcome (server * option (list Z)) :=
  '(st, client_idx) ← locate st (rq_ip rq) (rq_port rq);
  close ← streq (rq_data rq) (lit "CLOSE");
  if (close : bool) then st' ← set_counter st client_idx 0; Done (st', None)
  else
    '(st, n) ← bump st client_idx;
    Done (st, Some (format_reply (rq_data rq) n)).

(** One round of [while (1)]: [bytes] is what [recvfrom] returned, the packet being in
    the buffer. *)
Definition server_step (st : server) (buf : list Z) (bytes : Z)
    : outcome (server * list Z * option sent) :=
  '(buf, rq) ← server_receive buf bytes;
  match rq with
  | None => Done (st, buf, None)
  | Some rq =>
      '(st, reply) ← account st rq;
      match reply with
      | None => Done (st, buf, None)
      | Some reply =>
          '(buf, s) ← build_reply buf (rq_iplen rq) (server_mac st) reply;
          Done (st, buf, Some s)
      end
  end.

(** [recvfrom(sock_fd, buffer, BUF_SIZE, ...)] of a packet, cut to the buffer. *)
Definition receive_into (buf packet : list Z) : outcome (list Z * Z) :=
  let p := take (Z.to_nat BUF_SIZE) packet in
  b ← put_at buf 0 p; Done (b, Z.of_nat (length p)).

(** The server over a sequence of packets. *)
Fixpoint serve (st : server) (buf : list Z) (packets : list (list Z))
    : outcome (server * list sent) :=
  match packets with
  | [] => Done (st, [])
  | p :: ps =>
      '(buf, bytes) ← receive_into buf p;
      '(st, buf, s) ← server_step st buf bytes;
      '(st, out) ← serve st buf ps;
      Done (st, match s with Some s => s :: out | None => out end)
  end.

Definition init_server (smac : list Z) : server :=
  Server (replicate 100 (Client 0 0 0)) 0 smac.

(** * The client (echo_client.c) *)

Section client.
(** [inet_addr] of <arpa/inet.h>: the address in network byte order. *)
Variable inet_addr : list Z -> Z.

Record config := Config {
  client_ip_str : list Z; server_ip_str : list Z;
  client_mac : list Z; cl_server_mac : list Z }.

(** The frame for one line; [input] is the array [fgets] filled, newline removed. *)
Definition client_frame (cfg : config) (buf input : list Z) : outcome (list Z * list Z) :=
  msg_len ← strlen input;
  b ← put_at buf 0 (cl_server_mac cfg);
  b ← put_at b 6 (client_mac cfg);
  b ← put_at b 12 [8; 0];
  b ← put_at b ETH_HLEN (replicate 20 0);
  b ← set_version b ETH_HLEN 4;
  b ← set_ihl b ETH_HLEN 5;
  b ← store16 b (ETH_HLEN + ip_tot_len) (htons (IPHDR + UDPHDR + msg_len));
  b ← store16 b (ETH_HLEN + ip_id) (htons 54321);
  b ← store16 b (ETH_HLEN + ip_frag_off) 0;
  b ← put_at b (ETH_HLEN + ip_ttl) [64];
  b ← put_at b (ETH_HLEN + ip_protocol) [IPPROTO_UDP];
  b ← store32 b (ETH_HLEN + ip_saddr) (inet_addr (client_ip_str cfg));
  b ← store32 b (ETH_HLEN + ip_daddr) (inet_addr (server_ip_str cfg));
  ihl ← get_ihl b ETH_HLEN;
  hdr ← get_at b ETH_HLEN (ihl * 4);
  b ← store16 b (ETH_HLEN + ip_check) (checksum hdr);
  let udp := ETH_HLEN + ihl * 4 in
  b ← store16 b (udp + udp_source) (htons CLIENT_PORT);
  b ← store16 b (udp + udp_dest) (htons SERVER_PORT);
  b ← store16 b (udp + udp_len) (htons (UDPHDR + msg_len));
  b ← store16 b (udp + udp_check) 0;
  let data := udp + UDPHDR in
  b ← put_at b data (take (Z.to_nat msg_len) input);
  b ← zset b (data + msg_len) 0;
  tot_len ← load16 b (ETH_HLEN + ip_tot_len);
  f ← get_at b 0 (ETH_HLEN + ntohs tot_len);
  Done (b, f).
End client.

(** What the client does with a received frame: [None] is [continue] or no data. *)
Definition client_receive (buf : list Z) (bytes : Z) : outcome (list Z * option (list Z)) :=
  if bytes <? ETH_HLEN + IPHDR then Done (buf, None) else
  protocol ← znth buf (ETH_HLEN + ip_protocol);
  if negb (protocol =? IPPROTO_UDP) then Done (buf, None) else
  ihl ← get_ihl buf ETH_HLEN;
  let ip_len := ihl * 4 in
  let udp := ETH_HLEN + ip_len in
  source ← load16 buf (udp + udp_source);
  dest ← load16 buf (udp + udp_dest);
  if negb (ntohs source =? SERVER_PORT) || negb (ntohs dest =? CLIENT_PORT)
  then Done (buf, None) else
  let data_len := to_int (bytes - ETH_HLEN - ip_len - UDPHDR) in
  if 0 <? data_len
  then
    let recv_data := ETH_HLEN + ip_len + UDPHDR in
    buf' ← zset buf (recv_data + data_len) 0;
    Done (buf', Some (cstr (drop (Z.to_nat recv_data) buf')))
  else Done (buf, None).

(** * The reply as the client sees it *)

Lemma ntohs_len n : 0 <= n < 65536 -> ntohs (of_le (le16 (htons n))) = n.
Proof. intros. rewrite of_le_le16 by apply htons_range. by rewrite ntohs_htons, u16_small. Qed.

(** What a reply to a request without IP options holds: no addresses, the server's
    own port as destination, and the server's own MAC as link-layer destination. *)
Lemma build_reply_fields buf smac reply b' s :
  length smac = 6%nat -> (length reply < 1500)%nat ->
  build_reply buf 20 smac reply = Done (b', s) ->
  sll_addr s = smac /\
  Z.of_nat (length (frame s)) = 42 + Z.of_nat (length reply) /\
  get_at (frame s) 36 2 = Done (le16 (htons SERVER_PORT)) /\
  get_at (frame s) 26 4 = Done [0; 0; 0; 0] /\ get_at (frame s) 30 4 = Done [0; 0; 0; 0] /\
  znth (frame s) 23 = Done 17 /\ znth (frame s) 14 = Done 69 /\
  get_at (frame s) 34 2 = Done (le16 (htons SERVER_PORT)) /\
  43 + Z.of_nat (length reply) <= Z.of_nat (length buf) /\ length b' = length buf.
Proof.
  intros Hsmac Hrep H. unfold build_reply in H. unfold_fields. chain.
  injection H as <- <-. cbn [frame sll_addr].
  (* the destination address was erased by the memset before it was read *)
  assert (l2 = replicate 4 0) as ->.
  { cut (get_at a10 (14 + 16) 4 = Done (replicate 4 0)); [rewrite Hl2; by intros [= ->]|].
    peel. by rewrite (get_put_in _ _ _ _ _ _ Ha3) by (cbn; lia). }
  assert (l1 = replicate 4 0) as ->.
  { cut (get_at a12 (14 + 12) 4 = Done (replicate 4 0)); [rewrite Hl1; by intros [= ->]|].
    loaded Ha12. }
  (* the source port of the request is the word the reply has just overwritten *)
  assert (l0 = le16 (htons SERVER_PORT)) as ->.
  { cut (get_at a17 (14 + 20 + 0) 2 = Done (le16 (htons SERVER_PORT))); [rewrite Hl0; by intros [= ->]|].
    loaded Ha17. }
  assert (l = le16 (htons (20 + 8 + Z.of_nat (length reply)))) as ->.
  { cut (get_at a22 (14 + 2) 2 = Done (le16 (htons (20 + 8 + Z.of_nat (length reply))))).
    { rewrite Hl. by intros [= ->]. } loaded Ha6. }
  rewrite ntohs_len in Ha25 by lia. pose proof (get_at_length _ _ _ _ Ha25) as Hlen.
  assert (a27 = 0) as ->.
  { cut (znth a3 14 = Done 0); [rewrite Ha27; by intros [= ->]|].
    by rewrite (znth_put_in _ _ _ _ _ Ha3) by (cbn; lia). }
  assert (a26 = 64) as ->.
  { cut (znth a4 14 = Done 64); [rewrite Ha26; by intros [= ->]|].
    apply znth_get1. loaded Ha4. }
  rewrite (get_at_sub _ _ _ _ 36 2 Ha25), (get_at_sub _ _ _ _ 26 4 Ha25),
    (get_at_sub _ _ _ _ 30 4 Ha25), (get_at_sub _ _ _ _ 34 2 Ha25),
    (znth_get_sub _ _ _ _ 23 Ha25), (znth_get_sub _ _ _ _ 14 Ha25) by lia.
  cbn [Z.add Pos.add]. split_and!.
  - cut (get_at a22 6 6 = Done smac); [rewrite Ha23; by intros [= ->]|].
    replace 6 with (Z.of_nat (length smac)) at 2 by lia. loaded Ha1.
  - lia.
  - loaded Ha19.
  - loaded Ha12.
  - loaded Ha14.
  - apply znth_get1. loaded Ha10.
  - apply znth_get1. loaded Ha5.
  - loaded Ha17.
  - pose proof (proj1 (put_at_Done _ _ _ _) Ha22) as (_ & Hr & _).
    rewrite length_app in Hr. cbn [length] in Hr. put_lengths. lia.
  - put_lengths. lia.
Qed.

(** A frame for another port is dropped by the client, which keeps listening. *)
Lemma client_drops cbuf f :
  length cbuf = 1500%nat -> 42 <= Z.of_nat (length f) <= 1500 ->
  znth f 23 = Done 17 -> znth f 14 = Done 69 ->
  get_at f 34 2 = Done (le16 (htons SERVER_PORT)) ->
  get_at f 36 2 = Done (le16 (htons SERVER_PORT)) ->
  exists b n, receive_into cbuf f = Done (b, n) /\ client_receive b n = Done (b, None).
Proof.
  intros Hc Hf Hproto Hver Hsrc Hdst.
  unfold receive_into. rewrite take_ge by (unfold BUF_SIZE; lia).
  destruct (put_at_total cbuf 0 f) as (b & E & L); [lia | lia |].
  exists b, (Z.of_nat (length f)). rewrite E. split; [done|].
  assert (Hz : forall o, 0 <= o < 42 -> znth b o = znth f o).
  { intros o Ho. rewrite (znth_put_in _ _ _ _ _ E) by lia. f_equal. lia. }
  assert (Hg : forall o, 0 <= o <= 40 -> get_at b o 2 = get_at f o 2).
  { intros o Ho. by rewrite <- (get_put_in _ _ _ _ o 2 E) by lia. }
  unfold client_receive. unfold_fields. cbn [Z.add Pos.add].
  change (14 + 20) with 34. destruct (Z.ltb_spec (Z.of_nat (length f)) 34); [lia|].
  change (14 + 9) with 23. rewrite (Hz 23), Hproto by lia. cbn [mbind outcome_bind Z.eqb Pos.eqb negb].
  rewrite (Hz 14), Hver by lia. cbn [mbind outcome_bind].
  change (14 + Z.land 69 15 * 4 + 0) with 34. change (14 + Z.land 69 15 * 4 + 2) with 36.
  rewrite (Hg 34), (Hg 36), Hsrc, Hdst by lia. cbn [fmap outcome_fmap outcome_bind].
  reflexivity.
Qed.

Lemma server_receive_length buf bytes buf' rq :
  server_receive buf bytes = Done (buf', rq) -> length buf' = length buf.
Proof.
  unfold server_receive. intros H.
  repeat (first [case_match | obind_inv H]); simplify_eq; try done.
  match goal with E : zset _ _ _ = Done _ |- _ => by apply zset_length in E end.
Qed.

(** * The client table *)

Lemma set_counter_mac st i v st' : set_counter st i v = Done st' -> server_mac st' = server_mac st.
Proof. unfold set_counter. intros H. do 2 obind_inv H. by injection H as <-. Qed.

Lemma bump_mac st i st' n : bump st i = Done (st', n) -> server_mac st' = server_mac st.
Proof. unfold bump. intros H. do 3 obind_inv H. injection H as <- <-. by apply set_counter_mac in Ha1. Qed.

Lemma locate_mac st a p st' i : locate st a p = Done (st', i) -> server_mac st' = server_mac st.
Proof.
  unfold locate, add_client. intros H. case_match; [|by simplify_eq/=].
  obind_inv H. injection H as <- _. case_match; [by simplify_eq/=|]. obind_inv Ha. by injection Ha as <-.
Qed.

Lemma account_mac st rq st' o : account st rq = Done (st', o) -> server_mac st' = server_mac st.
Proof.
  unfold account. intros H. chain. apply locate_mac in Ha. case_match; chain.
  - injection H as <- _. apply set_counter_mac in Ha1. congruence.
  - injection H as <- _. apply bump_mac in Ha1. congruence.
Qed.

Lemma format_reply_length data n : (length (format_reply data n) <= 1499)%nat.
Proof. unfold format_reply, BUF_SIZE. rewrite length_take. lia. Qed.

Lemma account_reply_length st rq st' reply :
  account st rq = Done (st', Some reply) -> (length reply <= 1499)%nat.
Proof.
  unfold account. intros H. chain. case_match; chain; [done|].
  injection H as _ <-. apply format_reply_length.
Qed.

Lemma server_receive_ihl buf bytes buf' rq ihl :
  get_ihl buf ETH_HLEN = Done ihl -> server_receive buf bytes = Done (buf', Some rq) ->
  rq_iplen rq = ihl * 4.
Proof.
  unfold server_receive. intros Hi H. rewrite Hi in H.
  repeat (first [case_match | obind_inv H]); simplify_eq; try done.
  all: by match goal with E : Done _ = Done _ |- _ => injection E as <- end.
Qed.

(** * A request on its way to the server *)

Section request.
Variable inet_addr : list Z -> Z.

(** Buffers and configuration as [main] declares them. *)
Definition client_ready (cfg : config) (buf msg : list Z) : Prop :=
  length (client_mac cfg) = 6%nat /\ length (cl_server_mac cfg) = 6%nat /\
  Forall is_byte (client_mac cfg) /\ Forall is_byte (cl_server_mac cfg) /\
  length buf = 1500%nat /\ Forall is_byte buf /\ text msg.

(** The fields of the frame of a line of at most 1457 characters: it fits the
    buffer, and its IP header carries a correct checksum. *)
Lemma client_frame_fields cfg buf msg r :
  client_ready cfg buf msg -> (length msg <= 1457)%nat ->
  exists b f, client_frame inet_addr cfg buf (msg ++ 0 :: r) = Done (b, f) /\
    Z.of_nat (length f) = 42 + Z.of_nat (length msg) /\
    znth f 23 = Done 17 /\ znth f 14 = Done 69 /\
    get_at f 26 4 = Done (le32 (inet_addr (client_ip_str cfg))) /\
    get_at f 34 2 = Done (le16 (htons CLIENT_PORT)) /\
    get_at f 36 2 = Done (le16 (htons SERVER_PORT)) /\
    get_at f 42 (Z.of_nat (length msg)) = Done msg /\
    exists hdr, get_at f 14 20 = Done hdr /\ checksum hdr = 0.
Proof.
  intros (Hcm & Hsm & Hcb & Hsb & Hb & Hbb & Ht) Hl. unfold client_frame.
  rewrite strlen_app by done. cbn [mbind outcome_bind].
  unfold ETH_HLEN, IPHDR, UDPHDR, IPPROTO_UDP, load16, store16, store32,
    ip_tot_len, ip_id, ip_frag_off, ip_ttl, ip_protocol,
    ip_check, ip_saddr, ip_daddr, udp_source, udp_dest, udp_len, udp_check in *.
  rewrite Nat2Z.id, take_app_length.
  repeat done_step.
  edestruct set_version_ihl as (v1 & v2 & Hv1 & Ev1 & Hv2 & Ev2 & Lv1 & Lv2); [exact E2|].
  rewrite Hv1. cbn [mbind outcome_bind]. rewrite Hv2. cbn [mbind outcome_bind].
  repeat done_step.
  assert (get_ihl b9 14 = Done 5) as ->.
  { unfold get_ihl. assert (znth b9 14 = Done 69) as ->; [|done]. apply znth_get1. loaded Ev2. }
  cbn [mbind outcome_bind].
  destruct (get_at_total b9 14 (5 * 4)) as (hdr & Eh & _); [lia..|]. rewrite Eh.
  cbn [mbind outcome_bind]. change (5 * 4) with 20 in *.
  repeat done_step.
  destruct (zset_total b15 (14 + 20 + 8 + Z.of_nat (length msg)) 0) as (b16 & Hz & E16 & L16); [lia|].
  rewrite Hz. cbn [mbind outcome_bind].
  assert (get_at b16 (14 + 2) 2 = Done (le16 (htons (20 + 8 + Z.of_nat (length msg))))) as ->
    by (loaded E3).
  cbn [fmap outcome_fmap mbind outcome_bind]. rewrite ntohs_len by lia.
  destruct (get_at_total b16 0 (14 + (20 + 8 + Z.of_nat (length msg)))) as (f & Ef & Lf); [lia..|].
  rewrite Ef. exists b16, f. split; [done|].
  rewrite (znth_get_sub _ _ _ _ 23 Ef), (znth_get_sub _ _ _ _ 14 Ef), (get_at_sub _ _ _ _ 26 4 Ef),
    (get_at_sub _ _ _ _ 34 2 Ef), (get_at_sub _ _ _ _ 36 2 Ef),
    (get_at_sub _ _ _ _ 42 (Z.of_nat (length msg)) Ef), (get_at_sub _ _ _ _ 14 20 Ef) by lia.
  cbn [Z.add Pos.add]. split_and!.
  - lia.
  - apply znth_get1. loaded E7.
  - apply znth_get1. loaded Ev2.
  - loaded E8.
  - loaded E11.
  - loaded E12.
  - loaded E15.
  - assert (Hhb : Forall is_byte hdr).
    { eapply get_at_bytes; [exact Eh|]. put_bytes. }
    destruct (header_checksum _ _ _ _ Eh ltac:(peel; rewrite (get_put_in _ _ _ _ _ _ E2) by (cbn; lia); done) Hhb E10)
      as (hdr' & Hh' & Hc').
    exists hdr'. split; [|done]. peel. exact Hh'.
Qed.
End request.

(** ** The table refines a finite map of counters *)

Definition key (c : client_t) : Z * Z := (ip c, port c).

Definition table (st : server) : list client_t := take (Z.to_nat (client_count st)) (clients st).

(** The abstract state: the counter of every known client. *)
Definition view (st : server) : gmap (Z * Z) Z :=
  list_to_map ((fun c => (key c, counter c)) <$> table st).

(** The table has room for 100 clients, each recorded once. *)
Definition wf (st : server) : Prop :=
  length (clients st) = 100%nat /\ 0 <= client_count st <= 100 /\ NoDup (key <$> table st).

(** What the server promises: one counter per client, reset by [CLOSE], incremented by
    every other message, whose new value is the answer. *)
Definition spec_message (m : gmap (Z * Z) Z) (k : Z * Z) (msg : list Z)
    : gmap (Z * Z) Z * option Z :=
  if decide (msg = str "CLOSE") then (<[k := 0]> m, None)
  else let n := default 0 (m !! k) + 1 in (<[k := n]> m, Some n).

Lemma table_keys st : ((fun c => (key c, counter c)) <$> table st).*1 = key <$> table st.
Proof. rewrite <- list_fmap_compose. done. Qed.

Lemma table_length st : wf st -> Z.of_nat (length (table st)) = client_count st.
Proof. intros (Hl & Hc & _). unfold table. rewrite length_take. lia. Qed.

Lemma same_client_key a p c : same_client a p c = true <-> key c = (a, p).
Proof.
  unfold same_client, key. rewrite andb_true_iff, !Z.eqb_eq.
  split; [by intros [-> ->] | by intros [= -> ->]].
Qed.

Lemma view_lookup st i c : wf st -> table st !! i = Some c -> view st !! key c = Some (counter c).
Proof.
  intros (_ & _ & Hnd) Hi. apply elem_of_list_to_map_1; [by rewrite table_keys|].
  apply list_elem_of_fmap. exists c. split; [done|]. by eapply list_elem_of_lookup_2.
Qed.

(** A linear search of the table is a lookup in the map. *)
Lemma find_client_spec st a p : wf st ->
  (find_client st a p = -1 /\ view st !! (a, p) = None) \/
  (exists i c, find_client st a p = Z.of_nat i /\ table st !! i = Some c /\ key c = (a, p)).
Proof.
  intros Hwf. unfold find_client. fold (table st).
  destruct (find_from (same_client a p) 0 (table st)) as [i|] eqn:E.
  - right. apply find_from_Some in E as (_ & (c & Hc & Hk) & _).
    rewrite Nat.sub_0_r in Hc. exists i, c. by apply same_client_key in Hk.
  - left. split; [done|]. apply find_from_None in E. rewrite Forall_forall in E.
    apply not_elem_of_list_to_map_1. rewrite table_keys. intros Hin.
    apply list_elem_of_fmap in Hin as (c & Hk & Hc). specialize (E c Hc).
    assert (same_client a p c = true) by (by apply same_client_key). congruence.
Qed.

Lemma lookup_table st i : wf st -> 0 <= i < client_count st ->
  exists c, znth (clients st) i = Done c /\ table st !! Z.to_nat i = Some c.
Proof.
  intros (Hl & Hc & _) Hi. destruct (znth_ok (clients st) i) as (c & Hz & Hc'); [lia|].
  exists c. split; [done|]. unfold table. rewrite lookup_take_lt by lia. done.
Qed.

Lemma set_counter_spec st i v : wf st -> 0 <= i < client_count st ->
  exists st' c, set_counter st i v = Done st' /\ table st !! Z.to_nat i = Some c /\ wf st' /\
    client_count st' = client_count st /\ view st' = <[key c := v]> (view st).
Proof.
  intros Hwf Hi. destruct (lookup_table st i Hwf Hi) as (c & Hz & Ht).
  unfold set_counter. rewrite Hz. cbn [mbind outcome_bind].
  pose proof Hwf as (Hl & Hc & Hnd).
  rewrite zset_ok by lia. cbn [outcome_bind]. eexists _, c.
  split_and!; [done | done | | done | ].
  - unfold wf, table. cbn. rewrite length_insert, take_insert_lt by lia.
    split_and!; [done | lia | lia |]. rewrite list_fmap_insert. fold (table st).
    change (key (Client (ip c) (port c) v)) with (key c).
    rewrite list_insert_id; [done|]. rewrite list_lookup_fmap, Ht. done.
  - unfold view, table. cbn. rewrite take_insert_lt by lia. fold (table st).
    rewrite list_fmap_insert. apply list_to_map_update with (counter c).
    + by rewrite table_keys.
    + rewrite list_lookup_fmap, Ht. done.
Qed.

Lemma add_client_spec st a p : wf st -> client_count st < 100 -> view st !! (a, p) = None ->
  exists st', add_client st a p = Done st' /\ wf st' /\ client_count st' = client_count st + 1 /\
    view st' = <[(a, p) := 0]> (view st) /\
    table st' !! Z.to_nat (client_count st) = Some (Client a p 0).
Proof.
  intros Hwf Hlt Hnone. pose proof Hwf as (Hl & Hc & Hnd). unfold add_client.
  destruct (Z.leb_spec 100 (client_count st)); [lia|].
  rewrite zset_ok by lia. cbn [mbind outcome_bind]. eexists. split; [done|].
  assert (Ht : take (Z.to_nat (client_count st + 1))
                 (<[Z.to_nat (client_count st) := Client a p 0]> (clients st))
               = table st ++ [Client a p 0]).
  { rewrite Z2Nat.inj_add, Nat.add_1_r by lia. unfold table.
    rewrite insert_take_drop by lia.
    rewrite take_app_ge by len. rewrite length_take_le by lia.
    rewrite Nat.sub_succ_l, Nat.sub_diag by lia. cbn. done. }
  assert (Hfresh : (a, p) ∉ key <$> table st).
  { intros Hin. apply list_elem_of_fmap in Hin as (c & Hk & Hcin).
    apply list_elem_of_lookup_1 in Hcin as [i Hi].
    pose proof (view_lookup st i c Hwf Hi) as Hv. rewrite <- Hk in Hv. congruence. }
  unfold wf, view, table at 1 2 3. cbn [clients client_count]. rewrite Ht.
  rewrite !fmap_app. split_and!; try lia.
  - by rewrite length_insert.
  - apply NoDup_app. split_and!; [done | | apply NoDup_singleton].
    intros x Hx Hx'. cbn in Hx'. apply list_elem_of_singleton in Hx' as ->. done.
  - cbn. rewrite list_to_map_snoc; [done|]. fold (table st). by rewrite table_keys.
  - unfold table at 1. cbn [clients client_count]. rewrite Ht.
    rewrite lookup_app_r by (pose proof (table_length st Hwf); lia).
    pose proof (table_length st Hwf). replace (_ - _)%nat with 0%nat by lia. done.
Qed.

Lemma close_text : text (str "CLOSE").
Proof. vm_compute. repeat constructor. Qed.

Lemma streq_lit a s : terminated a -> text (str s) ->
  streq a (lit s) = Done (bool_decide (cstr a = str s)).
Proof.
  intros Ha Hs. destruct (text_str_lit s Hs) as [Ht Hc].
  by rewrite streq_terminated, Hc by done.
Qed.

(** Where a request finds its counter, when the table has room for it. *)
Lemma locate_spec st a p : wf st -> client_count st < 100 \/ is_Some (view st !! (a, p)) ->
  exists st' i c, locate st a p = Done (st', i) /\ wf st' /\ 0 <= i < client_count st' /\
    table st' !! Z.to_nat i = Some c /\ key c = (a, p) /\
    counter c = default 0 (view st !! (a, p)) /\
    (forall v, <[(a, p) := v]> (view st') = <[(a, p) := v]> (view st)).
Proof.
  intros Hwf Hroom. unfold locate.
  destruct (find_client_spec st a p Hwf) as [[-> Hnone]|(i & c & -> & Hc & Hk)].
  - cbn [Z.eqb Pos.eqb]. destruct Hroom as [Hlt|[v Hv]]; [|congruence].
    destruct (add_client_spec st a p Hwf Hlt Hnone) as (st' & -> & Hwf' & Hn & Hv & Ht).
    cbn [mbind outcome_bind]. exists st', (client_count st' - 1), (Client a p 0). rewrite Hnone, Hn.
    pose proof Hwf as (_ & Hc & _).
    split_and!; [done | done | lia | lia | | done | done |].
    + replace (client_count st + 1 - 1) with (client_count st) by lia. exact Ht.
    + intros v. rewrite Hv. by rewrite insert_insert_eq.
  - destruct (Z.eqb_spec (Z.of_nat i) (-1)); [lia|].
    pose proof (table_length st Hwf) as Hl. pose proof (lookup_lt_Some _ _ _ Hc) as Hi.
    exists st, (Z.of_nat i), c. rewrite Nat2Z.id.
    split_and!; try done; try lia.
    rewrite <- Hk, (view_lookup st i c) by done. done.
Qed.

(** C1 One counter per client: on every request of a client that is in the table or
    fits into it, the server does what [spec_message] says. The client starts at
    zero, [CLOSE] resets the counter and is not answered, and any other message is
    answered with itself followed by the incremented counter. *)
Theorem account_refines st rq :
  wf st -> terminated (rq_data rq) ->
  client_count st < 100 \/ is_Some (view st !! (rq_ip rq, rq_port rq)) ->
  is_int (default 0 (view st !! (rq_ip rq, rq_port rq)) + 1) ->
  exists st', wf st' /\
    account st rq = Done (st',
      format_reply (rq_data rq) <$> (spec_message (view st) (rq_ip rq, rq_port rq) (cstr (rq_data rq))).2) /\
    view st' = (spec_message (view st) (rq_ip rq, rq_port rq) (cstr (rq_data rq))).1.
Proof.
  intros Hwf Ht Hroom Hint. unfold account, spec_message.
  destruct (locate_spec st _ _ Hwf Hroom) as (st1 & i & c & -> & Hwf1 & Hi & Hc & Hk & Hcnt & Hview).
  cbn [mbind outcome_bind]. rewrite streq_lit by (done || apply close_text). cbn [outcome_bind].
  destruct (set_counter_spec st1 i 0 Hwf1 Hi) as (st0 & c0 & Hset0 & Hc0 & Hwf0 & _ & Hv0).
  destruct (set_counter_spec st1 i (counter c + 1) Hwf1 Hi) as (st2 & c2 & Hset2 & Hc2 & Hwf2 & _ & Hv2).
  rewrite <- Hcnt in *. apply int_result_Done2 in Hint.
  rewrite Hc in Hc0, Hc2. injection Hc0 as <-. injection Hc2 as <-. rewrite Hk, Hview in Hv0, Hv2.
  destruct (decide (cstr (rq_data rq) = str "CLOSE")) as [Heq|Hne].
  - rewrite bool_decide_eq_true_2 by done. rewrite Hset0. by exists st0.
  - rewrite bool_decide_eq_false_2 by done. unfold bump.
    destruct (lookup_table st1 i Hwf1 Hi) as (c' & -> & Hc').
    rewrite Hc in Hc'. injection Hc' as <-. cbn [mbind outcome_bind]. unfold iadd.
    rewrite Hint. cbn [mbind outcome_bind]. rewrite Hset2. by exists st2.
Qed.

(** C2 The echo never arrives. Whatever request without IP options the server answers,
    the reply comes from the server's port and goes to the server's own port and MAC address,
    both IP addresses are zero, and the client drops it: the reply is built in the buffer over
    the request it is built from. *)
Theorem echo_reply_never_accepted st buf bytes st' buf' s cbuf :
  length (server_mac st) = 6%nat -> length buf = 1500%nat -> length cbuf = 1500%nat ->
  get_ihl buf ETH_HLEN = Done 5 ->
  server_step st buf bytes = Done (st', buf', Some s) ->
  sll_addr s = server_mac st /\
  load32 (frame s) (ETH_HLEN + ip_saddr) = Done 0 /\
  load32 (frame s) (ETH_HLEN + ip_daddr) = Done 0 /\
  (udp ← load16 (frame s) (ETH_HLEN + IPHDR + udp_source); Done (ntohs udp)) = Done SERVER_PORT /\
  (udp ← load16 (frame s) (ETH_HLEN + IPHDR + udp_dest); Done (ntohs udp)) = Done SERVER_PORT /\
  exists b n, receive_into cbuf (frame s) = Done (b, n) /\ client_receive b n = Done (b, None).
Proof.
  intros Hm Hb Hc Hi H. unfold server_step in H. chain. case_match; [|done]. chain. case_match; [|done].
  chain. injection H as <- <- <-.
  pose proof (server_receive_ihl _ _ _ _ _ Hi Ha) as Hip.
  pose proof (server_receive_length _ _ _ _ Ha) as Hl.
  pose proof (account_mac _ _ _ _ Ha0) as Hmac.
  pose proof (account_reply_length _ _ _ _ Ha0) as Hr.
  rewrite Hip, Hmac in Ha1.
  apply build_reply_fields in Ha1 as (? & ? & Hdst & Hs & Hd & ? & ? & Hsrc & ? & ?); [|done|lia].
  split; [done|]. unfold load32, load16. change (ETH_HLEN + ip_saddr) with 26. change (ETH_HLEN + ip_daddr) with 30.
  change (ETH_HLEN + IPHDR + udp_source) with 34. change (ETH_HLEN + IPHDR + udp_dest) with 36.
  rewrite Hs, Hd, Hdst, Hsrc. split_and!; [done | done | done | done |]. apply client_drops; try done. lia.
Qed.

Lemma drop_at (l : list Z) o n r x :
  get_at l o n = Done r -> znth l (o + n) = Done x ->
  exists rest, drop (Z.to_nat o) l = r ++ x :: rest.
Proof.
  unfold get_at. intros H Hx. zbool; cbn in H; try done. injection H as <-.
  apply znth_Done in Hx as [_ Hx]. exists (drop (S (Z.to_nat n)) (drop (Z.to_nat o) l)).
  symmetry. apply take_drop_middle. rewrite lookup_drop, <- Hx. f_equal. lia.
Qed.

Section request_received.
Variable inet_addr : list Z -> Z.
Hypothesis inet_addr_range : forall s, 0 <= inet_addr s < 2 ^ 32.

(** C4 A line of 1 to 1457 characters is delivered: the frame the client builds for
    it carries a correct IP checksum, passes the server's filter, and the server reads
    the client's address and port and the characters of the line out of it. *)
Theorem request_received cfg cbuf msg r sbuf :
  client_ready cfg cbuf msg -> (1 <= length msg <= 1457)%nat -> length sbuf = 1500%nat ->
  exists b f hdr sb n sb' rq,
    client_frame inet_addr cfg cbuf (msg ++ 0 :: r) = Done (b, f) /\
    get_at f ETH_HLEN IPHDR = Done hdr /\ checksum hdr = 0 /\
    receive_into sbuf f = Done (sb, n) /\
    server_receive sb n = Done (sb', Some rq) /\
    rq_ip rq = inet_addr (client_ip_str cfg) /\ rq_port rq = CLIENT_PORT /\
    rq_iplen rq = 20 /\ terminated (rq_data rq) /\ cstr (rq_data rq) = msg.
Proof using inet_addr_range.
  intros Hready Hmsg Hsb.
  destruct (client_frame_fields inet_addr cfg cbuf msg r Hready ltac:(lia))
    as (b & f & Hf & Hfl & Hproto & Hver & Haddr & Hsrc & Hdst & Hdata & hdr & Hh & Hcheck).
  destruct Hready as (_ & _ & _ & _ & _ & _ & Ht).
  destruct (put_at_total sbuf 0 f) as (sb & E & L); [lia | lia |].
  destruct (zset_total sb (42 + Z.of_nat (length msg)) 0) as (sb' & Hz & E' & L'); [lia|].
  exists b, f, hdr, sb, (Z.of_nat (length f)), sb'.
  eexists (Request (inet_addr (client_ip_str cfg)) CLIENT_PORT 20 (drop 42 sb')).
  unfold receive_into. cbv zeta. rewrite (take_ge f) by (unfold BUF_SIZE; lia).
  rewrite E. cbn [rq_ip rq_port rq_iplen rq_data].
  assert (Hzn : forall o, 0 <= o < 42 -> znth sb o = znth f o).
  { intros o Ho. rewrite (znth_put_in _ _ _ _ _ E) by lia. f_equal. lia. }
  assert (Hg : forall o m, 0 <= o -> o + m <= 42 + Z.of_nat (length msg) -> get_at sb o m = get_at f o m).
  { intros o m Ho Hm. by rewrite <- (get_put_in _ _ _ _ o m E) by lia. }
  destruct (drop_at sb' 42 (Z.of_nat (length msg)) msg 0) as [rest Hrest].
  { rewrite (get_put_out _ _ _ _ _ _ E') by lia. rewrite Hg by lia. exact Hdata. }
  { rewrite (znth_put_in _ _ _ _ _ E') by (cbn [length]; lia). by rewrite Z.sub_diag. }
  change (Z.to_nat 42) with 42%nat in Hrest. rewrite Hrest.
  split_and!; try done; [| apply elem_of_app; right; left | by apply cstr_app].
  unfold server_receive. unfold_fields. cbn [Z.add Pos.add].
  change (14 + 20) with 34. change (14 + 9) with 23. change (14 + 12) with 26.
  destruct (Z.ltb_spec (Z.of_nat (length f)) 34); [lia|].
  rewrite (Hzn 23), Hproto by lia. cbn [mbind outcome_bind Z.eqb Pos.eqb negb].
  rewrite (Hzn 14), Hver by lia. cbn [mbind outcome_bind].
  change (Z.land 69 15 * 4) with 20. change (14 + 20 + 2) with 36. change (14 + 20 + 0) with 34.
  rewrite (Hg 36), (Hg 34), (Hg 26), Hdst, Hsrc, Haddr by lia. cbn [fmap outcome_fmap mbind outcome_bind].
  rewrite !of_le_le16 by apply htons_range. rewrite !ntohs_htons.
  change (u16 SERVER_PORT) with 12345. change (u16 CLIENT_PORT) with CLIENT_PORT.
  rewrite !Z.eqb_refl. cbn [negb orb].
  rewrite of_le_le32 by apply inet_addr_range.
  rewrite to_int_id by (unfold_int; lia).
  destruct (Z.leb_spec (Z.of_nat (length f) - 14 - 20 - 8) 0); [lia|].
  destruct (Z.leb_spec BUF_SIZE (Z.of_nat (length f) - 14 - 20 - 8)) as [Hbig|_]; [unfold BUF_SIZE in Hbig; lia|].
  cbn [orb]. replace (14 + 20 + 8 + _) with (42 + Z.of_nat (length msg)) by lia.
  rewrite Hz. cbn [mbind outcome_bind]. do 3 f_equal. by rewrite <- Hrest.
Qed.
End request_received.

Lemma ihl_range x : 0 <= Z.land x 15 < 16.
Proof. change 15 with (Z.ones 4). rewrite Z.land_ones by lia. apply Z.mod_pos_bound. lia. Qed.

(** A frame that leaves a byte of the buffer is always handled. *)
Lemma server_receive_defined buf bytes :
  length buf = 1500%nat -> -1 <= bytes < 1500 -> defined (server_receive buf bytes).
Proof.
  intros Hb Hn. destruct (znth_ok buf 14) as (x & Hx & _); [lia|]. pose proof (ihl_range x) as Hi.
  unfold server_receive. case_match; [by eexists|].
  destruct (znth_ok buf (ETH_HLEN + ip_protocol)) as (p & -> & _);
    [unfold ETH_HLEN, ip_protocol; lia|]. cbn [mbind outcome_bind].
  case_match; [by eexists|]. unfold get_ihl. change ETH_HLEN with 14. rewrite Hx. cbn [mbind outcome_bind].
  unfold load16, load32, udp_dest, udp_source, ip_saddr, UDPHDR.
  repeat (total_step || (case_match; [by eexists|])).
  destruct (zset_total buf (14 + Z.land x 15 * 4 + 8 + to_int (bytes - 14 - Z.land x 15 * 4 - 8)) 0)
    as (b' & -> & _); [|by eexists].
  rewrite to_int_id by (unfold_int; lia).
  match goal with H : _ || _ = false |- _ => apply orb_false_iff in H as [Hge _] end.
  rewrite to_int_id in Hge by (unfold_int; lia). apply Z.leb_gt in Hge. lia.
Qed.

(** C21 The receive buffer is overrun exactly by a frame that fills it: a shorter frame is
    always handled, and any frame the server would accept, one that [recvfrom] cut to
    the 1500 bytes of the buffer makes [data[data_len] = 0] a write past its end. *)
Theorem server_receive_bounds buf bytes :
  length buf = 1500%nat -> -1 <= bytes <= 1500 ->
  (bytes < 1500 -> defined (server_receive buf bytes)) /\
  (bytes = 1500 -> forall b rq, server_receive buf 1499 = Done (b, Some rq) ->
     server_receive buf bytes = Undef OutOfBounds).
Proof.
  intros Hb Hn. split; [intros Hlt; apply server_receive_defined; [done|lia]|].
  intros -> b rq H. destruct (znth_ok buf 14) as (x & Hx & _); [lia|]. pose proof (ihl_range x) as Hi.
  unfold server_receive in *.
  unfold get_ihl in *. change ETH_HLEN with 14 in *. change IPHDR with 20 in *.
  destruct (znth buf (14 + ip_protocol)); [|cbn in H; discriminate].
  cbn [mbind outcome_bind] in *. case_match; [done|]. case_match; [done|].
  rewrite Hx in *. cbn [mbind outcome_bind] in *.
  change (1500 <? 14 + 20) with false. cbv iota.
  destruct (load16 buf (14 + Z.land x 15 * 4 + udp_dest)); [|cbn in H; discriminate].
  cbn [mbind outcome_bind] in *.
  destruct (load16 buf (14 + Z.land x 15 * 4 + udp_source)); [|cbn in H; discriminate].
  cbn [mbind outcome_bind] in *.
  case_match; [done|]. destruct (load32 buf (14 + ip_saddr)); [|cbn in H; discriminate]. cbn [mbind outcome_bind] in *.
  unfold UDPHDR, BUF_SIZE in *. rewrite to_int_id in * by (unfold_int; lia).
  zbool; cbn [orb] in *; try done; try lia.
  rewrite zset_oob by lia. done.
Qed.

(** C22 When the table is full, a new client is given the last slot: it is not recorded,
    and its messages count as those of the client that is there. *)
Theorem full_table_shares_slot st a p c :
  wf st -> client_count st = 100 -> view st !! (a, p) = None ->
  table st !! 99%nat = Some c -> is_int (counter c + 1) ->
  locate st a p = Done (st, 99) /\
  exists st', bump st 99 = Done (st', counter c + 1) /\
    view st' = <[key c := counter c + 1]> (view st) /\ view st' !! (a, p) = None.
Proof.
  intros Hwf Hfull Hnone Hc Hint. split.
  - unfold locate, add_client. destruct (find_client_spec st a p Hwf) as [[-> _]|(i & d & _ & Hd & Hk)].
    + rewrite Hfull. cbn. by rewrite Hfull.
    + pose proof (view_lookup st i d Hwf Hd) as Hv. rewrite Hk in Hv. congruence.
  - unfold bump. destruct (lookup_table st 99 Hwf ltac:(lia)) as (c' & -> & Hc').
    change (Z.to_nat 99) with 99%nat in Hc'. rewrite Hc in Hc'. injection Hc' as <-.
    cbn [mbind outcome_bind]. unfold iadd. rewrite (int_result_Done2 _ Hint). cbn [mbind outcome_bind].
    destruct (set_counter_spec st 99 (counter c + 1) Hwf ltac:(lia)) as (st' & d & -> & Hd & _ & _ & Hv).
    change (Z.to_nat 99) with 99%nat in Hd. rewrite Hc in Hd. injection Hd as <-.
    exists st'. split_and!; [done | done |]. rewrite Hv. rewrite lookup_insert_ne; [done|].
    intros Heq. pose proof (view_lookup st 99 c Hwf Hc). congruence.
Qed.

(** * Concrete runs *)

Definition demo_inet_addr (_ : list Z) : Z := 16777343.
Definition demo_cfg : config :=
  Config (lit "192.168.1.100") (lit "192.168.1.200") [0; 17; 34; 51; 68; 85] [102; 119; 136; 153; 170; 187].
Definition demo_mac : list Z := [148; 187; 67; 13; 86; 163].
Definition zeros : list Z := replicate 1500 0.

(** The server's buffer after the client sent the line "hi". *)
Definition demo_buf : list Z :=
  match client_frame demo_inet_addr demo_cfg zeros (lit "hi") with
  | Done (_, f) => match receive_into zeros f with Done (b, _) => b | Undef _ => [] end
  | Undef _ => []
  end.

Definition demo_rq : request := Request 16777343 CLIENT_PORT 20 (lit "hi").

(** A table whose hundred slots are taken. *)
Definition full_server : server :=
  Server ((fun i => Client (Z.of_nat i) CLIENT_PORT 7) <$> seq 0 100) 100 demo_mac.

Lemma full_server_wf : wf full_server.
Proof.
  split_and!; [done | cbn; lia | cbn; lia |].
  apply (bool_decide_unpack _). by vm_compute.
Qed.

Lemma init_server_wf smac : wf (init_server smac).
Proof. split_and!; [done | cbn; lia | cbn; lia |]. cbn. constructor. Qed.

Lemma account_refines_witness :
  exists st', wf st' /\
    account (init_server demo_mac) demo_rq = Done (st', Some (str "hi 1")) /\
    view st' = {[(16777343, CLIENT_PORT) := 1]}.
Proof.
  apply (account_refines (init_server demo_mac) demo_rq).
  - apply init_server_wf.
  - apply (bool_decide_unpack _). by vm_compute.
  - left. done.
  - vm_compute. by split.
Defined.

Lemma echo_reply_never_accepted_witness :
  exists st' buf' s,
    server_step (init_server demo_mac) demo_buf 44 = Done (st', buf', Some s) /\
    sll_addr s = demo_mac /\
    (udp ← load16 (frame s) (ETH_HLEN + IPHDR + udp_dest); Done (ntohs udp)) = Done SERVER_PORT /\
    exists b n, receive_into zeros (frame s) = Done (b, n) /\ client_receive b n = Done (b, None).
Proof.
  assert (H : exists st' buf' s,
    server_step (init_server demo_mac) demo_buf 44 = Done (st', buf', Some s)).
  { eexists _, _, _. vm_compute. reflexivity. }
  destruct H as (st' & buf' & s & E). exists st', buf', s. split; [exact E|].
  destruct (echo_reply_never_accepted (init_server demo_mac) demo_buf 44 st' buf' s zeros)
    as (H1 & _ & _ & _ & H2 & H4); [done | by vm_compute | done | by vm_compute | exact E |].
  split_and!; [exact H1 | exact H2 | exact H4].
Defined.

Lemma request_received_witness :
  exists b f hdr sb n sb' rq,
    client_frame demo_inet_addr demo_cfg zeros (lit "hi") = Done (b, f) /\
    get_at f ETH_HLEN IPHDR = Done hdr /\ checksum hdr = 0 /\
    receive_into zeros f = Done (sb, n) /\ server_receive sb n = Done (sb', Some rq) /\
    rq_ip rq = 16777343 /\ rq_port rq = CLIENT_PORT /\ rq_iplen rq = 20 /\
    terminated (rq_data rq) /\ cstr (rq_data rq) = str "hi".
Proof.
  apply (request_received demo_inet_addr ltac:(unfold demo_inet_addr; lia) demo_cfg zeros (str "hi") [] zeros).
  - repeat split; try done; apply (bool_decide_unpack _); by vm_compute.
  - cbn. lia.
  - done.
Defined.

Lemma server_receive_bounds_witness :
  defined (server_receive demo_buf 44) /\
  server_receive demo_buf 1500 = Undef OutOfBounds.
Proof.
  split.
  - apply (server_receive_bounds demo_buf 44); [by vm_compute | lia | lia].
  - eapply (server_receive_bounds demo_buf 1500); [by vm_compute | lia | lia | vm_compute; reflexivity].
Defined.

Lemma full_table_shares_slot_witness :
  locate full_server 1 CLIENT_PORT = Done (full_server, 1) /\
  locate full_server 200 CLIENT_PORT = Done (full_server, 99) /\
  exists st', bump full_server 99 = Done (st', 8) /\
    view st' = <[(99, CLIENT_PORT) := 8]> (view full_server) /\ view st' !! (200, CLIENT_PORT) = None.
Proof.
  split; [by vm_compute|].
  apply (full_table_shares_slot full_server 200 CLIENT_PORT (Client 99 CLIENT_PORT 7)).
  - apply full_server_wf.
  - done.
  - by vm_compute.
  - done.
  - vm_compute. by split.
Defined.
