(* ===== verification/Drivers.v ===== *)
(** The taxi dispatcher of src/final_hw_2/main.c: a command line that creates driver
    processes and gives them tasks, a process that accepts the connections of the
    drivers, and the drivers.

    The three run in processes of their own. Each is a program over the copy of the
    globals it got from [fork]: [command_loop] is the parent, [connection_loop] the
    process forked before the first command, [driver_main] a driver. *)

From S2P Require Import Prelude CInt CStr Stdio Sys.

Definition MAX_DRIVERS : Z := 100.
Definition SOCKET_PATH : list Z := str "/tmp/cli_drivers.sock".
Definition BUF_SIZE : Z := 256.
Definition MAX_EVENTS : Z := 50.
Definition EINTR : Z := 4.
Definition ENOENT : Z := 2.
Definition EAGAIN : Z := 11.
Definition ECONNREFUSED : Z := 111.
Definition EPOLLIN : Z := 1.
Definition SIGTERM : Z := 15.
Definition AF_UNIX : Z := 1.
Definition SOCK_STREAM : Z := 1.

Record Driver := MkDriver {
  pid : Z; task_timer : Z; task_end_time : Z; sock_fd : Z; active : Z;
  recv_buf : list Z; recv_len : Z }.

(** The globals. *)
Record dispatch := Dispatch {
  drivers : list Driver; driver_count : Z; server_sock : Z; epoll_fd : Z }.

Definition set_driver (st : dispatch) (i : Z) (d : Driver) : outcome dispatch :=
  ds ← zset (drivers st) i d; Done (Dispatch ds (driver_count st) (server_sock st) (epoll_fd st)).

Definition table (st : dispatch) : list Driver := take (Z.to_nat (driver_count st)) (drivers st).

Definition index_of (o : option nat) : Z := match o with Some i => Z.of_nat i | None => -1 end.

Definition is_pid (p : Z) (d : Driver) : bool := (pid d =? p) && negb (active d =? 0).
Definition is_fd (fd : Z) (d : Driver) : bool := negb (active d =? 0) && (sock_fd d =? fd).

Definition find_driver (st : dispatch) (p : Z) : Z := index_of (find_from (is_pid p) 0 (table st)).
Definition find_driver_by_fd (st : dispatch) (fd : Z) : Z := index_of (find_from (is_fd fd) 0 (table st)).

(** [task_timer > 0 && now < task_end_time]. *)
Definition busy (d : Driver) (now : Z) : bool := (0 <? task_timer d) && (now <? task_end_time d).

Definition print_driver_status (st : dispatch) (index : Z) : prog unit :=
  d ← of_outcome (znth (drivers st) index);
  now ← sys c_time;
  if busy d now
  then sys_ (c_print "Driver PID %d: Busy %d sec\n" [print_d (pid d); print_d (to_int (task_end_time d - now))])
  else sys_ (c_print "Driver PID %d: Available\n" [print_d (pid d)]).

Definition print_all_drivers (st : dispatch) : prog unit :=
  if driver_count st =? 0 then sys_ (c_print "No drivers created.\n" [])
  else
    sys_ (c_print "Active drivers:\n" []);;
    foreach (seqZ 0 (driver_count st)) (fun i _ =>
      d ← of_outcome (znth (drivers st) i);
      if negb (active d =? 0) then print_driver_status st i else Ret tt) tt.

Definition send_to_driver (st : dispatch) (drv_index : Z) (cmd : list Z) : prog unit :=
  d ← of_outcome (znth (drivers st) drv_index);
  if 0 <=? sock_fd d then
    len ← of_outcome (strlen cmd);
    n ← sys (c_send (sock_fd d) (take (Z.to_nat len) cmd));
    if n <? 0 then sys_ (c_perror "send_to_driver failed") else Ret tt
  else Ret tt.

(** The response is printed and the buffer emptied. *)
Definition handle_driver_response (st : dispatch) (drv_index : Z) : prog dispatch :=
  d ← of_outcome (znth (drivers st) drv_index);
  sys_ (c_print "[Driver %d response]: %.*s"
          [print_d (pid d); take (Z.to_nat (recv_len d)) (cstr (recv_buf d))]);;
  of_outcome (set_driver st drv_index
    (MkDriver (pid d) (task_timer d) (task_end_time d) (sock_fd d) (active d) (recv_buf d) 0)).

Definition add_to_epoll (st : dispatch) (fd : Z) : prog unit :=
  n ← sys (c_epoll_add (epoll_fd st) fd);
  if n <? 0 then sys_ (c_perror "epoll_ctl add failed") else Ret tt.

Definition modify_epoll (st : dispatch) (fd : Z) : prog unit :=
  n ← sys (c_epoll_mod (epoll_fd st) fd);
  if n <? 0 then sys_ (c_perror "epoll_ctl mod failed") else Ret tt.

(** * The connection process *)

(** The [pid_t] the driver sent, in a variable initialised to 0. *)
Definition received_pid (data : list Z) : Z := to_int (of_le data).

Definition set_sock (d : Driver) (fd : Z) : Driver :=
  MkDriver (pid d) (task_timer d) (task_end_time d) fd (active d) (recv_buf d) (recv_len d).

(** A new connection: the driver is found by the pid it sends, or rejected. *)
Definition accept_driver (st : dispatch) : prog dispatch :=
  r ← sys_full (c_accept (server_sock st));
  let client_sock := r_val r in
  if client_sock <? 0 then
    if (r_errno r =? EINTR) || (r_errno r =? EAGAIN) then Ret st
    else sys_ (c_perror "accept failed");; Ret st
  else
    sys_ (c_fcntl client_sock);;
    sys_ (c_fcntl client_sock);;
    '(n, data) ← sys_data (c_recv client_sock 4);
    if n <=? 0 then sys_ (c_close client_sock);; Ret st
    else
      let client_pid := received_pid data in
      let index := find_driver st client_pid in
      if 0 <=? index then
        d ← of_outcome (znth (drivers st) index);
        st ← of_outcome (set_driver st index (set_sock d client_sock));
        sys_ (c_print "[CLI] Driver %d connected (fd=%d)\n" [print_d client_pid; print_d client_sock]);;
        add_to_epoll st client_sock;;
        Ret st
      else
        sys_ (c_print "[CLI] Unknown driver %d rejected\n" [print_d client_pid]);;
        sys_ (c_close client_sock);;
        Ret st.

(** Data from a driver, or the end of its connection. *)
Definition read_driver (st : dispatch) (fd : Z) : prog dispatch :=
  let index := find_driver_by_fd st fd in
  if 0 <=? index then
    d ← of_outcome (znth (drivers st) index);
    r ← sys_full (c_recv fd (BUF_SIZE - recv_len d - 1));
    let n := r_val r in
    if 0 <? n then
      b ← of_outcome (put_at (recv_buf d) (recv_len d) (r_data r));
      len ← of_outcome (iadd (recv_len d) n);
      b ← of_outcome (zset b len 0);
      st ← of_outcome (set_driver st index
             (MkDriver (pid d) (task_timer d) (task_end_time d) (sock_fd d) (active d) b len));
      handle_driver_response st index
    else if (n =? 0) || ((n <? 0) && negb (r_errno r =? EAGAIN)) then
      sys_ (c_print "[CLI] Driver %d disconnected\n" [print_d (pid d)]);;
      sys_ (c_close fd);;
      st ← of_outcome (set_driver st index (set_sock d (-1)));
      modify_epoll st (server_sock st);;
      Ret st
    else Ret st
  else Ret st.

Definition handle_event (ev : Z * Z) (st : dispatch) : prog dispatch :=
  let '(fd, events) := ev in
  if fd =? server_sock st then accept_driver st
  else if negb (Z.land events EPOLLIN =? 0) then read_driver st fd
  else Ret st.

Definition handle_connections_and_drivers (fuel : nat) (st : dispatch) : prog unit :=
  forever fuel (fun st =>
    '(nfds, data) ← sys_data (c_epoll_wait (epoll_fd st) MAX_EVENTS);
    st ← foreach (take (Z.to_nat nfds) (events_of data)) handle_event st;
    Ret (inl st)) st.

(** * A driver *)

(** One message of the dispatcher: [false] ends the driver. *)
Definition driver_message (sock my_pid : Z) (buf : list Z) : prog bool :=
  task ← of_outcome (strncmp buf (lit "TASK:") 5);
  if task =? 0 then
    s ← of_outcome (scanf_d (cstr (drop 5 buf)));
    match s with
    | Matched timer _ =>
        sys_ (c_print "[Driver %d] Received task for %d sec\n" [print_d my_pid; print_d timer]);;
        sys_ (c_send sock (take 7 (str "TASK_OK" ++ [newline])));;
        sys_ (c_sleep (u32 timer));;
        sys_ (c_send sock (take 10 (str "AVAILABLE" ++ [newline])));;
        sys_ (c_print "[Driver %d] Task completed\n" [print_d my_pid]);;
        Ret true
    | _ => Ret true
    end
  else
    is_status ← of_outcome (streq buf (lit "STATUS"));
    if (is_status : bool) then sys_ (c_send sock (take 10 (str "AVAILABLE" ++ [newline])));; Ret true
    else
      is_exit ← of_outcome (streq buf (lit "EXIT"));
      if (is_exit : bool) then sys_ (c_send sock (take 8 (str "EXIT_OK" ++ [newline])));; Ret false
      else Ret true.

(** [buf[n] = 0] after [recv] of at most [sizeof(buf) - 1] bytes. *)
Definition driver_round (sock my_pid : Z) (buf : list Z) : prog (list Z + unit) :=
  '(n, data) ← sys_data (c_recv sock (BUF_SIZE - 1));
  if n <=? 0 then Ret (inr tt)
  else
    buf ← of_outcome (put_at buf 0 data);
    buf ← of_outcome (zset buf n 0);
    go ← driver_message sock my_pid buf;
    Ret (if go : bool then inl buf else inr tt).

Definition driver_main (fuel : nat) (buf : list Z) : prog unit :=
  sock ← sys (c_socket AF_UNIX SOCK_STREAM 0);
  if sock <? 0 then sys_ (c_perror "socket failed");; exit 1
  else
    forever fuel (fun _ : unit =>
      r ← sys_full (c_connect sock);
      if r_val r <? 0 then
        if (r_errno r =? ECONNREFUSED) || (r_errno r =? ENOENT) || (r_errno r =? EAGAIN)
        then sys_ (c_usleep 100000);; Ret (inl tt)
        else sys_ (c_perror "driver connect failed");; sys_ (c_close sock);; exit 1
      else Ret (inr tt)) tt;;
    my_pid ← sys c_getpid;
    sys_ (c_send sock (le32 (u32 my_pid)));;
    sys_ (c_print "[Driver %d] Started and connected to CLI\n" [print_d my_pid]);;
    forever fuel (driver_round sock my_pid) buf;;
    sys_ (c_close sock);;
    exit 0.

(** * The command line *)

Definition created (p : Z) (old : Driver) : Driver := MkDriver p 0 0 (-1) 1 (recv_buf old) 0.

(** The child runs [driver_main] and never returns. *)
Definition create_driver (fuel : nat) (stack_buf : list Z) (st : dispatch) : prog dispatch :=
  if MAX_DRIVERS <=? driver_count st then
    sys_ (c_print "Error: Maximum drivers limit reached.\n" []);; Ret st
  else
    p ← sys c_fork;
    if p =? 0 then driver_main fuel stack_buf;; Ret st
    else if 0 <? p then
      let index := driver_count st in
      old ← of_outcome (znth (drivers st) index);
      st ← of_outcome (set_driver st index (created p old));
      sys_ (c_print "Created driver with PID %d\n" [print_d p]);;
      Ret (Dispatch (drivers st) (driver_count st + 1) (server_sock st) (epoll_fd st))
    else sys_ (c_perror "fork failed");; Ret st.

(** [snprintf(cmd, sizeof(cmd), "TASK:%d\n", task_timer)] in 64 bytes. *)
Definition task_command (timer : Z) : list Z :=
  take 63 (str "TASK:" ++ print_d timer ++ [newline]) ++ [0].

Definition with_task (d : Driver) (timer finish : Z) : Driver :=
  MkDriver (pid d) timer finish (sock_fd d) (active d) (recv_buf d) (recv_len d).

Definition send_task (st : dispatch) (target_pid task_timer : Z) : prog dispatch :=
  let index := find_driver st target_pid in
  if index =? -1 then
    sys_ (c_print "Error: Driver with PID %d not found.\n" [print_d target_pid]);; Ret st
  else
    d ← of_outcome (znth (drivers st) index);
    now ← sys c_time;
    if busy d now then
      sys_ (c_print "Error: Driver PID %d is Busy %d sec\n"
              [print_d target_pid; print_d (to_int (task_end_time d - now))]);;
      Ret st
    else
      send_to_driver st index (task_command task_timer);;
      st ← of_outcome (set_driver st index (with_task d task_timer (now + task_timer)));
      sys_ (c_print "Task sent to driver PID %d for %d seconds.\n" [print_d target_pid; print_d task_timer]);;
      Ret st.

Definition get_status (st : dispatch) (target_pid : Z) : prog unit :=
  let index := find_driver st target_pid in
  if index =? -1 then sys_ (c_print "Error: Driver with PID %d not found.\n" [print_d target_pid])
  else print_driver_status st index.

(** [sscanf(line, "%s %d %d", cmd, &pid_arg, &timer_arg)]: how many items were
    assigned, and the objects after it. *)
Definition sscanf_args (n : nat) (line cmd : list Z) (args : list Z)
    : outcome (Z * list Z * list Z) :=
  r ← scanf_s None cmd line;
  match r with
  | Matched cmd rest =>
      let fix ints (k : nat) (i : Z) (s args : list Z) : outcome (Z * list Z) :=
        match k with
        | O => Done (i, args)
        | S k' =>
            v ← scanf_d s;
            match v with
            | Matched z rest => args ← zset args i z; ints k' (i + 1) rest args
            | _ => Done (i, args)
            end
        end in
      '(m, args) ← ints n 0 rest args;
      Done (m + 1, cmd, args)
  | _ => Done (-1, cmd, args)
  end.

(** [exit]: the connected drivers are told to go. *)
Definition stop_drivers (st : dispatch) : prog unit :=
  foreach (seqZ 0 (driver_count st)) (fun i _ =>
    d ← of_outcome (znth (drivers st) i);
    if negb (active d =? 0) && (0 <=? sock_fd d) then
      send_to_driver st i (str "EXIT" ++ [newline; 0]);;
      sys_ (c_kill (pid d) SIGTERM)
    else Ret tt) tt.

(** The variables of the loop: the globals, [cmd], and [pid_arg], [timer_arg]. *)
Record vars := Vars { v_st : dispatch; v_cmd : list Z; v_args : list Z }.

(** One command line; [inr] leaves the loop. *)
Definition command (fuel : nat) (stack_buf : list Z) (v : vars) (line : list Z) : prog (vars + unit) :=
  let st := v_st v in
  '(n, cmd, args) ← of_outcome (sscanf_args 0 (cstr line) (v_cmd v) (v_args v));
  if negb (n =? 1) then Ret (inl (Vars st cmd args))
  else
    is_create ← of_outcome (streq cmd (lit "create_driver"));
    is_list ← of_outcome (streq cmd (lit "get_drivers"));
    if (is_create : bool) then st ← create_driver fuel stack_buf st; Ret (inl (Vars st cmd args))
    else if (is_list : bool) then print_all_drivers st;; Ret (inl (Vars st cmd args))
    else
      '(n, cmd, args) ← of_outcome (sscanf_args 2 (cstr line) cmd args);
      is_task ← of_outcome (streq cmd (lit "send_task"));
      if (n =? 3) && (is_task : bool) then
        p ← of_outcome (znth args 0);
        t ← of_outcome (znth args 1);
        st ← send_task st p t;
        Ret (inl (Vars st cmd args))
      else
        '(n, cmd, args) ← of_outcome (sscanf_args 1 (cstr line) cmd args);
        is_status ← of_outcome (streq cmd (lit "get_status"));
        is_exit ← of_outcome (streq cmd (lit "exit"));
        if (n =? 2) && (is_status : bool) then
          p ← of_outcome (znth args 0); get_status st p;; Ret (inl (Vars st cmd args))
        else if (is_exit : bool) then stop_drivers st;; Ret (inr tt)
        else sys_ (c_print "Unknown command.\n" []);; Ret (inl (Vars st cmd args)).

Definition command_loop (fuel : nat) (stack_buf : list Z) (v : vars) : prog unit :=
  forever fuel (fun v =>
    sys_ (c_print "> " []);;
    '(n, data) ← sys_data (c_gets BUF_SIZE);
    if n <? 0 then Ret (inr tt)
    else command fuel stack_buf v (data ++ [0])) v.

Definition init_drivers : list Driver :=
  replicate (Z.to_nat MAX_DRIVERS) (MkDriver 0 0 0 0 0 (replicate (Z.to_nat BUF_SIZE) 0) 0).

Definition cleanup (server : Z) (msg : string) : prog Z :=
  sys_ (c_perror msg);; sys_ (c_close server);; Ret 1.

(** [main]; [stack_buf], [cmd] and [args] are the uninitialised arrays of the stack. *)
Definition main (fuel : nat) (stack_buf cmd args : list Z) : prog Z :=
  sys_ (c_unlink SOCKET_PATH);;
  server ← sys (c_socket AF_UNIX SOCK_STREAM 0);
  if server <? 0 then sys_ (c_perror "socket failed");; Ret 1
  else
    sys_ (c_fcntl server);;
    sys_ (c_fcntl server);;
    b ← sys (c_bind server (Some SOCKET_PATH));
    if b <? 0 then cleanup server "bind failed"
    else
      l ← sys (c_listen server 5);
      if l <? 0 then r ← cleanup server "listen failed"; sys_ (c_unlink SOCKET_PATH);; Ret r
      else
        ep ← sys c_epoll_create;
        if ep <? 0 then r ← cleanup server "epoll_create1 failed"; sys_ (c_unlink SOCKET_PATH);; Ret r
        else
          let st := Dispatch init_drivers 0 server ep in
          add_to_epoll st server;;
          conn_pid ← sys c_fork;
          if conn_pid =? 0 then handle_connections_and_drivers fuel st;; exit 0
          else
            sys_ (c_print "CLI started with EPOLL. Commands:\n" []);;
            sys_ (c_print "  create_driver\n" []);;
            sys_ (c_print "  send_task <pid> <timer>\n" []);;
            sys_ (c_print "  get_status <pid>\n" []);;
            sys_ (c_print "  get_drivers\n" []);;
            sys_ (c_print "  exit\n" []);;
            command_loop fuel stack_buf (Vars st cmd args);;
            sys_ (c_close ep);;
            (if 0 <=? server then sys_ (c_close server);; sys_ (c_unlink SOCKET_PATH) else Ret tt);;
            sys_ (c_print "CLI exited.\n" []);;
            Ret 0.

(** * Facts about the table *)

Lemma table_spec st i : table st !! i = (if (i <? Z.to_nat (driver_count st))%nat then drivers st !! i else None).
Proof.
  unfold table. destruct (Nat.ltb_spec i (Z.to_nat (driver_count st))).
  - by rewrite lookup_take_lt.
  - by rewrite lookup_take_ge.
Qed.

Lemma index_of_spec {A} (p : A -> bool) l :
  (index_of (find_from p 0 l) = -1 /\ Forall (fun x => p x = false) l) \/
  (exists i x, index_of (find_from p 0 l) = Z.of_nat i /\ l !! i = Some x /\ p x = true /\
     forall j y, (j < i)%nat -> l !! j = Some y -> p y = false).
Proof.
  destruct (find_from p 0 l) as [i|] eqn:E.
  - right. apply find_from_Some in E as (_ & (x & Hx & Hp) & Hmin). rewrite Nat.sub_0_r in *.
    exists i, x. split_and!; try done.
  - left. split; [done|]. by eapply find_from_None.
Qed.

(** The table as every process keeps it. *)
Record wf (st : dispatch) : Prop := Wf {
  wf_length : length (drivers st) = 100%nat;
  wf_count : 0 <= driver_count st <= 100;
  wf_bufs : Forall (fun d => length (recv_buf d) = 256%nat /\ recv_len d = 0) (drivers st) }.

(** ** The command line and the drivers' sockets *)

(** The calls that reach a driver. *)
Definition contacts (c : call) : bool :=
  match c with c_send _ _ | c_kill _ _ => true | _ => false end.

(** The parent's side of every [fork], with no other assumption on the kernel. *)
Definition parent : monitor unit :=
  Monitor (fun _ c => contacts c = false) (fun _ c r => c = c_fork -> r_val r <> 0) (fun _ _ _ => tt).

Definition unconnected (st : dispatch) : Prop := Forall (fun d => sock_fd d = -1) (table st).

(** What the parts of the command line keep. *)
Definition kept (r : result dispatch) (_ : unit) : Prop :=
  match r with Returned st => unconnected st /\ 0 <= driver_count st | Halted _ => True end.

Lemma unconnected_set st i d st' : unconnected st -> sock_fd d = -1 ->
  set_driver st i d = Done st' -> unconnected st'.
Proof.
  unfold unconnected, table, set_driver. intros H Hd E. obind_inv E. injection E as <-. cbn.
  apply zset_Done in Ha as [Hi ->]. rewrite take_insert. case_decide; [|done].
  by apply Forall_insert.
Qed.

Lemma find_driver_sock st p d : unconnected st -> find_driver st p <> -1 ->
  znth (drivers st) (find_driver st p) = Done d -> sock_fd d = -1.
Proof.
  unfold unconnected, find_driver. intros H Hi Hd.
  destruct (index_of_spec (is_pid p) (table st)) as [[? _]|(i & x & E & Hx & _)]; [done|].
  rewrite E in Hd. apply znth_Done in Hd as [_ Hd]. rewrite Nat2Z.id in Hd.
  rewrite table_spec in Hx. case_match; [|done]. rewrite Hd in Hx. injection Hx as <-.
  rewrite Forall_lookup in H. apply (H i d). rewrite table_spec. by case_match.
Qed.

Lemma wp_print_status {A} st i (f : unit -> prog A) Q :
  (forall u, Q (Halted (Crashed u)) tt) -> wp parent (f tt) tt Q ->
  wp parent (prog_bind (print_driver_status st i) f) tt Q.
Proof.
  intros HC Hf. apply wp_bind. unfold print_driver_status.
  apply wp_pure; [intros d _ | halts]. wp_plains; done.
Qed.

Lemma table_snoc st d st' : 0 <= driver_count st ->
  set_driver st (driver_count st) d = Done st' ->
  table (Dispatch (drivers st') (driver_count st' + 1) (server_sock st') (epoll_fd st'))
    = table st ++ [d].
Proof.
  unfold set_driver, table. intros H0 E. obind_inv E. injection E as <-.
  apply zset_Done in Ha as [Hi ->]. cbn [drivers driver_count].
  replace (Z.to_nat (driver_count st + 1)) with (S (Z.to_nat (driver_count st))) by lia.
  rewrite (take_S_r _ _ d) by (apply list_lookup_insert_eq; lia). by rewrite take_insert_ge by lia.
Qed.

Lemma wp_create_driver fuel sb st : 0 <= driver_count st -> unconnected st ->
  wp parent (create_driver fuel sb st) tt kept.
Proof.
  intros H0 H. unfold create_driver. wp_plains; try done; [| apply wp_pure; [|halts]].
  - exfalso. by apply Hr; [|apply Z.eqb_eq].
  - intros old _. apply wp_pure; [|halts]. intros st' E. wp_plains. cbn [kept].
    unfold unconnected. rewrite (table_snoc st _ st' H0 E). split.
    + apply Forall_app. split; [done|]. by repeat constructor.
    + unfold set_driver in E. obind_inv E. injection E as <-. cbn. lia.
Qed.

Lemma wp_send_quiet {A} st i cmd (f : unit -> prog A) Q :
  (forall d, znth (drivers st) i = Done d -> sock_fd d = -1) ->
  (forall u, Q (Halted (Crashed u)) tt) -> wp parent (f tt) tt Q ->
  wp parent (prog_bind (send_to_driver st i cmd) f) tt Q.
Proof.
  intros Hs HC Hf. apply wp_bind. unfold send_to_driver. apply wp_pure; [|halts].
  intros d Hd. rewrite (Hs d Hd). by wp_plains.
Qed.

Lemma wp_send_task st p t : unconnected st -> 0 <= driver_count st ->
  wp parent (send_task st p t) tt kept.
Proof.
  intros H H0. unfold send_task. wp_plains; try done. apply wp_pure; [|halts].
  apply Z.eqb_neq in Heqb. intros d Hd. wp_plains; try done.
  apply wp_send_quiet; [| done |].
  - intros d' Hd'. by apply (find_driver_sock st p).
  - apply wp_pure; [|halts]. intros st' E. wp_plains. cbn [kept]. split.
    + eapply unconnected_set; [exact H | | exact E]. cbn. by apply (find_driver_sock st p).
    + unfold set_driver in E. obind_inv E. by injection E as <-.
Qed.

Lemma wp_get_status st p : wp parent (get_status st p) tt (fun _ _ => True).
Proof.
  unfold get_status. wp_plains; [done|]. rewrite <- (prog_bind_ret (print_driver_status st _)).
  by apply wp_print_status.
Qed.

Lemma wp_print_all st : wp parent (print_all_drivers st) tt (fun _ _ => True).
Proof.
  unfold print_all_drivers. wp_plains; try done.
  apply (wp_foreach _ (fun _ _ => True)); [|done..]. intros i [] [] _ _.
  apply wp_pure; [|halts]. intros d _. wp_plains; try done.
  rewrite <- (prog_bind_ret (print_driver_status st _)). by apply wp_print_status.
Qed.

Lemma wp_stop st : unconnected st -> wp parent (stop_drivers st) tt (fun _ _ => True).
Proof.
  intros H. unfold stop_drivers. apply (wp_foreach _ (fun _ _ => True)); [|done..].
  intros i [] [] Hi _. apply elem_of_seqZ in Hi. apply wp_pure; [|halts].
  intros d Hd. wp_plains; try done. exfalso. apply znth_Done in Hd as [_ Hd].
  unfold unconnected in H. rewrite Forall_lookup in H.
  specialize (H (Z.to_nat i) d). rewrite table_spec in H.
  destruct (Nat.ltb_spec (Z.to_nat i) (Z.to_nat (driver_count st))); [|lia].
  rewrite (H Hd) in Heqb. by rewrite andb_false_r in Heqb.
Qed.

Lemma wp_command fuel sb v line : unconnected (v_st v) -> 0 <= driver_count (v_st v) ->
  wp parent (command fuel sb v line) tt (fun r _ =>
    match r with
    | Returned (inl v') => unconnected (v_st v') /\ 0 <= driver_count (v_st v')
    | _ => True
    end).
Proof.
  intros H H0. unfold command. apply wp_pure; [|halts]. intros [[n cmd] args] _. wp_plains; [done|].
  apply wp_pure; [|halts]. intros is_create _. apply wp_pure; [|halts]. intros is_list _.
  wp_plains.
  - eapply wp_seq; [by apply wp_create_driver|]. intros [st'|h] [] Hk; [|done]. by wp_plains.
  - eapply wp_seq; [apply wp_print_all|]. intros [[]|h] [] _; [|done]. by wp_plains.
  - apply wp_pure; [|halts]. intros [[n' cmd'] args'] _. apply wp_pure; [|halts]. intros is_task _.
    wp_plains.
    + apply wp_pure; [|halts]. intros p _. apply wp_pure; [|halts]. intros t _.
      eapply wp_seq; [by apply wp_send_task|]. intros [st'|h] [] Hk; [|done]. by wp_plains.
    + apply wp_pure; [|halts]. intros [[n2 cmd2] args2] _.
      apply wp_pure; [|halts]. intros is_status _. apply wp_pure; [|halts]. intros is_exit _.
      wp_plains; try done.
      * apply wp_pure; [|halts]. intros p _.
        eapply wp_seq; [apply wp_get_status|]. intros [[]|h] [] _; [|done]. by wp_plains.
      * eapply wp_seq; [by apply wp_stop|]. intros [[]|h] [] _; [|done]. by wp_plains.
Qed.

Lemma unconnected_none st : driver_count st = 0 -> unconnected st.
Proof. intros H. unfold unconnected, table. rewrite H. constructor. Qed.

Lemma allowed_contacts t : allowed parent tt t -> Forall (fun cr => contacts cr.1 = false) t.
Proof. induction t as [|[c r] t IH]; cbn; [constructor|]. intros [? ?]. constructor; auto. Qed.

(** C9 The command line never reaches a driver. The process that accepts the drivers'
    connections works on its own copy of the table, so in the parent no driver ever has
    a socket: whatever lines are typed and whatever the system replies, no run of the
    command loop sends anything or signals anybody, tasks and [exit] included. *)
Theorem cli_never_contacts_drivers fuel sb v t w' res :
  driver_count (v_st v) = 0 ->
  exec parent (command_loop fuel sb v) tt t w' res ->
  Forall (fun cr => contacts cr.1 = false) t.
Proof.
  intros H0 E. apply allowed_contacts.
  eapply (wp_sound parent _ tt (fun _ _ => True)); [|exact E]. unfold command_loop.
  apply (wp_forever _ (fun v _ => unconnected (v_st v) /\ 0 <= driver_count (v_st v))); [|done|].
  - intros u [] [Hu Hc]. wp_plains; [done|].
    eapply wp_mono; [|by apply wp_command]. by intros [[|]|] [].
  - split; [by apply unconnected_none | lia].
Qed.

(** ** The connection process *)

(** The descriptors the connection process works on are open: its own two and the
    sockets of the drivers it knows, no two of which are the same. *)
Record conn_ok (st : dispatch) (w : world) : Prop := ConnOk {
  co_wf : wf st;
  co_server : server_sock st ∈ fds w;
  co_epoll : epoll_fd st ∈ fds w;
  co_open : forall i d, table st !! i = Some d -> active d <> 0 -> 0 <= sock_fd d ->
    sock_fd d ∈ fds w /\ sock_fd d <> server_sock st /\ sock_fd d <> epoll_fd st;
  co_distinct : forall i j d e, table st !! i = Some d -> table st !! j = Some e ->
    active d <> 0 -> active e <> 0 -> 0 <= sock_fd d -> sock_fd d = sock_fd e -> i = j }.

Lemma set_driver_ok st i d : wf st -> 0 <= i < driver_count st -> 
  length (recv_buf d) = 256%nat /\ recv_len d = 0 ->
  exists st', set_driver st i d = Done st' /\ wf st' /\
    table st' = <[Z.to_nat i := d]> (table st) /\ server_sock st' = server_sock st /\
    epoll_fd st' = epoll_fd st /\ driver_count st' = driver_count st.
Proof.
  intros [Hl Hc Hb] Hi Hd. unfold set_driver. rewrite zset_ok by lia. cbn.
  eexists. split; [done|]. unfold table. cbn. split_and!; [|rewrite take_insert; case_decide; [done|lia]|done..].
  split; cbn; [by rewrite length_insert | done | by apply Forall_insert].
Qed.

Lemma znth_table st i d : wf st -> table st !! i = Some d -> znth (drivers st) (Z.of_nat i) = Done d.
Proof.
  intros Hw Hd. rewrite table_spec in Hd. case_match; [|done]. apply znth_Done. rewrite Nat2Z.id. split; [lia|done].
Qed.

Lemma table_bufs st i d : wf st -> table st !! i = Some d ->
  length (recv_buf d) = 256%nat /\ recv_len d = 0 /\ (i < Z.to_nat (driver_count st))%nat.
Proof.
  intros [Hl Hc Hb] Hd. rewrite table_spec in Hd. destruct (Nat.ltb_spec i (Z.to_nat (driver_count st))); [|done].
  rewrite Forall_lookup in Hb. specialize (Hb _ _ Hd). tauto.
Qed.

(** The slot of a driver gets a new socket, or none when its socket was closed. *)
Lemma conn_ok_set st w i d fd W st' :
  conn_ok st w -> table st !! i = Some d -> active d <> 0 -> wf st' ->
  table st' = <[i := set_sock d fd]> (table st) ->
  server_sock st' = server_sock st -> epoll_fd st' = epoll_fd st ->
  fds w ⊆ W \/ (0 <= sock_fd d /\ fds w ∖ {[sock_fd d]} ⊆ W) ->
  (0 <= fd -> fd ∈ W /\ fd ∉ fds w) -> conn_ok st' (World W (names w)).
Proof.
  intros [Hwf Hs He Ho Hd] Hi Hact Hwf' Ht Hs' He' HW Hfd.
  assert (Hlt : (i < length (table st))%nat) by (by eapply lookup_lt_Some).
  assert (Hkeep : forall x, x ∈ fds w -> (0 <= sock_fd d -> x <> sock_fd d) -> x ∈ W) by set_solver.
  assert (Hown : 0 <= sock_fd d -> server_sock st <> sock_fd d /\ epoll_fd st <> sock_fd d).
  { intros Hp. destruct (Ho i d Hi Hact Hp) as (? & ? & ?). split; congruence. }
  assert (Hself : forall g, <[i:=set_sock d fd]> (table st) !! i = Some g -> sock_fd g = fd).
  { intros g Hg. rewrite list_lookup_insert_eq in Hg by done. by injection Hg as <-. }
  assert (Hother : forall m g, m <> i -> <[i:=set_sock d fd]> (table st) !! m = Some g -> active g <> 0 ->
            0 <= sock_fd g -> table st !! m = Some g /\ sock_fd g <> fd).
  { intros m g Hm Hg Hag Hpg. rewrite list_lookup_insert_ne in Hg by done. split; [done|].
    intros Hf. destruct (Ho m g Hg Hag Hpg) as (Hin & _). rewrite Hf in *. tauto. }
  split; cbn; rewrite ?Hs', ?He'; [done | apply Hkeep; tauto | apply Hkeep; tauto | |].
  - intros j e Hj Ha Hp. rewrite Ht in Hj. destruct (decide (j = i)) as [->|Hne].
    + apply Hself in Hj. rewrite Hj in *. destruct (Hfd Hp) as [HinW Hnin]. split_and!; congruence.
    + destruct (Hother j e Hne Hj Ha Hp) as [Hj' _]. destruct (Ho j e Hj' Ha Hp) as (? & ? & ?).
      split_and!; [apply Hkeep | done..]; [done|]. intros _ Heq. apply Hne. by apply (Hd j i e d).
  - intros j k e f Hj Hk Hae Haf Hp Heq. rewrite Ht in Hj, Hk.
    destruct (decide (j = i)) as [->|Hji], (decide (k = i)) as [->|Hki]; [done| | |].
    + apply Hself in Hj. destruct (Hother k f Hki Hk Haf) as [_ Hn]; [lia|]. congruence.
    + apply Hself in Hk. destruct (Hother j e Hji Hj Hae Hp) as [_ Hn]. congruence.
    + destruct (Hother j e Hji Hj Hae Hp) as [Hj' _]. destruct (Hother k f Hki Hk Haf) as [Hk' _]; [lia|].
      by apply (Hd j k e f).
Qed.

(** A change of a driver that keeps its socket. *)
Lemma conn_ok_same st w i d d' st' :
  conn_ok st w -> table st !! i = Some d -> wf st' -> table st' = <[i := d']> (table st) ->
  server_sock st' = server_sock st -> epoll_fd st' = epoll_fd st ->
  sock_fd d' = sock_fd d -> active d' = active d -> conn_ok st' w.
Proof.
  intros [Hwf Hs He Ho Hd] Hi Hwf' Ht Hs' He' Hsock Hact.
  assert (Hlt : (i < length (table st))%nat) by (by eapply lookup_lt_Some).
  assert (Hold : forall m g, table st' !! m = Some g ->
            exists g', table st !! m = Some g' /\ sock_fd g = sock_fd g' /\ active g = active g').
  { intros m g Hg. rewrite Ht in Hg. destruct (decide (i = m)) as [<-|Hne].
    - rewrite list_lookup_insert_eq in Hg by done. injection Hg as <-. by exists d.
    - rewrite list_lookup_insert_ne in Hg by done. by exists g. }
  split; rewrite ?Hs', ?He'; try done.
  - intros j e Hj Ha Hp. destruct (Hold j e Hj) as (g & Hg & E1 & E2). rewrite E1, E2 in *. by apply (Ho j g).
  - intros j k e f Hj Hk Hae Haf Hp Heq.
    destruct (Hold j e Hj) as (g & Hg & E1 & E2), (Hold k f Hk) as (h & Hh & E3 & E4).
    apply (Hd j k g h); congruence.
Qed.

(** A loop round of the connection process keeps [conn_ok] and never stops. *)
Definition conn_post (r : result dispatch) (w : world) : Prop :=
  match r with Returned st => conn_ok st w | Halted _ => False end.

Lemma wp_epoll_add {A} st fd (f : unit -> prog A) w Q :
  epoll_fd st ∈ fds w -> fd ∈ fds w -> wp kernel (f tt) w Q ->
  wp kernel (prog_bind (add_to_epoll st fd) f) w Q.
Proof. intros. unfold add_to_epoll. by wp_steps. Qed.

Lemma wp_epoll_mod {A} st fd (f : unit -> prog A) w Q :
  epoll_fd st ∈ fds w -> fd ∈ fds w -> wp kernel (f tt) w Q ->
  wp kernel (prog_bind (modify_epoll st fd) f) w Q.
Proof. intros. unfold modify_epoll. by wp_steps. Qed.

Lemma conn_ok_close st w fd : conn_ok st w -> fd ∉ fds w ->
  conn_ok st (World ((({[fd]} : gset Z) ∪ fds w) ∖ {[fd]}) (names w)).
Proof.
  intros H Hf. replace (({[fd]} ∪ fds w) ∖ {[fd]}) with (fds w) by set_solver.
  by rewrite world_eta.
Qed.

Lemma wp_accept_driver st w : conn_ok st w -> wp kernel (accept_driver st) w conn_post.
Proof.
  intros H. pose proof (co_server _ _ H). pose proof (co_epoll _ _ H). unfold accept_driver. wp_steps; try done.
  all: cbn [fds names].
  all: try (apply conn_ok_close; done).
  all: try lia.
  unfold find_driver in *.
  destruct (index_of_spec (is_pid (received_pid (r_data r2))) (table st)) as [[E _]|(i & d & E & Hi & Hp & _)];
    rewrite E in *; [done|].
  apply wp_done with d; [apply znth_table; [apply H|done]|].
  destruct (table_bufs st i d (co_wf _ _ H) Hi) as (Hb1 & Hb2 & Hlt).
  destruct (set_driver_ok st (Z.of_nat i) (set_sock d (r_val r))) as (st' & -> & Hwf' & Ht & Hs' & He' & Hn');
    [apply H | lia | done |].
  cbn [of_outcome]. wp_step.
  apply wp_epoll_add; cbn [fds]; [rewrite He'; set_solver | set_solver |]. wp_steps. cbn [conn_post].
  rewrite Nat2Z.id in Ht. unfold is_pid in Hp. apply andb_true_iff in Hp as [_ Hact].
  apply (conn_ok_set st w i d (r_val r)); try done.
  - apply negb_true_iff, Z.eqb_neq in Hact. done.
  - left. set_solver.
  - intros _. split; [set_solver|done].
Qed.

Lemma set_driver_id st i d1 d2 st1 : set_driver st i d1 = Done st1 ->
  set_driver st1 i d2 = set_driver st i d2.
Proof.
  unfold set_driver. intros E. obind_inv E. injection E as <-. cbn.
  apply zset_Done in Ha as [Hi ->]. rewrite !zset_ok by (rewrite ?length_insert; lia).
  cbn. by rewrite list_insert_insert_eq.
Qed.

Lemma wp_read_driver st fd w : conn_ok st w -> 0 <= fd -> wp kernel (read_driver st fd) w conn_post.
Proof.
  intros H Hfd. pose proof (co_server _ _ H). pose proof (co_epoll _ _ H).
  unfold read_driver, find_driver_by_fd.
  destruct (index_of_spec (is_fd fd) (table st)) as [[-> _]|(i & d & -> & Hi & Hp & _)]; [by wp_steps|].
  unfold is_fd in Hp. apply andb_true_iff in Hp as [Hact Heq].
  apply negb_true_iff, Z.eqb_neq in Hact. apply Z.eqb_eq in Heq. subst fd.
  destruct (co_open _ _ H i d Hi Hact Hfd) as (Hopen & Hs & He).
  destruct (table_bufs st i d (co_wf _ _ H) Hi) as (Hb1 & Hb2 & Hlt).
  pose proof (co_wf _ _ H) as Hwf.
  wp_step; [|by wp_steps]. apply wp_done with d; [by apply znth_table|].
  rewrite Hb2. change (BUF_SIZE - 0 - 1) with 255.
  wp_step. wp_step.
  - destruct Hr as (_ & _ & _ & Hrec & _). destruct (Hrec 255 eq_refl) as [Hle Hdata].
    destruct Hdata as [Hdl _]; [lia|].
    destruct (put_at_total (recv_buf d) 0 (r_data r)) as (b1 & Eb1 & Lb1); [lia | lia |].
    apply wp_done with b1; [done|].
    apply wp_done with (r_val r); [apply int_result_Done; unfold_int; lia|].
    destruct (zset_total b1 (r_val r) 0) as (b2 & Eb2 & _ & Lb2); [lia|].
    apply wp_done with b2; [done|].
    destruct (set_driver st (Z.of_nat i) (MkDriver (pid d) (task_timer d) (task_end_time d) (sock_fd d) (active d) b2 (r_val r)))
      as [st1|] eqn:E1; [|exfalso; unfold set_driver in E1; rewrite zset_ok in E1; [done|];
                          destruct Hwf; lia].
    apply wp_done with st1; [done|].
    unfold handle_driver_response.
    apply wp_done with (MkDriver (pid d) (task_timer d) (task_end_time d) (sock_fd d) (active d) b2 (r_val r)).
    { unfold set_driver in E1. obind_inv E1. injection E1 as <-. by apply znth_zset_eq in Ha. }
    wp_step. cbn [pid task_timer task_end_time sock_fd active recv_buf].
    destruct (set_driver_ok st (Z.of_nat i) (MkDriver (pid d) (task_timer d) (task_end_time d) (sock_fd d) (active d) b2 0))
      as (st2 & E2 & Hwf2 & Ht & Hs2 & He2 & _); [done | lia | cbn; lia|].
    rewrite (set_driver_id _ _ _ _ _ E1), E2. cbn [of_outcome]. wp_step. cbn [conn_post].
    rewrite Nat2Z.id in Ht.
    by eapply (conn_ok_same st w i d).
  - wp_steps; [|done].
    destruct (set_driver_ok st (Z.of_nat i) (set_sock d (-1))) as (st2 & E2 & Hwf2 & Ht & Hs2 & He2 & _);
      [done | lia | done |].
    apply wp_done with st2; [done|]. rewrite Nat2Z.id in Ht.
    apply wp_epoll_mod; cbn [fds]; rewrite ?Hs2, ?He2; [set_solver..|].
    wp_steps. cbn [conn_post]. apply (conn_ok_set st w i d (-1)); try done.
    right. split; [done|]. set_solver.
Qed.

Lemma wp_handle_event st ev w : conn_ok st w -> 0 <= ev.1 -> wp kernel (handle_event ev st) w conn_post.
Proof.
  intros H Hfd. destruct ev as [fd m]. unfold handle_event. cbn in Hfd.
  destruct (fd =? server_sock st); [by apply wp_accept_driver|].
  wp_step; [by apply wp_read_driver | by wp_steps].
Qed.

Lemma events_taken w ep m r n : reply_ok w (c_epoll_wait ep m) r ->
  forall ev, ev ∈ take n (events_of (r_data r)) -> 0 <= ev.1.
Proof.
  intros (_ & _ & _ & _ & H & _) ev Hev. specialize (H ep m eq_refl). rewrite Forall_forall in H.
  apply H. apply elem_of_take in Hev as (k & Hk & _). by eapply list_elem_of_lookup_2.
Qed.

(** C7 The connection process is memory safe and disciplined with descriptors, whatever
    connects, whatever is sent and whatever fails: from a table in order, every call it
    makes is on an open descriptor, no receive buffer is overrun, no two drivers ever
    share a socket, and it never stops by itself. *)
Theorem connection_process_safe fuel st w :
  conn_ok st w ->
  wp kernel (handle_connections_and_drivers fuel st) w (fun r w' => r = Halted Cut).
Proof.
  intros H. unfold handle_connections_and_drivers. apply (wp_forever _ conn_ok); [|done..].
  clear. intros st w H. pose proof (co_epoll _ _ H). wp_step.
  apply wp_bind. apply (wp_foreach _ conn_ok); [|done|done].
  intros ev st' w' Hev Hok. eapply wp_mono; [|apply wp_handle_event; [done|by eapply events_taken]].
  by intros [?|?] ?.
Qed.

(** Every driver is turned away. The table of the connection process is the one
    [fork] copied before the first [create_driver], so it is empty: each connection
    that is accepted is closed again, the table stays empty, and after any number of
    rounds the descriptors are the ones the process started with. *)
Theorem connections_all_rejected fuel st w :
  driver_count st = 0 -> server_sock st ∈ fds w -> epoll_fd st ∈ fds w ->
  wp kernel (handle_connections_and_drivers fuel st) w (fun r w' => r = Halted Cut /\ w' = w).
Proof.
  intros Hc Hs He. unfold handle_connections_and_drivers.
  apply (wp_forever _ (fun s w' => s = st /\ w' = w)); [|by intros ? ? [_ ->]|done].
  intros s w' [-> ->]. wp_step.
  apply wp_bind. apply (wp_foreach _ (fun s w' => s = st /\ w' = w)); [|by intros ? ? [-> ->]|done].
  intros ev s w' _ [-> ->]. destruct ev as [fd m]. unfold handle_event.
  assert (Ht : table st = []) by (unfold table; by rewrite Hc).
  assert (Hback : forall x, x ∉ fds w -> World (({[x]} ∪ fds w) ∖ {[x]}) (names w) = w).
  { intros x Hx. rewrite <- (world_eta w) at 3. f_equal. set_solver. }
  destruct (fd =? server_sock st).
  - unfold accept_driver, find_driver. rewrite Ht. change (index_of (find_from _ 0 [])) with (-1).
    wp_steps; cbn [fds names]; auto; lia.
  - wp_step; [|by wp_steps]. unfold read_driver, find_driver_by_fd. rewrite Ht.
    change (index_of (find_from _ 0 [])) with (-1). by wp_steps.
Qed.

(** ** The dispatcher as a map of tasks *)

(** The kernel of one command: [fork] gives [p] to the parent and the clock shows [now]. *)
Definition clock (p now : Z) : monitor unit :=
  Monitor (fun _ _ => True)
    (fun _ c r => (c = c_time -> r_val r = now) /\ (c = c_fork -> r_val r = p)) (fun _ _ _ => tt).

(** What the table says: the duration and the end of the task of every driver. *)
Definition tasks (st : dispatch) : gmap Z (Z * Z) :=
  list_to_map ((fun d => (pid d, (task_timer d, task_end_time d))) <$> table st).

Record registered (st : dispatch) : Prop := Registered {
  rg_wf : wf st;
  rg_pids : NoDup (pid <$> table st);
  rg_active : Forall (fun d => active d <> 0) (table st) }.

(** The abstract commands. *)
Definition is_busy (now : Z) (t : Z * Z) : bool := (0 <? t.1) && (now <? t.2).

Definition a_send_task (now p timer : Z) (m : gmap Z (Z * Z)) : gmap Z (Z * Z) :=
  match m !! p with
  | Some t => if is_busy now t then m else <[p := (timer, now + timer)]> m
  | None => m
  end.

Lemma tasks_keys st : ((fun d => (pid d, (task_timer d, task_end_time d))) <$> table st).*1 = pid <$> table st.
Proof. rewrite <- list_fmap_compose. done. Qed.

Lemma tasks_lookup st i d : registered st -> table st !! i = Some d ->
  tasks st !! pid d = Some (task_timer d, task_end_time d).
Proof.
  intros [_ Hnd _] Hi. unfold tasks. apply elem_of_list_to_map_1; [by rewrite tasks_keys|].
  apply list_elem_of_fmap. exists d. split; [done|]. by eapply list_elem_of_lookup_2.
Qed.

Lemma tasks_none st p : Forall (fun d => is_pid p d = false) (table st) ->
  Forall (fun d => active d <> 0) (table st) -> tasks st !! p = None.
Proof.
  intros Hf Ha. unfold tasks. apply not_elem_of_list_to_map_1. rewrite tasks_keys.
  intros (d & -> & Hd)%list_elem_of_fmap. rewrite Forall_forall in Hf, Ha.
  specialize (Hf d Hd). specialize (Ha d Hd). unfold is_pid in Hf.
  apply andb_false_iff in Hf as [Hf|Hf]; [by rewrite Z.eqb_refl in Hf|].
  apply negb_false_iff, Z.eqb_eq in Hf. done.
Qed.

(** [find_driver] looks the driver up. *)
Lemma find_driver_spec st p : registered st ->
  (find_driver st p = -1 /\ tasks st !! p = None) \/
  (exists i d, find_driver st p = Z.of_nat i /\ table st !! i = Some d /\ pid d = p /\ active d <> 0).
Proof.
  intros H. unfold find_driver.
  destruct (index_of_spec (is_pid p) (table st)) as [[-> Hf]|(i & d & -> & Hi & Hp & _)]; [left|right].
  - split; [done|]. apply tasks_none; [done|apply H].
  - exists i, d. unfold is_pid in Hp. apply andb_true_iff in Hp as [H1%Z.eqb_eq H2].
    apply negb_true_iff, Z.eqb_neq in H2. done.
Qed.

Lemma registered_set st i d d' : registered st -> table st !! i = Some d ->
  pid d' = pid d -> active d' <> 0 -> length (recv_buf d') = 256%nat /\ recv_len d' = 0 ->
  exists st', set_driver st (Z.of_nat i) d' = Done st' /\ registered st' /\
    tasks st' = <[pid d := (task_timer d', task_end_time d')]> (tasks st).
Proof.
  intros [Hwf Hnd Ha] Hi Hp Ha' Hb'.
  assert (Hlt : (i < length (table st))%nat) by (by eapply lookup_lt_Some).
  destruct (table_bufs st i d Hwf Hi) as (_ & _ & Hc).
  destruct (set_driver_ok st (Z.of_nat i) d') as (st' & E & Hwf' & Ht & _ & _ & _); [done | lia | done |].
  rewrite Nat2Z.id in Ht. exists st'. split; [done|]. split; [split|].
  - done.
  - rewrite Ht, list_fmap_insert, Hp. rewrite list_insert_id; [done|]. by rewrite list_lookup_fmap, Hi.
  - rewrite Ht. by apply Forall_insert.
  - unfold tasks. rewrite Ht, list_fmap_insert, Hp.
    apply (list_to_map_update _ i (pid d) (task_timer d, task_end_time d)).
    + by rewrite tasks_keys.
    + by rewrite list_lookup_fmap, Hi.
Qed.

Lemma wp_clock_send {A} p now st i cmd d r0 (f : unit -> prog A) Q :
  znth (drivers st) i = Done d -> strlen cmd = Done r0 ->
  wp (clock p now) (f tt) tt Q -> wp (clock p now) (prog_bind (send_to_driver st i cmd) f) tt Q.
Proof.
  intros Hd Hs Hf. unfold send_to_driver. apply wp_bind. apply wp_done with d; [done|].
  wp_plains; try done. apply wp_done with r0; [done|]. by wp_plains.
Qed.

(** The command always fits the array. *)
Lemma task_command_whole timer :
  task_command timer = (str "TASK:" ++ print_d timer ++ [newline]) ++ 0 :: [].
Proof.
  unfold task_command. pose proof (print_d_length timer). rewrite take_ge; [done|].
  rewrite !length_app. cbn [length str]. lia.
Qed.

Lemma task_command_text timer : text (str "TASK:" ++ print_d timer ++ [newline]).
Proof. repeat (apply Forall_app; split); [| apply print_d_text |]; by repeat constructor. Qed.

(** C11 The commands of the dispatcher implement a map from drivers to tasks. [send_task]
    gives the task to a known driver exactly when its last one is over, and otherwise
    changes nothing; [create_driver] registers the new process as free unless the table
    of 100 is full or [fork] failed. *)
Theorem dispatcher_refines fuel sb st p now target timer :
  registered st -> p <> 0 -> tasks st !! p = None ->
  wp (clock p now) (send_task st target timer) tt (fun r _ =>
    exists st', r = Returned st' /\ registered st' /\
      tasks st' = a_send_task now target timer (tasks st)) /\
  wp (clock p now) (create_driver fuel sb st) tt (fun r _ =>
    exists st', r = Returned st' /\ registered st' /\
      tasks st' = if (driver_count st <? 100) && (0 <? p) then <[p := (0, 0)]> (tasks st) else tasks st).
Proof.
  intros H Hp0 Hnew. pose proof (rg_wf _ H) as Hwf. split.
  - unfold send_task, a_send_task.
    destruct (find_driver_spec st target H) as [[-> ->]|(i & d & -> & Hi & <- & Hact)].
    { change (-1 =? -1) with true. wp_plains; try done. by exists st. }
    rewrite (tasks_lookup st i d H Hi). destruct (Z.eqb_spec (Z.of_nat i) (-1)); [lia|].
    apply wp_done with d; [by apply znth_table|].
    wp_plain. rewrite (proj1 Hr eq_refl). unfold busy, is_busy. cbn [fst snd].
    destruct ((0 <? task_timer d) && (now <? task_end_time d)).
    { wp_plains; try done. by exists st. }
    eapply wp_clock_send; [by apply znth_table| rewrite task_command_whole; apply strlen_app, task_command_text|].
    destruct (registered_set st i d (with_task d timer (now + timer))) as (st' & E & Hreg & Ht);
      [done.. | | ]. { by destruct (table_bufs st i d Hwf Hi) as (? & ? & _). }
    apply wp_done with st'; [done|]. wp_plains. by exists st'.
  - unfold create_driver, MAX_DRIVERS. destruct (Z.leb_spec 100 (driver_count st)).
    { destruct (Z.ltb_spec (driver_count st) 100); [lia|]. wp_plains. by exists st. }
    destruct (Z.ltb_spec (driver_count st) 100); [|lia].
    wp_plain. rewrite (proj2 Hr eq_refl).
    destruct (Z.eqb_spec p 0); [done|]. cbn [andb]. destruct (Z.ltb_spec 0 p).
    2: { wp_plains. by exists st. }
    destruct Hwf as [Hl Hc Hb]. destruct (znth_ok (drivers st) (driver_count st)) as (old & Hold & Hl'); [lia|].
    apply wp_done with old; [done|].
    assert (Hbo : length (recv_buf old) = 256%nat).
    { rewrite Forall_lookup in Hb. by apply (Hb _ _ Hl'). }
    destruct (set_driver st (driver_count st) (created p old)) as [st1|] eqn:E.
    2: { exfalso. unfold set_driver in E. by rewrite zset_ok in E by lia. }
    apply wp_done with st1; [done|]. wp_plains.
    pose proof (table_snoc st _ st1 (proj1 Hc) E) as Ht.
    eexists. split; [done|].
    assert (Hnp : p ∉ pid <$> table st).
    { intros Hin. rewrite <- tasks_keys in Hin. apply not_elem_of_list_to_map_2 in Hnew. done. }
    split.
    + split; rewrite ?Ht.
      * unfold set_driver in E. rewrite zset_ok in E by lia. injection E as <-. 
        split; cbn; [by rewrite length_insert | lia | by apply Forall_insert].
      * rewrite fmap_app. cbn. apply NoDup_app. split_and!; [apply H | set_solver | apply NoDup_singleton].
      * apply Forall_app. split; [apply H|]. by repeat constructor.
    + unfold tasks. rewrite Ht, fmap_app. cbn.
      apply list_to_map_snoc. by rewrite tasks_keys.
Qed.

(** What a driver makes of a message. A command built by the dispatcher, whatever its
    number, is read back whole: the driver acknowledges (the 7 bytes sent leave the
    newline out), sleeps that many seconds and reports that it is free. The "EXIT\n" that
    the dispatcher's [exit] command sends is not the "EXIT" a driver waits for, so it is
    ignored without any call. *)
Theorem driver_reads_task sock my_pid timer r :
  is_int timer ->
  driver_message sock my_pid (task_command timer ++ r)
    = (sys_ (c_print "[Driver %d] Received task for %d sec\n" [print_d my_pid; print_d timer]);;
       sys_ (c_send sock (str "TASK_OK"));;
       sys_ (c_sleep (u32 timer));;
       sys_ (c_send sock (str "AVAILABLE" ++ [newline]));;
       sys_ (c_print "[Driver %d] Task completed\n" [print_d my_pid]);;
       Ret true) /\
  driver_message sock my_pid (str "EXIT" ++ newline :: 0 :: r) = Ret true /\
  driver_message sock my_pid (str "EXIT" ++ 0 :: r)
    = (sys_ (c_send sock (str "EXIT_OK" ++ [newline]));; Ret false).
Proof.
  intros Ht. split; [|done]. rewrite task_command_whole. unfold driver_message.
  assert (Hcmp : strncmp (((str "TASK:" ++ print_d timer ++ [newline]) ++ [0]) ++ r) (lit "TASK:") 5 = Done 0) by done.
  rewrite Hcmp. cbn [mbind prog_mbind of_outcome prog_bind]. change (0 =? 0) with true. cbv iota.
  assert (Hd : drop 5 (((str "TASK:" ++ print_d timer ++ [newline]) ++ [0]) ++ r)
               = (print_d timer ++ [newline]) ++ 0 :: r) by (by rewrite <- !app_assoc).
  rewrite Hd, cstr_app.
  - rewrite scanf_print_d by (done || (right; by exists newline)). done.
  - apply Forall_app. split; [apply print_d_text|]. by repeat constructor.
Qed.

(** A line whose first word has 32 characters or more leaves the array [cmd] of the
    command loop; every shorter one is read. *)
Theorem command_word_bound line cmd args tok rest :
  length cmd = 32%nat -> scan_token None (cstr line) = Matched tok rest ->
  ((length tok < 32)%nat -> sscanf_args 0 (cstr line) cmd args
     = Done (1, tok ++ 0 :: drop (S (length tok)) cmd, args)) /\
  ((32 <= length tok)%nat -> forall fuel sb st,
     command fuel sb (Vars st cmd args) line = Halt (Crashed OutOfBounds)).
Proof.
  intros Hc Hs. unfold command, sscanf_args, scanf_s. cbn [v_st v_cmd v_args]. rewrite Hs. split.
  - intros Hl. rewrite put_at_ok by len. cbn [mbind outcome_bind take app Z.to_nat].
    rewrite <- app_assoc, length_app, Nat.add_1_r. done.
  - intros Hl fuel sb st. unfold put_at. rewrite length_app. cbn [length].
    zbool; cbn; done || lia.
Qed.

(** * Concrete runs *)

Definition demo_driver (p fd : Z) : Driver := MkDriver p 5 1000 fd 1 (replicate 256 0) 0.

(** Two drivers, the first connected on descriptor 5. *)
Definition demo : dispatch :=
  Dispatch (demo_driver 42 5 :: demo_driver 43 (-1) :: drop 2 init_drivers) 2 3 4.
Definition demo_world : world := World {[3; 4; 5]} ∅.
Definition demo_vars : vars := Vars (Dispatch init_drivers 0 3 4) (replicate 32 0) [0; 0].

Lemma demo_wf : wf demo.
Proof. split; [by vm_compute | cbn; lia | apply (bool_decide_unpack _); by vm_compute]. Qed.

Lemma demo_table i d : table demo !! i = Some d ->
  (i = 0%nat /\ d = demo_driver 42 5) \/ (i = 1%nat /\ d = demo_driver 43 (-1)).
Proof.
  change (table demo) with [demo_driver 42 5; demo_driver 43 (-1)].
  destruct i as [|[|i]]; cbn; intros [= <-]; auto.
Qed.

Lemma demo_conn_ok : conn_ok demo demo_world.
Proof.
  split; [apply demo_wf | set_solver | set_solver | |].
  - intros i d [[-> ->]|[-> ->]]%demo_table; cbn; [set_solver | lia].
  - intros i j d e [[-> ->]|[-> ->]]%demo_table [[-> ->]|[-> ->]]%demo_table; cbn; try done; lia.
Qed.

Lemma demo_registered : registered demo.
Proof.
  split; [apply demo_wf | apply (bool_decide_unpack _); by vm_compute |].
  apply (bool_decide_unpack _); by vm_compute.
Qed.

(** Two drivers are created, the first is given a task, and the command line is left. *)
Definition demo_script : list reply :=
  [ok0; data_reply (str "create_driver" ++ [newline]); value_reply 42; ok0;
   ok0; data_reply (str "create_driver" ++ [newline]); value_reply 43; ok0;
   ok0; data_reply (str "send_task 42 7" ++ [newline]); value_reply 1000; ok0;
   ok0; data_reply (str "exit" ++ [newline])].

Lemma cli_never_contacts_drivers_witness :
  let run := play parent (command_loop 4 [] demo_vars) tt demo_script in
  run.2 = Some (Returned tt) /\ length run.1.1 = 14%nat /\
  Forall (fun cr => contacts cr.1 = false) run.1.1.
Proof.
  cbv zeta. split; [by vm_compute|]. split; [by vm_compute|].
  apply (cli_never_contacts_drivers 4 [] demo_vars _ tt (Some (Returned tt))); [done|].
  apply play_exec with demo_script; [|by vm_compute].
  vm_compute. repeat split; intros; discriminate.
Defined.

Lemma connection_process_safe_witness :
  conn_ok demo demo_world /\
  wp kernel (handle_connections_and_drivers 10 demo) demo_world (fun r w' => r = Halted Cut).
Proof. split; [apply demo_conn_ok|]. apply (connection_process_safe 10 demo demo_world), demo_conn_ok. Defined.

Lemma connections_all_rejected_witness :
  let st := v_st demo_vars in
  wp kernel (handle_connections_and_drivers 10 st) (World {[3; 4]} ∅)
    (fun r w' => r = Halted Cut /\ w' = World {[3; 4]} ∅).
Proof.
  cbv zeta. apply (connections_all_rejected 10 (v_st demo_vars)); [done | cbn; set_solver | cbn; set_solver].
Defined.

Lemma dispatcher_refines_witness :
  wp (clock 44 2000) (send_task demo 42 7) tt (fun r _ =>
    exists st', r = Returned st' /\ registered st' /\
      tasks st' = a_send_task 2000 42 7 (tasks demo)) /\
  a_send_task 2000 42 7 (tasks demo) = <[42 := (7, 2007)]> (tasks demo) /\
  a_send_task 900 42 7 (tasks demo) = tasks demo.
Proof.
  split.
  - apply (dispatcher_refines 0 [] demo 44 2000 42 7); [apply demo_registered | done | by vm_compute].
  - by split; vm_compute.
Defined.

Lemma driver_reads_task_witness :
  driver_message 3 42 (task_command 7)
    = (sys_ (c_print "[Driver %d] Received task for %d sec\n" [str "42"; str "7"]);;
       sys_ (c_send 3 (str "TASK_OK"));;
       sys_ (c_sleep 7);;
       sys_ (c_send 3 (str "AVAILABLE" ++ [newline]));;
       sys_ (c_print "[Driver %d] Task completed\n" [str "42"]);;
       Ret true).
Proof.
  rewrite <- (app_nil_r (task_command 7)).
  apply (driver_reads_task 3 42 7 []). unfold is_int, int_min, int_max. lia.
Defined.

Lemma command_word_bound_witness :
  sscanf_args 0 (cstr (lit "get_drivers")) (replicate 32 0) [0; 0]
    = Done (1, str "get_drivers" ++ 0 :: replicate 20 0, [0; 0]) /\
  command 1 [] demo_vars (replicate 40 65 ++ [0]) = Halt (Crashed OutOfBounds).
Proof.
  split.
  - eapply (command_word_bound (lit "get_drivers") (replicate 32 0) [0; 0] (str "get_drivers") []);
      [done | by vm_compute | cbn; lia].
  - eapply (command_word_bound (replicate 40 65 ++ [0]) (replicate 32 0) [0; 0] (replicate 40 65) []);
      [done | by vm_compute | cbn; lia].
Defined.
