(* ===== verification/ChatMq.v ===== *)
(** The chat over POSIX message queues of src/hw13_mqueue/part2: a server that keeps the
    table of registered clients and relays every message, and a client with a window
    and a receiving thread. A message is a struct sent as its 356 bytes. *)

From Stdlib Require Import FunctionalExtensionality.
From S2P Require Import Prelude CInt CStr Stdio Sys.

Definition CHAT_QUEUE : list Z := str "/chat_queue".
Definition MAX_MESSAGE_SIZE : Z := 256.
Definition MAX_CLIENTS : Z := 10.
Definition SIZEOF_MESSAGE : Z := 356.

Record chat_message_t := Message {
  type : Z; name : list Z; queue_name : list Z; text_ : list Z }.

(** The struct in memory. *)
Definition encode (m : chat_message_t) : list Z :=
  le32 (u32 (type m)) ++ name m ++ queue_name m ++ text_ m.

Definition decode (b : list Z) : outcome chat_message_t :=
  t ← get_at b 0 4; n ← get_at b 4 32; q ← get_at b 36 64; x ← get_at b 100 256;
  Done (Message (to_int (of_le t)) n q x).

(** [chat_message_t msg = {0}]. *)
Definition zero_message (ty : Z) : chat_message_t :=
  Message ty (replicate 32 0) (replicate 64 0) (replicate 256 0).

Record client_info_t := Info { c_name : list Z; c_queue_name : list Z; dqueue : Z }.

(** The globals of the server. *)
Record server := Server { clients : list client_info_t; client_count : Z }.

Definition init_server : server :=
  Server (replicate 10 (Info (replicate 32 0) (replicate 64 0) 0)) 0.

Definition clients_mutex : Z := 1.

(** * The server (server.c) *)

(** 0 and the table with the client, or -1. *)
Definition add_client (st : server) (nm qn : list Z) : prog (server * Z) :=
  if MAX_CLIENTS <=? client_count st then Ret (st, -1)
  else
    path ← of_outcome (chars qn);
    qd ← sys (c_mq_open path false);
    if qd =? -1 then sys_ (c_perror "mq_open client queue");; Ret (st, -1)
    else
      sys_ (c_lock clients_mutex);;
      c ← of_outcome (znth (clients st) (client_count st));
      n' ← of_outcome (strncpy (c_name c) nm (32 - 1));
      q' ← of_outcome (strncpy (c_queue_name c) qn (64 - 1));
      cs ← of_outcome (zset (clients st) (client_count st) (Info n' q' qd));
      sys_ (c_unlock clients_mutex);;
      Ret (Server cs (client_count st + 1), 0).

(** [sizeof(text) - strlen(text) - k] is a [size_t]. *)
Definition room (text : list Z) (k : Z) : outcome Z :=
  n ← strlen text; Done (u64 (MAX_MESSAGE_SIZE - n - k)).

(** The list of the names, one per line. *)
Definition append_name (text nm : list Z) : outcome (list Z) :=
  k ← room text 2; text ← strncat text nm k;
  k ← room text 1; strncat text [newline; 0] k.

Fixpoint user_list (text : list Z) (names : list (list Z)) : outcome (list Z) :=
  match names with
  | [] => Done text
  | nm :: names' => text ← append_name text nm; user_list text names'
  end.

Definition registered (st : server) : list client_info_t :=
  take (Z.to_nat (client_count st)) (clients st).

(** [mq_send] of one message to every client, results ignored. *)
Definition send_all (st : server) (msg : chat_message_t) : prog unit :=
  foreach (seqZ 0 (client_count st)) (fun i _ =>
    c ← of_outcome (znth (clients st) i);
    sys_ (c_mq_send (dqueue c) (encode msg))) tt.

Definition broadcast_new_clients (st : server) : prog unit :=
  sys_ (c_lock clients_mutex);;
  let msg := zero_message 2 in
  text ← of_outcome (user_list (text_ msg) (c_name <$> registered st));
  nm ← of_outcome (strncpy (name msg) (lit "Server") (32 - 1));
  send_all st (Message 2 nm (queue_name msg) text);;
  sys_ (c_unlock clients_mutex).

Definition broadcast_message (st : server) (sender text : list Z) : prog unit :=
  let msg := zero_message 1 in
  nm ← of_outcome (strncpy (name msg) sender (32 - 1));
  tx ← of_outcome (strncpy (text_ msg) text (256 - 1));
  sys_ (c_lock clients_mutex);;
  send_all st (Message 1 nm (queue_name msg) tx);;
  sys_ (c_unlock clients_mutex).

(** A received message: registration, text, or anything else. *)
Definition server_handle (st : server) (msg : chat_message_t) : prog server :=
  if type msg =? 0 then
    '(st, r) ← add_client st (name msg) (queue_name msg);
    n ← of_outcome (chars (name msg));
    if r =? 0 then
      q ← of_outcome (chars (queue_name msg));
      sys_ (c_print "Registered client '%s', queue '%s'\n" [n; q]);;
      broadcast_new_clients st;;
      Ret st
    else sys_ (c_print "Failed to add client '%s'\n" [n]);; Ret st
  else if type msg =? 1 then
    n ← of_outcome (chars (name msg));
    x ← of_outcome (chars (text_ msg));
    sys_ (c_print "[%s]: %s\n" [n; x]);;
    broadcast_message st (name msg) (text_ msg);;
    Ret st
  else sys_ (c_perror "mq_receive server");; Ret st.

(** [msg] is an object of the loop body; [buf] is what its bytes were before. *)
Definition server_round (server_mq : Z) (s : server * list Z) : prog (server * list Z + unit) :=
  let '(st, buf) := s in
  '(bytes, data) ← sys_data (c_mq_receive server_mq SIZEOF_MESSAGE);
  if 0 <? bytes then
    buf ← of_outcome (put_at buf 0 data);
    msg ← of_outcome (decode buf);
    st ← server_handle st msg;
    Ret (inl (st, buf))
  else Ret (inl (st, buf)).

Definition server_main (fuel : nat) (stack : list Z) : prog Z :=
  sys_ (c_mq_unlink CHAT_QUEUE);;
  server_mq ← sys (c_mq_open CHAT_QUEUE true);
  if server_mq =? -1 then sys_ (c_perror "mq_open server");; exit 1
  else
    sys_ (c_print "Chat server started\n" []);;
    forever fuel (server_round server_mq) (init_server, stack);;
    sys_ (c_mq_close server_mq);;
    sys_ (c_mq_unlink CHAT_QUEUE);;
    Ret 0.

(** * The client (client.c) *)

Definition ncurses_mutex : Z := 2.

(** The globals and windows. *)
Record client := Client {
  client_name : list Z; client_queue_name : list Z; client_mq : Z; server_mq : Z }.

(** The lines [strtok] yields, written below each other while rows are left. *)
Fixpoint user_rows (fuel : nat) (s : list Z) (row max_y : Z) : prog unit :=
  match fuel with
  | O => Ret tt
  | S n =>
      match strtok_next newline s with
      | Some (line, rest) =>
          if row <? max_y - 1
          then sys_ (c_curses "mvwprintw(win_users)" [print_d row; line]);; user_rows n rest (row + 1) max_y
          else Ret tt
      | None => Ret tt
      end
  end.

(** The list of users of a message, and the cursor back to the input line. *)
Definition show_users (msg : chat_message_t) : prog unit :=
  sys_ (c_curses "werase(win_users)" []);;
  sys_ (c_curses "box(win_users)" []);;
  sys_ (c_curses "mvwprintw(win_users)" [str " User's "]);;
  temp_msg ← of_outcome (strncpy_z (replicate 256 0) (text_ msg));
  max_y ← sys (c_curses "getmaxy(win_users)" []);
  user_rows 257 (cstr temp_msg) 1 max_y;;
  sys_ (c_curses "wrefresh(win_users)" []);;
  sys_ (c_curses "wmove(win_input)" []);;
  sys_ (c_curses "wrefresh(win_input)" []).

Definition show_text (msg : chat_message_t) : prog unit :=
  n ← of_outcome (chars (name msg));
  x ← of_outcome (chars (text_ msg));
  sys_ (c_curses "wprintw(win_chat)" [n; x]);;
  sys_ (c_curses "wrefresh(win_chat)" []);;
  sys_ (c_curses "wmove(win_input)" []);;
  sys_ (c_curses "wrefresh(win_input)" []).

Definition receive_round (mq : Z) (buf : list Z) : prog (list Z + unit) :=
  '(bytes, data) ← sys_data (c_mq_receive mq SIZEOF_MESSAGE);
  if 0 <? bytes then
    buf ← of_outcome (put_at buf 0 data);
    msg ← of_outcome (decode buf);
    sys_ (c_lock ncurses_mutex);;
    (if type msg =? 2 then show_users msg else show_text msg);;
    sys_ (c_unlock ncurses_mutex);;
    Ret (inl buf)
  else Ret (inl buf).

Definition receive_thread (fuel : nat) (mq : Z) (stack : list Z) : prog unit :=
  forever fuel (receive_round mq) stack.

(** [snprintf(client_queue_name, 64, "/%s_queue", client_name)]. *)
Definition queue_of (nm : list Z) : list Z := take 63 (str "/" ++ cstr nm ++ str "_queue") ++ [0].

(** What the client sends when it registers and for a line of input. *)
Definition registration (c : client) : outcome chat_message_t :=
  let reg := zero_message 0 in
  n ← strncpy (name reg) (client_name c) (32 - 1);
  q ← strncpy (queue_name reg) (client_queue_name c) (64 - 1);
  Done (Message 0 n q (text_ reg)).

Definition text_message (c : client) (input : list Z) : outcome chat_message_t :=
  let msg := zero_message 1 in
  n ← strncpy (name msg) (client_name c) (32 - 1);
  x ← strncpy (text_ msg) input (256 - 1);
  Done (Message 1 n (queue_name msg) x).

(** One line: [q] ends the loop, anything else is sent. *)
Definition input_round (c : client) (input : list Z) : prog (list Z + unit) :=
  sys_ (c_lock ncurses_mutex);;
  sys_ (c_curses "werase(win_input)" []);;
  sys_ (c_curses "box(win_input)" []);;
  sys_ (c_curses "mvwprintw(win_input)" [str " Input (type 'q' to quit) "]);;
  sys_ (c_curses "mvwprintw(win_input)" [str "> "]);;
  sys_ (c_curses "wmove(win_input)" []);;
  sys_ (c_curses "echo" []);;
  sys_ (c_curses "wrefresh(win_input)" []);;
  sys_ (c_unlock ncurses_mutex);;
  '(n, data) ← sys_data (c_wgetnstr (MAX_MESSAGE_SIZE - 1));
  input ← of_outcome (put_at input 0 (data ++ [0]));
  is_q ← of_outcome (streq input (lit "q"));
  if (is_q : bool) then Ret (inr tt)
  else
    msg ← of_outcome (text_message c input);
    sys_ (c_mq_send (server_mq c) (encode msg));;
    Ret (inl input).

(** The windows, made before the receiving thread starts. *)
Definition init_windows : prog unit :=
  foreach ["initscr"; "cbreak"; "noecho"; "curs_set"; "getmaxyx"; "newwin(win_chat)"; "scrollok";
           "box(win_chat)"; "mvwprintw(win_chat)"; "wrefresh(win_chat)"; "newwin(win_users)";
           "box(win_users)"; "mvwprintw(win_users)"; "wrefresh(win_users)"; "newwin(win_input)";
           "box(win_input)"; "mvwprintw(win_input)"; "wmove(win_input)"; "wrefresh(win_input)"]%string
    (fun op _ => sys_ (c_curses op [])) tt.

Definition client_main (fuel : nat) (stack : list Z) : prog Z :=
  sys_ (c_print "Enter your name: " []);;
  '(n, data) ← sys_data (c_gets 32);
  if n <? 0 then sys_ (c_print "Failed to read name\n" []);; exit 1
  else
    nm ← of_outcome (put_at (replicate 32 0) 0 (data ++ [0]));
    nm ← of_outcome (chomp nm);
    len ← of_outcome (strlen nm);
    if len =? 0 then sys_ (c_print "Empty name not allowed\n" []);; exit 1
    else
      let qn := queue_of nm in
      path ← of_outcome (chars qn);
      sys_ (c_mq_unlink path);;
      cmq ← sys (c_mq_open path true);
      if cmq =? -1 then sys_ (c_perror "mq_open client");; exit 1
      else
        smq ← sys (c_mq_open CHAT_QUEUE false);
        if smq =? -1 then
          sys_ (c_perror "mq_open server");; sys_ (c_mq_close cmq);; sys_ (c_mq_unlink path);; exit 1
        else
          let c := Client nm qn cmq smq in
          reg ← of_outcome (registration c);
          sys_ (c_mq_send smq (encode reg));;
          init_windows;;
          sys_ c_thread_create;;
          forever fuel (input_round c) stack;;
          sys_ c_thread_cancel;;
          sys_ c_thread_join;;
          sys_ (c_mq_close cmq);;
          sys_ (c_mq_unlink path);;
          sys_ (c_mq_close smq);;
          sys_ (c_curses "endwin" []);;
          Ret 0.

(** * The wire format *)

Record shaped (m : chat_message_t) : Prop := Shaped {
  sh_type : is_int (type m);
  sh_name : length (name m) = 32%nat;
  sh_queue : length (queue_name m) = 64%nat;
  sh_text : length (text_ m) = 256%nat }.

Lemma get_app {A} (a b c : list A) o n :
  o = Z.of_nat (length a) -> n = Z.of_nat (length b) -> get_at (a ++ b ++ c) o n = Done b.
Proof.
  intros -> ->. unfold get_at. rewrite !length_app. zbool; cbn; try lia.
  by rewrite !Nat2Z.id, drop_app_length, take_app_length.
Qed.

Lemma encode_length m : shaped m -> length (encode m) = 356%nat.
Proof. intros [_ ? ? ?]. unfold encode, le32. rewrite !length_app. cbn [length]. lia. Qed.

Lemma decode_encode m r : shaped m -> decode (encode m ++ r) = Done m.
Proof.
  intros [Ht Hn Hq Hx]. unfold decode, encode. rewrite <- !app_assoc.
  pose proof (get_app [] (le32 (u32 (type m))) (name m ++ queue_name m ++ text_ m ++ r) 0 4 eq_refl eq_refl) as E.
  cbn [app] in E. rewrite E. cbn [mbind outcome_bind]. clear E.
  rewrite (get_app (le32 (u32 (type m))) (name m) _ 4 32) by (unfold le32; cbn [length]; lia). cbn [outcome_bind].
  rewrite (app_assoc (le32 _)). rewrite (get_app _ (queue_name m) _ 36 64) by (rewrite ?length_app; unfold le32; cbn [length]; lia).
  cbn [outcome_bind]. rewrite (app_assoc (_ ++ name m)).
  rewrite (get_app _ (text_ m) _ 100 256) by (rewrite ?length_app; unfold le32; cbn [length]; lia). cbn [outcome_bind].
  rewrite of_le_le32 by apply u32_range.
  assert (to_int (u32 (type m)) = type m) as ->.
  { unfold to_int, u32. rewrite Z.mod_mod by lia. by apply to_int_id. }
  by destruct m.
Qed.

(** * The list of users *)

Definition user_lines (names : list (list Z)) : list Z :=
  flat_map (fun nm => cstr nm ++ [newline]) names.

Lemma room_app d r k : text d -> room (d ++ 0 :: r) k = Done (u64 (256 - Z.of_nat (length d) - k)).
Proof. intros H. unfold room. by rewrite strlen_app. Qed.

Lemma append_name_ok d r nm : text d -> terminated nm -> length (d ++ 0 :: r) = 256%nat ->
  (length d <= 254)%nat ->
  exists r', append_name (d ++ 0 :: r) nm
      = Done ((d ++ take (254 - length d) (cstr nm) ++ [newline]) ++ 0 :: r') /\
    length ((d ++ take (254 - length d) (cstr nm) ++ [newline]) ++ 0 :: r') = 256%nat.
Proof.
  intros Hd [q ->]%terminated_split Hl Hdl. rewrite cstr_app by apply cstr_text.
  set (s := cstr nm). assert (Hs : text s) by apply cstr_text.
  unfold append_name. rewrite room_app by done. cbn [mbind outcome_bind].
  unfold u64. rewrite Z.mod_small by lia.
  destruct (strncat_ok d r s q (256 - Z.of_nat (length d) - 2)) as (r1 & E1 & L1); [done.. | lia | lia |].
  replace (Z.to_nat _) with (Nat.min (254 - length d) (length s)) in E1, L1 by lia.
  rewrite E1. cbn [outcome_bind]. set (k := Nat.min (254 - length d) (length s)) in *.
  assert (Hk : take k s = take (254 - length d) s).
  { destruct (decide (length s <= 254 - length d)%nat).
    - rewrite !take_ge by lia. done.
    - f_equal. lia. }
  rewrite Hk in *. set (d1 := d ++ take (254 - length d) s) in *.
  assert (Hd1 : text d1) by (apply Forall_app; split; [done|by apply Forall_take]).
  cbn [mbind outcome_bind]. rewrite room_app by done. cbn [mbind outcome_bind].
  assert (Hl1 : (length d1 <= 254)%nat) by (subst d1; len).
  rewrite u64_small by lia.
  destruct (strncat_ok d1 r1 [newline] [] (256 - Z.of_nat (length d1) - 1)) as (r2 & E2 & L2);
    [done | by repeat constructor | lia | cbn [length]; lia |].
  replace (Z.to_nat _) with 1%nat in E2, L2 by (cbn [length]; lia).
  exists r2. rewrite app_assoc. fold d1. cbn [take] in *. split; [exact E2 | lia].
Qed.

Lemma append_name_full d r nm : text d -> terminated nm -> length (d ++ 0 :: r) = 256%nat ->
  length d = 255%nat ->
  append_name (d ++ 0 :: r) nm
    = if decide (cstr nm = []) then Done (d ++ 0 :: r) else Undef OutOfBounds.
Proof.
  intros Hd [q ->]%terminated_split Hl Hdl. rewrite cstr_app by apply cstr_text.
  set (s := cstr nm). assert (Hs : text s) by apply cstr_text.
  assert (r = []) as -> by (rewrite length_app, length_cons in Hl; destruct r; [done|cbn in Hl; lia]).
  unfold append_name. rewrite room_app by done. cbn [mbind outcome_bind].
  rewrite Hdl. change (u64 (256 - Z.of_nat 255 - 2)) with (2 ^ 64 - 1).
  case_decide as Hnil.
  - rewrite Hnil. destruct (strncat_ok d [] [] q (2 ^ 64 - 1)) as (r1 & E1 & L1);
      [done | by constructor | lia | cbn [length]; rewrite Hl, Hdl; cbn; lia |].
    cbn [length take Z.of_nat Z.min] in E1, L1. rewrite take_nil, app_nil_r in *.
    rewrite E1. cbn [mbind outcome_bind]. rewrite room_app by done. cbn [mbind outcome_bind].
    rewrite Hdl. change (u64 (256 - Z.of_nat 255 - 1)) with 0.
    assert (r1 = []) as -> by (rewrite Hl, length_app, length_cons in L1; destruct r1; [done|cbn in L1; lia]).
    destruct (strncat_ok d [] [newline] [] 0) as (r2 & E2 & L2);
      [done | by repeat constructor | lia | cbn; rewrite Hl, Hdl; lia |].
    cbn [length take Z.of_nat Z.min Z.to_nat app] in E2, L2. change (Z.to_nat (0 `min` _)) with 0%nat in *.
    cbn [take] in *. rewrite app_nil_r in *. rewrite E2.
    assert (r2 = []) as -> by (rewrite Hl, length_app, length_cons in L2; destruct r2; [done|cbn in L2; lia]).
    done.
  - rewrite strncat_oob; [done..|]. rewrite Hl, Hdl.
    destruct s; [done|]. cbn [length]. lia.
Qed.

(** Names that fit are listed one per line. *)
Lemma user_list_fits d r names : text d -> Forall terminated names -> length (d ++ 0 :: r) = 256%nat ->
  (length (d ++ user_lines names) <= 255)%nat ->
  exists r', user_list (d ++ 0 :: r) names = Done ((d ++ user_lines names) ++ 0 :: r') /\
    length ((d ++ user_lines names) ++ 0 :: r') = 256%nat.
Proof.
  intros Hd Hn. revert d r Hd. induction Hn as [|nm names Hnm Hn IH]; intros d r Hd Hl Hfit.
  - exists r. cbn. by rewrite app_nil_r.
  - unfold user_lines in *. cbn [user_list flat_map] in *. rewrite !app_assoc in *.
    rewrite !length_app in Hfit. cbn [length] in Hfit.
    destruct (append_name_ok d r nm) as (r1 & E1 & L1); [done | done | done | lia |].
    rewrite take_ge in E1, L1 by lia. rewrite E1. cbn [mbind outcome_bind].
    rewrite app_assoc in *. apply IH; [|done|rewrite !length_app; cbn [length]; lia].
    repeat (apply Forall_app; split); [done | apply cstr_text | by repeat constructor].
Qed.

(** Names that do not fit overrun the message as soon as the text is full. *)
Lemma user_list_overruns d r names k nm : text d -> Forall terminated names ->
  length (d ++ 0 :: r) = 256%nat -> names !! k = Some nm -> cstr nm <> [] ->
  (255 <= length (d ++ user_lines (take k names)))%nat ->
  user_list (d ++ 0 :: r) names = Undef OutOfBounds.
Proof.
  intros Hd Hn. revert d r k Hd. induction Hn as [|m names Hm Hn IH]; intros d r k Hd Hl Hk Hne Hfull.
  { by rewrite lookup_nil in Hk. }
  assert (Hd255 : (length d <= 255)%nat) by (rewrite length_app, length_cons in Hl; lia).
  cbn [user_list]. destruct (decide (length d = 255%nat)) as [E|E].
  - rewrite append_name_full by done. case_decide as Hc; [|done]. cbn [mbind outcome_bind].
    destruct k as [|k]; cbn in Hk; [by simplify_eq|]. apply (IH d r k); [done.. |]. len.
  - destruct (append_name_ok d r m) as (r1 & E1 & L1); [done | done | done | lia |].
    rewrite E1. cbn [mbind outcome_bind].
    destruct k as [|k]; [exfalso; unfold user_lines in Hfull; cbn in Hfull; rewrite app_nil_r in Hfull; lia|].
    cbn in Hk. apply (IH _ _ k); [|done..|].
    + repeat (apply Forall_app; split); [done | apply Forall_take, cstr_text | by repeat constructor].
    + unfold user_lines in *. cbn [take flat_map] in Hfull. rewrite !length_app in *. cbn [length] in *.
      rewrite length_take. lia.
Qed.

(** C15 The list of users that follows every registration. While the names with their
    newlines take at most 255 characters, the message holds exactly those lines. Once
    the text is full, [sizeof - strlen - 2] wraps around as an unsigned number and the
    next name is written past the end of the message. *)
Theorem user_list_bounds names :
  Forall terminated names ->
  ((length (user_lines names) <= 255)%nat ->
     exists b, user_list (replicate 256 0) names = Done b /\ length b = 256%nat /\
       terminated b /\ cstr b = user_lines names) /\
  (forall k nm, names !! k = Some nm -> cstr nm <> [] ->
     (255 <= length (user_lines (take k names)))%nat ->
     user_list (replicate 256 0) names = Undef OutOfBounds).
Proof.
  intros Hn. change (replicate 256 0) with ([] ++ 0 :: replicate 255 0). split.
  - intros Hfit. destruct (user_list_fits [] (replicate 255 0) names) as (r' & E & L);
      [constructor | done | done | done |].
    eexists. split; [exact E|]. split; [exact L|].
    assert (text (user_lines names)).
    { clear. induction names as [|nm l IH]; [constructor|]. unfold user_lines. cbn.
      repeat (apply Forall_app; split); [apply cstr_text | by repeat constructor | done]. }
    split; [apply elem_of_app; right; left|]. by apply cstr_app.
  - intros k nm Hk Hne Hfull. by apply (user_list_overruns [] _ _ k nm); [constructor|..].
Qed.

(** * Messages end to end *)

(** A line of the client [nm] reaches the server and every client byte for byte. *)
Lemma text_message_shape c s t p q :
  client_name c = s ++ 0 :: p -> text s -> (length s < 32)%nat -> text t -> (length t < 256)%nat ->
  exists m, text_message c (t ++ 0 :: q) = Done m /\ shaped m /\ type m = 1 /\
    name m = s ++ 0 :: replicate (31 - length s) 0 /\ queue_name m = replicate 64 0 /\
    text_ m = t ++ 0 :: replicate (255 - length t) 0.
Proof.
  intros Hc Hs Hsl Ht Htl. unfold text_message, zero_message. cbn [name text_ queue_name type].
  rewrite Hc, (strncpy_zeros 32 (32 - 1) s p Hs Hsl eq_refl). cbn [mbind outcome_bind].
  rewrite (strncpy_zeros 256 (256 - 1) t q Ht Htl eq_refl). cbn [outcome_bind].
  eexists. split; [done|]. cbn [name text_ queue_name type].
  rewrite !replicate_S_zero by done.
  split_and!; try done; [split; cbn [name text_ queue_name type]|..].
  - by apply in_int_spec.
  - rewrite length_app, length_cons, length_replicate. lia.
  - done.
  - rewrite length_app, length_cons, length_replicate. lia.
  - do 3 f_equal. lia.
  - do 3 f_equal. lia.
Qed.

Lemma send_all_makes st m : 0 <= client_count st <= Z.of_nat (length (clients st)) ->
  makes (send_all st m) ((fun c => c_mq_send (dqueue c) (encode m)) <$> take (Z.to_nat (client_count st)) (clients st)) tt.
Proof.
  intros Hst. apply makes_each. apply Forall2_same_length_lookup_2.
  { rewrite length_seqZ, length_take. lia. }
  intros i k c Hk Hc _. apply lookup_seqZ in Hk as [-> Hi]. rewrite lookup_take_lt in Hc by lia.
  destruct (znth_ok (clients st) (0 + Z.of_nat i)) as (c' & -> & Hc'); [apply lookup_lt_Some in Hc; lia|].
  rewrite Z.add_0_l, Nat2Z.id in Hc'. assert (c' = c) as -> by congruence. by split.
Qed.

(** C13 A line arrives everywhere as it was typed. What a client sends for a line [t] is
    one message of 356 bytes; the server reads it back, prints name and line, and sends
    the very same bytes to every registered client in the order of the table; a client
    that receives them prints the same name and line. *)
Theorem line_relayed c s t p q st r :
  client_name c = s ++ 0 :: p -> text s -> (length s < 32)%nat -> text t -> (length t < 256)%nat ->
  0 <= client_count st <= Z.of_nat (length (clients st)) ->
  exists m, text_message c (t ++ 0 :: q) = Done m /\
    encode m = [1; 0; 0; 0] ++ (s ++ replicate (32 - length s) 0) ++ replicate 64 0 ++ (t ++ replicate (256 - length t) 0) /\
    length (encode m) = 356%nat /\ decode (encode m ++ r) = Done m /\
    makes (server_handle st m)
      ([c_print "[%s]: %s\n" [s; t]; c_lock clients_mutex]
        ++ ((fun client => c_mq_send (dqueue client) (encode m)) <$> take (Z.to_nat (client_count st)) (clients st))
        ++ [c_unlock clients_mutex]) st /\
    makes (show_text m)
      [c_curses "wprintw(win_chat)" [s; t]; c_curses "wrefresh(win_chat)" [];
       c_curses "wmove(win_input)" []; c_curses "wrefresh(win_input)" []] tt.
Proof.
  intros Hc Hs Hsl Ht Htl Hst.
  destruct (text_message_shape c s t p q Hc Hs Hsl Ht Htl) as (m & E & Hm & Hty & Hn & Hq & Hx).
  exists m. split; [done|]. split.
  { unfold encode. rewrite Hty, Hn, Hq, Hx. replace (32 - length s)%nat with (S (31 - length s)) by lia.
    by replace (256 - length t)%nat with (S (255 - length t)) by lia. }
  split; [by apply encode_length|]. split; [by apply decode_encode|].
  unfold server_handle, show_text, broadcast_message, zero_message. cbn [name text_ queue_name type].
  rewrite Hty, Hn, Hx, !chars_app, (strncpy_zeros 32 (32 - 1) s _ Hs Hsl eq_refl) by done.
  rewrite (strncpy_zeros 256 (256 - 1) t _ Ht Htl eq_refl), !replicate_S_zero by done.
  split; [|by repeat split].
  cbn [of_outcome mbind outcome_bind prog_mbind prog_bind Z.eqb Pos.eqb name text_ queue_name type].
  unfold sys_. cbn [prog_bind].
  assert (Message 1 (s ++ 0 :: replicate (32 - length s - 1) 0) (replicate 64 0)
            (t ++ 0 :: replicate (256 - length t - 1) 0) = m) as Heq.
  { destruct m as [ty n qn tx]. cbn in *. subst. 
    replace (32 - length s - 1)%nat with (31 - length s)%nat by lia.
    by replace (256 - length t - 1)%nat with (255 - length t)%nat by lia. }
  rewrite Heq. unfold mbind, prog_mbind. cbn [prog_bind app makes].
  do 2 (split; [done|intros _]). rewrite prog_bind_assoc. by eapply makes_bind; [apply send_all_makes|].
Qed.

(** * Descriptors of the server and of the client *)

(** The queues in the table are open. *)
Record server_ok (mq : Z) (st : server) (w : world) : Prop := ServerOk {
  so_mq : mq ∈ fds w;
  so_length : length (clients st) = 10%nat;
  so_count : 0 <= client_count st <= 10;
  so_open : Forall (fun c => dqueue c ∈ fds w) (registered st) }.

Definition server_post (mq : Z) (r : result server) (w : world) : Prop :=
  match r with Returned st => server_ok mq st w | Halted h => h <> Cut /\ forall n, h <> Exited n end.

Lemma crashed_post mq u w : server_post mq (Halted (Crashed u)) w.
Proof. by split; intros. Qed.

Ltac crash := intros ? _; cbn [seq_post]; first [apply crashed_post | done | (right; by eexists)].

Ltac stops := intros; cbn [seq_post]; split_and!; by intros.

Lemma registered_lookup st i c : 0 <= i < client_count st -> znth (clients st) i = Done c ->
  c ∈ registered st.
Proof.
  intros Hi [_ Hc]%znth_Done. apply list_elem_of_lookup. exists (Z.to_nat i).
  unfold registered. by rewrite lookup_take_lt by lia.
Qed.

Lemma wp_send_all {A} mq st w m (f : unit -> prog A) Q : server_ok mq st w ->
  wp kernel (f tt) w Q -> (forall u, Q (Halted (Crashed u)) w) ->
  wp kernel (prog_bind (send_all st m) f) w Q.
Proof.
  intros H Hf HC. apply wp_bind. unfold send_all.
  apply (wp_foreach _ (fun _ w' => w' = w)); [|by intros [] ? ->|done].
  intros i [] w' Hi%elem_of_seqZ ->. apply wp_pure; [|intros; cbn; auto].
  intros c Hc. apply registered_lookup in Hc; [|lia].
  pose proof (so_open _ _ _ H) as Ho. rewrite Forall_forall in Ho. specialize (Ho c Hc). cbn beta in Ho. by wp_steps.
Qed.

Lemma wp_broadcast_clients mq st w : server_ok mq st w ->
  wp kernel (broadcast_new_clients st) w (fun r w' => w' = w /\ match r with Returned _ => True | Halted h => h <> Cut /\ forall n, h <> Exited n end).
Proof.
  intros H. unfold broadcast_new_clients. wp_step. apply wp_pure; [intros text _|stops].
  apply wp_pure; [intros nm _|stops]. eapply wp_send_all; [done|by wp_steps|stops].
Qed.

Lemma wp_broadcast_message mq st w s t : server_ok mq st w ->
  wp kernel (broadcast_message st s t) w (fun r w' => w' = w /\ match r with Returned _ => True | Halted h => h <> Cut /\ forall n, h <> Exited n end).
Proof.
  intros H. unfold broadcast_message. apply wp_pure; [intros nm _|stops].
  apply wp_pure; [intros text _|stops]. wp_step. eapply wp_send_all; [done|by wp_steps|stops].
Qed.

Lemma wp_add_client mq st w nm qn : server_ok mq st w ->
  wp kernel (add_client st nm qn) w (fun r w' =>
    match r with Returned (st', _) => server_ok mq st' w' | Halted h => server_post mq (Halted h) w' end).
Proof.
  intros [Hmq Hl Hc Ho]. unfold add_client, MAX_CLIENTS. wp_step; [by wp_steps|].
  apply wp_pure; [intros path _|crash]. wp_step.
  - rewrite Hr. by wp_steps.
  - wp_step; [exfalso; lia|]. wp_step.
    apply wp_pure; [intros c Hcl|crash]. apply wp_pure; [intros n' _|crash]. apply wp_pure; [intros q' _|crash].
    apply wp_pure; [intros cs Hcs|crash]. wp_steps. apply zset_Done in Hcs as [Hi ->].
    split; cbn; [set_solver | by rewrite length_insert | lia |].
    unfold registered in *. cbn.
    replace (Z.to_nat (client_count st + 1)) with (S (Z.to_nat (client_count st))) by lia.
    rewrite (take_S_r _ _ (Info n' q' (r_val r))) by (apply list_lookup_insert_eq; lia).
    rewrite take_insert_ge by lia. apply Forall_app. split.
    + eapply Forall_impl; [exact Ho|]. set_solver.
    + constructor; [cbn; set_solver|constructor].
Qed.

Lemma wp_server_handle mq st w m : server_ok mq st w ->
  wp kernel (server_handle st m) w (server_post mq).
Proof.
  intros H. unfold server_handle. wp_steps; try done.
  - eapply wp_seq; [by apply wp_add_client|]. intros [[st' r]|h] w' H'; [|done]. cbn [seq_post].
    apply wp_pure; [intros n _|crash]. wp_steps; [|done].
    apply wp_pure; [intros q _|crash]. wp_step.
    eapply wp_seq; [by eapply wp_broadcast_clients|]. intros [[]|h] w2 [-> Hh]; cbn; [done|apply Hh].
  - apply wp_pure; [intros n _|crash]. apply wp_pure; [intros x _|crash]. wp_step.
    eapply wp_seq; [by eapply wp_broadcast_message|]. intros [[]|h] w2 [-> Hh]; cbn; [done|apply Hh].
Qed.

(** Whatever arrives on its queue, the server only ever sends on queues that are open,
    keeps at most ten clients, and ends only by undefined behaviour. *)
Theorem server_only_open_queues mq st stack fuel w :
  server_ok mq st w ->
  wp kernel (forever fuel (server_round mq) (st, stack)) w (fun r _ =>
    r = Halted Cut \/ exists u, r = Halted (Crashed u)).
Proof.
  intros H. apply (wp_forever _ (fun s w' => server_ok mq s.1 w')); [|by left|done].
  clear. intros [st buf] w H. cbn [fst] in H. pose proof (so_mq _ _ _ H). unfold server_round. wp_step. wp_step; [|by wp_steps].
  apply wp_pure; [intros b _|crash]. apply wp_pure; [intros m _|crash].
  eapply wp_seq; [by apply wp_server_handle|]. intros [st'|h] w' H'; cbn [seq_post]; [by wp_steps|].
  destruct h as [n| |]; cbn in H'; [by destruct (proj2 H' n)|right; by eexists|by destruct H'].
Qed.

(** What a finished client leaves behind: nothing. *)
Definition cleaned {A} (w : world) (r : result A) (w' : world) : Prop :=
  match r with
  | Halted Cut | Halted (Crashed _) => True
  | _ => fds w' = fds w /\ names w' ⊆ names w
  end.

Lemma wp_init_windows {A} w (f : unit -> prog A) Q :
  wp kernel (f tt) w Q -> wp kernel (prog_bind init_windows f) w Q.
Proof.
  intros Hf. apply wp_bind. unfold init_windows. apply (wp_foreach _ (fun _ w' => w' = w)).
  - intros op [] w' _ ->. by wp_steps.
  - by intros [] ? ->.
  - done.
Qed.

(** The part of the client after both queues are open, in a world that has them. *)
Lemma wp_input_loop {A} fuel c stack w (f : unit -> prog A) Q :
  server_mq c ∈ fds w -> wp kernel (f tt) w Q -> (forall h, (h = Cut \/ exists u, h = Crashed u) -> Q (Halted h) w) ->
  wp kernel (prog_bind (forever fuel (input_round c) stack) f) w Q.
Proof.
  intros Hs Hf HC. apply wp_bind. apply (wp_forever _ (fun _ w' => w' = w)); [| |done].
  - intros input w' ->. unfold input_round. wp_steps.
    apply wp_pure; [intros i2 _|intros; cbn; apply HC; right; by eexists].
    apply wp_pure; [intros q _|intros; cbn; apply HC; right; by eexists].
    wp_steps; [done|].
    apply wp_pure; [intros m _|intros; cbn; apply HC; right; by eexists]. by wp_steps.
  - intros ? ? ->. cbn. apply HC. by left.
Qed.

Lemma client_cleans_up_aux fuel stack nm path w N : N ⊆ names w ->
  wp kernel (
      cmq ← sys (c_mq_open path true);
      if cmq =? -1 then sys_ (c_perror "mq_open client");; exit 1
      else
        smq ← sys (c_mq_open CHAT_QUEUE false);
        if smq =? -1 then
          sys_ (c_perror "mq_open server");; sys_ (c_mq_close cmq);; sys_ (c_mq_unlink path);; exit 1
        else
          let c := Client nm (queue_of nm) cmq smq in
          reg ← of_outcome (registration c);
          sys_ (c_mq_send smq (encode reg));;
          init_windows;;
          sys_ c_thread_create;;
          forever fuel (input_round c) stack;;
          sys_ c_thread_cancel;;
          sys_ c_thread_join;;
          sys_ (c_mq_close cmq);;
          sys_ (c_mq_unlink path);;
          sys_ (c_mq_close smq);;
          sys_ (c_curses "endwin" []);;
          Ret 0) (World (fds w) N) (cleaned (A := Z) w).
Proof.
  intros HN. wp_step; [wp_steps; cbn; try done; lia|].
  wp_step; [lia|]. wp_step.
  - wp_steps; cbn; try lia; set_solver.
  - wp_step; [lia|]. apply wp_pure; [intros reg _|done].
    wp_step. apply wp_init_windows. wp_step. apply wp_input_loop; [cbn; set_solver | |].
    + wp_steps; cbn; set_solver.
    + by intros h [->|[u ->]].
Qed.

(** C31 The client cleans up after itself: whether it ends with [q] or with an error, the
    queues it opened are closed and the name it created is gone. *)
Theorem client_cleans_up fuel stack w :
  wp kernel (client_main fuel stack) w (cleaned w).
Proof.
  unfold client_main. wp_step. wp_step. wp_step; [by wp_steps|].
  apply wp_pure; [intros nm0 _|done]. apply wp_pure; [intros nm _|done].
  apply wp_pure; [intros len _|done]. wp_step; [by wp_steps|].
  apply wp_pure; [intros path _|done]. wp_step; apply client_cleans_up_aux; set_solver.
Qed.

(** * The lock of the screen *)

(** Windows are touched only by the thread that holds [ncurses_mutex]; [wgetnstr] is the
    exception the code makes. *)
Definition screen : monitor bool := Monitor
  (fun held c =>
     match c with
     | c_curses _ _ | c_unlock _ => held = true
     | c_lock _ | c_wgetnstr _ => held = false
     | _ => True
     end)
  (fun _ _ _ => True)
  (fun held c _ => match c with c_lock _ => true | c_unlock _ => false | _ => held end).

Definition unlocked {A} (r : result A) (held : bool) : Prop :=
  match r with Halted (Crashed _) => True | _ => held = false end.

Lemma wp_rows n s row max_y :
  wp screen (user_rows n s row max_y) true (fun r held => held = true /\ r = Returned tt).
Proof.
  revert s row. induction n as [|n IH]; intros s row; cbn [user_rows]; [by wp_plains|].
  destruct (strtok_next newline s) as [[line rest]|]; [|by wp_plains].
  wp_plain; [|by wp_plains]. wp_plain. apply IH.
Qed.

(** The two threads of the client share the screen by the mutex: in every run each of
    them locks and unlocks it in turn, holds it at every window operation, and holds it
    no longer when its round is over, whatever is received; only [wgetnstr] is called
    without it. *)
Theorem screen_calls_locked fuel mq stack c :
  wp screen (receive_thread fuel mq stack) false unlocked /\
  wp screen (forever fuel (input_round c) stack) false unlocked.
Proof.
  split.
  - apply (wp_forever _ (fun _ h => h = false)); [|done..]. clear. intros buf h ->.
    unfold receive_round. wp_plain. wp_plain; [|by wp_plains].
    apply wp_pure; [intros b _|done]. apply wp_pure; [intros m _|done]. wp_plain. cbn [post screen].
    apply wp_bind. destruct (type m =? 2); [unfold show_users|unfold show_text].
    + wp_plain. wp_plain. wp_plain. cbn [post screen]. apply wp_pure; [intros tm _|done]. wp_plain.
      cbn [post screen]. eapply wp_seq; [apply wp_rows|]. intros r' h' [-> ->]. cbn [seq_post].
      by wp_plains.
    + apply wp_pure; [intros n _|done]. apply wp_pure; [intros x _|done]. by wp_plains.
  - apply (wp_forever _ (fun _ h => h = false)); [|done..]. clear. intros buf h ->.
    unfold input_round. wp_plains.
    apply wp_pure; [intros i2 _|done]. apply wp_pure; [intros q _|done].
    wp_plains; [done|]. apply wp_pure; [intros m _|done]. by wp_plains.
Qed.

(** * Concrete runs *)

Definition field (n : nat) (s : list Z) : list Z := s ++ replicate (n - length s) 0.

Definition demo_client : client := Client (field 32 (str "ann")) (field 64 (str "/ann_queue")) 3 4.

(** A table with two clients, whose queues are 5 and 6. *)
Definition two_clients : server :=
  Server (Info (field 32 (str "ann")) (field 64 (str "/ann_queue")) 5
       :: Info (field 32 (str "bob")) (field 64 (str "/bob_queue")) 6 :: drop 2 (clients init_server)) 2.

Lemma line_relayed_witness :
  exists m, text_message demo_client (lit "hello") = Done m /\
    length (encode m) = 356%nat /\ decode (encode m) = Done m /\
    makes (server_handle two_clients m)
      [c_print "[%s]: %s\n" [str "ann"; str "hello"]; c_lock clients_mutex;
       c_mq_send 5 (encode m); c_mq_send 6 (encode m); c_unlock clients_mutex] two_clients.
Proof.
  destruct (line_relayed demo_client (str "ann") (str "hello") (replicate 28 0) [] two_clients [])
    as (m & E & _ & L & D & S & _);
    [done | by apply (bool_decide_unpack _) | cbn; lia | by apply (bool_decide_unpack _) | cbn; lia | cbn; lia |].
  exists m. rewrite app_nil_r in D. split_and!; [exact E | exact L | exact D | exact S].
Defined.

(** Eight clients with names of 31 characters, and a ninth. *)
Definition long_names : list (list Z) := replicate 9 (field 32 (replicate 31 97)).

Lemma user_list_bounds_witness :
  (exists b, user_list (replicate 256 0) (take 7 long_names) = Done b /\ length b = 256%nat /\
     terminated b /\ cstr b = user_lines (take 7 long_names)) /\
  user_list (replicate 256 0) long_names = Undef OutOfBounds.
Proof.
  split.
  - apply (user_list_bounds (take 7 long_names)); [apply (bool_decide_unpack _); by vm_compute|].
    apply Nat.leb_le. by vm_compute.
  - apply (user_list_bounds long_names) with (k := 8%nat) (nm := field 32 (replicate 31 97));
      [apply (bool_decide_unpack _); by vm_compute | done | done | apply Nat.leb_le; by vm_compute].
Defined.

Lemma server_only_open_queues_witness :
  wp kernel (forever 10 (server_round 3) (init_server, replicate 356 0)) (World {[3]} ∅) (fun r _ =>
    r = Halted Cut \/ exists u, r = Halted (Crashed u)).
Proof.
  apply (server_only_open_queues 3 init_server (replicate 356 0) 10).
  split; cbn; [set_solver | done | lia | constructor].
Defined.
