(* ===== verification/ChatMqNet.v ===== *)
(** The chat over message queues as a whole: the server, any number of clients with both
    threads of each, and the queues between them (src/hw13_mqueue/part2). The programs are
    those of ChatMq, each a process of [Sys.many_step]; a queue is the list of the messages
    that wait in it, sending fails when the system says so, and a message that was not
    sent is lost. The queue of a client bears the number of the process that reads it. The
    clients have different names: one that takes the name of another removes its queue. *)

From stdpp Require Import relations.
From S2P Require Import Prelude CInt CStr Stdio Sys ChatMq.

(** * The queues *)

(** The messages that wait for the server, those it has taken and all that were sent to
    it; the queues of the clients; the queue behind each descriptor the server opened; the
    lines that are on the chat window of each client. *)
Record net := Net {
  chat : list (list Z); taken : list (list Z); sent : list (list Z);
  inbox : gmap nat (list (list Z)); opened_by : gmap Z nat; shown : gmap nat (list (list Z * list Z)) }.

Definition empty_net : net := Net [] [] [] ∅ ∅ ∅.

(** Process 0 is the server; of the others some are the main threads of clients, some the
    receiving threads. *)
Inductive role := Serving | Typing | Receiving.

(** The calls that reach the queues or the chat window. *)
Definition queueing (c : call) : bool :=
  match c with c_mq_receive _ _ | c_mq_send _ _ | c_mq_open _ false => true | _ => false end.
Definition showing (c : call) : option (list (list Z)) :=
  match c with c_curses op args => if String.eqb op "wprintw(win_chat)" then Some args else None | _ => None end.

Definition fails (r : reply) : Prop := r_val r = -1.

(** What a call of a process does to the queues and what it answers. *)
Inductive acts : role -> nat -> net -> call -> reply -> net -> Prop :=
  | acts_fail ro i s c r : queueing c = true -> fails r -> acts ro i s c r s
  | acts_take i s m rest mq n :
      chat s = m :: rest ->
      acts Serving i s (c_mq_receive mq n) (data_reply m) (Net rest (taken s ++ [m]) (sent s) (inbox s) (opened_by s) (shown s))
  | acts_relay i s d data j :
      opened_by s !! d = Some j ->
      acts Serving i s (c_mq_send d data) ok0
        (Net (chat s) (taken s) (sent s) (<[j := inbox s !!! j ++ [data]]> (inbox s)) (opened_by s) (shown s))
  (* a client creates one queue and registers it once: no queue is opened twice, unless two
     clients have the same name *)
  | acts_open i s name d j r :
      0 <= d -> opened_by s !! d = None -> (forall d', opened_by s !! d' <> Some j) -> r = value_reply d ->
      acts Serving i s (c_mq_open name false) r (Net (chat s) (taken s) (sent s) (inbox s) (<[d := j]> (opened_by s)) (shown s))
  | acts_send i s mq data :
      acts Typing i s (c_mq_send mq data) ok0
        (Net (chat s ++ [data]) (taken s) (sent s ++ [data]) (inbox s) (opened_by s) (shown s))
  | acts_connect i s name r : 0 <= r_val r -> acts Typing i s (c_mq_open name false) r s
  | acts_receive i s m rest mq n :
      inbox s !!! i = m :: rest ->
      acts Receiving i s (c_mq_receive mq n) (data_reply m)
        (Net (chat s) (taken s) (sent s) (<[i := rest]> (inbox s)) (opened_by s) (shown s))
  | acts_show i s c r nm tx :
      showing c = Some [nm; tx] ->
      acts Receiving i s c r (Net (chat s) (taken s) (sent s) (inbox s) (opened_by s) (<[i := shown s !!! i ++ [(nm, tx)]]> (shown s)))
  | acts_other ro i s c r : queueing c = false -> (ro = Receiving -> showing c = None) -> -1 <= r_val r -> acts ro i s c r s.

(** * What the processes guarantee *)

(** The line that a message puts on a window: name and text of a message of type 1. *)
Definition line_in (m : list Z) : option (list Z * list Z) :=
  match decode m with
  | Done msg => if type msg =? 1 then Some (cstr (name msg), cstr (text_ msg)) else None
  | Undef _ => None
  end.

(** A message for a client: text, or the list of users. *)
Definition for_client (m : list Z) : Prop :=
  length m = 356%nat /\ exists msg, decode m = Done msg /\ (type msg = 1 \/ type msg = 2).

(** The server: the message it took last, the descriptors it has sent to since, those it
    has opened. A receiving thread: the line it is about to show. *)
Inductive view :=
  | Server (last : option (list Z)) (told known : gset Z)
  | Client
  | Window (pending : option (list Z * list Z)).

Definition guarantees (w : view) (c : call) : Prop :=
  match w with
  | Server last told known =>
      match c with
      | c_mq_send d data => d ∉ told /\ for_client data /\ (forall x, line_in data = Some x -> exists m, last = Some m /\ line_in m = Some x)
      | _ => True
      end
  | Client => match c with c_mq_send _ data => length data = 356%nat | _ => True end
  | Window pending =>
      match c with
      | c_mq_receive _ _ => pending = None
      | _ => match showing c with Some args => exists nm tx, args = [nm; tx] /\ pending = Some (nm, tx) | None => True end
      end
  end.

Definition relies (w : view) (c : call) (r : reply) : Prop :=
  match w, c with
  | Server _ _ known, c_mq_receive _ _ => fails r \/ r_val r = 356 /\ length (r_data r) = 356%nat
  | Server _ _ known, c_mq_open _ false => fails r \/ r_val r ∉ known
  | Window _, c_mq_receive _ _ => fails r \/ r_val r = 356 /\ for_client (r_data r)
  | _, _ => True
  end.

Definition viewed (w : view) (c : call) (r : reply) : view :=
  match w with
  | Server last told known =>
      match c with
      | c_mq_receive _ _ => if 0 <? r_val r then Server (Some (r_data r)) ∅ known else w
      | c_mq_send d _ => Server last ({[d]} ∪ told) known
      | c_mq_open _ false => if r_val r =? -1 then w else Server last told ({[r_val r]} ∪ known)
      | _ => w
      end
  | Client => Client
  | Window pending =>
      match c with
      | c_mq_receive _ _ => if 0 <? r_val r then Window (line_in (r_data r)) else w
      | _ => match showing c with Some _ => Window None | None => w end
      end
  end.

Definition watch : monitor view := Monitor guarantees relies viewed.

(** * The queues and the views *)

Definition lines (ms : list (list Z)) : list (list Z * list Z) := omap line_in ms.
Definition pending_of (w : option view) : list (list Z * list Z) := match w with Some (Window (Some x)) => [x] | _ => [] end.

(** The messages that process [j] may have been sent: all that were taken, the last one
    if it has been sent to its queue. *)
Definition owed (s : net) (before : list (list Z)) (last : option (list Z)) (told : gset Z) (j : nat) (ms : list (list Z)) : Prop :=
  ms = before ++ option_list last /\ (exists d, d ∈ told /\ opened_by s !! d = Some j) \/ ms = before.

Definition plays (ro : role) (w : view) : Prop :=
  match ro, w with Serving, Server _ _ _ | Typing, Client | Receiving, Window _ => True | _, _ => False end.

Section processes.
Variable roles : nat -> role.
Hypothesis one_server : forall i, roles i = Serving <-> i = 0%nat.

Record in_order (s : net) (ws : list view) : Prop := InOrder {
  io_sent : sent s = taken s ++ chat s;
  io_chat : Forall (fun m => length m = 356%nat) (chat s);
  io_inbox : forall j, Forall for_client (inbox s !!! j);
  io_inj : forall d d' j, opened_by s !! d = Some j -> opened_by s !! d' = Some j -> d = d';
  io_lines : exists last told known before,
    ws !! 0%nat = Some (Server last told known) /\ taken s = before ++ option_list last /\
    dom (opened_by s) = known /\
    forall j, exists ms, owed s before last told j ms /\
      sublist (shown s !!! j ++ pending_of (ws !! j) ++ lines (inbox s !!! j)) (lines ms);
  io_roles : forall i w, ws !! i = Some w -> plays (roles i) w }.

(** A step that changes no queue, and a view that keeps what is pending. *)
Lemma lines_keep (ws : list view) i w j :
  ws !! i = Some w -> forall w', pending_of (Some w') = pending_of (Some w) -> pending_of (<[i := w']> ws !! j) = pending_of (ws !! j).
Proof.
  intros Hi w' E. destruct (decide (j = i)) as [->|]; [|by rewrite list_lookup_insert_ne].
  rewrite list_lookup_insert_eq by (by eapply lookup_lt_Some). by rewrite Hi, E.
Qed.

Lemma roles_keep (ws : list view) i w w' : (forall j v, ws !! j = Some v -> plays (roles j) v) -> ws !! i = Some w ->
  plays (roles i) w' -> forall j v, <[i := w']> ws !! j = Some v -> plays (roles j) v.
Proof. intros H Hi Hw j v [(<- & <- & _)|[_ Hj]]%list_lookup_insert_Some; [done|by apply H]. Qed.

Lemma owed_more s s' before last told told' j ms :
  owed s before last told j ms -> told ⊆ told' -> (forall d, d ∈ told -> opened_by s !! d = Some j -> opened_by s' !! d = Some j) ->
  owed s' before last told' j ms.
Proof. intros [[-> (d & Hd & Ho)]| ->] Hs Hk; [left|by right]. split; [done|]. exists d. set_solver. Qed.

(** A process other than the server that leaves queues and windows alone. *)
Lemma other_keeps s ws i w w' : in_order s ws -> ws !! i = Some w -> roles i <> Serving ->
  plays (roles i) w' -> pending_of (Some w') = pending_of (Some w) -> in_order s (<[i := w']> ws).
Proof.
  intros [Hs Hc Hi Hj (last & told & known & before & H0 & Ht & Hk & Hl) Hr] Hw Hro Hp Hpend.
  assert (Hne : i <> 0%nat) by (intros ->; apply Hro; by apply one_server).
  split; try done; [|by eapply roles_keep].
  exists last, told, known, before. rewrite list_lookup_insert_ne by done. split_and!; try done.
  intros j. rewrite (lines_keep ws i w j Hw w' Hpend). apply Hl.
Qed.

(** The server, when it changes only what it remembers. *)
Lemma server_keeps s ws last told known last' told' known' s' :
  in_order s ws -> ws !! 0%nat = Some (Server last told known) ->
  sent s' = taken s' ++ chat s' -> Forall (fun m => length m = 356%nat) (chat s') ->
  (forall j, Forall for_client (inbox s' !!! j)) ->
  (forall d d' j, opened_by s' !! d = Some j -> opened_by s' !! d' = Some j -> d = d') ->
  dom (opened_by s') = known' ->
  (exists before', taken s' = before' ++ option_list last' /\
    forall j, exists ms, owed s' before' last' told' j ms /\
      sublist (shown s' !!! j ++ pending_of (ws !! j) ++ lines (inbox s' !!! j)) (lines ms)) ->
  in_order s' (<[0%nat := Server last' told' known']> ws).
Proof.
  intros H H0 H1 H2 H3 H4 H5 (before' & Ht' & Hl'). split; try done.
  - exists last', told', known', before'. rewrite list_lookup_insert_eq by (by eapply lookup_lt_Some).
    split_and!; try done. intros j. rewrite (lines_keep ws 0%nat _ j H0) by done. apply Hl'.
  - eapply roles_keep; [apply H|done|]. by rewrite (proj2 (one_server 0)).
Qed.

Lemma lines_app ms ms' : lines (ms ++ ms') = lines ms ++ lines ms'.
Proof. apply omap_app. Qed.

Lemma roles_view s ws i w : in_order s ws -> ws !! i = Some w -> plays (roles i) w.
Proof. intros H. apply (io_roles _ _ H). Qed.

(** Every step keeps the order, and answers as the process relies on. *)
Lemma server_step s ws last told known c r s' :
  in_order s ws -> ws !! 0%nat = Some (Server last told known) -> guarantees (Server last told known) c ->
  acts Serving 0 s c r s' ->
  relies (Server last told known) c r /\ in_order s' (<[0%nat := viewed (Server last told known) c r]> ws).
Proof.
  intros H H0 Hg Ha. pose proof H as [Hs Hc Hi Hj (last0 & told0 & known0 & before & E & Ht & Hk & Hl) Hr].
  rewrite H0 in E. injection E as <- <- <-.
  assert (Hsame : in_order s (<[0%nat := Server last told known]> ws)) by (by rewrite list_insert_id).
  inversion Ha as [ro i s0 c0 r0 Hq Hf|i s0 m rest mq n Hch|i s0 d data j Ho|i s0 nm d j r0 Hd Hfree Hnew Er| | | | |ro i s0 c0 r0 Hq _ Hv]; subst.
  - unfold fails in Hf. destruct c; try done; cbn [relies viewed].
    + destruct create; [done|]. split; [by left|]. by rewrite Hf.
    + split; [done|].
      eapply server_keeps; try done. exists before. split; [done|]. intros j. destruct (Hl j) as (ms & Ho & Hsub).
      exists ms. split; [|done]. eapply owed_more; [exact Ho|set_solver|done].
    + split; [by left|]. by rewrite Hf.
  - rewrite Hch in Hc, Hs. apply Forall_cons in Hc as [Hm Hc]. cbn [relies viewed data_reply r_val r_data]. rewrite Hm. cbn.
    split; [by right|]. eapply server_keeps; try done; cbn.
    + by rewrite Hs, <- app_assoc.
    + exists (taken s). split; [done|]. intros j. destruct (Hl j) as (ms & Ho & Hsub). exists (taken s). split; [by right|].
      etransitivity; [exact Hsub|]. destruct Ho as [[-> _]| ->]; rewrite Ht; [done|]. rewrite lines_app. by apply sublist_inserts_r.
  - cbn in Hg. destruct Hg as (Hnd & Hfc & Hline). cbn [relies viewed]. split; [done|].
    eapply server_keeps; try done; cbn.
    + intros k. destruct (decide (k = j)) as [->|].
      * rewrite lookup_total_insert_eq. apply Forall_app. split; [apply Hi|]. by constructor.
      * rewrite lookup_total_insert_ne by done. apply Hi.
    + exists before. split; [done|]. intros k. destruct (Hl k) as (ms & Hw & Hsub). destruct (decide (k = j)) as [->|].
      * rewrite lookup_total_insert_eq. destruct Hw as [[_ (d' & Hd' & Ho')]| ->].
        { exfalso. apply Hnd. by rewrite (Hj d d' j Ho Ho'). }
        exists (before ++ option_list last). split; [left; split; [done|]; exists d; set_solver|].
        rewrite !lines_app, !app_assoc. rewrite !app_assoc in Hsub. apply sublist_app; [exact Hsub|].
        cbn. destruct (line_in data) as [x|] eqn:Ex; [|apply sublist_nil_l].
        destruct (Hline x eq_refl) as (m & -> & Em). cbn. by rewrite Em.
      * rewrite lookup_total_insert_ne by done. exists ms. split; [|done]. eapply owed_more; [exact Hw|set_solver|done].
  - cbn [relies viewed value_reply r_val]. split; [right; by apply not_elem_of_dom|]. destruct (Z.eqb_spec d (-1)); [lia|].
    eapply server_keeps; try done; cbn.
    + intros d1 d2 k. rewrite !lookup_insert_Some. intros [[<- <-]|[_ H1]] [[<- E]|[_ H2]]; try done; [by destruct (Hnew d2)|subst; by destruct (Hnew d1)|by eapply Hj].
    + by rewrite dom_insert_L.
    + exists before. split; [done|]. intros k. destruct (Hl k) as (ms & Ho & Hsub). exists ms. split; [|done].
      eapply owed_more; [exact Ho|done|]. intros d1 _ H1. cbn. rewrite lookup_insert_ne; [done|]. intros ->. congruence.
  - assert (relies (Server last told (dom (opened_by s'))) c r /\ viewed (Server last told (dom (opened_by s'))) c r = Server last told (dom (opened_by s'))) as [Hrel ->].
    { destruct c; try done. by destruct create. }
    by split.
Qed.

Lemma client_step s ws i c r s' :
  in_order s ws -> ws !! i = Some Client -> guarantees Client c -> acts Typing i s c r s' ->
  in_order s' (<[i := Client]> ws).
Proof.
  intros H Hi Hg Ha. rewrite list_insert_id by done. inversion Ha; subst; try done.
  destruct H as [Hs Hc Hin Hj Hl Hr]. split; try done; cbn.
  - by rewrite Hs, app_assoc.
  - apply Forall_app. split; [done|]. by constructor.
Qed.

Lemma window_step s ws i pending c r s' :
  in_order s ws -> ws !! i = Some (Window pending) -> guarantees (Window pending) c -> acts Receiving i s c r s' ->
  relies (Window pending) c r /\ in_order s' (<[i := viewed (Window pending) c r]> ws).
Proof.
  intros H Hi Hg Ha. pose proof H as [Hs Hc Hin Hj (last & told & known & before & H0 & Ht & Hk & Hl) Hr].
  assert (Hro : roles i = Receiving) by (pose proof (Hr i _ Hi) as Hp; by destruct (roles i)).
  assert (Hne : i <> 0%nat) by (intros ->; by rewrite (proj2 (one_server 0)) in Hro).
  assert (Hsame : in_order s (<[i := Window pending]> ws)) by (by rewrite list_insert_id).
  assert (Hother : forall w j, j <> i -> pending_of (<[i := w]> ws !! j) = pending_of (ws !! j)) by (intros w j Hji; by rewrite list_lookup_insert_ne).
  assert (Hself : forall w, <[i := w]> ws !! i = Some w) by (intros w; apply list_lookup_insert_eq; by eapply lookup_lt_Some).
  inversion Ha as [ro i0 s0 c0 r0 Hq Hf| | | | | |i0 s0 m rest mq n Hb|i0 s0 c0 r0 nm tx Hsh|ro i0 s0 c0 r0 Hq Hsh Hv]; subst.
  - unfold fails in Hf. destruct c; try done; cbn [relies viewed showing]. split; [by left|]. by rewrite Hf.
  - cbn in Hg. subst pending. pose proof (Hin i) as Hm. rewrite Hb in Hm. apply Forall_cons in Hm as [Hm Hrest].
    cbn [relies viewed data_reply r_val r_data]. destruct Hm as [Hlen Hm]. rewrite Hlen. cbn. split; [right; split; [done|by split]|].
    split; try done; cbn.
    + intros j. destruct (decide (j = i)) as [->|]; [by rewrite lookup_total_insert_eq|]. rewrite lookup_total_insert_ne by done. apply Hin.
    + exists last, told, (dom (opened_by s)), before. rewrite list_lookup_insert_ne by done. split_and!; try done.
      intros j. destruct (Hl j) as (ms & Ho & Hsub). exists ms. split; [done|]. destruct (decide (j = i)) as [->|].
      * rewrite lookup_total_insert_eq, Hself. rewrite Hi, Hb in Hsub. cbn in Hsub |- *. by destruct (line_in m).
      * by rewrite lookup_total_insert_ne, Hother.
    + eapply roles_keep; [exact Hr|exact Hi|]. by rewrite Hro.
  - assert (exists op args, c = c_curses op args) as (op & args & ->) by (destruct c; try done; by eexists _, _).
    cbn [guarantees] in Hg. rewrite Hsh in Hg. destruct Hg as (nm' & tx' & [= <- <-] & ->).
    cbn [relies viewed]. rewrite Hsh. split; [done|]. split; try done; cbn.
    + exists last, told, (dom (opened_by s)), before. rewrite list_lookup_insert_ne by done. split_and!; try done.
      intros j. destruct (Hl j) as (ms & Ho & Hsub). exists ms. split; [done|]. destruct (decide (j = i)) as [->|].
      * rewrite lookup_total_insert_eq, Hself. rewrite Hi in Hsub. cbn in Hsub |- *. by rewrite <- app_assoc.
      * by rewrite lookup_total_insert_ne, Hother.
    + eapply roles_keep; [exact Hr|exact Hi|]. by rewrite Hro.
  - assert (relies (Window pending) c r /\ viewed (Window pending) c r = Window pending) as [Hrel ->].
    { cbn [relies viewed]. rewrite (Hsh eq_refl). by destruct c. }
    by split.
Qed.

Definition act (i : nat) : net -> call -> reply -> net -> Prop := acts (roles i) i.

Lemma step_in_order i s ws w c r s' : in_order s ws -> ws !! i = Some w -> guarantees w c -> act i s c r s' ->
  relies w c r /\ in_order s' (<[i := viewed w c r]> ws).
Proof.
  intros H Hi Hg Ha. unfold act in Ha. pose proof (io_roles _ _ H i w Hi) as Hp.
  destruct (roles i) eqn:Hro, w as [last told known| |pending]; try (by destruct Hp).
  - apply one_server in Hro as ->. by eapply server_step.
  - split; [done|]. by eapply client_step.
  - by eapply window_step.
Qed.
End processes.

(** * The programs keep to it *)

Definition anyway {A W} (_ : result A) (_ : W) : Prop := True.

Ltac view_step := wp_plain; cbn [post watch viewed showing String.eqb Ascii.eqb Bool.eqb].

(** ** The messages they send *)

Lemma strncpy_length dst src n d : strncpy dst src n = Done d -> length d = length dst.
Proof. unfold strncpy. intros H. obind_inv H. by eapply put_at_length. Qed.

Lemma strncat_length dst src n d : strncat dst src n = Done d -> length d = length dst.
Proof. unfold strncat. intros H. obind_inv H. obind_inv H. by eapply put_at_length. Qed.

Lemma user_list_length t names t' : user_list t names = Done t' -> length t' = length t.
Proof.
  revert t. induction names as [|nm names IH]; intros t H; cbn in H; [by injection H as <-|].
  apply outcome_bind_done in H as (t1 & H1 & H). rewrite (IH _ H). unfold append_name in H1.
  apply outcome_bind_done in H1 as (k1 & _ & H1). apply outcome_bind_done in H1 as (t2 & H2 & H1).
  apply outcome_bind_done in H1 as (k2 & _ & H1). apply strncat_length in H1, H2. congruence.
Qed.

Lemma chars_Done_inv l n : chars l = Done n -> terminated l /\ n = cstr l.
Proof.
  intros H. assert (Ht : terminated l).
  { unfold chars in H. obind_inv H. clear H. revert a Ha. induction l as [|b l IH]; intros a Ha; [done|]. cbn [strlen] in Ha.
    unfold terminated. destruct (Z.eqb_spec b 0) as [->|]; [left|]. obind_inv Ha. right. by eapply IH. }
  split; [done|]. rewrite chars_terminated in H by done. by injection H as <-.
Qed.

(** Name and text of a message that can be printed are copied whole into the one that is
    sent to the clients. *)
Lemma relayed_message m nm tx :
  length (name m) = 32%nat -> length (text_ m) = 256%nat -> terminated (name m) -> terminated (text_ m) ->
  strncpy (replicate 32 0) (name m) (32 - 1) = Done nm -> strncpy (replicate 256 0) (text_ m) (256 - 1) = Done tx ->
  let data := encode (Message 1 nm (replicate 64 0) tx) in
  for_client data /\ line_in data = Some (cstr (name m), cstr (text_ m)).
Proof.
  intros Hn Ht [p En]%terminated_split [q Et]%terminated_split H1 H2 data.
  pose proof (strncpy_length _ _ _ _ H1) as L1. pose proof (strncpy_length _ _ _ _ H2) as L2.
  assert (Hsh : shaped (Message 1 nm (replicate 64 0) tx)) by (split; [by apply in_int_spec|done..]).
  assert (Hd : decode data = Done (Message 1 nm (replicate 64 0) tx)) by (rewrite <- (app_nil_r data); by apply decode_encode).
  split; [split; [by apply encode_length|]; eexists; split; [exact Hd|by left]|].
  unfold line_in. rewrite Hd. cbn [type Z.eqb Pos.eqb name text_].
  assert (length (cstr (name m)) < 32)%nat by (rewrite En, length_app in Hn; cbn in Hn; lia).
  assert (length (cstr (text_ m)) < 256)%nat by (rewrite Et, length_app in Ht; cbn in Ht; lia).
  rewrite En, (strncpy_zeros 32 (32 - 1)) in H1 by (apply cstr_text || done). injection H1 as <-.
  rewrite Et, (strncpy_zeros 256 (256 - 1)) in H2 by (apply cstr_text || done). injection H2 as <-.
  rewrite !replicate_S_zero, !cstr_app by (apply cstr_text || lia). by rewrite En, Et, !cstr_app by apply cstr_text.
Qed.

(** ** The server *)

(** The table: its descriptors are among the known ones and all different. *)
Record table_ok (st : server) (known : gset Z) : Prop := TableOk {
  tb_length : length (clients st) = 10%nat;
  tb_count : 0 <= client_count st <= 10;
  tb_known : forall i c, 0 <= i < client_count st -> znth (clients st) i = Done c -> dqueue c ∈ known;
  tb_distinct : forall i j c c', 0 <= i < client_count st -> 0 <= j < client_count st ->
    znth (clients st) i = Done c -> znth (clients st) j = Done c' -> dqueue c = dqueue c' -> i = j }.

Definition served (last : option (list Z)) (known : gset Z) (w : view) : Prop := exists told, w = Server last told known.

Lemma watch_send_all {A} st last known msg (f : unit -> prog A) Q :
  table_ok st known -> for_client (encode msg) ->
  (forall x, line_in (encode msg) = Some x -> exists m, last = Some m /\ line_in m = Some x) ->
  (forall w, served last known w -> wp watch (f tt) w Q) ->
  (forall u w, Q (Halted (Crashed u)) w) ->
  wp watch (prog_bind (send_all st msg) f) (Server last ∅ known) Q.
Proof.
  intros Hst Hfor Hline Hf HC. unfold send_all.
  assert (H : forall l told, NoDup l -> (forall i, i ∈ l -> 0 <= i < client_count st) ->
    (forall i c, i ∈ l -> znth (clients st) i = Done c -> dqueue c ∉ told) ->
    wp watch (prog_bind (foreach l (fun i (_ : unit) => c ← of_outcome (znth (clients st) i); sys_ (c_mq_send (dqueue c) (encode msg))) tt) f)
      (Server last told known) Q).
  { induction l as [|i l IH]; intros told Hnd Hin Hfresh; cbn [foreach].
    - apply Hf. by exists told.
    - rewrite prog_bind_assoc. unfold mbind at 1, prog_mbind at 1. rewrite prog_bind_assoc.
      apply wp_pure; [intros c Hc|intros; apply HC]. prog_simp. apply NoDup_cons in Hnd as [Hi Hnd].
      apply wp_one.
      + cbn. split_and!; [|done..]. apply (Hfresh i); [left|done].
      + intros r _. cbn [post watch viewed]. apply IH; [done|intros; apply Hin; by right|].
        intros j c' Hj Hc'. rewrite not_elem_of_union, not_elem_of_singleton. split; [|apply (Hfresh j); [by right|done]].
        intros E. apply Hi. rewrite (tb_distinct _ _ Hst i j c c'); try done; [apply Hin; left|apply Hin; by right]. }
  apply H.
  - apply NoDup_seqZ.
  - intros i Hi%elem_of_seqZ. lia.
  - set_solver.
Qed.

Definition handled (last : option (list Z)) (r : result server) (w : view) : Prop :=
  match r with Returned st => exists known, served last known w /\ table_ok st known | Halted _ => True end.

Lemma watch_add_client st last known nm qn : table_ok st known ->
  wp watch (add_client st nm qn) (Server last ∅ known) (fun r w =>
    match r with Returned (st', _) => exists known', w = Server last ∅ known' /\ table_ok st' known' | Halted _ => True end).
Proof.
  intros H. unfold add_client, MAX_CLIENTS. prog_simp. destruct (Z.leb_spec 10 (client_count st)) as [|Hlt].
  { cbn. by exists known. }
  apply wp_pure; [intros path _|done]. prog_simp. apply wp_one; [done|]. intros r Hr. cbn [post watch viewed] in *.
  destruct (Z.eqb_spec (r_val r) (-1)) as [|Hne]; [by view_step; exists known|].
  destruct Hr as [?|Hr]; [done|]. prog_simp. apply wp_one; [done|]. intros r1 _. cbn [post watch viewed].
  apply wp_pure; [intros c Hcl|done]. apply wp_pure; [intros n' _|done]. apply wp_pure; [intros q' _|done].
  apply wp_pure; [intros cs Hcs|done]. prog_simp. apply wp_one; [done|]. intros r2 _. cbn [post watch viewed wp].
  exists ({[r_val r]} ∪ known). split; [done|]. apply zset_Done in Hcs as [Hi ->]. destruct H as [H1 H2 H3 H4].
  assert (Hz : forall i c0, 0 <= i < client_count st + 1 ->
    znth (<[Z.to_nat (client_count st) := Info n' q' (r_val r)]> (clients st)) i = Done c0 ->
    i = client_count st /\ dqueue c0 = r_val r \/ 0 <= i < client_count st /\ znth (clients st) i = Done c0).
  { intros i c0 Hi0 [Hpos Hc0]%znth_Done. destruct (decide (i = client_count st)) as [->|].
    - left. rewrite list_lookup_insert_eq in Hc0 by lia. by injection Hc0 as <-.
    - right. rewrite list_lookup_insert_ne in Hc0 by lia. split; [lia|]. by apply znth_Done. }
  split; cbn [clients client_count]; [by rewrite length_insert|lia| |].
  - intros i c0 Hi0 [[_ ->]|[Hi1 Hc1]]%Hz; [set_solver| |done]. apply elem_of_union. right. by eapply H3.
  - intros i j c0 c1 Hi0 Hj0 Hci Hcj E. apply Hz in Hci, Hcj; [|done..].
    destruct Hci as [[-> E0]|[Hi1 Hc1]], Hcj as [[-> E1]|[Hj1 Hc2]]; [done| | |by eapply H4].
    + exfalso. apply Hr. rewrite <- E0, E. by eapply H3.
    + exfalso. apply Hr. rewrite <- E1, <- E. by eapply H3.
Qed.

Lemma wp_new_clients {A} st last known (f : unit -> prog A) Q : table_ok st known ->
  (forall w, served last known w -> wp watch (f tt) w Q) -> (forall u w, Q (Halted (Crashed u)) w) ->
  wp watch (prog_bind (broadcast_new_clients st) f) (Server last ∅ known) Q.
Proof.
  intros H Hf HC. unfold broadcast_new_clients. prog_simp. apply wp_one; [done|]. intros r _. cbn [post watch viewed].
  unfold mbind, prog_mbind. rewrite prog_bind_assoc. apply wp_pure; [intros text Ht|intros; apply HC].
  rewrite prog_bind_assoc. apply wp_pure; [intros nm Hn|intros; apply HC]. rewrite prog_bind_assoc.
  apply user_list_length in Ht. apply strncpy_length in Hn.
  assert (Hsh : shaped (Message 2 nm (replicate 64 0) text)) by (split; [by apply in_int_spec|done..]).
  assert (Hd : decode (encode (Message 2 nm (replicate 64 0) text)) = Done (Message 2 nm (replicate 64 0) text)).
  { rewrite <- (app_nil_r (encode _)). by apply decode_encode. }
  apply watch_send_all; [done|..].
  - split; [by apply encode_length|]. eexists. split; [exact Hd|by right].
  - cbn [queue_name zero_message]. unfold line_in. by rewrite Hd.
  - intros w [told ->]. prog_simp. apply wp_one; [done|]. intros r1 _. apply Hf. by exists told.
  - done.
Qed.

Lemma watch_server_handle st m data known : table_ok st known -> decode data = Done m ->
  wp watch (server_handle st m) (Server (Some data) ∅ known) (handled (Some data)).
Proof.
  intros Hst Hm. assert (Hlen : length (name m) = 32%nat /\ length (text_ m) = 256%nat).
  { unfold decode in Hm. apply outcome_bind_done in Hm as (t & _ & Hm). apply outcome_bind_done in Hm as (n & Hn & Hm).
    apply outcome_bind_done in Hm as (q & _ & Hm). apply outcome_bind_done in Hm as (x & Hx & Hm). injection Hm as <-.
    apply get_at_length in Hn, Hx. cbn. lia. }
  destruct Hlen as [Ln Lt]. unfold server_handle. destruct (type m =? 0).
  - eapply wp_seq; [by apply watch_add_client|]. intros [[st' r]|h] w; [|done]. intros (known' & -> & Hst'). cbn [seq_post].
    apply wp_pure; [intros n _|done]. destruct (r =? 0).
    + apply wp_pure; [intros q _|done]. prog_simp. apply wp_one; [done|]. intros r1 _. cbn [post watch viewed].
      apply wp_new_clients; [done| |done]. intros w Hw. cbn. by exists known'.
    + prog_simp. apply wp_one; [done|]. intros r1 _. cbn. exists known'. split; [by exists ∅|done].
  - destruct (Z.eqb_spec (type m) 1) as [Hty|].
    + apply wp_pure; [intros n [Tn ->]%chars_Done_inv|done]. apply wp_pure; [intros x [Tx ->]%chars_Done_inv|done].
      prog_simp. apply wp_one; [done|]. intros r1 _. cbn [post watch viewed]. unfold broadcast_message.
      unfold mbind, prog_mbind. rewrite prog_bind_assoc. apply wp_pure; [intros nm Hnm|done].
      rewrite prog_bind_assoc. apply wp_pure; [intros tx Htx|done]. prog_simp. apply wp_one; [done|]. intros r2 _. cbn [post watch viewed].
      unfold mbind, prog_mbind. rewrite prog_bind_assoc.
      destruct (relayed_message m nm tx Ln Lt Tn Tx Hnm Htx) as [Hfor Hline]. apply watch_send_all; [done|exact Hfor| | |done].
      * intros x Ex. exists data. split; [done|]. cbn [queue_name zero_message] in Ex. rewrite Hline in Ex. unfold line_in. by rewrite Hm, Hty.
      * intros w [told ->]. prog_simp. apply wp_one; [done|]. intros r3 _. cbn. exists known. split; [by exists told|done].
    + prog_simp. apply wp_one; [done|]. intros r1 _. cbn. exists known. split; [by exists ∅|done].
Qed.

Lemma decode_put (buf data b : list Z) : length buf = 356%nat -> length data = 356%nat -> put_at buf 0 data = Done b -> b = data.
Proof.
  intros Hb Hd (_ & _ & ->)%put_at_Done. change (Z.to_nat 0) with 0%nat. rewrite take_0, app_nil_l, drop_ge by (cbn; lia). apply app_nil_r.
Qed.

Lemma server_watched fuel stack : length stack = 356%nat -> wp watch (server_main fuel stack) (Server None ∅ ∅) anyway.
Proof.
  intros Hs. unfold server_main. prog_simp. apply wp_one; [done|]. intros r0 _. cbn [post watch viewed].
  apply wp_one; [done|]. intros r1 _. cbn [post watch viewed]. destruct (r_val r1 =? -1); [by prog_simp; apply wp_one|].
  prog_simp. apply wp_one; [done|]. intros r2 _. cbn [post watch viewed]. apply wp_bind.
  apply (wp_forever _ (fun s w => length s.2 = 356%nat /\ exists last known, served last known w /\ table_ok s.1 known)).
  - intros [st buf] w (Hb & last & known & [told ->] & Hst). cbn [fst snd] in *. unfold server_round. prog_simp.
    apply wp_one; [done|]. intros r Hr. cbn [post watch viewed] in *. destruct (Z.ltb_spec 0 (r_val r)) as [Hpos|].
    + cbn [rep watch relies] in Hr. unfold fails in Hr. destruct Hr as [?|[_ Hr]]; [lia|].
      apply wp_pure; [intros b E|done]. apply decode_put in E as ->; [|done..].
      apply wp_pure; [intros m Hm|done]. eapply wp_seq; [by apply watch_server_handle|].
      intros [st'|h] w; [|done]. intros (known' & Hw & Hst'). cbn. split; [done|]. by eexists _, _.
    + cbn. split; [done|]. exists last, known. split; [by exists told|done].
  - done.
  - split; [done|]. exists None, ∅. split; [by exists ∅|]. split; [done|cbn; lia|cbn; lia|cbn; lia].
Qed.

(** ** The clients *)

Lemma wp_user_rows {A} n s row max_y (f : unit -> prog A) Q : wp watch (f tt) (Window None) Q ->
  wp watch (prog_bind (user_rows n s row max_y) f) (Window None) Q.
Proof.
  intros Hf. revert s row. induction n as [|n IH]; intros s row; cbn [user_rows]; [exact Hf|].
  destruct (strtok_next newline s) as [[l rest]|]; [|exact Hf]. destruct (row <? max_y - 1); [|exact Hf].
  prog_simp. apply wp_one; [done|]. intros r _. apply IH.
Qed.

Lemma receiver_watched fuel mq stack : length stack = 356%nat -> wp watch (receive_thread fuel mq stack) (Window None) anyway.
Proof.
  intros Hs. unfold receive_thread. apply (wp_forever _ (fun buf w => length buf = 356%nat /\ w = Window None)); [|done|done].
  intros buf w [Hb ->]. unfold receive_round. prog_simp. apply wp_one; [done|]. intros r Hr. cbn [post watch viewed] in *.
  destruct (Z.ltb_spec 0 (r_val r)) as [Hpos|]; [|done]. cbn [rep watch relies] in Hr. unfold fails in Hr.
  destruct Hr as [?|[_ [Hl (msg & Hm & Hty)]]]; [lia|].
  apply wp_pure; [intros b E|done]. apply decode_put in E as ->; [|done..]. rewrite Hm. cbn [of_outcome]. prog_simp.
  apply wp_one; [done|]. intros r1 _. cbn [post watch viewed showing]. apply wp_bind.
  assert (Hline : line_in (r_data r) = if type msg =? 1 then Some (cstr (name msg), cstr (text_ msg)) else None) by (unfold line_in; by rewrite Hm).
  rewrite Hline. destruct Hty as [Hty|Hty]; rewrite Hty; cbn [Z.eqb Pos.eqb].
  - unfold show_text. apply wp_pure; [intros n [_ ->]%chars_Done_inv|done]. apply wp_pure; [intros x [_ ->]%chars_Done_inv|done].
    prog_simp. apply wp_one; [by eexists _, _|]. intros r2 _. cbn [post watch viewed showing String.eqb Ascii.eqb Bool.eqb].
    do 3 (apply wp_one; [done|]; intros ? _; cbn [post watch viewed showing String.eqb Ascii.eqb Bool.eqb]).
    cbn [wp seq_post]. split; [done|]. by intros ? _.
  - unfold show_users. prog_simp. do 3 (apply wp_one; [done|]; intros ? _; cbn [post watch viewed showing String.eqb Ascii.eqb Bool.eqb]).
    apply wp_pure; [intros tm _|done]. prog_simp. apply wp_one; [done|]. intros r5 _. cbn [post watch viewed showing String.eqb Ascii.eqb Bool.eqb].
    apply wp_user_rows. prog_simp.
    do 3 (apply wp_one; [done|]; intros ? _; cbn [post watch viewed showing String.eqb Ascii.eqb Bool.eqb]).
    cbn [wp seq_post]. split; [done|]. by intros ? _.
Qed.

(** What a client sends has the length of a message. *)
Lemma text_message_sent c input m : text_message c input = Done m -> length (encode m) = 356%nat.
Proof.
  unfold text_message. intros H. apply outcome_bind_done in H as (n & Hn & H). apply outcome_bind_done in H as (x & Hx & H).
  injection H as <-. apply strncpy_length in Hn, Hx. apply encode_length. split; [by apply in_int_spec|done..].
Qed.

Lemma registration_sent c m : registration c = Done m -> length (encode m) = 356%nat.
Proof.
  unfold registration. intros H. apply outcome_bind_done in H as (n & Hn & H). apply outcome_bind_done in H as (x & Hx & H).
  injection H as <-. apply strncpy_length in Hn, Hx. apply encode_length. split; [by apply in_int_spec|done..].
Qed.

Ltac client_calls :=
  repeat first
    [ progress prog_simp
    | lazymatch goal with
      | |- wp _ (Step _ _) _ _ => apply wp_one; [done|intros ?r _; cbn [post watch viewed]]
      | |- wp _ (prog_bind (if ?b then _ else _) _) _ _ => destruct b
      | |- wp _ (mbind _ (if ?b then _ else _)) _ _ => destruct b
      | |- wp _ (if ?b then _ else _) _ _ => destruct b
      | |- wp _ (Ret _) _ _ => done
      | |- wp _ (Halt _) _ _ => done
      end
    | apply wp_pure; [intros ?a ?Ha|done] ].

Lemma client_watched fuel stack : wp watch (client_main fuel stack) Client anyway.
Proof.
  unfold client_main. client_calls.
  all: try (apply wp_one; [by eapply registration_sent|]; intros ? _; cbn [post watch viewed]).
  unfold init_windows. cbn [foreach]. prog_simp. do 19 (apply wp_one; [done|]; intros ? _; cbn [post watch viewed]).
  apply wp_one; [done|]. intros ? _. cbn [post watch viewed]. apply wp_bind.
  apply (wp_forever _ (fun _ w => w = Client)); [|done|done].
  intros input w ->. unfold input_round. client_calls; try (by repeat (apply wp_one; [done|]; intros ? _; cbn [post watch viewed])).
  apply wp_one; [by eapply text_message_sent|]. by intros ? _.
Qed.

(** * The whole chat *)

(** The program of a process: the server, [main] of a client, or its receiving thread. *)
Definition program (ro : role) (p : prog Z) : Prop :=
  match ro with
  | Serving => exists fuel stack, length stack = 356%nat /\ p = server_main fuel stack
  | Typing => exists fuel stack, p = client_main fuel stack
  | Receiving => exists fuel mq stack, length stack = 356%nat /\ p = prog_bind (receive_thread fuel mq stack) (fun _ => Ret 0)
  end.

Definition first_view (ro : role) : view :=
  match ro with Serving => Server None ∅ ∅ | Typing => Client | Receiving => Window None end.

Lemma program_watched ro p : program ro p -> wp watch p (first_view ro) anyway.
Proof.
  destruct ro; cbn [program first_view].
  - intros (fuel & stack & Hs & ->). by apply server_watched.
  - intros (fuel & stack & ->). apply client_watched.
  - intros (fuel & mq & stack & Hs & ->). eapply wp_seq; [by apply receiver_watched|]. by intros [[]|h] w.
Qed.

(** C5 What is on the chat window of a client is what was sent. The server and any number
    of clients of different names, each with both threads, run from the start in any interleaving, any send
    and any receive may fail, and whatever is typed: the lines every window shows are
    lines that clients have sent, with the name of the sender and whole, in the order in
    which they were sent, and none more often than it was sent. *)
Theorem chat_in_order roles ps s ps' :
  (forall i, roles i = Serving <-> i = 0%nat) -> ps <> [] ->
  (forall i p, ps !! i = Some p -> program (roles i) p) ->
  rtc (many_step (act roles)) (empty_net, ps) (s, ps') ->
  forall i, sublist (shown s !!! i) (lines (sent s)).
Proof.
  intros Hro Hne Hps Hs.
  assert (Hin : in_step (fun _ => watch) (in_order roles) (fun _ => anyway) (empty_net, ps)).
  { exists (first_view ∘ roles <$> seq 0 (length ps)). cbn. rewrite length_fmap, length_seq. split_and!; [done| |].
    - split; cbn; try done.
      + exists None, ∅, ∅, []. rewrite list_lookup_fmap, lookup_seq_lt by (by destruct ps; cbn; [|lia]). cbn.
        rewrite (proj2 (Hro 0%nat)) by done. split_and!; [done|done|by rewrite dom_empty_L|].
        intros j. exists []. split; [by right|]. rewrite !lookup_total_empty. cbn. rewrite app_nil_r.
        rewrite list_lookup_fmap. destruct (seq 0 (length ps) !! j) as [k|]; cbn; [|done]. by destruct (roles k).
      + intros i w. rewrite list_lookup_fmap. destruct (seq 0 (length ps) !! i) as [k|] eqn:E; [|done].
        apply lookup_seq in E as [-> _]. intros [= <-]. cbn. by destruct (roles i).
    - intros i p w Hp Hw. rewrite list_lookup_fmap in Hw. destruct (seq 0 (length ps) !! i) as [k|] eqn:E; [|done].
      apply lookup_seq in E as [-> _]. injection Hw as <-. apply program_watched. by apply Hps. }
  eapply in_step_rtc in Hin; [| |exact Hs]. 2: { intros i s1 ws w c r s2. by apply step_in_order. }
  destruct Hin as (ws & _ & [Hsent _ _ _ (last & told & known & before & _ & Ht & _ & Hl) _] & _). cbn in *.
  intros i. destruct (Hl i) as (ms & Ho & Hsub). rewrite Hsent, lines_app. apply sublist_inserts_r.
  etransitivity; [by apply sublist_inserts_r|]. etransitivity; [exact Hsub|].
  rewrite Ht. destruct Ho as [[-> _]| ->]; [done|]. rewrite lines_app. by apply sublist_inserts_r.
Qed.

(** * A player, and a concrete run *)

(** The answer to a call when nothing fails; a call that would block has none. The [k]th
    client to be registered reads its queue in process [2 * k]. *)
Definition answer (ro : role) (i : nat) (s : net) (c : call) (typed : list (list Z)) : option (reply * net * list (list Z)) :=
  match ro, c with
  | Serving, c_mq_receive _ _ =>
      match chat s with
      | m :: rest => Some (data_reply m, Net rest (taken s ++ [m]) (sent s) (inbox s) (opened_by s) (shown s), typed)
      | [] => None
      end
  | Serving, c_mq_send d data =>
      j ← opened_by s !! d;
      Some (ok0, Net (chat s) (taken s) (sent s) (<[j := inbox s !!! j ++ [data]]> (inbox s)) (opened_by s) (shown s), typed)
  | Serving, c_mq_open _ false =>
      let k := S (size (opened_by s)) in
      let d := Z.of_nat (2 + k) in let j := (2 * k)%nat in
      if bool_decide (opened_by s !! d = None) && bool_decide (map_Forall (fun _ x => x <> j) (opened_by s))
      then Some (value_reply d, Net (chat s) (taken s) (sent s) (inbox s) (<[d := j]> (opened_by s)) (shown s), typed)
      else None
  | Typing, c_mq_send _ data =>
      Some (ok0, Net (chat s ++ [data]) (taken s) (sent s ++ [data]) (inbox s) (opened_by s) (shown s), typed)
  | Typing, c_mq_open _ false => Some (value_reply 4, s, typed)
  | Typing, (c_gets _ | c_wgetnstr _) =>
      match typed with l :: rest => Some (data_reply l, s, rest) | [] => None end
  | Receiving, c_mq_receive _ _ =>
      match inbox s !!! i with
      | m :: rest => Some (data_reply m, Net (chat s) (taken s) (sent s) (<[i := rest]> (inbox s)) (opened_by s) (shown s), typed)
      | [] => None
      end
  | Receiving, _ =>
      match showing c with
      | Some [nm; tx] =>
          Some (ok0, Net (chat s) (taken s) (sent s) (inbox s) (opened_by s) (<[i := shown s !!! i ++ [(nm, tx)]]> (shown s)), typed)
      | Some _ => None
      | None => if queueing c then None else Some (ok0, s, typed)
      end
  | _, _ => if queueing c then None else Some (ok0, s, typed)
  end.

Lemma net_answer_ok ro i s c typed r s' rest : answer ro i s c typed = Some (r, s', rest) -> acts ro i s c r s'.
Proof.
  unfold answer. intros H.
  assert (Hplain : ro <> Receiving -> queueing c = false -> Some (ok0, s, typed) = Some (r, s', rest) -> acts ro i s c r s').
  { intros Hro Hq [= <- <- <-]. by apply acts_other. }
  destruct ro.
  - destruct c; try (by apply Hplain).
    + destruct create; [by apply Hplain|]. cbv zeta in H. destruct (_ && _) eqn:E; [|done]. injection H as <- <- <-.
      apply andb_true_iff in E as [E1%bool_decide_eq_true E2%bool_decide_eq_true].
      eapply acts_open; [lia|done| |done]. intros d' Hd'. by apply (E2 d' _ Hd').
    + apply bind_Some in H as (j & Hj & [= <- <- <-]). by apply acts_relay.
    + destruct (chat s) as [|m l] eqn:E; [done|]. injection H as <- <- <-. by apply acts_take.
  - destruct c; try (by apply Hplain).
    + destruct create; [by apply Hplain|]. injection H as <- <- <-. by apply acts_connect.
    + injection H as <- <- <-. apply acts_send.
    + destruct typed as [|l ls]; [done|]. injection H as <- <- <-. apply acts_other; [done|done|cbn; lia].
    + destruct typed as [|l ls]; [done|]. injection H as <- <- <-. apply acts_other; [done|done|cbn; lia].
  - destruct c; cbn [queueing showing] in H; try (injection H as <- <- <-; by apply acts_other); try done.
    + destruct create; [|done]. injection H as <- <- <-. by apply acts_other.
    + destruct (inbox s !!! i) as [|m l] eqn:E; [done|]. injection H as <- <- <-. by apply acts_receive.
    + destruct (String.eqb op "wprintw(win_chat)") eqn:E.
      * destruct args as [|nm [|tx [|]]]; try done. injection H as <- <- <-. apply acts_show. cbn. by rewrite E.
      * injection H as <- <- <-. apply acts_other; [done| |done]. intros _. cbn. by rewrite E.
Qed.

Section run.
Variable roles : nat -> role.

(** Process [i] makes [n] calls, or fewer when it ends or blocks. *)
Fixpoint calls_of (n i : nat) (s : net) (p : prog Z) (typed : list (list Z)) : net * prog Z * list (list Z) :=
  match n, p with
  | S n', Step c k =>
      match answer (roles i) i s c typed with
      | Some (r, s', rest) => calls_of n' i s' (k r) rest
      | None => (s, p, typed)
      end
  | _, _ => (s, p, typed)
  end.

Fixpoint turns (order : list (nat * nat)) (s : net) (ps : list (prog Z)) (typed : list (list (list Z))) : net * list (prog Z) :=
  match order with
  | [] => (s, ps)
  | (i, n) :: rest =>
      match ps !! i with
      | Some p =>
          let '(s', p', l) := calls_of n i s p (default [] (typed !! i)) in
          turns rest s' (<[i := p']> ps) (<[i := l]> typed)
      | None => turns rest s ps typed
      end
  end.

Lemma calls_of_steps n i s p typed ps s' p' l : ps !! i = Some p -> calls_of n i s p typed = (s', p', l) ->
  rtc (many_step (act roles)) (s, ps) (s', <[i := p']> ps).
Proof.
  revert s p typed ps. induction n as [|n IH]; intros s p typed ps Hp H; cbn [calls_of] in H;
    [injection H as <- <- <-; by rewrite list_insert_id|].
  destruct p as [a|h|c k]; [injection H as <- <- <-; by rewrite list_insert_id..|].
  destruct (answer (roles i) i s c typed) as [[[r s1] rest]|] eqn:E; [|injection H as <- <- <-; by rewrite list_insert_id].
  apply net_answer_ok in E. eapply rtc_l; [by eapply step_of|].
  rewrite <- (list_insert_insert_eq ps i p' (k r)). eapply IH; [|exact H].
  apply list_lookup_insert_eq. by eapply lookup_lt_Some.
Qed.

Lemma turns_steps order s ps typed s' ps' : turns order s ps typed = (s', ps') -> rtc (many_step (act roles)) (s, ps) (s', ps').
Proof.
  revert s ps typed. induction order as [|[i n] order IH]; intros s ps typed H; cbn [turns] in H; [by injection H as <- <-|].
  destruct (ps !! i) as [p|] eqn:Hp; [|by eapply IH].
  destruct (calls_of n i s p (default [] (typed !! i))) as [[s1 p1] l] eqn:E.
  etransitivity; [by eapply calls_of_steps|]. by eapply IH.
Qed.
End run.

(** Two clients: Bob joins, then Ann joins, says a line and leaves. *)
Definition demo_roles (i : nat) : role :=
  match i with O => Serving | 1%nat | 3%nat => Typing | _ => Receiving end.
Definition demo_programs : list (prog Z) :=
  [server_main 9 (replicate 356 0); client_main 9 (replicate 256 0);
   prog_bind (receive_thread 9 3 (replicate 356 0)) (fun _ => Ret 0); client_main 9 (replicate 256 0);
   prog_bind (receive_thread 9 3 (replicate 356 0)) (fun _ => Ret 0)].
#[local] Notation demo_run :=
  (turns demo_roles [(3, 60); (0, 60); (1, 100); (0, 60); (2, 100); (4, 100)]%nat empty_net demo_programs
     [[]; [str "ann"; str "hi"; str "q"]; []; [str "bob"]; []]).

Definition demo_lines (s : net) : bool :=
  bool_decide (shown s !!! 2%nat = [(str "ann", str "hi")]) && bool_decide (shown s !!! 4%nat = [(str "ann", str "hi")]) &&
  bool_decide (length (sent s) = 3%nat).

Lemma demo_run_lines : demo_lines (demo_run.1) = true.
Proof. by vm_compute. Qed.

Lemma demo_one_server i : demo_roles i = Serving <-> i = 0%nat.
Proof. by destruct i as [|[|[|[|]]]]. Qed.

Lemma demo_programs_ok i p : demo_programs !! i = Some p -> program (demo_roles i) p.
Proof.
  destruct i as [|[|[|[|[|]]]]]; cbn [demo_programs lookup list_lookup]; intros E; try done; injection E as <-; cbn [demo_roles program].
  - by exists 9%nat, (replicate 356 0).
  - by exists 9%nat, (replicate 256 0).
  - by exists 9%nat, 3, (replicate 356 0).
  - by exists 9%nat, (replicate 256 0).
  - by exists 9%nat, 3, (replicate 356 0).
Qed.

Lemma chat_in_order_witness : exists s ps, rtc (many_step (act demo_roles)) (empty_net, demo_programs) (s, ps) /\
  shown s !!! 4%nat = [(str "ann", str "hi")] /\ sublist [(str "ann", str "hi")] (lines (sent s)).
Proof.
  pose proof demo_run_lines as H. destruct demo_run as [s ps] eqn:E. cbn in H. unfold demo_lines in H.
  rewrite !andb_true_iff, !bool_decide_eq_true in H. destruct H as [[_ H4] _].
  apply turns_steps in E. exists s, ps. split; [exact E|]. split; [exact H4|]. rewrite <- H4.
  apply (chat_in_order demo_roles demo_programs s ps).
  - exact demo_one_server.
  - discriminate.
  - exact demo_programs_ok.
  - exact E.
Defined.
