(* ===== verification/ChatShm.v ===== *)
(** The chat in shared memory of src/hw14_shmemory/part2: a room with a ring of fifty
    messages and ten slots for clients, used by many processes under one semaphore.

    What a process does between [sem_wait] and [sem_post] is a list of small steps on the
    room and on the variables of the process, so that the steps of several processes can
    be interleaved ([step]); the sequential functions of the sources are the same lists
    run without interruption ([section]). *)

From stdpp Require Import relations.
From S2P Require Import Prelude CInt CStr Stdio Sys.

Definition SHM_NAME : list Z := str "/chat_shm".
Definition MAX_CLIENTS : Z := 10.
Definition MAX_MESSAGES : Z := 50.

Record chat_message_t := Message { m_name : list Z; m_text : list Z }.
Record client_t := Client { c_name : list Z; c_active : Z }.

Record chat_room_t := Room {
  sem : Z; clients : list client_t; client_count : Z;
  messages : list chat_message_t; msg_start : Z; msg_count : Z }.

(** The variables of a process: its globals, the locals of its loops, and what it has
    put on its screen. *)
Record process := Process {
  client_name : list Z; client_idx : Z; input : list Z; pos : Z;
  last_msg_count : Z; last_client_count : Z; screen : list (list (list Z)) }.

Definition state : Type := chat_room_t * process.
Definition micro : Type := state -> outcome state.

(** The steps one after the other. *)
Fixpoint section (ms : list micro) (s : state) : outcome state :=
  match ms with [] => Done s | m :: ms' => s' ← m s; section ms' s' end.

(** * The operations on the room *)

Definition set_message (r : chat_room_t) (i : Z) (m : chat_message_t) : outcome chat_room_t :=
  ms ← zset (messages r) i m;
  Done (Room (sem r) (clients r) (client_count r) ms (msg_start r) (msg_count r)).

Definition set_client (r : chat_room_t) (i : Z) (c : client_t) : outcome chat_room_t :=
  cs ← zset (clients r) i c;
  Done (Room (sem r) cs (client_count r) (messages r) (msg_start r) (msg_count r)).

Definition set_pos (p : process) (i : Z) : process :=
  Process (client_name p) (client_idx p) (input p) i (last_msg_count p) (last_client_count p) (screen p).
Definition set_idx (p : process) (i : Z) : process :=
  Process (client_name p) i (input p) (pos p) (last_msg_count p) (last_client_count p) (screen p).

(** Sending a message: the slot, its two strings, then the counters. *)
Definition say_pos : micro := fun '(r, p) =>
  n ← iadd (msg_start r) (msg_count r); Done (r, set_pos p (Z.rem n MAX_MESSAGES)).

Definition say_name : micro := fun '(r, p) =>
  m ← znth (messages r) (pos p);
  n ← strncpy_z (m_name m) (client_name p);
  r ← set_message r (pos p) (Message n (m_text m));
  Done (r, p).

Definition say_text : micro := fun '(r, p) =>
  m ← znth (messages r) (pos p);
  t ← strncpy_z (m_text m) (input p);
  r ← set_message r (pos p) (Message (m_name m) t);
  Done (r, p).

Definition say_count : micro := fun '(r, p) =>
  if msg_count r <? MAX_MESSAGES
  then
    n ← iadd (msg_count r) 1;
    Done (Room (sem r) (clients r) (client_count r) (messages r) (msg_start r) n, p)
  else
    n ← iadd (msg_start r) 1;
    Done (Room (sem r) (clients r) (client_count r) (messages r) (Z.rem n MAX_MESSAGES) (msg_count r), p).

Definition say_section : list micro := [say_pos; say_name; say_text; say_count].

(** Joining: the first free slot, its name, then the flag, the counter and the index. *)
Definition inactive (c : client_t) : bool := c_active c =? 0.

Definition join_find : micro := fun '(r, p) =>
  Done (r, set_pos (set_idx p (-1))
    (match find_from inactive 0 (clients r) with Some i => Z.of_nat i | None => -1 end)).

Definition join_name : micro := fun '(r, p) =>
  if pos p =? -1 then Done (r, p)
  else
    c ← znth (clients r) (pos p);
    n ← strncpy_z (c_name c) (client_name p);
    r ← set_client r (pos p) (Client n (c_active c));
    Done (r, p).

Definition join_enter : micro := fun '(r, p) =>
  if pos p =? -1 then Done (r, p)
  else
    c ← znth (clients r) (pos p);
    r ← set_client r (pos p) (Client (c_name c) 1);
    n ← iadd (client_count r) 1;
    Done (Room (sem r) (clients r) n (messages r) (msg_start r) (msg_count r), set_idx p (pos p)).

Definition join_section : list micro := [join_find; join_name; join_enter].

(** Leaving. *)
Definition leave_flag : micro := fun '(r, p) =>
  c ← znth (clients r) (client_idx p);
  r ← set_client r (client_idx p) (Client (c_name c) 0);
  Done (r, p).

Definition leave_count : micro := fun '(r, p) =>
  n ← isub (client_count r) 1;
  Done (Room (sem r) (clients r) n (messages r) (msg_start r) (msg_count r), p).

Definition leave_section : list micro := [leave_flag; leave_count].

(** * The functions of the server (server.c) *)

(** The same operations as functions, each between [sem_wait] and [sem_post]. *)
Definition add_client (r : chat_room_t) (nm : list Z) : outcome (chat_room_t * Z) :=
  if MAX_CLIENTS <=? client_count r then Done (r, -1)
  else
    match find_from inactive 0 (clients r) with
    | Some i =>
        c ← znth (clients r) (Z.of_nat i);
        n ← strncpy_z (c_name c) nm;
        r ← set_client r (Z.of_nat i) (Client n (c_active c));
        c ← znth (clients r) (Z.of_nat i);
        r ← set_client r (Z.of_nat i) (Client (c_name c) 1);
        k ← iadd (client_count r) 1;
        Done (Room (sem r) (clients r) k (messages r) (msg_start r) (msg_count r), Z.of_nat i)
    | None => Done (r, -1)
    end.

Definition remove_client (r : chat_room_t) (i : Z) : outcome chat_room_t :=
  if (0 <=? i) && (i <? MAX_CLIENTS) then
    c ← znth (clients r) i;
    if negb (c_active c =? 0) then
      r ← set_client r i (Client (c_name c) 0);
      k ← isub (client_count r) 1;
      Done (Room (sem r) (clients r) k (messages r) (msg_start r) (msg_count r))
    else Done r
  else Done r.

Definition add_message (r : chat_room_t) (nm tx : list Z) : outcome chat_room_t :=
  k ← iadd (msg_start r) (msg_count r);
  let pos := Z.rem k MAX_MESSAGES in
  m ← znth (messages r) pos;
  n ← strncpy_z (m_name m) nm;
  r ← set_message r pos (Message n (m_text m));
  m ← znth (messages r) pos;
  t ← strncpy_z (m_text m) tx;
  r ← set_message r pos (Message (m_name m) t);
  if msg_count r <? MAX_MESSAGES
  then
    n ← iadd (msg_count r) 1;
    Done (Room (sem r) (clients r) (client_count r) (messages r) (msg_start r) n)
  else
    n ← iadd (msg_start r) 1;
    Done (Room (sem r) (clients r) (client_count r) (messages r) (Z.rem n MAX_MESSAGES) (msg_count r)).

(** * The screen of a client *)

Section screen.
  (** [getmaxy] of the two windows. *)
Variable max_chat max_users : Z.

(** The rows [print_messages] writes: from the oldest message on, at most as many as the
    window has rows. *)
Fixpoint message_rows (n : nat) (i : Z) (r : chat_room_t) : outcome (list (list Z)) :=
  match n with
  | O => Done []
  | S n' =>
      k ← iadd (msg_start r) i;
      m ← znth (messages r) (Z.rem k MAX_MESSAGES);
      nm ← chars (m_name m);
      tx ← chars (m_text m);
      let row := str "[" ++ nm ++ str "]: " ++ tx in
      if max_chat <=? i + 2 then Done [row]
      else rows ← message_rows n' (i + 1) r; Done (row :: rows)
  end.

Definition print_messages (r : chat_room_t) : outcome (list (list Z)) :=
  message_rows (Z.to_nat (msg_count r)) 0 r.

(** The rows [print_clients] writes. *)
Fixpoint client_rows (cs : list client_t) (row : Z) : outcome (list (list Z)) :=
  match cs with
  | [] => Done []
  | c :: cs' =>
      if row <? max_users - 1 then
        if c_active c =? 0 then client_rows cs' row
        else nm ← chars (c_name c); rows ← client_rows cs' (row + 1); Done (nm :: rows)
      else Done []
  end.

Definition print_clients (r : chat_room_t) : outcome (list (list Z)) := client_rows (clients r) 1.

Definition draw (p : process) (rows : list (list Z)) (lm lc : Z) : process :=
  Process (client_name p) (client_idx p) (input p) (pos p) lm lc (screen p ++ [rows]).

Definition look_messages : micro := fun '(r, p) =>
  if negb (msg_count r =? last_msg_count p)
  then rows ← print_messages r; Done (r, draw p rows (msg_count r) (last_client_count p))
  else Done (r, p).

Definition look_clients : micro := fun '(r, p) =>
  if negb (client_count r =? last_client_count p)
  then rows ← print_clients r; Done (r, draw p rows (last_msg_count p) (client_count r))
  else Done (r, p).

(** One round of [receive_thread]. *)
Definition look_section : list micro := [look_messages; look_clients].

(** What [print_clients] of the server prints: the counter and every active name. *)
Fixpoint active_names (cs : list client_t) : outcome (list (list Z)) :=
  match cs with
  | [] => Done []
  | c :: cs' =>
      if c_active c =? 0 then active_names cs'
      else nm ← chars (c_name c); rows ← active_names cs'; Done (nm :: rows)
  end.

Definition report_clients (r : chat_room_t) : outcome (list (list Z)) :=
  rows ← active_names (clients r); Done ((str "Active clients (" ++ print_d (client_count r) ++ str "):") :: rows).

(** One round of the server. *)
Definition report : micro := fun '(r, p) =>
  if 0 <? client_count r
  then rows ← report_clients r; Done (r, draw p rows (last_msg_count p) (last_client_count p))
  else Done (r, p).
Definition report_section : list micro := [report].

(** * Many processes *)

(** What a thread does next: [main] of a client joins, talks and leaves; its second thread
    looks at the room, again and again; the server prints the clients, again and again. *)
Inductive phase := Starting | Talking | Gone | Looking | Serving.

(** A client that found no slot ends. *)
Definition next_phase (p : process) (after : phase) : phase :=
  match after with Talking => if client_idx p =? -1 then Gone else Talking | a => a end.

(** A thread is outside the semaphore, or inside with the steps that are left and the
    phase it is in afterwards. *)
Inductive where_ := Outside | Inside (todo : list micro) (after : phase).

Record proc := Proc { vars : process; ph : phase; at_ : where_ }.

(** The room, the threads, and all the messages that were ever said. *)
Record world := World { room : chat_room_t; procs : list proc; said : list (list Z * list Z) }.

Definition with_sem (r : chat_room_t) (n : Z) : chat_room_t :=
  Room n (clients r) (client_count r) (messages r) (msg_start r) (msg_count r).

Definition typed (p : process) (text : list Z) : process :=
  Process (client_name p) (client_idx p) text (pos p) (last_msg_count p) (last_client_count p) (screen p).

(** The strings a message will hold: name and line cut to their fields. *)
Definition cut (p : process) : list Z * list Z := (take 31 (cstr (client_name p)), take 255 (cstr (input p))).

(** Which section a process enters: the steps, the phase afterwards and what is said. *)
Inductive enters : process -> phase -> list micro -> phase -> list (list Z * list Z) -> Prop :=
  | enter_join p : enters p Starting join_section Talking []
  | enter_say p : enters p Talking say_section Talking [cut p]
  | enter_look p : enters p Looking look_section Looking []
  | enter_leave p : enters p Talking leave_section Gone []
  | enter_report p : enters p Serving report_section Serving [].

Inductive step : world -> world -> Prop :=
  (* a line is read into the input array, outside the semaphore *)
  | step_type w i q text :
      procs w !! i = Some q -> at_ q = Outside -> length text = 256%nat -> terminated text ->
      step w (World (room w) (<[i := Proc (typed (vars q) text) (ph q) Outside]> (procs w)) (said w))
  (* sem_wait succeeds when the semaphore is positive *)
  | step_wait w i q ms after msgs :
      procs w !! i = Some q -> at_ q = Outside -> 0 < sem (room w) ->
      enters (vars q) (ph q) ms after msgs ->
      step w (World (with_sem (room w) (sem (room w) - 1))
                (<[i := Proc (vars q) (ph q) (Inside ms after)]> (procs w)) (said w ++ msgs))
  (* one step inside *)
  | step_micro w i q m ms after r' p' :
      procs w !! i = Some q -> at_ q = Inside (m :: ms) after ->
      m (room w, vars q) = Done (r', p') ->
      step w (World r' (<[i := Proc p' (ph q) (Inside ms after)]> (procs w)) (said w))
  (* sem_post *)
  | step_post w i q after :
      procs w !! i = Some q -> at_ q = Inside [] after ->
      step w (World (with_sem (room w) (sem (room w) + 1))
                (<[i := Proc (vars q) (next_phase (vars q) after) Outside]> (procs w))
                (said w)).
End screen.

Definition init_room (cs : list client_t) (ms : list chat_message_t) : chat_room_t :=
  Room 1 ((fun c => Client (match c_name c with [] => [] | _ :: l => 0 :: l end) 0) <$> cs) 0 ms 0 0.

(** * The room between two sections *)

Definition entry (ms : list chat_message_t) (k : nat) : list Z * list Z :=
  match ms !! k with Some m => (cstr (m_name m), cstr (m_text m)) | None => ([], []) end.

(** The messages from the oldest to the newest, as [print_messages] walks them. *)
Definition history (r : chat_room_t) : list (list Z * list Z) :=
  (fun i => entry (messages r) ((Z.to_nat (msg_start r) + i) mod 50)) <$> seq 0 (Z.to_nat (msg_count r)).

Definition last_n {A} (n : nat) (l : list A) : list A := drop (length l - n) l.

Definition active_slots (cs : list client_t) : list client_t := filter (fun c => c_active c <> 0) cs.

Definition fields_ok (m : chat_message_t) : Prop := length (m_name m) = 32%nat /\ length (m_text m) = 256%nat.

Record room_ok (r : chat_room_t) : Prop := RoomOk {
  ro_clients : length (clients r) = 10%nat;
  ro_names : Forall (fun c => length (c_name c) = 32%nat) (clients r);
  ro_active : Forall (fun c => c_active c <> 0 -> terminated (c_name c)) (clients r);
  ro_count : client_count r = Z.of_nat (length (active_slots (clients r)));
  ro_messages : length (messages r) = 50%nat;
  ro_fields : Forall fields_ok (messages r);
  ro_start : 0 <= msg_start r < 50;
  ro_msgs : 0 <= msg_count r <= 50;
  ro_fresh : msg_count r < 50 -> msg_start r = 0;
  ro_term : forall i m, (i < Z.to_nat (msg_count r))%nat ->
    messages r !! ((Z.to_nat (msg_start r) + i) mod 50)%nat = Some m ->
    terminated (m_name m) /\ terminated (m_text m) }.

Record vars_ok (p : process) : Prop := VarsOk {
  vo_name : length (client_name p) = 32%nat;
  vo_name0 : terminated (client_name p);
  vo_input : length (input p) = 256%nat;
  vo_input0 : terminated (input p) }.

Lemma strncpy_z_terminated dst src : terminated src -> (0 < length dst)%nat ->
  exists d, strncpy_z dst src = Done d /\ length d = length dst /\ terminated d /\
    cstr d = take (length dst - 1) (cstr src).
Proof.
  intros [r ->]%terminated_split Hd. destruct (strncpy_z_spec dst (cstr src) r) as (d & E & L & T & C);
    [apply cstr_text | done |]. exists d. by rewrite cstr_app by apply cstr_text.
Qed.

(** The position of the next message. *)
Definition slot (r : chat_room_t) : nat := ((Z.to_nat (msg_start r) + Z.to_nat (msg_count r)) mod 50)%nat.

Lemma say_pos_spec r p : room_ok r ->
  say_pos (r, p) = Done (r, set_pos p (Z.of_nat (slot r))).
Proof.
  intros H. destruct H. unfold say_pos, iadd.
  rewrite int_result_Done2 by (unfold_int; lia). cbn [mbind outcome_bind].
  do 3 f_equal. unfold slot, MAX_MESSAGES.
  rewrite Nat2Z.inj_mod, Z.rem_mod_nonneg by lia. f_equal. lia.
Qed.

(** The section that says a message stores it in the slot and moves the counters. *)
Definition said_room (r : chat_room_t) (m : chat_message_t) : chat_room_t :=
  Room (sem r) (clients r) (client_count r) (<[slot r := m]> (messages r))
    (if msg_count r <? 50 then msg_start r else (msg_start r + 1) mod 50)
    (if msg_count r <? 50 then msg_count r + 1 else msg_count r).

Lemma say_section_run r p : room_ok r -> vars_ok p ->
  exists m, section say_section (r, p) = Done (said_room r m, set_pos p (Z.of_nat (slot r))) /\
    fields_ok m /\ terminated (m_name m) /\ terminated (m_text m) /\
    (cstr (m_name m), cstr (m_text m)) = cut p.
Proof.
  intros H [Hn Hn0 Hi Hi0]. unfold say_section, section. rewrite say_pos_spec by done.
  cbn [mbind outcome_bind]. set (k := slot r). set (p' := set_pos p (Z.of_nat k)).
  assert (Hk : (k < 50)%nat) by (apply Nat.mod_upper_bound; lia).
  destruct (znth_ok (messages r) (Z.of_nat k)) as (m & Hm & Hl); [rewrite (ro_messages r H); lia|].
  assert (Hf : fields_ok m).
  { pose proof (ro_fields r H) as F. rewrite Forall_lookup in F. by apply (F _ _ Hl). }
  destruct Hf as [Hf1 Hf2].
  destruct (strncpy_z_terminated (m_name m) (client_name p)) as (n & En & Ln & Tn & Cn); [done | lia |].
  destruct (strncpy_z_terminated (m_text m) (input p)) as (t & Et & Lt & Tt & Ct); [done | lia |].
  unfold say_name. cbn [pos p' set_pos]. rewrite Hm. cbn [mbind outcome_bind client_name p' set_pos]. rewrite En.
  cbn [mbind outcome_bind]. unfold set_message at 1. rewrite zset_ok by (rewrite (ro_messages r H); lia).
  cbn [mbind outcome_bind]. unfold say_text. cbn [pos p' set_pos messages].
  rewrite Nat2Z.id. rewrite (proj2 (znth_Done _ _ (Message n (m_text m)))).
  2: { split; [lia|]. rewrite Nat2Z.id. apply list_lookup_insert_eq. rewrite (ro_messages r H). lia. }
  cbn [mbind outcome_bind m_text m_name input p' set_pos]. rewrite Et. cbn [mbind outcome_bind]. unfold set_message. cbn [messages].
  rewrite zset_ok by (rewrite length_insert, (ro_messages r H); lia).
  cbn [mbind outcome_bind]. rewrite Nat2Z.id, list_insert_insert_eq.
  exists (Message n t). split; [|split_and!; cbn; try done].
  - unfold say_count. cbn [msg_count msg_start sem clients client_count messages]. unfold said_room, MAX_MESSAGES.
    destruct (ro_msgs r H), (ro_start r H).
    destruct (msg_count r <? 50); unfold iadd; rewrite int_result_Done2 by (unfold_int; lia); [done|].
    cbn [mbind outcome_bind]. rewrite Z.rem_mod_nonneg by lia. done.
  - split; cbn; lia.
  - unfold cut. rewrite Cn, Ct, Hf1, Hf2. done.
Qed.

Lemma entry_insert ms k m j : (k < length ms)%nat ->
  entry (<[k := m]> ms) j = if decide (j = k) then (cstr (m_name m), cstr (m_text m)) else entry ms j.
Proof.
  intros Hk. unfold entry. case_decide as Hd.
  - subst. by rewrite list_lookup_insert_eq.
  - by rewrite list_lookup_insert_ne.
Qed.

(** The ring keeps the last fifty messages. *)
Lemma history_said r m : room_ok r ->
  history (said_room r m) = last_n 50 (history r ++ [(cstr (m_name m), cstr (m_text m))]).
Proof.
  intros H. destruct (ro_msgs r H), (ro_start r H). unfold history, last_n, said_room, slot.
  cbn [messages msg_start msg_count]. rewrite length_app, length_fmap, length_seq. cbn [length].
  destruct (Z.ltb_spec (msg_count r) 50).
  - rewrite (ro_fresh r H) by lia. change (Z.to_nat 0) with 0%nat. cbn [Nat.add].
    replace (Z.to_nat (msg_count r + 1)) with (Z.to_nat (msg_count r) + 1)%nat by lia.
    replace (Z.to_nat (msg_count r) + 1 - 50)%nat with 0%nat by lia. rewrite drop_0.
    rewrite seq_app, fmap_app. cbn [seq fmap list_fmap Nat.add]. f_equal.
    + apply list_fmap_ext. intros k0 i Hi%lookup_seq. rewrite entry_insert.
      * case_decide as Hd; [|done]. exfalso. rewrite !Nat.mod_small in Hd by lia. lia.
      * rewrite (ro_messages r H). apply Nat.mod_upper_bound. lia.
    + rewrite entry_insert by (rewrite (ro_messages r H); apply Nat.mod_upper_bound; lia).
      by rewrite decide_True.
  - assert (msg_count r = 50) as -> by lia. change (Z.to_nat 50) with 50%nat.
    change (50 + 1 - 50)%nat with 1%nat. set (s := Z.to_nat (msg_start r)).
    assert (Z.to_nat ((msg_start r + 1) mod 50) = (s + 1) mod 50)%nat as ->.
    { apply Nat2Z.inj. rewrite Z2Nat.id by (apply Z.mod_pos_bound; lia). rewrite Nat2Z.inj_mod. f_equal. lia. }
    assert (Hs : (s < 50)%nat) by lia.
    assert (((s + 50) mod 50) = s)%nat as -> by (rewrite <- (Nat.mul_1_l 50) at 1; rewrite Nat.Div0.mod_add; by apply Nat.mod_small).
    change (seq 0 50) with (0%nat :: seq 1 49) at 2. cbn [fmap list_fmap app drop].
    change (seq 0 50) with (seq 0 49 ++ [49%nat]). rewrite fmap_app, <- (fmap_S_seq 0 49), <- list_fmap_compose.
    rewrite drop_0. f_equal.
    + apply list_fmap_ext. intros k0 i Hi%lookup_seq. cbn [compose].
      rewrite entry_insert by (rewrite (ro_messages r H); lia). rewrite Nat.Div0.add_mod_idemp_l.
      replace (s + 1 + i)%nat with (s + S i)%nat by lia. case_decide as Hd; [|done].
      exfalso. pose proof (Nat.div_mod (s + S i) 50). nia.
    + cbn [fmap list_fmap]. rewrite entry_insert by (rewrite (ro_messages r H); lia).
      rewrite Nat.Div0.add_mod_idemp_l. replace (s + 1 + 49)%nat with (s + 1 * 50)%nat by lia.
      rewrite Nat.Div0.mod_add, Nat.mod_small by done. by rewrite decide_True.
Qed.

Lemma ring_index (s i : nat) : (s < 50)%nat -> (i < 50)%nat ->
  (((s + 1) mod 50 + i) mod 50 = (s + S i) mod 50)%nat.
Proof. intros. rewrite Nat.Div0.add_mod_idemp_l. f_equal. lia. Qed.

Lemma said_room_ok r m : room_ok r -> fields_ok m -> terminated (m_name m) -> terminated (m_text m) ->
  room_ok (said_room r m).
Proof.
  intros H Hf Hn Ht. destruct H as [H1 H2 H3 H4 H5 H6 H7 H8 H9 H10].
  assert (Hsl : (slot r < 50)%nat) by (apply Nat.mod_upper_bound; lia).
  split; cbn [said_room clients client_count messages msg_start msg_count]; try done.
  - by rewrite length_insert.
  - by apply Forall_insert.
  - destruct (msg_count r <? 50); [done|]. apply Z.mod_pos_bound. lia.
  - destruct (Z.ltb_spec (msg_count r) 50); lia.
  - destruct (Z.ltb_spec (msg_count r) 50); [auto|lia].
  - intros i k Hi Hk. destruct (decide (((Z.to_nat (if msg_count r <? 50 then msg_start r else (msg_start r + 1) mod 50)%Z + i) mod 50)%nat = slot r)) as [E|E].
    + rewrite E, list_lookup_insert_eq in Hk by lia. by injection Hk as <-.
    + rewrite list_lookup_insert_ne in Hk by done. destruct (Z.ltb_spec (msg_count r) 50).
      * apply (H10 i k); [|done]. unfold slot in E. rewrite H9 in * by lia.
        change (Z.to_nat 0) with 0%nat in *. cbn [Nat.add] in E, Hk |- *.
        rewrite (Nat.mod_small (Z.to_nat (msg_count r))) in E by lia.
        destruct (decide (i = Z.to_nat (msg_count r))) as [->|]; [|lia].
        exfalso. apply E. apply Nat.mod_small. lia.
      * assert (Hc : msg_count r = 50) by lia. rewrite Hc in *.
        set (s := Z.to_nat (msg_start r)) in *.
        assert (Hm : (Z.to_nat ((msg_start r + 1) mod 50) = (s + 1) mod 50)%nat).
        { apply Nat2Z.inj. rewrite Z2Nat.id by (apply Z.mod_pos_bound; lia). rewrite Nat2Z.inj_mod. f_equal. lia. }
        rewrite Hm, ring_index in * by lia.
        destruct (decide (i = 49)%nat) as [->|].
        -- exfalso. apply E. unfold slot. fold s. by rewrite Hc.
        -- apply (H10 (S i) k); [lia|done].
Qed.

(** ** Joining and leaving *)

Lemma active_insert cs i c c' : cs !! i = Some c ->
  Z.of_nat (length (active_slots (<[i := c']> cs)))
    = Z.of_nat (length (active_slots cs)) - (if c_active c =? 0 then 0 else 1)
      + (if c_active c' =? 0 then 0 else 1).
Proof.
  revert i. induction cs as [|d cs IH]; intros i Hi; [by rewrite lookup_nil in Hi|].
  unfold active_slots in *. destruct i as [|i]; cbn in Hi; [injection Hi as ->|].
  - cbn [insert list_insert]. rewrite !filter_cons.
    repeat case_decide; cbn [length]; zbool; lia.
  - cbn [insert list_insert]. rewrite !filter_cons.
    repeat case_decide; cbn [length]; rewrite ?Nat2Z.inj_succ, IH by done; lia.
Qed.

Lemma active_le cs : (length (active_slots cs) <= length cs)%nat.
Proof. apply length_filter. Qed.

Definition with_client (r : chat_room_t) (i : nat) (c : client_t) (n : Z) : chat_room_t :=
  Room (sem r) (<[i := c]> (clients r)) n (messages r) (msg_start r) (msg_count r).

Lemma with_client_ok r i c c' n : room_ok r -> clients r !! i = Some c -> length (c_name c') = 32%nat ->
  (c_active c' <> 0 -> terminated (c_name c')) ->
  n = client_count r - (if c_active c =? 0 then 0 else 1) + (if c_active c' =? 0 then 0 else 1) ->
  room_ok (with_client r i c' n).
Proof.
  intros [H1 H2 H3 H4 H5 H6 H7 H8 H9 H10] Hi Hl Ht ->.
  split; cbn; try done; [by rewrite length_insert | by apply Forall_insert | by apply Forall_insert |].
  rewrite (active_insert _ _ c) by done. lia.
Qed.

Lemma join_section_run r p : room_ok r -> vars_ok p ->
  section join_section (r, p) = Done (r, set_pos (set_idx p (-1)) (-1)) \/
  exists i c n, clients r !! i = Some c /\ c_active c = 0 /\
    section join_section (r, p)
      = Done (with_client r i (Client n 1) (client_count r + 1), set_idx (set_pos (set_idx p (-1)) (Z.of_nat i)) (Z.of_nat i)) /\
    length n = 32%nat /\ terminated n /\ cstr n = take 31 (cstr (client_name p)).
Proof.
  intros H [Hn Hn0 _ _]. unfold join_section, section, join_find. cbn [mbind outcome_bind].
  destruct (find_from inactive 0 (clients r)) as [i|] eqn:E; [right|left; done].
  apply find_from_Some in E as (_ & (c & Hc & Hin) & _). rewrite Nat.sub_0_r in Hc.
  apply Z.eqb_eq in Hin. assert (Hi : (i < length (clients r))%nat) by (by eapply lookup_lt_Some).
  assert (Hcn : length (c_name c) = 32%nat).
  { pose proof (ro_names r H) as F. rewrite Forall_lookup in F. by apply (F _ _ Hc). }
  destruct (strncpy_z_terminated (c_name c) (client_name p)) as (n & En & Ln & Tn & Cn); [done | lia |].
  exists i, c, n. split_and!; try done; [|lia|by rewrite Cn, Hcn].
  unfold join_name, join_enter. cbn [pos set_pos set_idx client_name].
  destruct (Z.eqb_spec (Z.of_nat i) (-1)); [lia|].
  rewrite (proj2 (znth_Done _ _ c)) by (rewrite Nat2Z.id; split; [lia|done]).
  cbn [mbind outcome_bind]. rewrite En. cbn [mbind outcome_bind]. unfold set_client.
  rewrite zset_ok by lia. cbn [mbind outcome_bind clients client_count]. rewrite Nat2Z.id.
  rewrite (proj2 (znth_Done _ _ (Client n (c_active c)))).
  2: { cbn [pos set_pos]. split; [lia|]. rewrite Nat2Z.id. by apply list_lookup_insert_eq. }
  cbn [mbind outcome_bind c_name pos set_pos]. rewrite zset_ok by (rewrite length_insert; lia).
  cbn [mbind outcome_bind client_count]. rewrite Nat2Z.id, list_insert_insert_eq.
  pose proof (ro_count r H). pose proof (active_le (clients r)). pose proof (ro_clients r H).
  unfold iadd. rewrite int_result_Done2 by (unfold_int; lia).
  cbn [mbind outcome_bind clients client_count sem messages msg_start msg_count].
  rewrite ?list_insert_insert_eq. by destruct (Z.eqb_spec (Z.of_nat i) (-1)); [lia|].
Qed.

Lemma leave_section_run r p c : room_ok r -> 0 <= client_idx p -> clients r !! Z.to_nat (client_idx p) = Some c ->
  section leave_section (r, p)
    = Done (with_client r (Z.to_nat (client_idx p)) (Client (c_name c) 0) (client_count r - 1), p).
Proof.
  intros H Hp Hc. assert (Hi : (Z.to_nat (client_idx p) < length (clients r))%nat) by (by eapply lookup_lt_Some).
  unfold leave_section, section, leave_flag.
  rewrite (proj2 (znth_Done _ _ c)) by done. cbn [mbind outcome_bind]. unfold set_client.
  rewrite zset_ok by lia. cbn [mbind outcome_bind]. unfold leave_count. cbn [client_count].
  pose proof (ro_count r H). pose proof (active_le (clients r)). pose proof (ro_clients r H).
  unfold isub. rewrite int_result_Done2 by (unfold_int; lia). done.
Qed.

(** ** Looking *)

Section looking.
Variable max_chat max_users : Z.

Definition row_of (m : list Z * list Z) : list Z := str "[" ++ m.1 ++ str "]: " ++ m.2.

Lemma message_rows_spec r n i : room_ok r -> 0 <= i -> (Z.to_nat i + n <= Z.to_nat (msg_count r))%nat ->
  message_rows max_chat n i r
    = Done (take (Z.to_nat (Z.max 1 (max_chat - 1 - i))) (take n (drop (Z.to_nat i) (row_of <$> history r)))).
Proof.
  intros H. destruct (ro_msgs r H), (ro_start r H). revert i. induction n as [|n IH]; intros i Hi Hn.
  - cbn [message_rows]. f_equal. symmetry. by rewrite take_0, take_nil.
  - cbn [message_rows]. unfold iadd. rewrite int_result_Done2 by (unfold_int; lia). cbn [mbind outcome_bind].
    set (k := ((Z.to_nat (msg_start r) + Z.to_nat i) mod 50)%nat).
    assert (Z.rem (msg_start r + i) MAX_MESSAGES = Z.of_nat k) as ->.
    { unfold k, MAX_MESSAGES. rewrite Nat2Z.inj_mod, Z.rem_mod_nonneg by lia. f_equal. lia. }
    assert (Hk : (k < 50)%nat) by (apply Nat.mod_upper_bound; lia).
    destruct (znth_ok (messages r) (Z.of_nat k)) as (m & -> & Hm); [rewrite (ro_messages r H); lia|].
    cbn [mbind outcome_bind]. rewrite Nat2Z.id in Hm.
    destruct (ro_term r H (Z.to_nat i) m) as [Tn Tt]; [lia | done |].
    rewrite !chars_terminated by done. cbn [mbind outcome_bind].
    assert (Hd : drop (Z.to_nat i) (row_of <$> history r)
                 = row_of (cstr (m_name m), cstr (m_text m)) :: drop (Z.to_nat (i + 1)) (row_of <$> history r)).
    { replace (Z.to_nat (i + 1)) with (S (Z.to_nat i)) by lia. apply drop_S.
      rewrite list_lookup_fmap. unfold history. rewrite list_lookup_fmap, lookup_seq_lt by lia. cbn [fmap option_fmap option_map Nat.add].
      unfold entry. fold k. by rewrite Hm. }
    rewrite Hd. cbn [take]. destruct (Z.leb_spec max_chat (i + 2)).
    + replace (Z.to_nat (Z.max 1 (max_chat - 1 - i))) with 1%nat by lia. done.
    + rewrite IH by lia. cbn [mbind outcome_bind].
      replace (Z.to_nat (Z.max 1 (max_chat - 1 - i))) with (S (Z.to_nat (Z.max 1 (max_chat - 1 - (i + 1))))) by lia.
      done.
Qed.

Lemma history_length r : length (history r) = Z.to_nat (msg_count r).
Proof. unfold history. by rewrite length_fmap, length_seq. Qed.

Lemma print_messages_spec r : room_ok r ->
  print_messages max_chat r = Done (take (Z.to_nat (Z.max 1 (max_chat - 1))) (row_of <$> history r)).
Proof.
  intros H. unfold print_messages. rewrite message_rows_spec by (done || lia).
  rewrite drop_0, Z.sub_0_r. do 2 f_equal. apply take_ge. by rewrite length_fmap, history_length.
Qed.

Lemma client_rows_defined cs row : Forall (fun c => c_active c <> 0 -> terminated (c_name c)) cs ->
  defined (client_rows max_users cs row).
Proof.
  intros H. revert row. induction H as [|c cs Hc H IH]; intros row; cbn [client_rows]; [by eexists|].
  case_match; [|by eexists]. destruct (Z.eqb_spec (c_active c) 0); [apply IH|].
  rewrite chars_terminated by auto. cbn [mbind outcome_bind].
  destruct (IH (row + 1)) as [rows ->]. by eexists.
Qed.

Lemma look_section_run r p : room_ok r ->
  exists lm lc sc, section (look_section max_chat max_users) (r, p)
    = Done (r, Process (client_name p) (client_idx p) (input p) (pos p) lm lc sc).
Proof.
  intros H. unfold look_section, section. unfold look_messages at 1.
  rewrite (print_messages_spec r H). destruct (client_rows_defined (clients r) 1 (ro_active r H)) as [rows E].
  destruct p as [nm idx inp po lm lc sc]. cbn [client_name client_idx input pos last_msg_count].
  destruct (negb (msg_count r =? lm)); cbn [mbind outcome_bind];
    unfold look_clients, print_clients; rewrite E; case_match; cbn; by eexists _, _, _.
Qed.

Lemma active_names_defined cs : Forall (fun c => c_active c <> 0 -> terminated (c_name c)) cs ->
  active_names cs = Done (cstr ∘ c_name <$> active_slots cs).
Proof.
  unfold active_slots. induction 1 as [|c cs Hc H IH]; [done|]. cbn [active_names]. rewrite filter_cons.
  case_decide as Ha; destruct (Z.eqb_spec (c_active c) 0); try lia; [|done].
  rewrite chars_terminated by auto. cbn [mbind outcome_bind]. rewrite IH. done.
Qed.

Lemma report_section_run r p : room_ok r ->
  section report_section (r, p) = Done (r, if 0 <? client_count r
    then draw p ((str "Active clients (" ++ print_d (client_count r) ++ str "):") :: (cstr ∘ c_name <$> active_slots (clients r)))
           (last_msg_count p) (last_client_count p) else p).
Proof.
  intros H. unfold report_section, section, report, report_clients. rewrite active_names_defined by apply H.
  by destruct (0 <? client_count r).
Qed.
End looking.

(** * The interleavings *)

Section interleavings.
Variable max_chat max_users : Z.

(** A client that talks owns an active slot, and no two own the same one. *)
Record own (r : chat_room_t) (ps : list proc) : Prop := Own {
  ow_slot : forall k q, ps !! k = Some q -> ph q = Talking ->
    0 <= client_idx (vars q) /\
    exists c, clients r !! Z.to_nat (client_idx (vars q)) = Some c /\ c_active c <> 0;
  ow_distinct : forall j k q s, ps !! j = Some q -> ps !! k = Some s -> ph q = Talking -> ph s = Talking ->
    client_idx (vars q) = client_idx (vars s) -> j = k }.

(** Nobody is inside. *)
Record quiet (r : chat_room_t) (ps : list proc) (said : list (list Z * list Z)) : Prop := Quiet {
  qt_room : room_ok r;
  qt_sem : sem r = 1;
  qt_vars : Forall (fun q => vars_ok (vars q)) ps;
  qt_outside : Forall (fun q => at_ q = Outside) ps;
  qt_own : own r ps;
  qt_history : history r = last_n 50 said }.

(** Thread [j] is inside: the room is what its first steps made of a quiet one. *)
Definition busy (j : nat) (w : world) : Prop :=
  exists r0 ps0 said0 p0 p phj full done todo after msgs,
    quiet r0 ps0 said0 /\ ps0 !! j = Some (Proc p0 phj Outside) /\
    procs w = <[j := Proc p phj (Inside todo after)]> ps0 /\ said w = said0 ++ msgs /\
    enters max_chat max_users p0 phj full after msgs /\ full = done ++ todo /\
    section done (with_sem r0 0, p0) = Done (room w, p) /\ sem (room w) = 0.

Definition inv (w : world) : Prop := quiet (room w) (procs w) (said w) \/ exists j, busy j w.

Lemma with_sem_ok r n : room_ok r -> room_ok (with_sem r n).
Proof. intros []. by split. Qed.

Lemma section_app ms ms' s : section (ms ++ ms') s = (s' ← section ms s; section ms' s').
Proof.
  revert s. induction ms as [|m ms IH]; intros s; [done|]. cbn. destruct (m s); cbn; [apply IH|done].
Qed.

Lemma vars_ok_same p q : vars_ok p -> client_name q = client_name p -> input q = input p -> vars_ok q.
Proof. intros [] E1 E2. split; by rewrite ?E1, ?E2. Qed.

Lemma last_n_app {A} n (l : list A) x : last_n n (last_n n l ++ [x]) = last_n n (l ++ [x]).
Proof.
  unfold last_n. rewrite !length_app, !length_drop. cbn [length].
  destruct (decide (length l <= n)%nat).
  - replace (length l - n)%nat with 0%nat by lia. by rewrite !drop_0, Nat.sub_0_r.
  - destruct n as [|n].
    + rewrite !Nat.sub_0_r, !drop_ge by (rewrite ?length_app, ?length_drop; cbn; lia). done.
    + rewrite (drop_app_le l) by lia. rewrite drop_app_le by (rewrite length_drop; lia). rewrite drop_drop. do 2 f_equal. lia.
Qed.

(** Replacing a thread outside by itself with other variables. *)
Lemma quiet_set r ps said0 r' said' j p0 phj p' ph' :
  quiet r ps said0 -> ps !! j = Some (Proc p0 phj Outside) ->
  room_ok r' -> sem r' = 1 -> vars_ok p' -> history r' = last_n 50 said' ->
  (ph' = Talking -> 0 <= client_idx p' /\
     (exists c, clients r' !! Z.to_nat (client_idx p') = Some c /\ c_active c <> 0) /\
     (forall k q, k <> j -> ps !! k = Some q -> ph q = Talking -> client_idx (vars q) <> client_idx p')) ->
  (forall k q c, k <> j -> ps !! k = Some q -> ph q = Talking ->
     clients r !! Z.to_nat (client_idx (vars q)) = Some c -> c_active c <> 0 ->
     exists c', clients r' !! Z.to_nat (client_idx (vars q)) = Some c' /\ c_active c' <> 0) ->
  quiet r' (<[j := Proc p' ph' Outside]> ps) said'.
Proof.
  intros [Hr Hs Hv Ho [Hsl Hd] Hh] Hj Hr' Hs' Hv' Hh' Hown Hkeep.
  assert (Hlt : (j < length ps)%nat) by (by eapply lookup_lt_Some).
  split; [done | done | by apply Forall_insert | by apply Forall_insert | | done]. split.
  - intros k q Hk Hq. destruct (decide (k = j)) as [->|Hne].
    + rewrite list_lookup_insert_eq in Hk by done. injection Hk as <-. cbn in *.
      destruct (Hown Hq) as (? & ? & _). done.
    + rewrite list_lookup_insert_ne in Hk by done. destruct (Hsl k q Hk Hq) as [H0 (c & Hc & Ha)].
      split; [done|]. by apply (Hkeep k q c).
  - intros i k q s Hi Hk Hq Hs'' Heq.
    destruct (decide (i = j)) as [->|Hij], (decide (k = j)) as [->|Hkj]; [done|..].
    + rewrite list_lookup_insert_eq in Hi by done. injection Hi as <-. cbn in *.
      rewrite list_lookup_insert_ne in Hk by done. destruct (Hown Hq) as (_ & _ & Hdis).
      exfalso. by apply (Hdis k s).
    + rewrite list_lookup_insert_eq in Hk by done. injection Hk as <-. cbn in *.
      rewrite list_lookup_insert_ne in Hi by done. destruct (Hown Hs'') as (_ & _ & Hdis).
      exfalso. by apply (Hdis i q).
    + rewrite list_lookup_insert_ne in Hi, Hk by done. by apply (Hd i k q s).
Qed.

(** Run alone from a quiet room, every section ends in a quiet room. *)
Lemma section_quiet r ps said0 j p0 phj full after msgs :
  quiet r ps said0 -> ps !! j = Some (Proc p0 phj Outside) ->
  enters max_chat max_users p0 phj full after msgs ->
  exists r' p', section full (with_sem r 0, p0) = Done (r', p') /\ sem r' = 0 /\
    quiet (with_sem r' 1) (<[j := Proc p' (next_phase p' after) Outside]> ps) (said0 ++ msgs).
Proof.
  intros H Hj He. pose proof (with_sem_ok r 0 (qt_room _ _ _ H)) as Hr.
  assert (Hv : vars_ok p0).
  { pose proof (qt_vars _ _ _ H) as F. rewrite Forall_lookup in F. by apply (F _ _ Hj). }
  pose proof (qt_own _ _ _ H) as [Hsl Hd]. pose proof (qt_history _ _ _ H) as Hh.
  destruct He as [p|p|p|p|p].
  - rewrite app_nil_r. destruct (join_section_run _ p Hr Hv) as [->|(i & c & n & Hc & Hin & -> & Hl & Ht & _)].
    + eexists _, _. split; [done|]. split; [done|]. eapply quiet_set; try done; try (by apply (vars_ok_same p)).
      * by apply with_sem_ok, with_sem_ok, H.
      * intros k q c _ _ _ Hc Ha. by exists c.
    + eexists _, _. split; [done|]. split; [done|]. cbn [client_idx set_idx next_phase].
      destruct (Z.eqb_spec (Z.of_nat i) (-1)); [lia|]. cbn [clients with_sem] in Hc.
      assert (Hlt : (i < length (clients r))%nat) by (by eapply lookup_lt_Some).
      assert (Hother : forall k q, ps !! k = Some q -> ph q = Talking -> Z.to_nat (client_idx (vars q)) <> i).
      { intros k q Hk Hq Heq. destruct (Hsl k q Hk Hq) as [_ (d & Hdc & Ha)].
        rewrite Heq, Hc in Hdc. injection Hdc as <-. done. }
      eapply quiet_set; try done; try (by apply (vars_ok_same p)).
      * apply with_sem_ok. apply (with_client_ok _ i c); [done..|]. cbn. rewrite Hin. cbn. lia.
      * intros _. cbn. rewrite Nat2Z.id. split; [lia|]. split.
        -- exists (Client n 1). split; [by apply list_lookup_insert_eq|done].
        -- intros k q _ Hk Hq Heq. apply (Hother k q Hk Hq). rewrite Heq. apply Nat2Z.id.
      * intros k q d _ Hk Hq Hdc Ha. exists d. cbn. rewrite list_lookup_insert_ne; [done|].
        intros Heq. by apply (Hother k q).
  - destruct (say_section_run _ p Hr Hv) as (m & -> & Hf & Hn & Ht & Hcut).
    eexists _, _. split; [done|]. split; [done|].
    destruct (Hsl j _ Hj eq_refl) as [H0 Hact]. cbn [client_idx vars] in H0, Hact.
    unfold next_phase. cbn [client_idx set_pos]. destruct (Z.eqb_spec (client_idx p) (-1)); [lia|].
    eapply quiet_set; try done; try (by apply (vars_ok_same p)).
    + apply with_sem_ok. by apply said_room_ok.
    + change (history (with_sem ?a _)) with (history a). rewrite history_said by done.
      change (history (with_sem ?a _)) with (history a). rewrite Hh, last_n_app. by rewrite Hcut.
    + intros _. cbn. split_and!; [done|done|]. intros k q Hne Hk Hq Heq. apply Hne.
      by apply (Hd k j q (Proc p Talking Outside)).
    + intros k q c _ _ _ Hc Ha. by exists c.
  - rewrite app_nil_r. destruct (look_section_run max_chat max_users _ p Hr) as (lm & lc & sc & ->).
    eexists _, _. split; [done|]. split; [done|]. eapply quiet_set; try done; try (by apply (vars_ok_same p)).
    + by apply with_sem_ok, with_sem_ok, H.
    + intros k q c _ _ _ Hc Ha. by exists c.
  - rewrite app_nil_r. destruct (Hsl j _ Hj eq_refl) as [H0 (c & Hc & Ha)]. cbn [client_idx vars] in H0, Hc.
    rewrite (leave_section_run _ p c Hr H0 Hc).
    eexists _, _. split; [done|]. split; [done|]. cbn [next_phase].
    assert (Hlt : (Z.to_nat (client_idx p) < length (clients r))%nat) by (by eapply lookup_lt_Some).
    assert (Hcl : length (c_name c) = 32%nat).
    { pose proof (ro_names _ (qt_room _ _ _ H)) as F. rewrite Forall_lookup in F. by apply (F _ _ Hc). }
    eapply quiet_set; try done; try (by apply (vars_ok_same p)).
    + apply with_sem_ok. apply (with_client_ok _ _ c); [done..|]. cbn.
      destruct (Z.eqb_spec (c_active c) 0); [done|lia].
    + intros k q d Hne Hk Hq Hdc Had. exists d. cbn. rewrite list_lookup_insert_ne; [done|].
      intros Heq. apply Hne. apply (Hd k j q (Proc p Talking Outside)); try done. cbn.
      destruct (Hsl k q Hk Hq) as [Hp _]. lia.
  - rewrite app_nil_r, report_section_run by done.
    eexists _, _. split; [done|]. split; [done|].
    eapply quiet_set; try done; try (by case_match; apply (vars_ok_same p)).
    + by apply with_sem_ok, with_sem_ok, H.
    + intros k q c _ _ _ Hc Ha. by exists c.
Qed.

Lemma set_message_sem r i m r' : set_message r i m = Done r' -> sem r' = sem r.
Proof. unfold set_message. intros H. obind_inv H. by injection H as <-. Qed.

Lemma set_client_sem r i c r' : set_client r i c = Done r' -> sem r' = sem r.
Proof. unfold set_client. intros H. obind_inv H. by injection H as <-. Qed.

(** No step touches the semaphore. *)
Ltac micro_sem :=
  let p := fresh "q" in intros [r p] r' p' H; cbn beta iota in H;
  repeat match type of H with
  | (if ?b then _ else _) = _ => destruct b
  | (_ ≫= _) = Done _ => obind_inv H
  end;
  injection H as <- <-; cbn;
  repeat match goal with
  | E : set_message _ _ _ = Done _ |- _ => apply set_message_sem in E; rewrite E; clear E
  | E : set_client _ _ _ = Done _ |- _ => apply set_client_sem in E; rewrite E; clear E
  end; done.

Definition keeps_sem (m : micro) : Prop := forall s r' p', m s = Done (r', p') -> sem r' = sem s.1.

Lemma enters_sem p phj full after msgs : enters max_chat max_users p phj full after msgs -> Forall keeps_sem full.
Proof.
  intros H. destruct H; repeat constructor; unfold keeps_sem; clear.
  all: cbv delta [join_find join_name join_enter say_pos say_name say_text say_count leave_flag leave_count
                  look_messages look_clients report]; micro_sem.
Qed.

(** Typing a line disturbs nothing. *)
Lemma quiet_typed r ps said0 i p phq text : quiet r ps said0 -> ps !! i = Some (Proc p phq Outside) ->
  length text = 256%nat -> terminated text -> quiet r (<[i := Proc (typed p text) phq Outside]> ps) said0.
Proof.
  intros H Hq Hl Ht. apply (quiet_set r ps said0 _ _ _ p phq); try done.
  - apply H.
  - apply H.
  - pose proof (qt_vars _ _ _ H) as F. rewrite Forall_lookup in F. destruct (F _ _ Hq). by split.
  - apply H.
  - intros ->. pose proof (qt_own _ _ _ H) as [Hsl Hd]. destruct (Hsl i _ Hq eq_refl) as [? ?].
    split_and!; try done. intros k s Hne Hk Hs Heq. apply Hne. by apply (Hd k i s (Proc p Talking Outside)).
  - intros k s c _ _ _ Hc Hac. by exists c.
Qed.

Lemma step_inv w w' : inv w -> step max_chat max_users w w' -> inv w'.
Proof.
  intros Hi Hs. destruct Hs as [w i q text Hq Ho Hl Ht|w i q ms after msgs Hq Ho Hsem He|w i q m ms after r' p' Hq Ha Hm|w i q after Hq Ha].
  - destruct Hi as [H|(j & Hb)].
    + left. destruct q as [p phq a]. cbn in *. subst a. by apply quiet_typed.
    + destruct Hb as (r0 & ps0 & said0 & p0 & p & phj & full & dn & todo & aft & msgs & H & Hj & Hps & Hsd & He & Hf & Hsec & Hz).
      assert (Hlt : (j < length ps0)%nat) by (by eapply lookup_lt_Some).
      rewrite Hps in Hq. destruct (decide (i = j)) as [->|Hne].
      { rewrite list_lookup_insert_eq in Hq by done. by injection Hq as <-. }
      rewrite list_lookup_insert_ne in Hq by done. destruct q as [pq phq a]. cbn in *. subst a.
      right. exists j, r0, (<[i := Proc (typed pq text) phq Outside]> ps0), said0, p0, p, phj, full, dn, todo, aft, msgs.
      cbn. rewrite Hps, list_lookup_insert_ne, list_insert_insert_ne by done. split_and!; try done.
      apply (quiet_typed r0 ps0 said0 i pq phq text); done.
  - destruct q as [p phq a]. cbn in *. subst a. destruct Hi as [H|(j & Hb)].
    + right. exists i, (room w), (procs w), (said w), p, p, phq, ms, [], ms, after, msgs.
      cbn. rewrite (qt_sem _ _ _ H). done.
    + destruct Hb as (? & ? & ? & ? & ? & ? & ? & ? & ? & ? & ? & ? & ? & ? & ? & ? & ? & ? & Hz). lia.
  - destruct Hi as [H|(j & Hb)].
    { pose proof (qt_outside _ _ _ H) as F. rewrite Forall_lookup in F. specialize (F _ _ Hq). congruence. }
    destruct Hb as (r0 & ps0 & said0 & p0 & p & phj & full & dn & todo & aft & msgs & H & Hj & Hps & Hsd & He & Hf & Hsec & Hz).
    assert (Hlt : (j < length ps0)%nat) by (by eapply lookup_lt_Some).
    rewrite Hps in Hq. destruct (decide (i = j)) as [->|Hne].
    2: { rewrite list_lookup_insert_ne in Hq by done. pose proof (qt_outside _ _ _ H) as F.
         rewrite Forall_lookup in F. specialize (F _ _ Hq). congruence. }
    rewrite list_lookup_insert_eq in Hq by done. injection Hq as <-. cbn in *. injection Ha as -> ->.
    right. exists j, r0, ps0, said0, p0, p', phj, full, (dn ++ [m]), ms, after, msgs. cbn.
    rewrite Hps, list_insert_insert_eq, <- app_assoc, section_app, Hsec. cbn. rewrite Hm. cbn.
    split_and!; try done. pose proof (enters_sem _ _ _ _ _ He) as F. subst full.
    apply Forall_app in F as [_ F]. apply Forall_cons in F as [F _]. rewrite (F _ _ _ Hm). done.
  - destruct Hi as [H|(j & Hb)].
    { pose proof (qt_outside _ _ _ H) as F. rewrite Forall_lookup in F. specialize (F _ _ Hq). congruence. }
    destruct Hb as (r0 & ps0 & said0 & p0 & p & phj & full & dn & todo & aft & msgs & H & Hj & Hps & Hsd & He & Hf & Hsec & Hz).
    assert (Hlt : (j < length ps0)%nat) by (by eapply lookup_lt_Some).
    rewrite Hps in Hq. destruct (decide (i = j)) as [->|Hne].
    2: { rewrite list_lookup_insert_ne in Hq by done. pose proof (qt_outside _ _ _ H) as F.
         rewrite Forall_lookup in F. specialize (F _ _ Hq). congruence. }
    rewrite list_lookup_insert_eq in Hq by done. injection Hq as <-. cbn in *. injection Ha as -> ->.
    left. rewrite app_nil_r in Hf. subst dn.
    destruct (section_quiet _ _ _ _ _ _ _ _ _ H Hj He) as (r' & p' & E & Es & Hq').
    rewrite E in Hsec. injection Hsec as -> ->. rewrite Hz, Hps, list_insert_insert_eq, Hsd. done.
Qed.

(** What the server's initialisation leaves, and threads that have not begun. *)
Record initial (w : world) : Prop := Initial {
  in_room : exists cs ms, room w = init_room cs ms /\ length cs = 10%nat /\ length ms = 50%nat /\
    Forall (fun c => length (c_name c) = 32%nat) cs /\ Forall fields_ok ms;
  in_procs : Forall (fun q => vars_ok (vars q) /\ at_ q = Outside /\ (ph q = Starting \/ ph q = Looking \/ ph q = Serving)) (procs w);
  in_said : said w = [] }.

Lemma initial_quiet w : initial w -> quiet (room w) (procs w) (said w).
Proof.
  intros [(cs & ms & -> & Hcs & Hms & Hn & Hf) Hp ->]. split; try done.
  - split; cbn; try done; try lia.
    + by rewrite length_fmap.
    + apply Forall_fmap. eapply Forall_impl; [exact Hn|]. intros c. cbn. by destruct (c_name c).
    + apply Forall_fmap, Forall_true. intros c. cbn. lia.
    + clear. induction cs as [|c cs IH]; [done|]. unfold active_slots in *. rewrite fmap_cons.
      rewrite filter_cons_False by (cbn; lia). done.
  - eapply Forall_impl; [exact Hp|]. cbn. tauto.
  - eapply Forall_impl; [exact Hp|]. cbn. tauto.
  - rewrite Forall_lookup in Hp. split.
    + intros k q Hk Hq. destruct (Hp k q Hk) as (_ & _ & [E|[E|E]]); congruence.
    + intros j k q s Hj Hk Hq _ _. destruct (Hp j q Hj) as (_ & _ & [E|[E|E]]); congruence.
Qed.

Lemma reachable_inv w0 w : initial w0 -> rtc (step max_chat max_users) w0 w -> inv w.
Proof.
  intros H0 Hr. assert (inv w0) as Hi by (left; by apply initial_quiet).
  clear H0. induction Hr as [|w0 w1 w Hs Hr IH]; [done|]. apply IH. by eapply step_inv.
Qed.

(** C3 The room is consistent whenever nobody is inside. After any interleaving of any
    number of clients and the server the semaphore is 1, the number of clients is the number of active
    slots, every talking client owns one of its own, all strings are terminated, and the
    ring holds exactly the last fifty messages in the order they were said. *)
Theorem room_consistent w0 w :
  initial w0 -> rtc (step max_chat max_users) w0 w -> Forall (fun q => at_ q = Outside) (procs w) ->
  sem (room w) = 1 /\ room_ok (room w) /\ own (room w) (procs w) /\
  history (room w) = last_n 50 (said w).
Proof.
  intros H0 Hr Ho. destruct (reachable_inv _ _ H0 Hr) as [[]|(j & Hb)]; [done|].
  destruct Hb as (r0 & ps0 & said0 & p0 & p & phj & full & dn & todo & aft & msgs & _ & Hj & Hps & _).
  exfalso. rewrite Hps, Forall_lookup in Ho.
  assert (Hlt : (j < length ps0)%nat) by (by eapply lookup_lt_Some).
  by specialize (Ho j _ (list_lookup_insert_eq _ _ _ Hlt)).
Qed.

(** A thread that is inside goes through the rest of its section and posts. *)
Lemma run_inside todo w i q after r' p' :
  procs w !! i = Some q -> at_ q = Inside todo after -> section todo (room w, vars q) = Done (r', p') ->
  nsteps (step max_chat max_users) (S (length todo)) w
    (World (with_sem r' (sem r' + 1)) (<[i := Proc p' (next_phase p' after) Outside]> (procs w)) (said w)).
Proof.
  revert w q. induction todo as [|m ms IH]; intros w q Hq Ha Hs; cbn in Hs.
  - injection Hs as <- <-. apply nsteps_once. by apply step_post.
  - destruct (m (room w, vars q)) as [[r1 p1]|u] eqn:Em; [|done]. cbn in Hs.
    eapply nsteps_l; [by eapply step_micro|].
    assert (Hlt : (i < length (procs w))%nat) by (by eapply lookup_lt_Some).
    specialize (IH (World r1 (<[i := Proc p1 (ph q) (Inside ms after)]> (procs w)) (said w)) (Proc p1 (ph q) (Inside ms after))).
    cbn in IH. rewrite list_insert_insert_eq in IH. apply IH; [by apply list_lookup_insert_eq|done|done].
Qed.

Lemma enters_length p phj full after msgs : enters max_chat max_users p phj full after msgs -> (length full <= 4)%nat.
Proof. destruct 1; cbn; lia. Qed.

(** Whoever is inside is alone, and the rest of its section has a defined result. *)
Lemma busy_inside j w : busy j w ->
  (exists q, procs w !! j = Some q /\ at_ q <> Outside) /\
  (forall i q, procs w !! i = Some q -> at_ q <> Outside -> i = j) /\
  forall q todo after, procs w !! j = Some q -> at_ q = Inside todo after ->
    (length todo <= 4)%nat /\ exists r' p', section todo (room w, vars q) = Done (r', p') /\ sem r' = 0.
Proof.
  intros (r0 & ps0 & said0 & p0 & p & phj & full & dn & todo & aft & msgs & H & Hj & Hps & Hsd & He & Hf & Hsec & Hz).
  assert (Hlt : (j < length ps0)%nat) by (by eapply lookup_lt_Some).
  assert (Hself : procs w !! j = Some (Proc p phj (Inside todo aft))) by (rewrite Hps; by apply list_lookup_insert_eq).
  split_and!; [by eexists|..].
  - intros i q Hi Hq. destruct (decide (i = j)) as [|Hne]; [done|]. exfalso. apply Hq.
    rewrite Hps, list_lookup_insert_ne in Hi by done. pose proof (qt_outside _ _ _ H) as F.
    rewrite Forall_lookup in F. by apply (F i q).
  - intros q ms after Hq Ha. rewrite Hself in Hq. injection Hq as <-. cbn in Ha. injection Ha as -> ->. split.
    + apply enters_length in He. rewrite Hf, length_app in He. lia.
    + destruct (section_quiet _ _ _ _ _ _ _ _ _ H Hj He) as (r' & p' & E & Es & _).
      rewrite Hf, section_app, Hsec in E. by exists r', p'.
Qed.

(** C17 As long as no thread is cancelled, the sections exclude each other, never go wrong and
    never block the room. At most one thread is inside. Whoever is inside needs nobody else to leave: as many steps as its
    section has left, each with a defined result, and the post take it outside, with the
    semaphore at 1 and every other thread where it was. So a thread that is outside and has
    a section to enter is inside at most six steps later, if it is its turn. *)
Theorem sections_exclusive w0 w :
  initial w0 -> rtc (step max_chat max_users) w0 w ->
  (forall i j q s, procs w !! i = Some q -> procs w !! j = Some s ->
     at_ q <> Outside -> at_ s <> Outside -> i = j) /\
  (forall i q todo after, procs w !! i = Some q -> at_ q = Inside todo after ->
     exists r' p', section todo (room w, vars q) = Done (r', p') /\
       nsteps (step max_chat max_users) (S (length todo)) w
         (World (with_sem r' 1) (<[i := Proc p' (next_phase p' after) Outside]> (procs w)) (said w))) /\
  (forall i q ms after msgs, procs w !! i = Some q -> at_ q = Outside ->
     enters max_chat max_users (vars q) (ph q) ms after msgs ->
     exists n w', (n <= 6)%nat /\ nsteps (step max_chat max_users) n w w' /\
       procs w' !! i = Some (Proc (vars q) (ph q) (Inside ms after)) /\ said w' = said w ++ msgs).
Proof.
  intros H0 Hr. assert (Henter : forall w' i q ms after msgs, procs w' !! i = Some q -> at_ q = Outside -> sem (room w') = 1 ->
    enters max_chat max_users (vars q) (ph q) ms after msgs ->
    exists w2, step max_chat max_users w' w2 /\ procs w2 !! i = Some (Proc (vars q) (ph q) (Inside ms after)) /\ said w2 = said w' ++ msgs).
  { intros w' i q ms after msgs Hq Ho Hs He. eexists. split; [eapply step_wait; [done|done|lia|done]|].
    cbn. split; [|done]. apply list_lookup_insert_eq. by eapply lookup_lt_Some. }
  destruct (reachable_inv _ _ H0 Hr) as [H|(j & Hb)].
  - pose proof (qt_outside _ _ _ H) as F. rewrite Forall_lookup in F. split_and!.
    + intros i j q s Hi _ Hq. destruct Hq. by apply (F i q).
    + intros i q todo after Hi Hq. specialize (F i q Hi). cbn in F. congruence.
    + intros i q ms after msgs Hi Ho He. destruct (Henter w i q ms after msgs Hi Ho (qt_sem _ _ _ H) He) as (w2 & Hw & Hp & Hsd).
      exists 1%nat, w2. split_and!; [lia|by apply nsteps_once|done|done].
  - destruct (busy_inside j w Hb) as ((s & Hs & Hin) & Hwho & Hrest).
    assert (Hleave : forall q todo after, procs w !! j = Some q -> at_ q = Inside todo after ->
      (length todo <= 4)%nat /\ exists r' p', section todo (room w, vars q) = Done (r', p') /\
        nsteps (step max_chat max_users) (S (length todo)) w
          (World (with_sem r' 1) (<[j := Proc p' (next_phase p' after) Outside]> (procs w)) (said w))).
    { intros q todo after Hq Ha. destruct (Hrest q todo after Hq Ha) as (Hl & r' & p' & E & Ez). split; [done|].
      exists r', p'. split; [done|]. pose proof (run_inside todo w j q after r' p' Hq Ha E) as Hn. by rewrite Ez in Hn. }
    split_and!.
    + intros i k q s' Hi Hk Hq Hs'. by rewrite (Hwho i q Hi Hq), (Hwho k s' Hk Hs').
    + intros i q todo after Hi Hq. assert (i = j) as -> by (eapply Hwho; [done|by rewrite Hq]).
      by destruct (Hleave q todo after Hi Hq).
    + intros i q ms after msgs Hi Ho He. destruct (at_ s) as [|todo aft] eqn:Ea; [done|].
      destruct (Hleave s todo aft Hs Ea) as (Hl & r' & p' & E & Hn).
      assert (i <> j) as Hne by (intros ->; congruence).
      destruct (Henter (World (with_sem r' 1) (<[j := Proc p' (next_phase p' aft) Outside]> (procs w)) (said w)) i q ms after msgs)
        as (w2 & Hw & Hp & Hsd); [by cbn; rewrite list_lookup_insert_ne|done|done|done|].
      exists (S (length todo) + 1)%nat, w2. split_and!; [lia| |done|done].
      eapply nsteps_trans; [exact Hn|by apply nsteps_once].
Qed.

(** [pthread_cancel] of thread [i]: it ends where it is, and posts nothing. *)
Definition cancelled (w : world) (i : nat) : world :=
  World (room w) (alter (fun q => Proc (vars q) Gone Outside) i (procs w)) (said w).

(** Nobody is inside, and nobody can enter. *)
Definition blocked (sd : list (list Z * list Z)) (w : world) : Prop :=
  sem (room w) = 0 /\ Forall (fun q => at_ q = Outside) (procs w) /\ said w = sd.

Lemma blocked_step sd w w' : blocked sd w -> step max_chat max_users w w' -> blocked sd w'.
Proof.
  intros (Hz & Ho & Hsd) Hs. rewrite Forall_lookup in Ho. destruct Hs as [w i q text Hq|w i q ms after msgs Hq _ Hsem _|w i q m ms after r' p' Hq Ha _|w i q after Hq Ha].
  - split_and!; [done| |done]. apply Forall_insert; [by rewrite Forall_lookup|done].
  - lia.
  - rewrite (Ho i q Hq) in Ha. done.
  - rewrite (Ho i q Hq) in Ha. done.
Qed.


(** A server that is started again while a client is in the room takes its slot away; when
    the client leaves, the counter is -1. *)
Lemma restart_miscounts r p c :
  room_ok r -> 0 <= client_idx p -> clients r !! Z.to_nat (client_idx p) = Some c ->
  exists r', section leave_section (init_room (clients r) (messages r), p) = Done (r', p) /\ client_count r' = -1.
Proof.
  intros H Hp Hc. pose proof (lookup_lt_Some _ _ _ Hc) as Hlt. unfold leave_section, section, leave_flag.
  destruct (znth_ok (clients (init_room (clients r) (messages r))) (client_idx p)) as (d & -> & _).
  { cbn [clients init_room]. rewrite length_fmap. lia. }
  cbn [mbind outcome_bind]. unfold set_client. rewrite zset_ok by (cbn [clients init_room]; rewrite length_fmap; lia).
  cbn [mbind outcome_bind]. by eexists.
Qed.

(** A full room stands still on every screen. Once fifty messages are there the counter
    that [receive_thread] compares does not change any more, so a client that has drawn
    them draws no later one, although the ring has moved on; and a window is filled from
    the oldest message, so the last ones are not drawn when it has fewer rows. *)
Theorem full_room_not_redrawn r p q :
  room_ok r -> vars_ok q -> msg_count r = 50 -> last_msg_count p = 50 ->
  last_client_count p = client_count r ->
  (exists r' q', section say_section (r, q) = Done (r', q') /\
     history r' = drop 1 (history r) ++ [cut q] /\
     section (look_section max_chat max_users) (r', p) = Done (r', p)) /\
  print_messages max_chat r = Done (take (Z.to_nat (Z.max 1 (max_chat - 1))) (row_of <$> history r)).
Proof.
  intros H Hq Hc Hp Hcl. split; [|by apply print_messages_spec].
  destruct (say_section_run r q H Hq) as (m & E & _ & _ & _ & Hcut).
  eexists _, _. split; [exact E|]. split.
  - rewrite history_said by done. rewrite Hcut. unfold last_n. rewrite length_app, history_length, Hc. cbn [length].
    rewrite drop_app_le by (rewrite history_length, Hc; cbn; lia). done.
  - unfold look_section, section, look_messages, look_clients, said_room. cbn [msg_count client_count].
    rewrite Hc, Hp. cbn [Z.ltb Z.compare Pos.compare Pos.compare_cont Z.eqb Pos.eqb negb mbind outcome_bind client_count].
    by rewrite Hcl, Z.eqb_refl.
Qed.

(** With ten clients no slot is free. *)
Lemma full_no_slot r : room_ok r -> MAX_CLIENTS <= client_count r -> find_from inactive 0 (clients r) = None.
Proof.
  intros H Hfull. apply find_from_None. pose proof (ro_count r H). pose proof (ro_clients r H).
  unfold MAX_CLIENTS in Hfull. unfold active_slots in *. apply Forall_forall. intros c Hc. unfold inactive.
  destruct (Z.eqb_spec (c_active c) 0) as [E|]; [|done]. exfalso.
  apply list_elem_of_split in Hc as (l1 & l2 & Hl). rewrite Hl in *. rewrite filter_app, filter_cons_False in * by lia.
  rewrite length_app in *. cbn [length] in *.
  pose proof (length_filter (fun c => c_active c <> 0) l1).
  pose proof (length_filter (fun c => c_active c <> 0) l2). lia.
Qed.

(** C36 The functions of the server do what the clients do inline: from a room in order
    [add_message], [add_client] and [remove_client] have the effect of the sections of
    the client, [add_client] because the counter reaches 10 exactly when no slot is free. *)
Theorem server_functions_agree r p :
  room_ok r -> vars_ok p ->
  fst <$> section say_section (r, p) = add_message r (client_name p) (input p) /\
  (fun s => (s.1, client_idx s.2)) <$> section join_section (r, p) = add_client r (client_name p) /\
  (forall c, 0 <= client_idx p < 10 -> clients r !! Z.to_nat (client_idx p) = Some c -> c_active c <> 0 ->
     fst <$> section leave_section (r, p) = remove_client r (client_idx p)).
Proof.
  intros H Hp. split_and!.
  - unfold say_section, section, add_message, say_pos.
    destruct (iadd (msg_start r) (msg_count r)) as [k|]; [|done]. cbn [mbind outcome_bind].
    unfold say_name. cbn [pos set_pos client_name].
    destruct (znth (messages r) (Z.rem k MAX_MESSAGES)) as [m|]; [|done]. cbn [mbind outcome_bind].
    destruct (strncpy_z (m_name m) (client_name p)) as [n|]; [|done]. cbn [mbind outcome_bind].
    destruct (set_message r _ _) as [r1|]; [|done]. cbn [mbind outcome_bind].
    unfold say_text. cbn [pos set_pos input].
    destruct (znth (messages r1) (Z.rem k MAX_MESSAGES)) as [m1|]; [|done]. cbn [mbind outcome_bind].
    destruct (strncpy_z (m_text m1) (input p)) as [t|]; [|done]. cbn [mbind outcome_bind].
    destruct (set_message r1 _ _) as [r2|]; [|done]. cbn [mbind outcome_bind].
    unfold say_count. destruct (msg_count r2 <? MAX_MESSAGES).
    + by destruct (iadd (msg_count r2) 1).
    + by destruct (iadd (msg_start r2) 1).
  - unfold add_client, join_section, section, join_find. cbn [mbind outcome_bind].
    destruct (Z.leb_spec MAX_CLIENTS (client_count r)) as [Hfull|].
    { by rewrite (full_no_slot r H Hfull). }
    destruct (find_from inactive 0 (clients r)) as [i|]; [|done].
    unfold join_name, join_enter. cbn [pos set_pos set_idx client_name].
    assert (Hi : forall A (a b : A), (if Z.of_nat i =? -1 then a else b) = b).
    { intros A a b. by destruct (Z.eqb_spec (Z.of_nat i) (-1)); [lia|]. }
    rewrite Hi. destruct (znth (clients r) (Z.of_nat i)) as [c|]; [|done]. cbn [mbind outcome_bind].
    destruct (strncpy_z (c_name c) (client_name p)) as [n|]; [|done]. cbn [mbind outcome_bind].
    destruct (set_client r _ _) as [r1|]; [|done]. cbn [mbind outcome_bind pos set_pos]. rewrite Hi.
    destruct (znth (clients r1) (Z.of_nat i)) as [c1|]; [|done]. cbn [mbind outcome_bind].
    destruct (set_client r1 _ _) as [r2|]; [|done]. cbn [mbind outcome_bind].
    by destruct (iadd (client_count r2) 1).
  - intros c Hi Hc Ha. rewrite (leave_section_run r p c H) by (done || lia).
    unfold remove_client, MAX_CLIENTS. destruct (Z.leb_spec 0 (client_idx p)); [|lia].
    destruct (Z.ltb_spec (client_idx p) 10); [|lia]. cbn [andb].
    rewrite (proj2 (znth_Done _ _ c)) by done. cbn [mbind outcome_bind].
    destruct (Z.eqb_spec (c_active c) 0); [done|]. cbn [negb]. unfold set_client.
    pose proof (lookup_lt_Some _ _ _ Hc). rewrite zset_ok by lia. cbn [mbind outcome_bind client_count].
    pose proof (ro_count r H). pose proof (active_le (clients r)). pose proof (ro_clients r H).
    unfold isub. by rewrite int_result_Done2 by (unfold_int; lia).
Qed.

End interleavings.

(** * A scheduler, and concrete runs *)

Section scheduler.
Variable max_chat max_users : Z.

(** The next step of thread [i]; a thread outside that talks says its input. *)
Definition sched (w : world) (i : nat) : option world :=
  q ← procs w !! i;
  match at_ q with
  | Outside =>
      if 0 <? sem (room w) then
        let go ms after msgs :=
          Some (World (with_sem (room w) (sem (room w) - 1))
                  (<[i := Proc (vars q) (ph q) (Inside ms after)]> (procs w)) (said w ++ msgs)) in
        match ph q with
        | Starting => go join_section Talking []
        | Talking => go say_section Talking [cut (vars q)]
        | Looking => go (look_section max_chat max_users) Looking []
        | Serving => go report_section Serving []
        | Gone => None
        end
      else None
  | Inside [] after =>
      Some (World (with_sem (room w) (sem (room w) + 1))
              (<[i := Proc (vars q) (next_phase (vars q) after) Outside]> (procs w)) (said w))
  | Inside (m :: ms) after =>
      match m (room w, vars q) with
      | Done (r', p') => Some (World r' (<[i := Proc p' (ph q) (Inside ms after)]> (procs w)) (said w))
      | Undef _ => None
      end
  end.

Fixpoint schedule (w : world) (order : list nat) : option world :=
  match order with [] => Some w | i :: rest => w' ← sched w i; schedule w' rest end.

Lemma sched_step w i w' : sched w i = Some w' -> step max_chat max_users w w'.
Proof.
  unfold sched. intros H. destruct (procs w !! i) as [q|] eqn:Hq; [|done]. cbn in H.
  destruct (at_ q) as [|[|m ms] after] eqn:Ha.
  - destruct (Z.ltb_spec 0 (sem (room w))); [|done].
    destruct (ph q) eqn:Hp; try done; injection H as <-; rewrite <- Hp; eapply step_wait; try done; rewrite Hp; constructor.
  - injection H as <-. by eapply step_post.
  - destruct (m (room w, vars q)) as [[r' p']|] eqn:Hm; [|done]. injection H as <-. by eapply step_micro.
Qed.

Lemma schedule_rtc w order w' : schedule w order = Some w' -> rtc (step max_chat max_users) w w'.
Proof.
  revert w. induction order as [|i order IH]; intros w; cbn; [by intros [= ->]|].
  destruct (sched w i) as [w1|] eqn:E; [|done]. cbn. intros H.
  eapply rtc_l; [by eapply sched_step|by apply IH].
Qed.
End scheduler.

Definition field (n : nat) (s : list Z) : list Z := s ++ replicate (n - length s) 0.

Definition demo_vars (nm line : list Z) : process :=
  Process (field 32 nm) (-1) (field 256 line) 0 0 0 [].

(** Two clients and the second thread of one of them. *)
Definition demo : world :=
  World (init_room (replicate 10 (Client (replicate 32 0) 0)) (replicate 50 (Message (replicate 32 0) (replicate 256 0))))
    [Proc (demo_vars (str "ann") (str "hello")) Starting Outside;
     Proc (demo_vars (str "bob") (str "hi")) Starting Outside;
     Proc (demo_vars (str "ann") []) Looking Outside] [].

Lemma vars_ok_field nm line : (length nm < 32)%nat -> (length line < 256)%nat -> vars_ok (demo_vars nm line).
Proof.
  intros. split; cbn [client_name input demo_vars]; unfold field.
  - rewrite length_app, length_replicate. lia.
  - apply elem_of_app. right. rewrite elem_of_replicate. lia.
  - rewrite length_app, length_replicate. lia.
  - apply elem_of_app. right. rewrite elem_of_replicate. lia.
Qed.

Lemma demo_initial : initial demo.
Proof.
  split; [eexists _, _; split; [done|]| |done].
  - split_and!; [done | done | by repeat constructor |]. apply Forall_replicate. done.
  - repeat constructor; cbn; auto; apply vars_ok_field; cbn; lia.
Qed.

(** Both join, and the second thread draws in between. *)
Definition demo_order : list nat := [0; 0; 0; 0; 0; 1; 1; 1; 1; 1; 0; 0; 0; 0; 0; 0; 2; 2; 2; 2; 1; 1; 1; 1; 1; 1]%nat.

(** What the run ends with. *)
Definition demo_end (w : world) : bool :=
  bool_decide (client_count (room w) = 2) &&
  forallb (fun q => match at_ q with Outside => true | _ => false end) (procs w) &&
  bool_decide ((screen <$> (vars <$> procs w) !! 2%nat) = Some [[str "[ann]: hello"]; [str "ann"; str "bob"]]) &&
  bool_decide (said w = [(str "ann", str "hello"); (str "bob", str "hi")]).

Lemma room_consistent_witness :
  exists w, schedule 20 20 demo demo_order = Some w /\
    client_count (room w) = 2 /\ (screen <$> (vars <$> procs w) !! 2%nat) = Some [[str "[ann]: hello"]; [str "ann"; str "bob"]] /\
    sem (room w) = 1 /\ history (room w) = [(str "ann", str "hello"); (str "bob", str "hi")].
Proof.
  assert (H : demo_end <$> schedule 20 20 demo demo_order = Some true) by (by vm_compute).
  destruct (schedule 20 20 demo demo_order) as [w|] eqn:E; [|done]. injection H as H.
  exists w. split; [done|]. unfold demo_end in H.
  rewrite !andb_true_iff, !bool_decide_eq_true in H. destruct H as [[[H1 H2] H3] H4].
  destruct (room_consistent 20 20 demo w demo_initial) as (Hs & _ & _ & Hh).
  - by eapply schedule_rtc.
  - apply Forall_forall. intros q Hq. rewrite forallb_forall in H2. apply list_elem_of_In in Hq.
    specialize (H2 q Hq). by destruct (at_ q).
  - split_and!; [exact H1 | exact H3 | exact Hs | by rewrite Hh, H4].
Defined.

(** After three steps the first client is inside, and the second gets in. *)
Lemma sections_exclusive_witness :
  exists w, schedule 20 20 demo [0; 0; 0]%nat = Some w /\ sem (room w) = 0 /\
    exists n w' q, (n <= 6)%nat /\ nsteps (step 20 20) n w w' /\ procs w' !! 1%nat = Some q /\ at_ q = Inside join_section Talking.
Proof.
  assert (H : (fun w => bool_decide (sem (room w) = 0) && match procs w !! 1%nat with Some (Proc _ Starting Outside) => true | _ => false end)
                <$> schedule 20 20 demo [0; 0; 0]%nat = Some true) by (by vm_compute).
  destruct (schedule 20 20 demo [0; 0; 0]%nat) as [w|] eqn:E; [|done]. injection H as H.
  apply andb_true_iff in H as [Hz H]. apply bool_decide_eq_true in Hz.
  exists w. split; [done|]. split; [done|].
  destruct (sections_exclusive 20 20 demo w demo_initial) as (_ & _ & Hp); [by eapply schedule_rtc|].
  destruct (procs w !! 1%nat) as [[p [] []]|] eqn:Eq; try done.
  destruct (Hp 1%nat (Proc p Starting Outside) join_section Talking [] Eq eq_refl (enter_join _ _ p)) as (n & w' & Hn & Hs & Hq & _).
  exists n, w', (Proc p Starting (Inside join_section Talking)). split_and!; [exact Hn|exact Hs|exact Hq|done].
Defined.

(** A room with fifty messages. *)
Definition full_room : chat_room_t :=
  Room 1 (replicate 10 (Client (replicate 32 0) 0)) 0
    ((fun i => Message (field 32 (str "ann")) (field 256 (print_d (Z.of_nat i)))) <$> seq 0 50) 0 50.

Lemma full_room_ok : room_ok full_room.
Proof.
  split; try done; try (apply (bool_decide_unpack _); by vm_compute).
  intros i m _ Hm. cbn [messages full_room] in Hm. apply list_elem_of_lookup_2 in Hm.
  apply list_elem_of_fmap in Hm as (k & -> & _). cbn [m_name m_text]. unfold field. split.
  - apply elem_of_app. right. rewrite elem_of_replicate. by vm_compute.
  - apply elem_of_app. right. rewrite elem_of_replicate. split; [done|].
    pose proof (print_d_length (Z.of_nat k)). lia.
Qed.

Lemma full_room_not_redrawn_witness :
  let p := Process (field 32 (str "bob")) 1 (field 256 []) 0 50 0 [] in
  (exists r' q', section say_section (full_room, demo_vars (str "ann") (str "new")) = Done (r', q') /\
     history r' = drop 1 (history full_room) ++ [(str "ann", str "new")] /\
     section (look_section 20 20) (r', p) = Done (r', p)) /\
  print_messages 20 full_room = Done (take 19 (row_of <$> history full_room)).
Proof.
  cbv zeta.
  apply (full_room_not_redrawn 20 20 full_room (Process (field 32 (str "bob")) 1 (field 256 []) 0 50 0 [])
           (demo_vars (str "ann") (str "new"))); try done.
  - apply full_room_ok.
  - apply vars_ok_field; cbn; lia.
Defined.

Lemma server_functions_agree_witness :
  fst <$> section say_section (full_room, demo_vars (str "ann") (str "new"))
    = add_message full_room (field 32 (str "ann")) (field 256 (str "new")).
Proof.
  apply (server_functions_agree full_room (demo_vars (str "ann") (str "new"))).
  - apply full_room_ok.
  - apply vars_ok_field; cbn; lia.
Defined.

