(* ===== verification/BoundedQueue.v ===== *)
(** The server with a pool of threads of
    src/hw16_sockets/p2_server_template/parallel_server_consumer-produser/server.c: the
    main thread accepts connections and pushes them into a bounded queue, ten workers pop
    and serve them.

    [put] and [pop] are the queue itself; [step] interleaves the threads with the mutex
    and the two condition variables, spurious wake-ups included. The addresses of
    the clients, which are only printed, are left out. *)

From stdpp Require Import relations.
From S2P Require Import Prelude CInt CStr Stdio Sys.

Definition PORT : Z := 12345.
Definition BACKLOG : Z := 50.
Definition BUFFER_SIZE : Z := 64.
Definition THREAD_POOL_SIZE : nat := 10.
Definition SOCK_STREAM : Z := 1.
Definition AF_INET : Z := 2.

(** * The queue *)

Record socket_queue_t := Queue { data : list Z; capacity : Z; front : Z; rear : Z; count : Z }.

(** [malloc] leaves the array indeterminate. *)
Definition queue_init (garbage : list Z) (cap : Z) : socket_queue_t :=
  Queue (take (Z.to_nat cap) garbage) cap 0 0 0.

(** What [queue_push] does once there is room, and [queue_pop] once there is something. *)
Definition put (q : socket_queue_t) (client_sock : Z) : outcome socket_queue_t :=
  d ← zset (data q) (rear q) client_sock;
  r ← iadd (rear q) 1;
  n ← iadd (count q) 1;
  Done (Queue d (capacity q) (front q) (Z.rem r (capacity q)) n).

Definition pop (q : socket_queue_t) : outcome (socket_queue_t * Z) :=
  client_sock ← znth (data q) (front q);
  f ← iadd (front q) 1;
  n ← isub (count q) 1;
  Done (Queue (data q) (capacity q) (Z.rem f (capacity q)) (rear q) n, client_sock).

(** * The threads *)

(** Where the main thread is: in [accept], or in [queue_push] of a socket, before the
    mutex, inside, waiting for [cond_nonfull], or signalled and without the mutex. *)
Inductive producer := Accepting | Locking (x : Z) | Holding (x : Z) | Waiting (x : Z) | Woken (x : Z).

(** A worker: in [queue_pop], or serving a client. *)
Inductive consumer := CLocking | CHolding | CWaiting | CWoken | Serving (x : Z).

Inductive who := Main | Worker (i : nat).

(** The state, with the sockets accepted, popped and served so far. *)
Record world := World {
  queue : socket_queue_t; owner : option who; main : producer; workers : list consumer;
  accepted : list Z; popped : list Z; served : list Z }.

(** [pthread_cond_signal(&cond_nonempty)]: some waiting worker wakes up, if there is one. *)
Inductive signal_nonempty (ws : list consumer) : list consumer -> Prop :=
  | wake_one i : ws !! i = Some CWaiting -> signal_nonempty ws (<[i := CWoken]> ws)
  | wake_none : Forall (fun c => c <> CWaiting) ws -> signal_nonempty ws ws.

(** [pthread_cond_signal(&cond_nonfull)]: only the main thread can wait for it. *)
Definition signal_nonfull (p : producer) : producer :=
  match p with Waiting x => Woken x | _ => p end.

(** The steps the threads make by themselves. *)
Inductive internal : world -> world -> Prop :=
  | main_lock w x :
      owner w = None -> main w = Locking x \/ main w = Woken x ->
      internal w (World (queue w) (Some Main) (Holding x) (workers w) (accepted w) (popped w) (served w))
  | main_wait w x :
      main w = Holding x -> count (queue w) = capacity (queue w) ->
      internal w (World (queue w) None (Waiting x) (workers w) (accepted w) (popped w) (served w))
  | main_push w x q ws :
      main w = Holding x -> count (queue w) <> capacity (queue w) ->
      put (queue w) x = Done q -> signal_nonempty (workers w) ws ->
      internal w (World q None Accepting ws (accepted w) (popped w) (served w))
  | worker_lock w i c :
      owner w = None -> workers w !! i = Some c -> c = CLocking \/ c = CWoken ->
      internal w (World (queue w) (Some (Worker i)) (main w) (<[i := CHolding]> (workers w)) (accepted w) (popped w) (served w))
  | worker_wait w i :
      workers w !! i = Some CHolding -> count (queue w) = 0 ->
      internal w (World (queue w) None (main w) (<[i := CWaiting]> (workers w)) (accepted w) (popped w) (served w))
  | worker_pop w i q x :
      workers w !! i = Some CHolding -> count (queue w) <> 0 -> pop (queue w) = Done (q, x) ->
      internal w (World q None (signal_nonfull (main w)) (<[i := Serving x]> (workers w)) (accepted w) (popped w ++ [x]) (served w))
  (* [handle_client], when the socket is one *)
  | worker_serve w i x :
      workers w !! i = Some (Serving x) ->
      internal w (World (queue w) (owner w) (main w) (<[i := CLocking]> (workers w)) (accepted w)
                    (popped w) (served w ++ if 0 <=? x then [x] else [])).

(** A new connection, and the wake-ups POSIX allows without a signal. *)
Inductive external : world -> world -> Prop :=
  | accept w x :
      main w = Accepting -> 0 <= x ->
      external w (World (queue w) (owner w) (Locking x) (workers w) (accepted w ++ [x]) (popped w) (served w))
  | main_spurious w x :
      main w = Waiting x ->
      external w (World (queue w) (owner w) (Woken x) (workers w) (accepted w) (popped w) (served w))
  | worker_spurious w i :
      workers w !! i = Some CWaiting ->
      external w (World (queue w) (owner w) (main w) (<[i := CWoken]> (workers w)) (accepted w) (popped w) (served w)).

Definition step (w w' : world) : Prop := internal w w' \/ external w w'.

(** After [queue_init(&client_queue, 16)] and the creation of the threads. *)
Definition start (garbage : list Z) : world :=
  World (queue_init garbage 16) None Accepting (replicate THREAD_POOL_SIZE CLocking) [] [] [].

(** * The threads' calls *)

(** [stamp] is what [strftime] wrote. *)
Definition handle_client (stamp : list Z) (client_sock : Z) : prog unit :=
  sys_ c_time;;
  n ← of_outcome (strlen stamp);
  sys_ (c_send client_sock (take (Z.to_nat n) stamp));;
  sys_ (c_close client_sock).

(** One round of [worker_thread] with the socket [queue_pop] returned. *)
Definition worker_round (stamp : list Z) (client_sock : Z) : prog unit :=
  if 0 <=? client_sock then handle_client stamp client_sock else Ret tt.

(** [main] up to its loop: the socket it listens on. *)
Definition setup : prog Z :=
  foreach (seq 0 THREAD_POOL_SIZE) (fun _ _ =>
    r ← sys c_thread_create;
    if negb (r =? 0) then sys_ (c_perror "prthread_create");; exit 1 else Ret tt) tt;;
  server_sock ← sys (c_socket AF_INET SOCK_STREAM 0);
  if server_sock <? 0 then sys_ (c_perror "socket");; exit 1
  else
    sys_ (c_setsockopt server_sock 1 2);;
    b ← sys (c_bind server_sock None);
    if b <? 0 then sys_ (c_perror "bind");; sys_ (c_close server_sock);; exit 1
    else
      l ← sys (c_listen server_sock BACKLOG);
      if l <? 0 then sys_ (c_perror "listen");; sys_ (c_close server_sock);; exit 1
      else sys_ (c_print "Server with thread pool listening on port %d\n" [print_d PORT]);; Ret server_sock.

(** One round of the loop of [main]: the socket it pushes, if any. *)
Definition accept_round (server_sock : Z) : prog (option Z) :=
  client_sock ← sys (c_accept server_sock);
  if client_sock <? 0 then sys_ (c_perror "accept");; Ret None
  else sys_ (c_print "Accepted connection from %s:%d\n" []);; Ret (Some client_sock).

(** * The queue is a FIFO *)

Record queue_ok (q : socket_queue_t) : Prop := QueueOk {
  qo_cap : 0 < capacity q < 2 ^ 30;
  qo_data : Z.of_nat (length (data q)) = capacity q;
  qo_front : 0 <= front q < capacity q;
  qo_count : 0 <= count q <= capacity q;
  qo_rear : rear q = (front q + count q) mod capacity q }.

Definition elem (d : list Z) (k : Z) : Z := match d !! Z.to_nat k with Some x => x | None => 0 end.

(** The sockets in the queue, first in first. *)
Definition contents (q : socket_queue_t) : list Z :=
  (fun i => elem (data q) ((front q + i) mod capacity q)) <$> seqZ 0 (count q).

Lemma mod_shift a i c : 0 < c -> ((a + 1) mod c + i) mod c = (a + (1 + i)) mod c.
Proof. intros. rewrite Zplus_mod_idemp_l. by replace (a + (1 + i)) with (a + 1 + i) by lia. Qed.

(** Two offsets below the capacity name the same cell only when they are equal. *)
Lemma mod_inj a i j c : 0 < c -> 0 <= i < c -> 0 <= j < c -> (a + i) mod c = (a + j) mod c -> i = j.
Proof.
  intros Hc Hi Hj H.
  assert (E : (i - j) mod c = 0).
  { replace (i - j) with ((a + i) - (a + j)) by ring. rewrite Zminus_mod, H, Z.sub_diag. done. }
  apply Z.mod_divide in E as [k Hk]; [|lia]. assert (k = 0) by nia. lia.
Qed.

Lemma elem_insert d k j x : 0 <= k < Z.of_nat (length d) -> 0 <= j ->
  elem (<[Z.to_nat k := x]> d) j = if decide (j = k) then x else elem d j.
Proof.
  intros Hk Hj. unfold elem. case_decide as E.
  - subst. by rewrite list_lookup_insert_eq by lia.
  - by rewrite list_lookup_insert_ne by lia.
Qed.

Lemma put_spec q x : queue_ok q -> count q < capacity q ->
  exists q', put q x = Done q' /\ queue_ok q' /\ capacity q' = capacity q /\
    count q' = count q + 1 /\ contents q' = contents q ++ [x].
Proof.
  intros [Hc Hd Hf Hn Hr] Hlt. unfold put.
  assert (Hrr : 0 <= rear q < capacity q) by (rewrite Hr; apply Z.mod_pos_bound; lia).
  rewrite zset_ok by lia. cbn [mbind outcome_bind]. unfold iadd.
  rewrite !int_result_Done2 by (unfold_int; lia). cbn [mbind outcome_bind].
  rewrite Z.rem_mod_nonneg by lia. eexists. split; [done|].
  split; [|split; [done|split; [done|]]].
  - split; cbn; try lia; [by rewrite length_insert|]. rewrite Hr, Zplus_mod_idemp_l. f_equal. lia.
  - unfold contents. cbn. rewrite seqZ_app by lia. rewrite fmap_app. f_equal.
    + apply list_fmap_ext. intros k i Hi. apply lookup_seqZ in Hi as [-> Hk].
      rewrite elem_insert by (try apply Z.mod_pos_bound; lia). case_decide as E; [|done].
      rewrite Hr in E. apply mod_inj in E; lia.
    + rewrite seqZ_cons, seqZ_nil, fmap_cons, fmap_nil by lia. f_equal.
      rewrite Z.add_0_l, <- Hr, elem_insert by lia. by rewrite decide_True.
Qed.

Lemma pop_spec q : queue_ok q -> 0 < count q ->
  exists q' x, pop q = Done (q', x) /\ queue_ok q' /\ capacity q' = capacity q /\
    count q' = count q - 1 /\ contents q = x :: contents q'.
Proof.
  intros [Hc Hd Hf Hn Hr] Hlt. unfold pop.
  destruct (znth_ok (data q) (front q)) as (x & -> & Hx); [lia|]. cbn [mbind outcome_bind]. unfold iadd, isub.
  rewrite !int_result_Done2 by (unfold_int; lia). cbn [mbind outcome_bind].
  rewrite Z.rem_mod_nonneg by lia. eexists _, x. split; [done|]. split; [|split; [done|split; [done|]]].
  - split; cbn; try lia.
    + apply Z.mod_pos_bound. lia.
    + rewrite mod_shift by lia. rewrite Hr. f_equal. lia.
  - unfold contents. cbn [data capacity front count]. rewrite (seqZ_cons 0 (count q)), fmap_cons by lia. f_equal.
    + rewrite Z.add_0_r, Z.mod_small by lia. unfold elem. by rewrite Hx.
    + rewrite <- Z.sub_1_r. rewrite <- (fmap_add_seqZ 1 0), <- list_fmap_compose.
      apply list_fmap_ext. intros k i Hi. unfold compose. by rewrite mod_shift by lia.
Qed.

(** * The invariant *)

(** The socket [main] has not pushed yet, and those the workers are serving. *)
Definition pending (p : producer) : list Z :=
  match p with Accepting => [] | Locking x | Holding x | Waiting x | Woken x => [x] end.
Definition serving (ws : list consumer) : list Z :=
  flat_map (fun c => match c with Serving x => [x] | _ => [] end) ws.

#[export] Instance consumer_eq_dec : EqDecision consumer.
Proof. solve_decision. Defined.

Definition awake (ws : list consumer) : nat := length (filter (fun c => c <> CWaiting) ws).

Record inv (w : world) : Prop := Inv {
  iv_queue : queue_ok (queue w);
  iv_workers : (0 < length (workers w))%nat;
  iv_accepted : accepted w = popped w ++ contents (queue w) ++ pending (main w);
  iv_popped : popped w ≡ₚ served w ++ serving (workers w);
  iv_sockets : Forall (fun x => 0 <= x) (accepted w);
  iv_main : owner w = Some Main <-> exists x, main w = Holding x;
  iv_worker : forall i, owner w = Some (Worker i) <-> workers w !! i = Some CHolding;
  iv_waiting : CWaiting ∈ workers w -> count (queue w) <= Z.of_nat (awake (workers w));
  iv_full : forall x, main w = Waiting x -> count (queue w) = capacity (queue w) }.

Lemma serving_insert ws i c c' : ws !! i = Some c ->
  serving (<[i := c']> ws) ++ serving [c] ≡ₚ serving ws ++ serving [c'].
Proof.
  intros Hi. rewrite insert_take_drop by (by eapply lookup_lt_Some).
  rewrite <- (take_drop_middle ws i c Hi) at 3. unfold serving. rewrite !flat_map_app. cbn [flat_map].
  rewrite !app_nil_r. solve_Permutation.
Qed.

Lemma awake_insert ws i c c' : ws !! i = Some c ->
  (awake (<[i := c']> ws) + (if decide (c = CWaiting) then 0 else 1)
    = awake ws + (if decide (c' = CWaiting) then 0 else 1))%nat.
Proof.
  revert i. unfold awake. induction ws as [|d ws IH]; intros i Hi; [by rewrite lookup_nil in Hi|].
  destruct i as [|i]; cbn in Hi; [injection Hi as ->|].
  - change (<[0%nat := c']> (c :: ws)) with (c' :: ws).
    rewrite !filter_cons. repeat case_decide; cbn [length]; try lia; naive_solver.
  - change (<[S i := c']> (d :: ws)) with (d :: <[i := c']> ws).
    rewrite !filter_cons. specialize (IH i Hi). destruct (decide (d <> CWaiting)); cbn [length]; lia.
Qed.

Lemma waiting_insert (ws : list consumer) (i : nat) c' : c' <> CWaiting -> CWaiting ∈ <[i := c']> ws -> CWaiting ∈ ws.
Proof.
  intros Hc [k Hk]%list_elem_of_lookup. apply list_elem_of_lookup. exists k.
  destruct (decide (i = k)) as [->|Hne]; [|by rewrite list_lookup_insert_ne in Hk].
  destruct (decide (k < length ws)%nat).
  - rewrite list_lookup_insert_eq in Hk by done. congruence.
  - rewrite list_insert_ge in Hk by lia. done.
Qed.

(** One worker moves on; the queue, the socket of [main] and the wake-ups are given. *)
Lemma inv_worker_move w i c c' q o p pop' srv :
  inv w -> workers w !! i = Some c -> queue_ok q ->
  accepted w = pop' ++ contents q ++ pending p ->
  pop' ++ serving [c] ≡ₚ popped w ++ srv ++ serving [c'] ->
  (o = Some Main <-> exists x, p = Holding x) ->
  (forall k, o = Some (Worker k) <-> <[i := c']> (workers w) !! k = Some CHolding) ->
  (CWaiting ∈ <[i := c']> (workers w) -> count q <= Z.of_nat (awake (<[i := c']> (workers w)))) ->
  (forall x, p = Waiting x -> count q = capacity q) ->
  inv (World q o p (<[i := c']> (workers w)) (accepted w) pop' (served w ++ srv)).
Proof.
  intros [] Hi Hq Ha Hp Hm Hw Hwait Hfull. split; cbn; try done; [by rewrite length_insert|].
  pose proof (serving_insert (workers w) i c c' Hi) as Hs.
  apply (Permutation_app_inv_r (serving [c])). rewrite Hp, iv_popped0, <- !app_assoc, Hs. solve_Permutation.
Qed.

(** Who holds the mutex, after a change of one worker. *)
Lemma owner_insert (ws : list consumer) (i : nat) c' (k : nat) :
  (i < length ws)%nat ->
  (<[i := c']> ws !! k = Some CHolding) <-> (k = i /\ c' = CHolding) \/ (k <> i /\ ws !! k = Some CHolding).
Proof.
  intros Hi. destruct (decide (k = i)) as [->|Hne].
  - rewrite list_lookup_insert_eq by done. naive_solver.
  - rewrite list_lookup_insert_ne by done. naive_solver.
Qed.

Lemma inv_step w w' : inv w -> step w w' -> inv w'.
Proof.
  intros H Hs. pose proof H as [Hq Hw Ha Hp Hx Hm Hwk Hwt Hf]. destruct Hs as [Hs|Hs].
  - destruct Hs as [w x Ho Hl|w x Hmx Hc|w x q ws Hmx Hc Hput Hsig|w i c Ho Hi Hc|w i Hi Hc|w i q x Hi Hc Hpop|w i x Hi].
    + split; cbn; try done.
      * destruct Hl as [E|E]; rewrite E in Ha; done.
      * naive_solver.
      * intros k. split; [done|]. intros Hk%Hwk. congruence.
    + assert (Ho : owner w = Some Main) by (apply Hm; eauto).
      split; cbn; try done.
      * by rewrite Hmx in Ha.
      * naive_solver.
      * intros k. split; [done|]. intros Hk%Hwk. congruence.
    + assert (Ho : owner w = Some Main) by (apply Hm; eauto).
      destruct (put_spec (queue w) x Hq) as (q' & E & Hq' & Hcap & Hn & Hcont); [destruct Hq; lia|].
      rewrite Hput in E. injection E as <-.
      assert (Hhold : forall k, workers w !! k <> Some CHolding) by (intros k Hk%Hwk; congruence).
      destruct Hsig as [i Hi|Hnone].
      * apply (inv_worker_move w i CWaiting CWoken q None Accepting (popped w) []) in H; try done.
        -- cbn in H. by rewrite app_nil_r in H.
        -- rewrite Ha, Hmx, Hcont. cbn. by rewrite app_nil_r.
        -- naive_solver.
        -- intros k. split; [done|]. intros Hk. rewrite owner_insert in Hk by (by eapply lookup_lt_Some). naive_solver.
        -- intros _. pose proof (awake_insert _ _ _ CWoken Hi) as Hk. cbn in Hk.
           assert (CWaiting ∈ workers w) by (by eapply list_elem_of_lookup_2). specialize (Hwt ltac:(done)).
           repeat case_decide; try done. lia.
      * split; cbn; try done.
        -- rewrite Ha, Hmx, Hcont. cbn. by rewrite app_nil_r.
        -- naive_solver.
        -- intros k. split; [done|]. intros Hk. by destruct (Hhold k).
        -- intros Hin. rewrite Forall_forall in Hnone. by destruct (Hnone _ Hin).
    + assert (Hcw : c <> CWaiting) by (by destruct Hc; subst).
      apply (inv_worker_move w i c CHolding (queue w) (Some (Worker i)) (main w) (popped w) []) in H; try done.
      * cbn in H. by rewrite app_nil_r in H.
      * by destruct Hc; subst.
      * naive_solver.
      * intros k. rewrite owner_insert by (by eapply lookup_lt_Some). specialize (Hwk k). naive_solver.
      * intros Hin%waiting_insert; [|done]. pose proof (awake_insert _ _ _ CHolding Hi) as Hk.
        repeat case_decide; try done. specialize (Hwt Hin). lia.
    + assert (Ho : owner w = Some (Worker i)) by (by apply Hwk).
      apply (inv_worker_move w i CHolding CWaiting (queue w) None (main w) (popped w) []) in H; try done.
      * cbn in H. by rewrite app_nil_r in H.
      * rewrite <- Hm. naive_solver.
      * intros k. rewrite owner_insert by (by eapply lookup_lt_Some). specialize (Hwk k). naive_solver.
      * rewrite Hc. lia.
    + assert (Ho : owner w = Some (Worker i)) by (by apply Hwk).
      destruct (pop_spec (queue w) Hq) as (q' & y & E & Hq' & Hcap & Hn & Hcont); [destruct Hq; lia|].
      rewrite Hpop in E. injection E as <- <-.
      assert (Hpend : pending (signal_nonfull (main w)) = pending (main w)) by (by destruct (main w)).
      apply (inv_worker_move w i CHolding (Serving x) q None (signal_nonfull (main w)) (popped w ++ [x]) []) in H; try done.
      * cbn in H. by rewrite app_nil_r in H.
      * rewrite Hpend, Ha, Hcont, <- app_assoc. done.
      * cbn. by rewrite app_nil_r.
      * destruct (main w); cbn in *; naive_solver.
      * intros k. rewrite owner_insert by (by eapply lookup_lt_Some). specialize (Hwk k). naive_solver.
      * intros Hin%waiting_insert; [|done]. pose proof (awake_insert _ _ _ (Serving x) Hi) as Hk.
        repeat case_decide; try done. specialize (Hwt Hin). lia.
      * intros z. by destruct (main w).
    + assert (H0 : 0 <= x).
      { rewrite Forall_forall in Hx. apply Hx. rewrite Ha. apply elem_of_app. left. rewrite Hp.
        apply elem_of_app. right. unfold serving. apply list_elem_of_In, in_flat_map.
        exists (Serving x). split; [|by left]. by apply list_elem_of_In, list_elem_of_lookup_2 with i. }
      destruct (Z.leb_spec 0 x); [|lia].
      apply (inv_worker_move w i (Serving x) CLocking (queue w) (owner w) (main w) (popped w) [x]) in H; try done.
      * intros k. rewrite owner_insert by (by eapply lookup_lt_Some). specialize (Hwk k). naive_solver.
      * intros Hin%waiting_insert; [|done]. pose proof (awake_insert _ _ _ CLocking Hi) as Hk.
        repeat case_decide; try done. specialize (Hwt Hin). lia.
  - destruct Hs as [w x Hmx H0|w x Hmx|w i Hi].
    + split; cbn; try done.
      * rewrite Ha, Hmx. cbn. rewrite app_nil_r. by rewrite <- app_assoc.
      * apply Forall_app. split; [done|]. by constructor.
      * rewrite Hm, Hmx. naive_solver.
    + split; cbn; try done.
      * by rewrite Hmx in Ha.
      * rewrite Hm, Hmx. naive_solver.
    + apply (inv_worker_move w i CWaiting CWoken (queue w) (owner w) (main w) (popped w) []) in H; try done.
      * cbn in H. by rewrite app_nil_r in H.
      * intros k. rewrite owner_insert by (by eapply lookup_lt_Some). specialize (Hwk k). naive_solver.
      * intros Hin%waiting_insert; [|done]. pose proof (awake_insert _ _ _ CWoken Hi) as Hk.
        repeat case_decide; try done. specialize (Hwt Hin). lia.
Qed.

Lemma start_inv garbage : (16 <= length garbage)%nat -> inv (start garbage).
Proof.
  intros Hg. split; try done.
  - split; cbn [queue start queue_init data capacity front rear count]; try done; try lia.
    rewrite length_take. lia.
  - cbn. lia.
  - cbn. split; [done|]. by intros [x ?].
  - intros i. split; [done|]. intros Hi. apply list_elem_of_lookup_2, elem_of_replicate in Hi. by destruct Hi.
Qed.

Lemma pool_reachable garbage w : (16 <= length garbage)%nat -> rtc step (start garbage) w -> inv w.
Proof.
  intros Hg Hr. pose proof (start_inv garbage Hg) as H. clear Hg.
  induction Hr as [|w0 w1 w Hs Hr IH]; [done|]. apply IH. by eapply inv_step.
Qed.

(** C19 Every accepted connection goes through the queue once and in order. In every
    reachable state the sockets accepted are those popped, then those in the queue, then
    the one being pushed; those popped are, in some order, the ones served and the ones
    being served; the queue never holds more than it has room for, and the mutex has at
    most one holder. *)
Theorem connections_in_order garbage w :
  (16 <= length garbage)%nat -> rtc step (start garbage) w ->
  queue_ok (queue w) /\
  accepted w = popped w ++ contents (queue w) ++ pending (main w) /\
  popped w ≡ₚ served w ++ serving (workers w) /\
  (forall i j, workers w !! i = Some CHolding -> workers w !! j = Some CHolding -> i = j) /\
  (forall i x, workers w !! i = Some CHolding -> main w <> Holding x).
Proof.
  intros Hg Hr. destruct (pool_reachable garbage w Hg Hr) as [? ? ? ? ? Hm Hw ? ?]. split_and!; try done.
  - intros i j Hi%Hw Hj%Hw. congruence.
  - intros i x Hi%Hw Hx. assert (owner w = Some Main) by (apply Hm; eauto). congruence.
Qed.

(** ** The pool comes to rest *)

Definition consumer_rank (c : consumer) : Z :=
  match c with Serving _ => 5 | CLocking => 4 | CWoken => 3 | CHolding => 2 | CWaiting => 0 end.
Definition producer_rank (p : producer) : Z :=
  match p with Accepting => 0 | Locking _ => 23 | Woken _ => 23 | Holding _ => 22 | Waiting _ => 20 end.
Fixpoint ranks (ws : list consumer) : Z :=
  match ws with [] => 0 | c :: ws' => consumer_rank c + ranks ws' end.

(** How many steps the threads can still make by themselves. *)
Definition measure (w : world) : Z := producer_rank (main w) + ranks (workers w) + 10 * count (queue w).

Lemma ranks_insert ws i c c' : ws !! i = Some c ->
  ranks (<[i := c']> ws) = ranks ws - consumer_rank c + consumer_rank c'.
Proof.
  revert i. induction ws as [|d ws IH]; intros i Hi; [by rewrite lookup_nil in Hi|].
  destruct i as [|i]; cbn in Hi; [injection Hi as ->|].
  - change (<[0%nat := c']> (c :: ws)) with (c' :: ws). cbn. lia.
  - change (<[S i := c']> (d :: ws)) with (d :: <[i := c']> ws). cbn. rewrite (IH i Hi). lia.
Qed.

Lemma ranks_nonneg ws : 0 <= ranks ws.
Proof. induction ws as [|c ws IH]; cbn; [lia|]. destruct c; cbn; lia. Qed.

Lemma measure_nonneg w : inv w -> 0 <= measure w.
Proof.
  intros H. unfold measure. pose proof (ranks_nonneg (workers w)). destruct (qo_count _ (iv_queue _ H)).
  destruct (main w); cbn; lia.
Qed.

Lemma put_count q x q' : put q x = Done q' -> count q' = count q + 1.
Proof.
  unfold put. intros H. do 3 obind_inv H. injection H as <-. unfold iadd in *.
  by apply int_result_Done in Ha1 as [-> _].
Qed.

Lemma pop_count q q' x : pop q = Done (q', x) -> count q' = count q - 1.
Proof.
  unfold pop. intros H. do 3 obind_inv H. injection H as <- <-. unfold isub in *.
  by apply int_result_Done in Ha1 as [-> _].
Qed.

Lemma internal_measure w w' : internal w w' -> measure w' + 1 <= measure w.
Proof.
  intros Hs. unfold measure.
  destruct Hs as [w x Ho Hl|w x Hmx Hc|w x q ws Hmx Hc Hput Hsig|w i c Ho Hi Hc|w i Hi Hc|w i q x Hi Hc Hpop|w i x Hi];
    cbn [main workers queue].
  - destruct Hl as [-> | ->]; cbn; lia.
  - rewrite Hmx. cbn. lia.
  - rewrite Hmx, (put_count _ _ _ Hput). destruct Hsig as [i Hi|_]; [rewrite (ranks_insert _ _ _ _ Hi)|]; cbn; lia.
  - rewrite (ranks_insert _ _ _ _ Hi). destruct Hc as [-> | ->]; cbn; lia.
  - rewrite (ranks_insert _ _ _ _ Hi). cbn. lia.
  - rewrite (ranks_insert _ _ _ _ Hi), (pop_count _ _ _ Hpop). destruct (main w); cbn; lia.
  - rewrite (ranks_insert _ _ _ _ Hi). cbn. lia.
Qed.

Lemma internal_accepted w w' : internal w w' -> accepted w' = accepted w.
Proof. by intros []. Qed.

(** At rest every worker waits, the queue is empty and [main] is in [accept]. *)
Lemma rest_state w : inv w -> (forall w', ~ internal w w') ->
  Forall (fun c => c = CWaiting) (workers w) /\ contents (queue w) = [] /\ main w = Accepting.
Proof.
  intros H Hrest. pose proof H as [Hq Hw Ha Hp Hx Hm Hwk Hwt Hf].
  assert (Ho : owner w = None).
  { destruct (owner w) as [[|i]|] eqn:Ho; [| |done]; exfalso.
    - destruct (proj1 Hm eq_refl) as [x Hmx]. destruct (decide (count (queue w) = capacity (queue w))) as [E|E].
      + eapply Hrest. by eapply main_wait.
      + destruct (put_spec (queue w) x Hq) as (q' & Eq & _); [destruct Hq; lia|].
        destruct (decide (Exists (fun c => c = CWaiting) (workers w))) as [Hex|Hex].
        * apply Exists_exists in Hex as (c & Hc & ->). apply list_elem_of_lookup in Hc as [i Hi].
          eapply Hrest. eapply main_push; [done..|]. by apply wake_one.
        * eapply Hrest. eapply main_push; [done..|]. apply wake_none.
          apply Forall_forall. intros c Hc ->. apply Hex, Exists_exists. eauto.
    - pose proof (proj1 (Hwk i) eq_refl) as Hi. destruct (decide (count (queue w) = 0)) as [E|E].
      + eapply Hrest. by eapply worker_wait.
      + destruct (pop_spec (queue w) Hq) as (q' & x & Eq & _); [destruct Hq; lia|].
        eapply Hrest. by eapply worker_pop. }
  assert (Hall : Forall (fun c => c = CWaiting) (workers w)).
  { apply Forall_lookup. intros i c Hi. destruct c as [| | | |x]; [exfalso..|done|exfalso|exfalso].
    - eapply Hrest. eapply worker_lock; eauto.
    - apply Hwk in Hi. congruence.
    - eapply Hrest. eapply worker_lock; eauto.
    - eapply Hrest. by eapply worker_serve. }
  split; [done|].
  assert (Hc : count (queue w) = 0).
  { assert (CWaiting ∈ workers w) as Hin.
    { destruct (workers w) as [|c ws]; [cbn in Hw; lia|]. apply Forall_cons in Hall as [-> _]. left. }
    specialize (Hwt Hin). assert (awake (workers w) = 0%nat) as E.
    { unfold awake. clear -Hall. induction Hall as [|c ws Hc Hall IH]; [done|].
      rewrite filter_cons_False; [done|]. by intros ?. }
    destruct (qo_count _ Hq). lia. }
  split; [unfold contents; by rewrite Hc|].
  destruct (main w) as [|x|x|x|x] eqn:Hmw; [done|exfalso..].
  - eapply Hrest. eapply main_lock; eauto.
  - assert (owner w = Some Main) by (apply Hm; eauto). congruence.
  - specialize (Hf x eq_refl). pose proof (qo_cap _ Hq). lia.
  - eapply Hrest. eapply main_lock; eauto.
Qed.

(** C6 No wake-up is lost. From every reachable state the threads can only make a bounded
    number of steps without a new connection or a spurious wake-up, and when none is left
    every accepted connection has been served and all the workers wait on an empty queue. *)
Theorem pool_serves_all garbage w :
  (16 <= length garbage)%nat -> rtc step (start garbage) w ->
  (forall n w', nsteps internal n w w' -> Z.of_nat n <= measure w) /\
  (forall w', rtc internal w w' -> (forall w'', ~ internal w' w'') ->
     served w' ≡ₚ accepted w /\ contents (queue w') = [] /\
     Forall (fun c => c = CWaiting) (workers w') /\ main w' = Accepting).
Proof.
  intros Hg Hr. pose proof (pool_reachable garbage w Hg Hr) as H. clear Hr Hg. split.
  - intros n w' Hn. cut (measure w' + Z.of_nat n <= measure w /\ inv w').
    { intros [Hle Hi]. pose proof (measure_nonneg w' Hi). lia. }
    induction Hn as [w|n w w1 w' Hs Hn IH]; [split; [lia|done]|].
    destruct IH as [IH Hi]; [apply (inv_step w); [done|by left]|]. split; [|done].
    apply internal_measure in Hs. lia.
  - intros w' Hr Hrest. assert (inv w' /\ accepted w' = accepted w) as [Hi Hacc].
    { induction Hr as [|w w1 w' Hs Hr IH]; [done|]. destruct IH as [? ?]; [|done|].
      - apply (inv_step w); [done|by left].
      - split; [done|]. by rewrite <- (internal_accepted _ _ Hs). }
    destruct (rest_state w' Hi Hrest) as (Hall & Hc & Hm). split_and!; try done.
    rewrite <- Hacc, (iv_accepted _ Hi), (iv_popped _ Hi), Hc, Hm. cbn. rewrite !app_nil_r.
    assert (serving (workers w') = []) as ->; [|by rewrite app_nil_r].
    clear -Hall. induction Hall as [|c ws -> Hall IH]; [done|]. exact IH.
Qed.

(** The calls: a worker closes the socket it was given, and [main] keeps the sockets of
    the connections it pushes. *)
Lemma worker_closes stamp fd w : terminated stamp -> fd ∈ fds w ->
  wp kernel (worker_round stamp fd) w (fun r w' =>
    r = Returned tt /\ fds w' = if 0 <=? fd then fds w ∖ {[fd]} else fds w).
Proof.
  intros Ht Hf. unfold worker_round. wp_step; [|by wp_steps].
  unfold handle_client. wp_step. apply wp_done with (Z.of_nat (length (cstr stamp))); [by apply strlen_terminated|].
  by wp_steps.
Qed.

Lemma setup_safe w : wp kernel setup w (fun r w' =>
  match r with
  | Returned s => fds w' = {[s]} ∪ fds w /\ s ∉ fds w
  | Halted h => h = Exited 1 /\ fds w' = fds w
  end).
Proof.
  unfold setup. apply wp_bind. apply (wp_foreach _ (fun _ w' => w' = w)); [| |done].
  - intros k [] w' _ ->. by wp_steps.
  - intros [] ? ->. cbn [seq_post]. wp_auto; cbn; split; try done; set_solver.
Qed.

(** * Concrete runs *)

Definition garbage16 : list Z := replicate 16 99.

(** A connection is accepted and pushed while the workers have not started; then the
    third worker pops it. *)
Lemma demo_run : exists w, rtc step (start garbage16) w /\
  accepted w = [7] /\ popped w = [7] /\ served w = [] /\ workers w !! 2%nat = Some (Serving 7).
Proof.
  eexists. split.
  - eapply rtc_l; [right; by eapply (accept _ 7)|].
    eapply rtc_l; [left; eapply (main_lock _ 7); [done | by left]|].
    eapply rtc_l; [left; eapply (main_push _ 7); [done | done | by vm_compute | apply wake_none; by repeat constructor]|].
    eapply rtc_l; [left; eapply (worker_lock _ 2 CLocking); [done | done | by left]|].
    eapply rtc_l; [left; eapply (worker_pop _ 2); [done | done | by vm_compute]|].
    apply rtc_refl.
  - done.
Qed.

Lemma connections_in_order_witness :
  exists w, rtc step (start garbage16) w /\ accepted w = [7] /\ workers w !! 2%nat = Some (Serving 7) /\
    queue_ok (queue w) /\ accepted w = popped w ++ contents (queue w) ++ pending (main w).
Proof.
  destruct demo_run as (w & Hr & Ha & Hp & Hs & Hw). exists w.
  destruct (connections_in_order garbage16 w) as (H1 & H2 & _); [cbn; lia | exact Hr |].
  split_and!; [exact Hr | exact Ha | exact Hw | exact H1 | exact H2].
Defined.

Lemma pool_serves_all_witness :
  exists w, rtc step (start garbage16) w /\ accepted w = [7] /\ served w = [] /\
    (forall w', rtc internal w w' -> (forall w'', ~ internal w' w'') -> served w' ≡ₚ accepted w).
Proof.
  destruct demo_run as (w & Hr & Ha & Hp & Hs & Hw). exists w.
  destruct (pool_serves_all garbage16 w) as [_ H2]; [cbn; lia | exact Hr |].
  split_and!; [exact Hr | exact Ha | exact Hs | intros w' Hi Hrest; apply (H2 w' Hi Hrest)].
Defined.
