(* ===== verification/WorkerPool.v ===== *)
(** The server with a pool of processes of
    src/hw16_sockets/p2_server_template/parallel_server_with_pool_servers/server.c: the
    dispatcher accepts connections and passes each descriptor to a free worker over a
    socket pair; a worker answers, closes it and reports that it is free. The addresses of
    the clients, which are only printed, are left out. *)

From S2P Require Import Prelude CInt CStr Stdio Sys.

Definition PORT : Z := 12345.
Definition BACKLOG : Z := 10.
Definition WORKER_MAX : Z := 5.
Definition AF_INET : Z := 2.
Definition SOCK_STREAM : Z := 1.

Record worker_t := MkWorker { pid : Z; comm_fd : Z; busy : Z }.

(** The globals: [workers] and [worker_count]. *)
Record pool := Pool { workers : list worker_t; worker_count : Z }.

Definition init_pool : pool := Pool (replicate (Z.to_nat WORKER_MAX) (MkWorker 0 0 0)) 0.

Definition set_worker (st : pool) (i : Z) (wk : worker_t) : outcome pool :=
  ws ← zset (workers st) i wk; Done (Pool ws (worker_count st)).

Definition set_busy (st : pool) (i b : Z) : outcome pool :=
  wk ← znth (workers st) i; set_worker st i (MkWorker (pid wk) (comm_fd wk) b).

Definition is_free (wk : worker_t) : bool := busy wk =? 0.

Definition find_free_worker (st : pool) : Z :=
  match find_from is_free 0 (take (Z.to_nat (worker_count st)) (workers st)) with
  | Some i => Z.of_nat i
  | None => -1
  end.

(** * Passing descriptors *)

Definition send_fd (socket fd_to_send : Z) : prog Z :=
  r ← sys (c_sendmsg socket fd_to_send);
  if r <? 0 then sys_ (c_perror "sendmsg");; Ret (-1) else Ret 0.

Definition recv_fd (socket : Z) : prog Z :=
  '(r, passed) ← sys_data (c_recvmsg socket);
  if r <? 0 then sys_ (c_perror "recvmsg");; Ret (-1)
  else
    match passed with
    | fd :: _ => Ret fd
    | [] => sys_ (c_print "No file descriptor received\n" []);; Ret (-1)
    end.

(** * A worker *)

(** [stamp] is the text [get_time] puts into the buffer. *)
Definition worker_round (stamp : list Z) (comm : Z) : prog (unit + unit) :=
  client_fd ← recv_fd comm;
  if client_fd <? 0 then Ret (inr tt)
  else
    sys_ c_time;;
    n ← of_outcome (strlen stamp);
    sys_ (c_send client_fd (take (Z.to_nat n) stamp));;
    sys_ (c_close client_fd);;
    sys_ (c_write comm [49]);;
    Ret (inl tt).

Definition worker_loop (fuel : nat) (stamp : list Z) (comm : Z) : prog unit :=
  forever fuel (fun _ => worker_round stamp comm) tt;;
  sys_ (c_close comm);;
  exit 0.

(** The two ends of the pair are the descriptors [socketpair] stores. *)
Definition spawn_worker (fuel : nat) (stamp : list Z) (st : pool) (index : Z) : prog (pool * Z) :=
  '(r, sv) ← sys_data c_socketpair;
  if r =? -1 then sys_ (c_perror "socketpair");; Ret (st, -1)
  else
    sv0 ← of_outcome (znth sv 0);
    sv1 ← of_outcome (znth sv 1);
    p ← sys c_fork;
    if p <? 0 then
      sys_ (c_perror "fork");; sys_ (c_close sv0);; sys_ (c_close sv1);; Ret (st, -1)
    else if p =? 0 then
      sys_ (c_close sv0);; worker_loop fuel stamp sv1;; exit 0
    else
      sys_ (c_close sv1);;
      st ← of_outcome (set_worker st index (MkWorker p sv0 0));
      n ← of_outcome (iadd (worker_count st) 1);
      Ret (Pool (workers st) n, 0).

(** * The dispatcher *)

(** The status of every busy worker is awaited. *)
Definition collect (st : pool) : prog pool :=
  foreach (seqZ 0 (worker_count st)) (fun i st =>
    wk ← of_outcome (znth (workers st) i);
    if negb (busy wk =? 0) then
      '(r, status) ← sys_data (c_read (comm_fd wk) 1);
      if (r =? 1) && bool_decide (status = [49]) then of_outcome (set_busy st i 0) else Ret st
    else Ret st) st.

(** A worker for the client: a free one, or a new one while there is room for it. *)
Definition choose_worker (fuel : nat) (stamp : list Z) (st : pool) : prog (pool * Z * bool) :=
  let idx := find_free_worker st in
  if (idx <? 0) && (worker_count st <? WORKER_MAX) then
    let idx := worker_count st in
    '(st, r) ← spawn_worker fuel stamp st idx;
    Ret (st, idx, negb (r <? 0))
  else Ret (st, idx, true).

Definition dispatch_round (fuel : nat) (stamp : list Z) (server_sock : Z) (st : pool) : prog (pool + Z) :=
  client_fd ← sys (c_accept server_sock);
  if client_fd <? 0 then sys_ (c_perror "accept");; Ret (inl st)
  else
    sys_ (c_print "New client: %s:%d\n" []);;
    '(st, idx, ok) ← choose_worker fuel stamp st;
    if negb ok then sys_ (c_close client_fd);; Ret (inl st)
    else if idx <? 0 then
      sys_ (c_print "All workers busy, rejecting connection\n" []);;
      sys_ (c_close client_fd);;
      Ret (inl st)
    else
      wk ← of_outcome (znth (workers st) idx);
      s ← send_fd (comm_fd wk) client_fd;
      if s <? 0 then
        sys_ (c_perror "send_fd to worker");;
        sys_ (c_close client_fd);;
        st ← of_outcome (set_busy st idx 0);
        Ret (inl st)
      else
        st ← of_outcome (set_busy st idx 1);
        sys_ (c_close client_fd);;
        st ← collect st;
        Ret (inl st).

Definition main (fuel : nat) (stamp : list Z) : prog Z :=
  server_sock ← sys (c_socket AF_INET SOCK_STREAM 0);
  if server_sock <? 0 then sys_ (c_perror "socket");; exit 1
  else
    sys_ (c_setsockopt server_sock 1 2);;
    b ← sys (c_bind server_sock None);
    if b <? 0 then sys_ (c_perror "bind");; sys_ (c_close server_sock);; exit 1
    else
      l ← sys (c_listen server_sock BACKLOG);
      if l <? 0 then sys_ (c_perror "listen");; sys_ (c_close server_sock);; exit 1
      else
        sys_ (c_print "Listening server start on potr: %d\n" [print_d PORT]);;
        st ← foreach [0; 1] (fun i st =>
          '(st, r) ← spawn_worker fuel stamp st i;
          if r <? 0 then sys_ (c_print "Failed to spawn worker %d\n" [print_d i]);; exit 1 else Ret st) init_pool;
        r ← forever fuel (dispatch_round fuel stamp server_sock) st;
        sys_ (c_close server_sock);;
        Ret r.

(** * Descriptors of the dispatcher *)

Definition live (st : pool) : list worker_t := take (Z.to_nat (worker_count st)) (workers st).

(** The dispatcher has its own descriptors and those of its workers open, no others. *)
Record pool_ok (base : gset Z) (st : pool) (w : world) : Prop := PoolOk {
  po_length : length (workers st) = 5%nat;
  po_count : 0 <= worker_count st <= 5;
  po_fds : fds w = base ∪ list_to_set (comm_fd <$> live st) }.

Lemma live_lookup st i : 0 <= i < worker_count st -> live st !! Z.to_nat i = workers st !! Z.to_nat i.
Proof. intros Hi. unfold live. by rewrite lookup_take_lt by lia. Qed.

Lemma set_busy_ok base st w i b : pool_ok base st w -> 0 <= i < worker_count st ->
  exists st', set_busy st i b = Done st' /\ pool_ok base st' w /\ worker_count st' = worker_count st /\
    busy <$> live st' = <[Z.to_nat i := b]> (busy <$> live st) /\ comm_fd <$> live st' = comm_fd <$> live st.
Proof.
  intros [Hl Hc Hf] Hi. unfold set_busy, set_worker.
  destruct (znth_ok (workers st) i) as (wk & -> & Hwk); [lia|]. cbn [mbind outcome_bind].
  rewrite zset_ok by lia. cbn [mbind outcome_bind]. eexists. split; [done|].
  assert (Hcomm : forall (n : nat), take n (<[Z.to_nat i := MkWorker (pid wk) (comm_fd wk) b]> (workers st))
    = if decide (Z.to_nat i < n)%nat then <[Z.to_nat i := MkWorker (pid wk) (comm_fd wk) b]> (take n (workers st)) else take n (workers st))
    by (intros; apply take_insert).
  assert (Hsame : comm_fd <$> live (Pool (<[Z.to_nat i := MkWorker (pid wk) (comm_fd wk) b]> (workers st)) (worker_count st))
    = comm_fd <$> live st).
  { unfold live. cbn. rewrite Hcomm. case_decide; [|done].
    rewrite list_fmap_insert. apply list_insert_id. by rewrite list_lookup_fmap, lookup_take_lt, Hwk by lia. }
  split; [split|split; [|split]]; try done.
  - cbn. by rewrite length_insert.
  - by rewrite Hsame.
  - unfold live. cbn. rewrite Hcomm. case_decide; [|lia]. by rewrite list_fmap_insert.
Qed.

Lemma comm_open base st w i wk : pool_ok base st w -> 0 <= i < worker_count st ->
  znth (workers st) i = Done wk -> comm_fd wk ∈ fds w.
Proof.
  intros [Hl Hc Hf] Hi [_ Hwk]%znth_Done. rewrite Hf. apply elem_of_union_r, elem_of_list_to_set.
  apply list_elem_of_fmap. exists wk. split; [done|]. apply list_elem_of_lookup. exists (Z.to_nat i).
  by rewrite live_lookup.
Qed.

(** What a part of a round keeps. *)
Definition kept (base : gset Z) (st : pool) (st' : pool) (w : world) : Prop :=
  pool_ok base st' w /\ worker_count st' = worker_count st /\ comm_fd <$> live st' = comm_fd <$> live st.

Lemma wp_collect base st w : pool_ok base st w ->
  wp kernel (collect st) w (fun r w' => exists st', r = Returned st' /\ kept base st st' w' /\ fds w' = fds w).
Proof.
  intros H. unfold collect.
  apply (wp_foreach _ (fun st' w' => kept base st st' w' /\ fds w' = fds w)); [|eauto|done].
  intros i st' w' Hi%elem_of_seqZ [(H' & Hn & Hcm) Hfd].
  destruct (znth_ok (workers st') i) as (wk & Hwk & _); [destruct H'; lia|].
  apply wp_done with wk; [done|].
  wp_step; [|by wp_steps]. pose proof (comm_open base st' w' i wk H' ltac:(lia) Hwk). wp_step. wp_step; [|by wp_steps].
  destruct (set_busy_ok base st' w' i 0 H') as (st2 & -> & H2 & Hn2 & _ & Hcm2); [lia|]. cbn.
  split; [split_and!; [done|lia|congruence]|done].
Qed.

Lemma live_snoc st wk st1 : 0 <= worker_count st -> length (workers st) = 5%nat ->
  set_worker st (worker_count st) wk = Done st1 ->
  live (Pool (workers st1) (worker_count st + 1)) = live st ++ [wk] /\ length (workers st1) = 5%nat /\
  worker_count st1 = worker_count st.
Proof.
  unfold set_worker, live. intros H0 Hl H. obind_inv H. injection H as <-. apply zset_Done in Ha as [Hi ->]. cbn.
  split_and!; [|by rewrite length_insert|done].
  replace (Z.to_nat (worker_count st + 1)) with (S (Z.to_nat (worker_count st))) by lia.
  rewrite (take_S_r _ _ wk) by (apply list_lookup_insert_eq; lia). by rewrite take_insert_ge by lia.
Qed.

(** A worker keeps every descriptor it got from [fork] but its own end of the pair. *)
Lemma wp_worker_loop fuel stamp comm w : comm ∈ fds w ->
  wp kernel (worker_loop fuel stamp comm) w (fun r w' =>
    match r with
    | Halted h => fds w ∖ {[comm]} ⊆ fds w' /\ (terminated stamp -> forall u, h <> Crashed u)
    | Returned _ => False
    end).
Proof.
  intros Hc. unfold worker_loop. apply wp_bind.
  apply (wp_forever _ (fun _ w' => fds w' = fds w)); [| |done].
  - intros [] w' Hw. unfold worker_round. apply wp_bind. unfold recv_fd. wp_step.
    + wp_auto. cbn. wp_auto. rewrite Hw. cbn. wp_auto; cbn; (split; [set_solver|done]).
    + rewrite Hd. wp_auto. cbn. wp_auto. rewrite Hw. cbn. wp_auto; cbn; (split; [set_solver|done]).
    + rewrite Hd. wp_auto. cbn. wp_auto.
      apply wp_pure; [intros n _|intros u Hu; cbn; split; [set_solver|intros Ht; by rewrite strlen_terminated in Hu]].
      wp_auto. cbn. set_solver.
  - intros [] w' Hw. cbn. split; [set_solver|done].
Qed.

Lemma wp_spawn fuel stamp st i base w : pool_ok base st w -> i = worker_count st -> worker_count st < 5 ->
  wp kernel (spawn_worker fuel stamp st i) w (fun r w' =>
    match r with
    | Returned (st', v) => pool_ok base st' w' /\
        ((v = -1 /\ st' = st) \/
         (v = 0 /\ worker_count st' = worker_count st + 1 /\ exists wk, live st' = live st ++ [wk] /\ comm_fd wk ∉ fds w))
    | Halted h => fds w ⊆ fds w' /\ (terminated stamp -> forall u, h <> Crashed u)
    end).
Proof.
  intros H -> Hlt. pose proof H as [Hl Hc Hf]. unfold spawn_worker. wp_step.
  - wp_auto. auto.
  - wp_auto. rewrite Hd. apply wp_done with a; [done|]. apply wp_done with b; [done|]. wp_auto.
    + (* fork failed: both ends are closed *)
      split; [|by left]. split; [done|done|]. cbn. rewrite <- Hf. set_solver.
    + (* the child *)
      eapply wp_seq; [apply wp_worker_loop; cbn; set_solver|].
      intros [[]|h] w' Hw; [done|]. cbn in *. split; [set_solver|tauto].
    + (* the parent *)
      unfold set_worker at 1. rewrite zset_ok by lia. cbn [mbind outcome_bind of_outcome].
      assert (E : set_worker st (worker_count st) (MkWorker (r_val r0) a 0)
        = Done (Pool (<[Z.to_nat (worker_count st) := MkWorker (r_val r0) a 0]> (workers st)) (worker_count st))).
      { unfold set_worker. by rewrite zset_ok by lia. }
      destruct (live_snoc _ _ _ (proj1 Hc) Hl E) as (Hlive & Hl' & _). cbn in Hlive, Hl'.
      apply wp_done with (worker_count st + 1); [apply int_result_Done; cbn [worker_count]; unfold_int; lia|].
      wp_auto. split; [split; cbn|right].
      * done.
      * lia.
      * rewrite Hlive, fmap_app, list_to_set_app_L. cbn. rewrite Hf in *. set_solver.
      * split_and!; [done|done|]. by eexists.
Qed.

(** A worker inherits the dispatcher's descriptors and never lets them go: in every run
    of the child made by [spawn_worker] all descriptors that were open before, the
    listening socket, the other workers' sockets and a connection that is being
    dispatched, stay open until it ends. *)
Lemma worker_inherits fuel stamp st base w :
  pool_ok base st w -> worker_count st < 5 ->
  wp kernel (spawn_worker fuel stamp st (worker_count st)) w (fun r w' =>
    match r with Halted _ => fds w ⊆ fds w' | Returned _ => True end).
Proof.
  intros H Hlt. eapply wp_mono; [|by apply (wp_spawn fuel stamp st (worker_count st) base w)].
  intros [[st' v]|h] w'; [done|tauto].
Qed.

(** ** The dispatcher *)

(** A client that is being dispatched is one more descriptor. *)
Lemma pool_ok_open base st w c : pool_ok base st w -> c ∉ fds w ->
  pool_ok ({[c]} ∪ base) st (World ({[c]} ∪ fds w) (names w)).
Proof. intros [Hl Hc Hf] Hn. split; cbn; [done..|]. rewrite Hf. set_solver. Qed.

Lemma pool_ok_close base st w c : pool_ok ({[c]} ∪ base) st w -> c ∉ base -> c ∉ comm_fd <$> live st ->
  pool_ok base st (World (fds w ∖ {[c]}) (names w)).
Proof. intros [Hl Hc Hf] Hb Hn. split; cbn; [done..|]. rewrite Hf. set_solver. Qed.

Lemma find_free_range st : length (workers st) = 5%nat -> 0 <= worker_count st <= 5 ->
  find_free_worker st = -1 \/ 0 <= find_free_worker st < worker_count st.
Proof.
  intros Hl Hc. unfold find_free_worker.
  destruct (find_from is_free 0 (take (Z.to_nat (worker_count st)) (workers st))) as [i|] eqn:E; [right|by left].
  apply find_from_Some in E as (_ & (x & Hx & _) & _). rewrite Nat.sub_0_r in Hx.
  apply lookup_lt_Some in Hx. rewrite length_take in Hx. lia.
Qed.

Lemma wp_choose fuel stamp st base w : pool_ok base st w ->
  wp kernel (choose_worker fuel stamp st) w (fun r w' =>
    match r with
    | Returned (st', idx, ok) => pool_ok base st' w' /\ (forall x, x ∈ comm_fd <$> live st' -> x ∈ comm_fd <$> live st \/ x ∉ fds w) /\
        (idx = -1 \/ (0 <= idx < worker_count st') \/ ok = false)
    | Halted h => terminated stamp -> forall u, h <> Crashed u
    end).
Proof.
  intros H. pose proof H as [Hl Hc Hf]. unfold choose_worker. wp_step.
  - apply andb_true_iff in Heqb as [_ Hlt]. unfold WORKER_MAX in Hlt.
    eapply wp_seq; [by apply (wp_spawn fuel stamp st _ base w); [..|lia]|].
    intros [[st' v]|h] w'; cbn [seq_post]; [|tauto].
    intros (Hok & [[-> ->]|(-> & Hn & wk & Hlive & Hfresh)]); wp_steps; cbn.
    + split_and!; [done|auto|auto].
    + split_and!; [done| |right; left; lia].
      intros x Hx. rewrite Hlive, fmap_app in Hx. cbn in Hx. set_solver.
  - wp_steps. destruct (find_free_range st Hl Hc); split_and!; auto.
Qed.

(** C24 The dispatcher neither leaks a descriptor nor uses a closed one. Whatever the system
    replies, a round ends with the descriptors it began with and the socket of the worker
    it may have created; the connection is closed in the dispatcher on every path, and
    the table always matches the open sockets. *)
Theorem dispatch_keeps_descriptors fuel stamp server base st w :
  pool_ok base st w -> server ∈ base -> terminated stamp ->
  wp kernel (dispatch_round fuel stamp server st) w (fun r w' =>
    match r with
    | Returned (inl st') => pool_ok base st' w'
    | Returned (inr _) => False
    | Halted h => forall u, h <> Crashed u
    end).
Proof.
  intros H Hs Ht. pose proof H as [Hl Hc Hf]. unfold dispatch_round.
  assert (server ∈ fds w) by (rewrite Hf; set_solver). wp_step; [by wp_auto|].
  wp_auto. set (c := r_val r) in *.
  pose proof (pool_ok_open base st w c H Hfresh) as Ho.
  eapply wp_seq; [by apply (wp_choose fuel stamp st ({[c]} ∪ base))|].
  intros [[[st' idx] ok]|h] w'; cbn [seq_post]; [|auto]. intros (Hok & Hnew & Hidx).
  assert (Hcl : c ∉ base) by (rewrite Hf in Hfresh; set_solver).
  assert (Hcm : c ∉ comm_fd <$> live st').
  { intros Hin. apply Hnew in Hin as [Hin|Hin]; [rewrite Hf in Hfresh|cbn in Hin]; set_solver. }
  assert (Hcin : c ∈ fds w') by (destruct Hok as [_ _ ->]; set_solver).
  wp_step; [wp_auto; by apply pool_ok_close|]. wp_step; [wp_auto; by apply pool_ok_close|].
  assert (Hi : 0 <= idx < worker_count st') by (destruct ok; [lia|done]). clear Hidx.
  destruct (znth_ok (workers st') idx) as (wk & Hwk & _); [destruct Hok; lia|].
  apply wp_done with wk; [done|]. pose proof (comm_open _ _ _ _ _ Hok Hi Hwk). unfold send_fd.
  wp_step. destruct (r_val r1 <? 0).
  - wp_auto. destruct (set_busy_ok base st' (World (fds w' ∖ {[c]}) (names w')) idx 0) as (st2 & E & H2 & _);
      [by apply pool_ok_close | done |].
    apply wp_done with st2; [done|]. by wp_auto.
  - wp_auto. destruct (set_busy_ok _ st' w' idx 1 Hok Hi) as (st2 & E & H2 & Hn2 & _ & Hcm2).
    apply wp_done with st2; [done|]. wp_auto.
    eapply wp_seq; [apply (wp_collect base); apply pool_ok_close; [done|done|by rewrite Hcm2]|].
    intros r' w2 (st3 & -> & (H3 & _) & _). cbn [seq_post]. by wp_auto.
Qed.

(** ** One client at a time *)

(** The world in which every worker reports back, and the calls that would show that a
    second worker is used. *)
Definition prompt (first_comm : Z) : monitor unit := Monitor
  (fun _ c =>
     match c with
     | c_sendmsg fd _ => fd = first_comm
     | c_socketpair | c_fork => False
     | _ => True
     end)
  (fun _ c r => match c with c_read _ _ => r_val r = 1 /\ r_data r = [49] | _ => True end)
  (fun _ _ _ => tt).

Record idle (first_comm : Z) (st : pool) : Prop := Idle {
  id_length : length (workers st) = 5%nat;
  id_count : 1 <= worker_count st <= 5;
  id_busy : Forall (fun wk => busy wk = 0) (live st);
  id_first : exists wk, workers st !! 0%nat = Some wk /\ comm_fd wk = first_comm }.

(** All workers but those from [i] on are free. *)
Record freed (first_comm i : Z) (st : pool) : Prop := Freed {
  fr_length : length (workers st) = 5%nat;
  fr_count : 1 <= worker_count st <= 5;
  fr_busy : forall k wk, live st !! k = Some wk -> Z.of_nat k < i -> busy wk = 0;
  fr_first : exists wk, workers st !! 0%nat = Some wk /\ comm_fd wk = first_comm }.

Lemma freed_idle c st : freed c (worker_count st) st -> idle c st.
Proof.
  intros [Hl Hc Hb Hf]. split; try done. apply Forall_lookup. intros k wk Hk. apply (Hb k wk Hk).
  apply lookup_lt_Some in Hk. unfold live in Hk. rewrite length_take in Hk. lia.
Qed.

Lemma freed_set c st i b : 0 <= i < worker_count st -> length (workers st) = 5%nat -> worker_count st <= 5 ->
  (exists wk, workers st !! 0%nat = Some wk /\ comm_fd wk = c) ->
  exists st', set_busy st i b = Done st' /\ length (workers st') = 5%nat /\ worker_count st' = worker_count st /\
    (exists wk, workers st' !! 0%nat = Some wk /\ comm_fd wk = c) /\
    (forall k wk, live st' !! k = Some wk ->
       (Z.of_nat k = i /\ busy wk = b) \/ (Z.of_nat k <> i /\ live st !! k = Some wk)).
Proof.
  intros Hi Hl Hc (w0 & Hw0 & Hcomm). unfold set_busy, set_worker.
  destruct (znth_ok (workers st) i) as (wk & -> & Hwk); [lia|]. cbn [mbind outcome_bind].
  rewrite zset_ok by lia. cbn [mbind outcome_bind]. eexists. split; [done|]. cbn.
  split_and!; [by rewrite length_insert | done | |].
  - destruct (decide (Z.to_nat i = 0%nat)) as [E|E].
    + rewrite E in *. rewrite list_lookup_insert_eq by lia. eexists. split; [done|]. cbn. congruence.
    + rewrite list_lookup_insert_ne by done. eauto.
  - intros k x Hk. unfold live in *. cbn in Hk. rewrite take_insert in Hk. case_decide; [|lia].
    destruct (decide (k = Z.to_nat i)) as [->|Hne].
    + left. rewrite list_lookup_insert_eq in Hk by (rewrite length_take; lia). injection Hk as <-. cbn. split; [lia|done].
    + right. rewrite list_lookup_insert_ne in Hk by done. split; [lia|done].
Qed.

Lemma wp_collect_prompt c st : freed c 0 st ->
  wp (prompt c) (collect st) tt (fun r _ => exists st', r = Returned st' /\ idle c st').
Proof.
  intros H. unfold collect.
  assert (Hgen : forall n i st', freed c i st' -> worker_count st' = i + Z.of_nat n -> 0 <= i ->
    wp (prompt c) (foreach (seqZ i (Z.of_nat n)) (fun i st =>
      wk ← of_outcome (znth (workers st) i);
      if negb (busy wk =? 0) then
        '(r, status) ← sys_data (c_read (comm_fd wk) 1);
        if (r =? 1) && bool_decide (status = [49]) then of_outcome (set_busy st i 0) else Ret st
      else Ret st) st') tt (fun r _ => exists st', r = Returned st' /\ idle c st')).
  { induction n as [|n IH]; intros i st' [Hl Hc Hb Hf] Hn Hi.
    - cbn. eexists. split; [done|]. apply freed_idle. split; try done. intros k wk Hk Hlt. apply (Hb k wk Hk). lia.
    - rewrite (seqZ_cons i) by lia. cbn [foreach].
      destruct (znth_ok (workers st') i) as (wk & Hwk & Hwl); [lia|].
      apply wp_bind. apply wp_done with wk; [done|].
      replace (Z.pred (Z.of_nat (S n))) with (Z.of_nat n) by lia.
      destruct (Z.eqb_spec (busy wk) 0) as [E|E]; cbn [negb].
      + apply wp_ret. cbn [seq_post]. apply IH; [|lia|lia]. split; try done.
        intros k x Hk Hlt. destruct (decide (Z.of_nat k = i)) as [Ek|Ek]; [|apply (Hb k x Hk); lia].
        assert (k = Z.to_nat i) as -> by lia. rewrite live_lookup in Hk by lia. congruence.
      + wp_plain. destruct Hr as [-> ->]. cbn [Z.eqb Pos.eqb andb]. rewrite bool_decide_true by done.
        destruct (freed_set c st' i 0) as (st2 & -> & Hl2 & Hn2 & Hf2 & Hb2); [lia|lia|lia|done|].
        cbn. apply IH; [|lia|lia]. split; [lia|lia| |done].
        intros k x Hk Hlt. destruct (Hb2 k x Hk) as [[_ ?]|[Hne Hk']]; [done|]. apply (Hb k x Hk'). lia. }
  pose proof (fr_count _ _ _ H). specialize (Hgen (Z.to_nat (worker_count st)) 0 st H).
  rewrite Z2Nat.id in Hgen by lia. apply Hgen; lia.
Qed.

Lemma idle_first c st : idle c st -> find_free_worker st = 0.
Proof.
  intros [Hl Hc Hb (wk & Hwk & _)]. unfold find_free_worker. fold (live st).
  destruct (live st) as [|w0 l] eqn:E.
  - unfold live in E. apply (f_equal length) in E. rewrite length_take in E. cbn in E. lia.
  - apply Forall_cons in Hb as [Hb _]. cbn. unfold is_free. by rewrite Hb.
Qed.

(** The pool serves one client at a time. As long as the workers report back, the
    dispatcher waits for the worker it has just used before it accepts again: in every run
    it only ever uses the first worker, creates no other, and rejects nobody. *)
Theorem pool_is_sequential fuel rounds stamp server st c :
  idle c st ->
  wp (prompt c) (forever rounds (dispatch_round fuel stamp server) st) tt (fun r _ => r = Halted Cut).
Proof.
  intros H. apply (wp_forever _ (fun st _ => idle c st)); [|done|done]. clear H st.
  intros st [] H. pose proof H as [Hl Hc Hb (wk & Hwk & Hcomm)]. unfold dispatch_round, choose_worker.
  rewrite (idle_first c st H). cbn [Z.ltb Z.compare andb].
  wp_plain. wp_plain; [by wp_plains|]. wp_plain. prog_simp. cbn [negb Z.ltb Z.compare].
  assert (Hz : znth (workers st) 0 = Done wk) by (by apply znth_Done).
  apply wp_done with wk; [done|]. unfold send_fd. wp_plain.
  destruct (freed_set c st 0 0) as (st0 & E0 & Hl0 & Hn0 & Hf0 & Hb0); [lia|done|lia|eauto|].
  destruct (freed_set c st 0 1) as (st1 & E1 & Hl1 & Hn1 & Hf1 & Hb1); [lia|done|lia|eauto|].
  destruct (r_val r1 <? 0).
  - wp_plain. prog_simp. cbn [Z.ltb Z.compare]. wp_plains. apply wp_done with st0; [done|]. wp_plains.
    split; [done|lia| |done]. apply Forall_lookup. intros k x Hk.
    destruct (Hb0 k x Hk) as [[_ ?]|[_ Hk']]; [done|]. rewrite Forall_lookup in Hb. by apply (Hb k).
  - prog_simp. cbn [Z.ltb Z.compare]. wp_plains. apply wp_done with st1; [done|]. wp_plain.
    eapply wp_seq; [apply wp_collect_prompt; split; [done|lia|lia|done]|].
    intros r3 [] (st2 & -> & H2). cbn [seq_post]. by wp_plains.
Qed.

(** ** Concrete states *)

(** Two free workers reached on descriptors 4 and 6, the server listening on 3. *)
Definition demo_pool : pool :=
  Pool ([MkWorker 100 4 0; MkWorker 101 6 0] ++ replicate 3 (MkWorker 0 0 0)) 2.

Lemma demo_pool_ok : pool_ok {[3]} demo_pool (World {[3; 4; 6]} ∅).
Proof. split; cbn; [done | lia | set_solver]. Qed.

Lemma dispatch_keeps_descriptors_witness :
  wp kernel (dispatch_round 5 (lit "12:00") 3 demo_pool) (World {[3; 4; 6]} ∅) (fun r w' =>
    match r with
    | Returned (inl st') => pool_ok {[3]} st' w'
    | Returned (inr _) => False
    | Halted h => forall u, h <> Crashed u
    end).
Proof.
  apply (dispatch_keeps_descriptors 5 (lit "12:00") 3 {[3]} demo_pool (World {[3; 4; 6]} ∅));
    [apply demo_pool_ok | set_solver | apply (bool_decide_unpack _); by vm_compute].
Defined.

Lemma worker_inherits_witness :
  wp kernel (spawn_worker 5 (lit "12:00") demo_pool (worker_count demo_pool)) (World {[3; 4; 6]} ∅) (fun r w' =>
    match r with Halted _ => fds (World {[3; 4; 6]} ∅) ⊆ fds w' | Returned _ => True end).
Proof. apply (worker_inherits 5 (lit "12:00") demo_pool {[3]} (World {[3; 4; 6]} ∅)); [apply demo_pool_ok | cbn; lia]. Defined.

Lemma pool_is_sequential_witness :
  wp (prompt 4) (forever 8 (dispatch_round 5 (lit "12:00") 3) demo_pool) tt (fun r _ => r = Halted Cut).
Proof.
  apply (pool_is_sequential 5 8 (lit "12:00") 3 demo_pool 4).
  split; [done | cbn; lia | by repeat constructor | by eexists].
Defined.
