(* ===== verification/Shops.v ===== *)
(** The shops of src/hw11_thread/main.c: three buyer threads and a loader thread share
    five stocks, each under its own mutex, and a counter of finished buyers. The threads
    are a step relation; a critical section is one step, because every access to a stock
    or to the counter is made under its mutex ([shops_consistent]). *)

From S2P Require Import Prelude CInt.

Definition SHOP_COUNT : nat := 5.
Definition BUYER_COUNT : Z := 3.

Record buyer_t := MkBuyer { id : Z; demand : Z }.

(** Where a buyer is in [buyer_func]: at the test of its loop, before and inside the
    section of a shop, asleep, and before and inside the section of the counter. *)
Inductive buyer_pc := BTest | BLock (i : nat) | BIn (i : nat) | BSleep | BFinishLock | BFinishIn | BEnd.

(** Where the loader is in [loader_func]. *)
Inductive loader_pc := LLock | LTest | LShopLock (i : nat) | LShopIn (i : nat) | LSleep (i : nat) | LEnd.

(** Where [main] is after it has created the threads. *)
Inductive main_pc := MJoinBuyer (k : nat) | MJoinLoader | MEnd.

Inductive thread := Buyer (b : nat) | Loader.

#[export] Instance buyer_pc_eq_dec : EqDecision buyer_pc.
Proof. solve_decision. Defined.
#[export] Instance loader_pc_eq_dec : EqDecision loader_pc.
Proof. solve_decision. Defined.
#[export] Instance thread_eq_dec : EqDecision thread.
Proof. solve_decision. Defined.

(** A buyer's thread; [paid] is what it has bought so far. *)
Record buyer_thread := BuyerThread { self : buyer_t; at_ : buyer_pc; paid : Z }.

Record world := World {
  shop : list Z; shop_mutex : list (option thread);
  buyers_finished : Z; finish_mutex : option thread;
  buyers : list buyer_thread; loader : loader_pc; main : main_pc;
  delivered : Z  (** how often the loader has filled a shop *) }.

(** * The critical sections *)

(** Lines 94 to 105 of a buyer in a shop that has something. *)
Definition buy (stock want : Z) : outcome (Z * Z * Z) :=
  let can_buy := if want <? stock then want else stock in
  stock' ← isub stock can_buy;
  want' ← isub want can_buy;
  Done (stock', want', can_buy).

(** The whole section: the stock, the buyer and its next place. *)
Definition visit (stock : Z) (t : buyer_thread) (i : nat) : outcome (Z * buyer_thread) :=
  if 0 <? stock then
    '(stock', want, bought) ← buy stock (demand (self t));
    Done (stock', BuyerThread (MkBuyer (id (self t)) want) BSleep (paid t + bought))
  else
    Done (stock, BuyerThread (self t) (if decide (S i < SHOP_COUNT)%nat then BLock (S i) else BSleep) (paid t)).

Definition load (stock : Z) : outcome Z := iadd stock 500.

Definition after_shop (i : nat) : loader_pc :=
  if decide (S i < SHOP_COUNT)%nat then LShopLock (S i) else LLock.

(** * The steps *)

Definition move (t : buyer_thread) (pc : buyer_pc) : buyer_thread := BuyerThread (self t) pc (paid t).
Definition set_buyer (w : world) (b : nat) (t : buyer_thread) : world :=
  World (shop w) (shop_mutex w) (buyers_finished w) (finish_mutex w) (<[b := t]> (buyers w)) (loader w) (main w) (delivered w).
Definition set_loader (w : world) (pc : loader_pc) : world :=
  World (shop w) (shop_mutex w) (buyers_finished w) (finish_mutex w) (buyers w) pc (main w) (delivered w).
Definition set_shop_mutex (w : world) (i : nat) (o : option thread) : world :=
  World (shop w) (<[i := o]> (shop_mutex w)) (buyers_finished w) (finish_mutex w) (buyers w) (loader w) (main w) (delivered w).
Definition set_finish_mutex (w : world) (o : option thread) : world :=
  World (shop w) (shop_mutex w) (buyers_finished w) o (buyers w) (loader w) (main w) (delivered w).
Definition set_stock (w : world) (i : nat) (s : Z) (more : Z) : world :=
  World (<[i := s]> (shop w)) (shop_mutex w) (buyers_finished w) (finish_mutex w) (buyers w) (loader w) (main w) (delivered w + more).
Definition set_finished (w : world) (n : Z) : world :=
  World (shop w) (shop_mutex w) n (finish_mutex w) (buyers w) (loader w) (main w) (delivered w).
Definition set_main (w : world) (m : main_pc) : world :=
  World (shop w) (shop_mutex w) (buyers_finished w) (finish_mutex w) (buyers w) (loader w) m (delivered w).

Inductive buyer_step (w : world) (b : nat) (t : buyer_thread) : world -> Prop :=
  | b_enter : at_ t = BTest -> 0 < demand (self t) -> buyer_step w b t (set_buyer w b (move t (BLock 0)))
  | b_leave : at_ t = BTest -> demand (self t) <= 0 -> buyer_step w b t (set_buyer w b (move t BFinishLock))
  | b_lock i : at_ t = BLock i -> shop_mutex w !! i = Some None ->
      buyer_step w b t (set_buyer (set_shop_mutex w i (Some (Buyer b))) b (move t (BIn i)))
  | b_visit i stock stock' t' : at_ t = BIn i -> shop w !! i = Some stock -> visit stock t i = Done (stock', t') ->
      buyer_step w b t (set_buyer (set_shop_mutex (set_stock w i stock' 0) i None) b t')
  | b_wake : at_ t = BSleep -> buyer_step w b t (set_buyer w b (move t BTest))
  | b_finish_lock : at_ t = BFinishLock -> finish_mutex w = None ->
      buyer_step w b t (set_buyer (set_finish_mutex w (Some (Buyer b))) b (move t BFinishIn))
  | b_finish n : at_ t = BFinishIn -> iadd (buyers_finished w) 1 = Done n ->
      buyer_step w b t (set_buyer (set_finish_mutex (set_finished w n) None) b (move t BEnd)).

Inductive loader_step (w : world) : world -> Prop :=
  | l_lock : loader w = LLock -> finish_mutex w = None ->
      loader_step w (set_loader (set_finish_mutex w (Some Loader)) LTest)
  | l_stop : loader w = LTest -> buyers_finished w = BUYER_COUNT ->
      loader_step w (set_loader (set_finish_mutex w None) LEnd)
  | l_round : loader w = LTest -> buyers_finished w <> BUYER_COUNT ->
      loader_step w (set_loader (set_finish_mutex w None) (LShopLock 0))
  | l_shop_lock i : loader w = LShopLock i -> shop_mutex w !! i = Some None ->
      loader_step w (set_loader (set_shop_mutex w i (Some Loader)) (LShopIn i))
  | l_load i stock stock' : loader w = LShopIn i -> shop w !! i = Some stock -> load stock = Done stock' ->
      loader_step w (set_loader (set_shop_mutex (set_stock w i stock' 1) i None) (LSleep i))
  | l_wake i : loader w = LSleep i -> loader_step w (set_loader w (after_shop i)).

(** [pthread_join] of the buyers in turn, then of the loader. *)
Inductive main_step (w : world) : world -> Prop :=
  | m_buyer k t : main w = MJoinBuyer k -> buyers w !! k = Some t -> at_ t = BEnd ->
      main_step w (set_main w (if decide (Z.of_nat (S k) < BUYER_COUNT) then MJoinBuyer (S k) else MJoinLoader))
  | m_loader : main w = MJoinLoader -> loader w = LEnd -> main_step w (set_main w MEnd).

Inductive step (w : world) : world -> Prop :=
  | step_buyer b t w' : buyers w !! b = Some t -> buyer_step w b t w' -> step w w'
  | step_loader w' : loader_step w w' -> step w w'
  | step_main w' : main_step w w' -> step w w'.

(** * The beginning *)

(** [rand() % (hi - lo + 1) + lo]. *)
Definition pick (lo hi r : Z) : Z := Z.rem r (hi - lo + 1) + lo.

Definition new_buyer (i : nat) (r : Z) : buyer_thread :=
  BuyerThread (MkBuyer (Z.of_nat i + 1) (pick 9000 11000 r)) BTest 0.

(** After the threads have been created, [rs] and [rb] being the results of [rand]. *)
Definition start (rs rb : list Z) : world :=
  World (pick 400 600 <$> rs) (replicate SHOP_COUNT None) 0 None
    (imap new_buyer rb) LLock (MJoinBuyer 0) 0.

(** * The invariant *)

Definition ended (t : buyer_thread) : bool := bool_decide (at_ t = BEnd).

(** The shop whose section a thread is in, and whether it is in that of the counter. *)
Definition in_pc (pc : buyer_pc) : option nat := match pc with BIn i => Some i | _ => None end.
Definition in_shop (w : world) (th : thread) : option nat :=
  match th with
  | Buyer b => buyers w !! b ≫= fun t => in_pc (at_ t)
  | Loader => match loader w with LShopIn i => Some i | _ => None end
  end.

Definition counting_pc (pc : buyer_pc) : bool := match pc with BFinishIn => true | _ => false end.
Definition counting (w : world) (th : thread) : bool :=
  match th with
  | Buyer b => match buyers w !! b with Some t => counting_pc (at_ t) | None => false end
  | Loader => match loader w with LTest => true | _ => false end
  end.

(** How many buyers [main] has joined. *)
Definition joined (w : world) : nat :=
  match main w with MJoinBuyer k => k | MJoinLoader | MEnd => length (buyers w) end.

Record buyer_ok (t : buyer_thread) : Prop := BuyerOk {
  bo_demand : 0 <= demand (self t);
  bo_paid : 0 <= paid t;
  bo_done : at_ t = BFinishLock \/ at_ t = BFinishIn \/ at_ t = BEnd -> demand (self t) = 0;
  bo_shop : forall i, at_ t = BLock i \/ at_ t = BIn i -> (i < SHOP_COUNT)%nat }.

(** [goods] is in the shops at the beginning, [wants] are the demands. *)
Record inv (goods : Z) (wants : list Z) (w : world) : Prop := Inv {
  iv_shop : length (shop w) = SHOP_COUNT;
  iv_mutex : length (shop_mutex w) = SHOP_COUNT;
  iv_buyers : Z.of_nat (length (buyers w)) = BUYER_COUNT;
  iv_goods : total (shop w) + total (paid <$> buyers w) = goods + 500 * delivered w;
  iv_wants : (fun t => demand (self t) + paid t) <$> buyers w = wants;
  iv_delivered : 0 <= delivered w;
  iv_stock : Forall (fun s => 0 <= s <= 600 + 500 * delivered w) (shop w);
  iv_buyer : Forall buyer_ok (buyers w);
  iv_inside : forall i th, shop_mutex w !! i = Some (Some th) <-> in_shop w th = Some i;
  iv_counting : forall th, finish_mutex w = Some th <-> counting w th = true;
  iv_finished : buyers_finished w = count_of ended (buyers w);
  iv_loader : forall i, loader w = LShopLock i \/ loader w = LSleep i -> (i < SHOP_COUNT)%nat;
  iv_stopped : loader w = LEnd -> buyers_finished w = BUYER_COUNT;
  iv_joining : forall k, main w = MJoinBuyer k -> Z.of_nat k < BUYER_COUNT;
  iv_joined : forall b t, (b < joined w)%nat -> buyers w !! b = Some t -> at_ t = BEnd;
  iv_all : main w = MEnd -> loader w = LEnd }.

(** ** Its preservation *)

(** Where the threads are after one buyer has moved. *)
Lemma in_shop_set w w' b t t' th :
  buyers w !! b = Some t -> buyers w' = <[b := t']> (buyers w) -> loader w' = loader w ->
  in_shop w' th = if decide (th = Buyer b) then in_pc (at_ t') else in_shop w th.
Proof.
  intros Hb Hb' Hl. pose proof (lookup_lt_Some _ _ _ Hb). unfold in_shop. rewrite Hb', Hl.
  case_decide as E; [subst; by rewrite list_lookup_insert_eq|].
  destruct th as [k|]; [|done]. by rewrite list_lookup_insert_ne by congruence.
Qed.

Lemma counting_set w w' b t t' th :
  buyers w !! b = Some t -> buyers w' = <[b := t']> (buyers w) -> loader w' = loader w ->
  counting w' th = if decide (th = Buyer b) then counting_pc (at_ t') else counting w th.
Proof.
  intros Hb Hb' Hl. pose proof (lookup_lt_Some _ _ _ Hb). unfold counting. rewrite Hb', Hl.
  case_decide as E; [subst; by rewrite list_lookup_insert_eq|].
  destruct th as [k|]; [|done]. by rewrite list_lookup_insert_ne by congruence.
Qed.

Lemma visit_spec stock t i stock' t' m :
  buyer_ok t -> at_ t = BIn i -> 0 <= stock <= m -> visit stock t i = Done (stock', t') ->
  buyer_ok t' /\ 0 <= stock' <= m /\ stock' + paid t' = stock + paid t /\
  demand (self t') + paid t' = demand (self t) + paid t /\
  (at_ t' = BSleep \/ at_ t' = BLock (S i)).
Proof.
  intros [Hd Hp He Hs] Hpc Hst. unfold visit, buy, isub. destruct (Z.ltb_spec 0 stock) as [Hpos|Hpos].
  - intros H. apply outcome_bind_done in H as ([[a b] c] & H & E). injection E as <- <-.
    apply outcome_bind_done in H as (x & [-> _]%int_result_Done & H).
    apply outcome_bind_done in H as (y & [-> _]%int_result_Done & [= <- <- <-]).
    destruct (Z.ltb_spec (demand (self t)) stock); cbn; split_and!; try lia; auto;
      (split; cbn; [lia|lia|naive_solver|naive_solver]).
  - intros [= <- <-]. case_decide; cbn [self paid at_]; split_and!; try lia; auto;
      (split; cbn; naive_solver).
Qed.

(** One buyer moves; what it does with the mutexes, the shops and the counter is given. *)
Lemma inv_buyer_move goods wants w b t t' sh mx n o :
  inv goods wants w -> buyers w !! b = Some t -> at_ t <> BEnd ->
  length sh = SHOP_COUNT -> length mx = SHOP_COUNT ->
  total sh + paid t' = total (shop w) + paid t ->
  demand (self t') + paid t' = demand (self t) + paid t ->
  Forall (fun s => 0 <= s <= 600 + 500 * delivered w) sh ->
  buyer_ok t' ->
  (at_ t' <> BEnd /\ n = buyers_finished w) \/ (at_ t' = BEnd /\ n = buyers_finished w + 1) ->
  let w' := World sh mx n o (<[b := t']> (buyers w)) (loader w) (main w) (delivered w) in
  (forall i th, mx !! i = Some (Some th) <->
     if decide (th = Buyer b) then in_pc (at_ t') = Some i else shop_mutex w !! i = Some (Some th)) ->
  (forall th, o = Some th <->
     if decide (th = Buyer b) then counting_pc (at_ t') = true else finish_mutex w = Some th) ->
  inv goods wants w'.
Proof.
  intros [] Hb Hne Hsh Hmx Hgoods Hwant Hstock Hok Hn w' Hin Hcount.
  assert (Hlt : loader w <> LEnd).
  { intros E. specialize (iv_stopped0 E). rewrite iv_finished0, <- iv_buyers0 in iv_stopped0.
    apply count_of_all in iv_stopped0. rewrite Forall_lookup in iv_stopped0. specialize (iv_stopped0 _ _ Hb).
    by apply bool_decide_eq_true in iv_stopped0. }
  assert (Hended : ended t = false) by (by apply bool_decide_eq_false).
  split; cbn; try done.
  - by rewrite length_insert.
  - pose proof (total_fmap_insert paid (buyers w) b t t' Hb). unfold total in *. cbn in *. lia.
  - rewrite list_fmap_insert, Hwant, <- iv_wants0. apply list_insert_id. by rewrite list_lookup_fmap, Hb.
  - by apply Forall_insert.
  - intros i th. rewrite Hin, (in_shop_set w _ b t t') by done. case_decide; [done|apply iv_inside0].
  - intros th. rewrite Hcount, (counting_set w _ b t t') by done. case_decide; [done|apply iv_counting0].
  - unfold count_of. rewrite (total_fmap_insert _ _ _ t) by done. fold (count_of ended (buyers w)).
    rewrite <- iv_finished0, Hended. unfold ended.
    destruct Hn as [[E ->]|[E ->]]; [rewrite bool_decide_false by done|rewrite bool_decide_true by done]; lia.
  - intros k u Hk Hu. apply list_lookup_insert_Some in Hu as [(<- & _ & _)|[_ Hu]].
    + exfalso. apply Hne. apply (iv_joined0 b t); [|done]. unfold joined in *. cbn in *. by rewrite length_insert in Hk.
    + apply (iv_joined0 k u); [|done]. unfold joined in *. cbn in *. by rewrite length_insert in Hk.
Qed.

Lemma move_ok t pc : buyer_ok t ->
  (pc = BFinishLock \/ pc = BFinishIn \/ pc = BEnd -> demand (self t) = 0) ->
  (forall i, pc = BLock i \/ pc = BIn i -> (i < SHOP_COUNT)%nat) -> buyer_ok (move t pc).
Proof. intros [] H1 H2. by split. Qed.

(** The holders of the mutexes when a thread takes, gives back or leaves alone the one of
    shop [i]. *)
Lemma take_mutex (mx : list (option thread)) (i : nat) me (j : nat) th :
  mx !! i = Some None -> mx !! j <> Some (Some me) ->
  <[i := Some me]> mx !! j = Some (Some th) <-> if decide (th = me) then j = i else mx !! j = Some (Some th).
Proof.
  intros Hi Hj. pose proof (lookup_lt_Some _ _ _ Hi). rewrite list_lookup_insert_Some.
  case_decide; destruct (decide (i = j)); naive_solver.
Qed.

Lemma give_mutex (mx : list (option thread)) (i : nat) me (j : nat) th :
  mx !! i = Some (Some me) -> (mx !! j = Some (Some me) -> j = i) ->
  <[i := None]> mx !! j = Some (Some th) <-> if decide (th = me) then False else mx !! j = Some (Some th).
Proof.
  intros Hi Hj. pose proof (lookup_lt_Some _ _ _ Hi). rewrite list_lookup_insert_Some.
  case_decide; destruct (decide (i = j)); naive_solver.
Qed.

Lemma inv_buyer_step goods wants w b t w' :
  inv goods wants w -> buyers w !! b = Some t -> buyer_step w b t w' -> inv goods wants w'.
Proof.
  intros H Hb Hs.
  pose proof (iv_shop _ _ _ H) as Hsh. pose proof (iv_mutex _ _ _ H) as Hmx.
  pose proof (iv_stock _ _ _ H) as Hst.
  pose proof (proj1 (Forall_lookup _ _) (iv_buyer _ _ _ H) _ _ Hb) as Ht.
  assert (Hmine : forall i, shop_mutex w !! i = Some (Some (Buyer b)) <-> in_pc (at_ t) = Some i)
    by (intros i; rewrite (iv_inside _ _ _ H); cbn; by rewrite Hb).
  assert (Hcount : finish_mutex w = Some (Buyer b) <-> counting_pc (at_ t) = true)
    by (rewrite (iv_counting _ _ _ H); cbn; by rewrite Hb).
  destruct Hs as [Hpc Hpos|Hpc Hpos|i Hpc Hfree|i stock stock' t' Hpc Hstk Hv|Hpc|Hpc Hfree|n Hpc Hadd];
    rewrite Hpc in Hmine, Hcount; cbn in Hmine, Hcount.
  - apply (inv_buyer_move goods wants w b t); cbn; try done; [by rewrite Hpc| |by left| |].
    + apply move_ok; [done|naive_solver|]. intros j [[= <-]|?]; [unfold SHOP_COUNT; lia|done].
    + intros j th. case_decide; [subst; apply Hmine|done].
    + intros th. case_decide; [subst; apply Hcount|done].
  - apply (inv_buyer_move goods wants w b t); cbn; try done; [by rewrite Hpc| |by left| |].
    + apply move_ok; [done| |naive_solver]. intros _. pose proof (bo_demand _ Ht). lia.
    + intros j th. case_decide; [subst; apply Hmine|done].
    + intros th. case_decide; [subst; apply Hcount|done].
  - apply (inv_buyer_move goods wants w b t); cbn; try done; [by rewrite Hpc|by rewrite length_insert| |by left| |].
    + apply move_ok; [done|naive_solver|]. intros j [?|[= <-]]; [done|]. apply (bo_shop _ Ht). rewrite Hpc. by left.
    + intros j th. rewrite take_mutex by (done || by rewrite Hmine). case_decide; naive_solver.
    + intros th. case_decide; [subst; apply Hcount|done].
  - destruct (visit_spec stock t i stock' t' (600 + 500 * delivered w) Ht Hpc) as (Ht' & Hs' & Hsum & Hwant & Hpc');
      [exact (proj1 (Forall_lookup _ _) Hst _ _ Hstk)|done|].
    unfold set_buyer, set_shop_mutex, set_stock. cbn. rewrite Z.add_0_r.
    apply (inv_buyer_move goods wants w b t); cbn; try done; [by rewrite Hpc|by rewrite length_insert|by rewrite length_insert| | | |  |].
    + rewrite (total_insert _ _ stock) by done. lia.
    + by apply Forall_insert.
    + left. by destruct Hpc' as [-> | ->].
    + intros j th. rewrite (give_mutex _ i (Buyer b)) by (rewrite Hmine; naive_solver).
      case_decide; [|done]. by destruct Hpc' as [-> | ->].
    + intros th. case_decide; [subst; rewrite Hcount; by destruct Hpc' as [-> | ->]|done].
  - apply (inv_buyer_move goods wants w b t); cbn; try done; [by rewrite Hpc| |by left| |].
    + apply move_ok; [done|naive_solver|naive_solver].
    + intros j th. case_decide; [subst; apply Hmine|done].
    + intros th. case_decide; [subst; apply Hcount|done].
  - apply (inv_buyer_move goods wants w b t); cbn; try done; [by rewrite Hpc| |by left| |].
    + apply move_ok; [done| |naive_solver]. intros _. apply (bo_done _ Ht). rewrite Hpc. by left.
    + intros j th. case_decide; [subst; apply Hmine|done].
    + intros th. rewrite Hfree. case_decide; naive_solver.
  - apply int_result_Done in Hadd as [-> _].
    apply (inv_buyer_move goods wants w b t); cbn; try done; [by rewrite Hpc| |by right| |].
    + apply move_ok; [done| |naive_solver]. intros _. apply (bo_done _ Ht). rewrite Hpc. by right; left.
    + intros j th. case_decide; [subst; apply Hmine|done].
    + intros th. rewrite (proj2 Hcount) by done. case_decide; naive_solver.
Qed.

Definition loader_in (pc : loader_pc) : option nat := match pc with LShopIn i => Some i | _ => None end.
Definition loader_counting (pc : loader_pc) : bool := match pc with LTest => true | _ => false end.

(** The loader moves; what it does with the mutexes and the shops is given. *)
Lemma inv_loader_move goods wants w sh mx o pc d :
  inv goods wants w -> loader w <> LEnd ->
  length sh = SHOP_COUNT -> length mx = SHOP_COUNT ->
  total sh = total (shop w) + 500 * d -> 0 <= d ->
  Forall (fun s => 0 <= s <= 600 + 500 * (delivered w + d)) sh ->
  (forall i, pc = LShopLock i \/ pc = LSleep i -> (i < SHOP_COUNT)%nat) ->
  (pc = LEnd -> buyers_finished w = BUYER_COUNT) ->
  (forall i th, mx !! i = Some (Some th) <->
     if decide (th = Loader) then loader_in pc = Some i else shop_mutex w !! i = Some (Some th)) ->
  (forall th, o = Some th <->
     if decide (th = Loader) then loader_counting pc = true else finish_mutex w = Some th) ->
  inv goods wants (World sh mx (buyers_finished w) o (buyers w) pc (main w) (delivered w + d)).
Proof.
  intros [] Hne Hsh Hmx Hgoods Hd Hst Hpc Hend Hin Hcount. split; cbn; try done.
  - lia.
  - lia.
  - intros i th. rewrite Hin. case_decide; [by subst|]. rewrite iv_inside0. by destruct th.
  - intros th. rewrite Hcount. case_decide; [by subst|]. rewrite iv_counting0. by destruct th.
  - intros E. by specialize (iv_all0 E).
Qed.

Lemma inv_loader_step goods wants w w' : inv goods wants w -> loader_step w w' -> inv goods wants w'.
Proof.
  intros H Hs.
  pose proof (iv_shop _ _ _ H) as Hsh. pose proof (iv_mutex _ _ _ H) as Hmx. pose proof (iv_stock _ _ _ H) as Hst.
  assert (Hmine : forall i, shop_mutex w !! i = Some (Some Loader) <-> loader_in (loader w) = Some i)
    by (intros i; by rewrite (iv_inside _ _ _ H)).
  assert (Hcount : finish_mutex w = Some Loader <-> loader_counting (loader w) = true)
    by (by rewrite (iv_counting _ _ _ H)).
  destruct Hs as [Hpc Hfree|Hpc Hn|Hpc Hn|i Hpc Hfree|i stock stock' Hpc Hstk Hl|i Hpc];
    rewrite Hpc in Hmine, Hcount; cbn in Hmine, Hcount;
    unfold set_loader, set_finish_mutex, set_shop_mutex, set_stock; cbn.
  1-4, 6: rewrite <- (Z.add_0_r (delivered w)); apply inv_loader_move; try done; [by rewrite Hpc|..];
    rewrite ?Z.add_0_r; try done; try lia.
  - intros i [?|?]; done.
  - intros i th. case_decide; [subst; apply Hmine|done].
  - intros th. rewrite Hfree. case_decide; naive_solver.
  - intros i [?|?]; done.
  - intros i th. case_decide; [subst; apply Hmine|done].
  - intros th. rewrite (proj2 Hcount) by done. case_decide; naive_solver.
  - intros i [[= <-]|?]; [unfold SHOP_COUNT; lia|done].
  - intros i th. case_decide; [subst; apply Hmine|done].
  - intros th. rewrite (proj2 Hcount) by done. case_decide; naive_solver.
  - by rewrite length_insert.
  - intros j [?|?]; done.
  - intros j th. rewrite take_mutex by (done || by rewrite Hmine). case_decide; naive_solver.
  - intros th. case_decide; [subst; apply Hcount|done].
  - intros j. unfold after_shop. case_decide; intros [[= <-]|?]; done.
  - unfold after_shop. by case_decide.
  - intros j th. case_decide; [subst; rewrite Hmine; unfold after_shop; by case_decide|done].
  - intros th. case_decide; [subst; rewrite Hcount; unfold after_shop; by case_decide|done].
  - apply int_result_Done in Hl as [-> _]. pose proof (proj1 (Forall_lookup _ _) Hst _ _ Hstk) as Hb. cbn in Hb.
    apply inv_loader_move; try done; [by rewrite Hpc|by rewrite length_insert|by rewrite length_insert| | | | |].
    + rewrite (total_insert _ _ stock) by done. lia.
    + apply Forall_insert; [|lia]. eapply Forall_impl; [exact Hst|]. cbn. lia.
    + intros j [?|[= <-]]; [done|]. rewrite <- Hsh. by eapply lookup_lt_Some.
    + intros j th. rewrite (give_mutex _ i Loader) by (rewrite Hmine; naive_solver). by case_decide.
    + intros th. case_decide; [subst; apply Hcount|done].
Qed.

Lemma inv_main_step goods wants w w' : inv goods wants w -> main_step w w' -> inv goods wants w'.
Proof.
  intros H Hs. pose proof H as [Hsh Hmx Hlen Hg Hw Hdl Hst Hbo Hin Hco Hfi Hlo Hstop Hj Hjd Hall].
  destruct Hs as [k t Hm Ht He|Hm He].
  - specialize (Hj k Hm). unfold joined in Hjd. rewrite Hm in Hjd.
    split; cbn; try done.
    + intros j. case_decide; [intros [= <-]; done|done].
    + intros b u Hb Hu. destruct (decide (b = k)) as [->|Hne]; [by simplify_eq|].
      apply (Hjd b); [|done]. pose proof (lookup_lt_Some _ _ _ Hu). unfold joined in Hb. cbn in Hb.
      case_decide; unfold BUYER_COUNT in *; lia.
    + by case_decide.
  - unfold joined in Hjd. rewrite Hm in Hjd. by split.
Qed.

Lemma inv_world_step goods wants w w' : inv goods wants w -> step w w' -> inv goods wants w'.
Proof.
  intros H [b t w2 Hb Hs|w2 Hs|w2 Hs]; [by eapply inv_buyer_step|by eapply inv_loader_step|by eapply inv_main_step].
Qed.

(** ** There is always a next step *)

(** A thread inside a section can leave it. *)
Lemma inside_steps goods wants w i th :
  inv goods wants w -> delivered w < 4000000 -> Forall (fun d => d < 2 ^ 31) wants ->
  shop_mutex w !! i = Some (Some th) -> exists w', step w w'.
Proof.
  intros H Hd Hwants Hm. pose proof (iv_inside _ _ _ H i th) as Hi. apply Hi in Hm as Hin.
  pose proof (lookup_lt_Some _ _ _ Hm) as Hlt. rewrite (iv_mutex _ _ _ H), <- (iv_shop _ _ _ H) in Hlt.
  destruct (lookup_lt_is_Some_2 _ _ Hlt) as [stock Hs].
  pose proof (proj1 (Forall_lookup _ _) (iv_stock _ _ _ H) _ _ Hs) as Hst. cbn in Hst.
  destruct th as [b|]; cbn in Hin.
  - destruct (buyers w !! b) as [t|] eqn:Hb; [|done]. cbn in Hin. unfold in_pc in Hin.
    destruct (at_ t) as [|j|j| | | |] eqn:Hpc; try done. injection Hin as ->.
    pose proof (proj1 (Forall_lookup _ _) (iv_buyer _ _ _ H) _ _ Hb) as [Hd0 Hp0 _ _].
    assert (Hw : wants !! b = Some (demand (self t) + paid t))
      by (rewrite <- (iv_wants _ _ _ H), list_lookup_fmap, Hb; done).
    pose proof (proj1 (Forall_lookup _ _) Hwants _ _ Hw) as Hlt2. cbn in Hlt2.
    assert (Hv : exists r, visit stock t i = Done r).
    { unfold visit, buy, isub. destruct (Z.ltb_spec 0 stock); [|eauto].
      destruct (Z.ltb_spec (demand (self t)) stock); rewrite !int_result_Done2 by (unfold_int; lia); cbn; eauto. }
    destruct Hv as [[stock' t'] Hv]. eexists. eapply step_buyer; [done|]. by eapply b_visit.
  - destruct (loader w) as [| | |j| |] eqn:Hpc; try done. injection Hin as ->.
    eexists. apply step_loader. eapply l_load; [done|done|]. unfold load, iadd.
    apply int_result_Done2. unfold_int. lia.
Qed.

Lemma counting_steps goods wants w th :
  inv goods wants w -> finish_mutex w = Some th -> exists w', step w w'.
Proof.
  intros H Hin%(iv_counting _ _ _ H). destruct th as [b|]; cbn in Hin.
  - destruct (buyers w !! b) as [t|] eqn:Hb; [|done]. unfold counting_pc in Hin.
    destruct (at_ t) eqn:Hpc; try done.
    eexists. eapply step_buyer; [done|]. eapply b_finish; [done|]. unfold iadd. apply int_result_Done2.
    pose proof (count_of_bounds ended (buyers w)). rewrite <- (iv_finished _ _ _ H), (iv_buyers _ _ _ H) in *.
    unfold BUYER_COUNT in *. unfold_int. lia.
  - destruct (loader w) eqn:Hpc; try done. destruct (decide (buyers_finished w = BUYER_COUNT)).
    + eexists. apply step_loader. by apply l_stop.
    + eexists. apply step_loader. by apply l_round.
Qed.

(** With every mutex free, a thread that has not ended has a step. *)
Lemma free_steps goods wants w b t :
  inv goods wants w -> (forall i th, shop_mutex w !! i <> Some (Some th)) -> finish_mutex w = None ->
  buyers w !! b = Some t -> at_ t <> BEnd -> exists w', step w w'.
Proof.
  intros H Hs Hf Hb He. pose proof (proj1 (Forall_lookup _ _) (iv_buyer _ _ _ H) _ _ Hb) as Ht.
  destruct (at_ t) as [|i|i| | | |] eqn:Hpc.
  - destruct (Z_lt_le_dec 0 (demand (self t))); eexists; (eapply step_buyer; [done|]); by constructor.
  - assert (Hi : (i < length (shop_mutex w))%nat) by (rewrite (iv_mutex _ _ _ H); apply (bo_shop _ Ht); auto).
    destruct (lookup_lt_is_Some_2 _ _ Hi) as [[th|] Hm]; [by destruct (Hs i th)|].
    eexists. eapply step_buyer; [done|]. by eapply b_lock.
  - destruct (Hs i (Buyer b)). apply (iv_inside _ _ _ H). cbn. rewrite Hb. cbn. by rewrite Hpc.
  - eexists. eapply step_buyer; [done|]. by apply b_wake.
  - eexists. eapply step_buyer; [done|]. by apply b_finish_lock.
  - assert (finish_mutex w = Some (Buyer b)); [|congruence].
    apply (iv_counting _ _ _ H). cbn. rewrite Hb. by rewrite Hpc.
  - done.
Qed.

Lemma inv_progress goods wants w :
  inv goods wants w -> delivered w < 4000000 -> Forall (fun d => d < 2 ^ 31) wants ->
  main w = MEnd \/ exists w', step w w'.
Proof.
  intros H Hd Hwants.
  destruct (decide (Exists (fun o => o <> None) (shop_mutex w))) as [He|He].
  { apply Exists_exists in He as (o & [i Hi]%list_elem_of_lookup & Ho). destruct o as [th|]; [|done]. right. by eapply inside_steps. }
  assert (Hs : forall i th, shop_mutex w !! i <> Some (Some th)).
  { intros i th Hi. apply He, Exists_exists. exists (Some th). split; [by eapply list_elem_of_lookup_2|done]. }
  destruct (finish_mutex w) as [th|] eqn:Hf; [right; by eapply counting_steps|].
  destruct (decide (Forall (fun t => at_ t = BEnd) (buyers w))) as [Hall|Hall].
  - destruct (loader w) as [| |i|i|i|] eqn:Hl.
    + right. eexists. apply step_loader. by apply l_lock.
    + assert (finish_mutex w = Some Loader); [|congruence]. apply (iv_counting _ _ _ H). cbn. by rewrite Hl.
    + assert (Hi : (i < length (shop_mutex w))%nat) by (rewrite (iv_mutex _ _ _ H); apply (iv_loader _ _ _ H); auto).
      destruct (lookup_lt_is_Some_2 _ _ Hi) as [[th|] Hm]; [by destruct (Hs i th)|].
      right. eexists. apply step_loader. by eapply l_shop_lock.
    + destruct (Hs i Loader). apply (iv_inside _ _ _ H). cbn. by rewrite Hl.
    + right. eexists. apply step_loader. by eapply l_wake.
    + destruct (main w) as [k| |] eqn:Hm; [right|right|by left].
      * pose proof (iv_joining _ _ _ H k Hm) as Hk. rewrite <- (iv_buyers _ _ _ H) in Hk.
        destruct (lookup_lt_is_Some_2 (buyers w) k ltac:(lia)) as [t Ht].
        eexists. apply step_main. eapply m_buyer; [done..|]. rewrite Forall_lookup in Hall. by eapply Hall.
      * eexists. apply step_main. by apply m_loader.
  - right. apply not_Forall_Exists in Hall; [|intros t; apply _]. apply Exists_exists in Hall as (t & [b Hb]%list_elem_of_lookup & Ht). by eapply free_steps.
Qed.

(** ** What holds in every reachable state *)

Lemma pick_range lo hi r : lo <= hi -> 0 <= r -> lo <= pick lo hi r <= hi.
Proof. intros Hl Hr. unfold pick. rewrite Z.rem_mod_nonneg by lia. pose proof (Z.mod_pos_bound r (hi - lo + 1)). lia. Qed.

Lemma total_zeros {A} (f : A -> Z) (l : list A) : (forall x, x ∈ l -> f x = 0) -> total (f <$> l) = 0.
Proof.
  induction l as [|x l IH]; intros H; [done|]. unfold total in *. cbn.
  rewrite IH by (intros; apply H; by right). rewrite (H x) by left. done.
Qed.

Section runs.
Context (rs rb : list Z).
Context (shops5 : length rs = SHOP_COUNT) (buyers3 : Z.of_nat (length rb) = BUYER_COUNT).
Context (rand_rs : Forall (fun r => 0 <= r) rs) (rand_rb : Forall (fun r => 0 <= r) rb).

Definition goods0 : Z := total (pick 400 600 <$> rs).
Definition wants0 : list Z := pick 9000 11000 <$> rb.

Lemma start_buyer b t : imap new_buyer rb !! b = Some t ->
  at_ t = BTest /\ paid t = 0 /\ 9000 <= demand (self t) <= 11000.
Proof using All.
  rewrite list_lookup_imap. destruct (rb !! b) as [r|] eqn:E; [|done]. cbn. intros [= <-]. cbn.
  split_and!; try done; apply pick_range; try lia; rewrite Forall_lookup in rand_rb; by eapply rand_rb.
Qed.

Lemma shops_start_inv : inv goods0 wants0 (start rs rb).
Proof using All.
  assert (Hin : forall t, t ∈ imap new_buyer rb -> at_ t = BTest /\ paid t = 0 /\ 9000 <= demand (self t) <= 11000)
    by (intros t [b Hb]%list_elem_of_lookup; by eapply start_buyer).
  split; cbn -[pick replicate]; try done.
  - by rewrite length_fmap.
  - by rewrite length_imap.
  - rewrite (total_zeros paid); [unfold goods0; lia|]. intros t Ht. by apply Hin in Ht as (_ & -> & _).
  - apply list_eq. intros b. unfold wants0. rewrite !list_lookup_fmap, list_lookup_imap.
    destruct (rb !! b); [|done]. cbn. by rewrite Z.add_0_r.
  - apply Forall_fmap. eapply Forall_impl; [exact rand_rs|]. intros r Hr. cbn.
    pose proof (pick_range 400 600 r ltac:(lia) Hr) as Hp. change (500 * 0) with 0. split; lia.
  - apply Forall_forall. intros t (Hpc & Hp & Hd)%Hin. split; try lia; rewrite ?Hpc; intros; destruct_or?; done.
  - intros i th. rewrite lookup_replicate. split; [by intros [[=] _]|].
    unfold in_shop. destruct th as [b|]; [|done]. cbn.
    destruct (imap new_buyer rb !! b) as [t|] eqn:E; [|done]. apply start_buyer in E as (E & _). cbn. by rewrite E.
  - intros th. split; [done|]. unfold counting. destruct th as [b|]; [|done]. cbn.
    destruct (imap new_buyer rb !! b) as [t|] eqn:E; [|done]. apply start_buyer in E as (E & _). cbn. by rewrite E.
  - symmetry. unfold count_of. apply total_zeros. intros t (Hpc & _)%Hin. unfold ended. by rewrite Hpc.
  - intros i [?|?]; done.
  - by intros k [= <-].
  - unfold joined. cbn. lia.
Qed.

Lemma shops_reachable w : rtc step (start rs rb) w -> inv goods0 wants0 w.
Proof using All.
  intros H. pose proof shops_start_inv as Hi. induction H; [done|]. apply IHrtc; [done..|]. by eapply inv_world_step.
Qed.

(** C18 In every state the threads can reach, no goods appear or vanish: what is in the
    shops and what the buyers have bought is what was there at first and 500 for every
    delivery; every buyer's demand and purchases add up to the demand it came with, no
    stock is negative, and no two threads are in the section of the same shop, or of the
    counter. When [main] ends, every buyer has bought all it wanted. *)
Theorem shops_consistent w :
  rtc step (start rs rb) w ->
  total (shop w) + total (paid <$> buyers w) = goods0 + 500 * delivered w /\
  (fun t => demand (self t) + paid t) <$> buyers w = wants0 /\
  Forall (fun s => 0 <= s) (shop w) /\
  (forall i th th', in_shop w th = Some i -> in_shop w th' = Some i -> th = th') /\
  (forall th th', counting w th = true -> counting w th' = true -> th = th') /\
  (main w = MEnd -> loader w = LEnd /\ paid <$> buyers w = wants0).
Proof using All.
  intros H. destruct (shops_reachable w H). split_and!; try done.
  - eapply Forall_impl; [exact iv_stock0|]. cbn. lia.
  - intros i th th' H1%iv_inside0 H2%iv_inside0. congruence.
  - intros th th' H1%iv_counting0 H2%iv_counting0. congruence.
  - intros E. split; [auto|]. rewrite <- iv_wants0. apply list_fmap_ext. intros b t Hb.
    rewrite Forall_lookup in iv_buyer0. destruct (iv_buyer0 b t Hb) as [_ _ Hd _]. rewrite Hd; [lia|].
    right; right. apply (iv_joined0 b t); [|done]. unfold joined. rewrite E. by eapply lookup_lt_Some.
Qed.
(** C25 The threads never block one another for good: as long as the loader has made fewer
    than four million deliveries, which keeps the stocks in an [int], every state that can
    be reached has a next step or is the end of the program, where all has been bought. *)
Theorem shops_never_deadlock w :
  rtc step (start rs rb) w -> delivered w < 4000000 ->
  (main w = MEnd /\ paid <$> buyers w = wants0) \/ exists w', step w w'.
Proof using All.
  intros H Hd. apply shops_reachable in H. assert (Hb : Forall (fun d => d < 2 ^ 31) wants0).
  { apply Forall_fmap. eapply Forall_impl; [exact rand_rb|]. intros r Hr. cbn -[pick].
    pose proof (pick_range 9000 11000 r ltac:(lia) Hr). lia. }
  pose proof (inv_progress _ _ _ H Hd Hb) as Hp. clear Hb.
  destruct Hp as [Hm|Hp]; [left|by right]. split; [done|]. destruct H.
  rewrite <- iv_wants0. apply list_fmap_ext. intros b t Hb.
  rewrite Forall_lookup in iv_buyer0. destruct (iv_buyer0 b t Hb) as [_ _ He _]. rewrite He; [lia|].
  right; right. apply (iv_joined0 b t); [|done]. unfold joined. rewrite Hm. by eapply lookup_lt_Some.
Qed.
End runs.

(** * A first purchase *)

Definition demo0 : world := start (replicate 5 0) (replicate 3 0).
(** The first buyer has emptied the first shop and sleeps. *)
Definition demo : world :=
  World [0; 400; 400; 400; 400] (replicate 5 None) 0 None
    (<[0%nat := BuyerThread (MkBuyer 1 8600) BSleep 400]> (buyers demo0)) LLock (MJoinBuyer 0) 0.

Lemma demo_reachable : rtc step demo0 demo.
Proof.
  eapply rtc_l; [eapply (step_buyer _ 0); [done|by apply b_enter]|].
  eapply rtc_l; [eapply (step_buyer _ 0); [done|by eapply (b_lock _ _ _ 0)]|].
  eapply rtc_l; [eapply (step_buyer _ 0); [done|by eapply (b_visit _ _ _ 0)]|].
  apply rtc_refl.
Qed.

Lemma shops_consistent_witness :
  rtc step demo0 demo /\ paid <$> buyers demo = [400; 0; 0] /\
  total (shop demo) + total (paid <$> buyers demo) = goods0 (replicate 5 0) + 500 * delivered demo.
Proof.
  split; [apply demo_reachable|]. split; [done|].
  apply (shops_consistent (replicate 5 0) (replicate 3 0)); [done|done|by repeat constructor|by repeat constructor|].
  apply demo_reachable.
Defined.

Lemma shops_never_deadlock_witness : exists w', step demo w'.
Proof.
  destruct (shops_never_deadlock (replicate 5 0) (replicate 3 0) eq_refl eq_refl
    ltac:(by repeat constructor) ltac:(by repeat constructor) demo demo_reachable ltac:(done)) as [[Hm _]|H]; [done|exact H].
Defined.
