(* ===== verification/Console.v ===== *)
(** Programs of the homework that talk to a terminal: they consume the bytes of standard
    input, print lines, may have no defined meaning, and may call [exit]. *)

From S2P Require Import Prelude CInt CStr Stdio.

(** What a [printf] shows: its format and the texts of its arguments. *)
Definition line : Type := string * list (list Z).

(** A program from the input to its value, or the status it exits with, the input that is
    left and the lines printed. *)
Definition console (A : Type) : Type := list Z -> outcome ((A + Z) * list Z * list line).

#[export] Instance console_ret : MRet console := fun A a s => Done (inl a, s, []).

#[export] Instance console_bind : MBind console := fun A B f m s =>
  match m s with
  | Done (inl a, s', out) =>
      match f a s' with
      | Done (r, s'', out') => Done (r, s'', out ++ out')
      | Undef u => Undef u
      end
  | Done (inr status, s', out) => Done (inr status, s', out)
  | Undef u => Undef u
  end.

Definition say (ls : list line) : console unit := fun s => Done (inl tt, s, ls).
Definition printf (fmt : string) (args : list (list Z)) : console unit := say [(fmt, args)].

Definition exit_with {A} (status : Z) : console A := fun s => Done (inr status, s, []).

Definition lift {A} (m : outcome A) : console A :=
  fun s => match m with Done a => Done (inl a, s, []) | Undef u => Undef u end.

(** [scanf("%d", &i)]: the value, if one was converted. *)
Definition scan_d : console (option Z) := fun s =>
  match scanf_d s with
  | Done (Matched z rest) => Done (inl (Some z), rest, [])
  | Done (NoMatch rest) => Done (inl None, rest, [])
  | Done AtEof => Done (inl None, [], [])
  | Undef u => Undef u
  end.

(** [scanf("%<w>s", a)]: the array afterwards, if a token was converted. *)
Definition scan_s (width : option nat) (a : list Z) : console (option (list Z)) := fun s =>
  match scanf_s width a s with
  | Done (Matched a' rest) => Done (inl (Some a'), rest, [])
  | Done (NoMatch rest) => Done (inl None, rest, [])
  | Done AtEof => Done (inl None, [], [])
  | Undef u => Undef u
  end.

Definition get_char : console unit := fun s => Done (inl tt, getchar s, []).

(** [for (x : l) body]. *)
Fixpoint each {A S} (l : list A) (body : A -> S -> console S) (st : S) : console S :=
  match l with
  | [] => mret st
  | x :: l' => st' ← body x st; each l' body st'
  end.

(** [do body while (...)], at most [fuel] rounds: [None] when they are used up. *)
Fixpoint rounds {S A} (fuel : nat) (body : S -> console (S + A)) (st : S) : console (option A) :=
  match fuel with
  | O => mret None
  | Datatypes.S n =>
      r ← body st;
      match r with inl st' => rounds n body st' | inr a => mret (Some a) end
  end.

(** The same, with the state the loop has reached when the rounds are used up. *)
Fixpoint rounds_state {S A} (fuel : nat) (body : S -> console (S + A)) (st : S) : console (S + A) :=
  match fuel with
  | O => mret (inl st)
  | Datatypes.S n =>
      r ← body st;
      match r with inl st' => rounds_state n body st' | inr a => mret (inr a) end
  end.

(** * Rules *)

(** [m] from [s] ends with [r], leaves [s'] and prints [out]. *)
Definition ends {A} (m : console A) (s : list Z) (r : A + Z) (s' : list Z) (out : list line) : Prop :=
  m s = Done (r, s', out).

Lemma ends_ret {A} (a : A) s : ends (mret a) s (inl a) s [].
Proof. done. Qed.

Lemma ends_printf fmt args s : ends (printf fmt args) s (inl tt) s [(fmt, args)].
Proof. done. Qed.

Lemma ends_lift {A} (m : outcome A) a s : m = Done a -> ends (lift m) s (inl a) s [].
Proof. intros ->. done. Qed.

Lemma ends_bind {A B} (m : console A) (f : A -> console B) s a s1 o1 r s2 o2 :
  ends m s (inl a) s1 o1 -> ends (f a) s1 r s2 o2 -> ends (m ≫= f) s r s2 (o1 ++ o2).
Proof. unfold ends. intros H1 H2. unfold mbind, console_bind. by rewrite H1, H2. Qed.

Lemma ends_exit {A B} (m : console A) (f : A -> console B) s c s1 o1 :
  ends m s (inr c) s1 o1 -> ends (m ≫= f) s (inr c) s1 o1.
Proof. unfold ends. intros H1. unfold mbind, console_bind. by rewrite H1. Qed.

(** What a sequence that ends has done. *)
Lemma ends_bind_inv {A B} (m : console A) (f : A -> console B) s r s2 o :
  ends (m ≫= f) s r s2 o ->
  (exists c, r = inr c /\ ends m s (inr c) s2 o) \/
  (exists a s1 o1 o2, ends m s (inl a) s1 o1 /\ ends (f a) s1 r s2 o2 /\ o = o1 ++ o2).
Proof.
  unfold ends, mbind, console_bind. destruct (m s) as [[[[a|c] s1] o1]|u]; [| |done].
  - destruct (f a s1) as [[[r' s'] o']|u] eqn:E; [|done]. intros [= <- <- <-]. right. by exists a, s1, o1, o'.
  - intros [= <- <- <-]. left. by exists c.
Qed.

(** What [rounds] gives for a result of [rounds_state]. *)
Definition without_state {S A} (r : (S + A) + Z) : option A + Z :=
  match r with inl (inl _) => inl None | inl (inr a) => inl (Some a) | inr c => inr c end.

Lemma rounds_of_state {S A} fuel (body : S -> console (S + A)) st s r s' out :
  ends (rounds_state fuel body st) s r s' out -> ends (rounds fuel body st) s (without_state r) s' out.
Proof.
  revert st s r s' out. induction fuel as [|n IH]; intros st s r s' out; cbn [rounds_state rounds].
  { by intros [= <- <- <-]. }
  intros H. apply ends_bind_inv in H as [(c & -> & H)|(a & s1 & o1 & o2 & H1 & H2 & ->)]; [by apply ends_exit|].
  eapply ends_bind; [exact H1|]. destruct a as [st'|a]; [by apply IH|by injection H2 as <- <- <-].
Qed.

Lemma console_bind_assoc {A B C} (m : console A) (f : A -> console B) (g : B -> console C) s :
  ((m ≫= f) ≫= g) s = (m ≫= fun a => f a ≫= g) s.
Proof.
  unfold mbind, console_bind. destruct (m s) as [[[[a|c] s1] o1]|u]; [|done..].
  destruct (f a s1) as [[[[b|c] s2] o2]|u]; [|done..]. destruct (g b s2) as [[[r s3] o3]|u]; [|done].
  by rewrite app_assoc.
Qed.

(** The rows of a listing: the lines with four arguments. *)
Definition is_row (l : line) : Prop := length l.2 = 4%nat.
#[export] Instance is_row_dec l : Decision (is_row l).
Proof. unfold is_row. apply _. Defined.
Definition shown (out : list line) : list (list (list Z)) := snd <$> filter is_row out.

Lemma shown_app o1 o2 : shown (o1 ++ o2) = shown o1 ++ shown o2.
Proof. unfold shown. by rewrite filter_app, fmap_app. Qed.
