(* ===== verification/PhoneBook.v ===== *)
(** The phone book of src/hw4 and src/hw5: an array of records behind a menu. The menu is
    written against the interface [Book], which the doubly linked list of src/hw6
    (PhoneList.v) implements as well; the specification is a book that is a list. *)

From S2P Require Import Prelude CInt CStr Stdio Console.

(** * The interface and its client, the menu *)

Class Book (B : Type) := {
  print_menu : console unit;
  add : B -> console B;
  remove : B -> console B;
  find : B -> console unit;
  show_all : B -> console unit;
  finish : B -> console unit;
  complain : console unit }.

(** One round of the [do] loop of [main] (src/hw5/hw5.c, src/hw6/hw6.c): [choice] keeps its
    value when no number is read, and has none at first. *)
Definition menu_round {B} `{Book B} (st : B * option Z) : console ((B * option Z) + B) :=
  let '(b, choice) := st in
  print_menu;;
  c ← scan_d;
  let choice := match c with Some v => Some v | None => choice end in
  v ← lift (of_option Uninitialised choice);
  b ← (if v =? 1 then add b
       else if v =? 2 then remove b
       else if v =? 3 then find b;; mret b
       else if v =? 4 then show_all b;; mret b
       else if v =? 5 then finish b;; mret b
       else complain;; mret b);
  mret (if negb (v =? 5) then inl (b, choice) else inr b).

Definition menu {B} `{Book B} (fuel : nat) (b : B) : console (option B) := rounds fuel menu_round (b, None).

(** The menu with the book and the choice it has after [fuel] rounds. *)
Definition menu_state {B} `{Book B} (fuel : nat) (b : B) : console ((B * option Z) + B) :=
  rounds_state fuel menu_round (b, None).

(** * The specification: a list of entries *)

Record entry := Entry { e_name : list Z; e_second : list Z; e_tel : list Z }.

(** What the implementations differ in: how many entries there is room for, the width of
    the conversions, whether a [getchar] follows them, and whether the entries are
    allocated one by one; if they are, adding to a full book and choice 5 call [exit]. *)
Record policy := Policy { capacity : option Z; width : option nat; chews : bool; allocated : bool }.

(** A token of at most nine bytes. Longer ones and the end of the input are left open. *)
Definition spec_token (w : option nat) : console (list Z) := fun s =>
  match scan_token w s with
  | Matched tok rest => if (length tok <? 10)%nat then Done (inl (cstr tok), rest, []) else Undef OutOfBounds
  | _ => Undef Uninitialised
  end.

Section spec.
Context (pol : policy).

Definition spec_chew : console unit := if chews pol then get_char else mret tt.

Definition full (es : list entry) : bool :=
  match capacity pol with Some c => c <=? Z.of_nat (length es) | None => false end.

Definition spec_add (es : list entry) : console (list entry) :=
  if full es then if allocated pol then exit_with 1 else mret es
  else
    n ← spec_token (width pol); spec_chew;;
    f ← spec_token (width pol); spec_chew;;
    t ← spec_token (width pol);
    mret (es ++ [Entry n f t]).

(** Removing from a full array is left open. *)
Definition spec_remove (es : list entry) : console (list entry) :=
  d ← scan_d;
  d ← lift (of_option Uninitialised d);
  if (d <=? 0) || (Z.of_nat (length es) <? d) then mret es
  else if full es && negb (allocated pol) then lift (Undef OutOfBounds)
  else mret (delete (Z.to_nat (d - 1)) es).

Definition row (i : Z) (e : entry) : line := ("row"%string, [print_d i; e_name e; e_second e; e_tel e]).

Fixpoint rows_from (i : Z) (p : entry -> bool) (es : list entry) : list line :=
  match es with
  | [] => []
  | e :: es' => (if p e then [row i e] else []) ++ rows_from (i + 1) p es'
  end.

Definition spec_find (es : list entry) : console unit :=
  n ← spec_token (Some 9%nat); spec_chew;;
  say (rows_from 1 (fun e => bool_decide (e_name e = n)) es).

Definition spec_show (es : list entry) : console unit := say (rows_from 1 (fun _ => true) es).

Definition spec_finish (es : list entry) : console unit := if allocated pol then exit_with 0 else mret tt.

#[local] Instance spec_book : Book (list entry) := {|
  print_menu := mret tt; add := spec_add; remove := spec_remove; find := spec_find;
  show_all := spec_show; finish := spec_finish; complain := mret tt |}.

Definition spec_menu (fuel : nat) (es : list entry) : console (option (list entry)) := menu fuel es.
Definition spec_menu_state (fuel : nat) (es : list entry) : console ((list entry * option Z) + list entry) :=
  menu_state fuel es.

(** * What an implementation promises *)

(** [m] does what [m'] specifies: it ends whenever that ends, leaves the same input, shows
    the same rows, and its value is related. *)
Definition meets {A A'} (R : A -> A' -> Prop) (m : console A) (m' : console A') : Prop :=
  forall s r s' out, ends m' s r s' out ->
    exists r0 out0, ends m s r0 s' out0 /\ shown out0 = shown out /\
      match r0, r with
      | inl a, inl a' => R a a'
      | inr c, inr c' => c = c'
      | _, _ => False
      end.

Definition any {A A'} (_ : A) (_ : A') : Prop := True.

Class BookSpec (B : Type) `{Book B} (R : B -> list entry -> Prop) := {
  add_meets b es : R b es -> meets R (add b) (spec_add es);
  remove_meets b es : R b es -> meets R (remove b) (spec_remove es);
  find_meets b es : R b es -> meets any (find b) (spec_find es);
  show_meets b es : R b es -> meets any (show_all b) (spec_show es);
  finish_meets b es : R b es -> meets any (finish b) (spec_finish es);
  menu_meets : meets any print_menu (mret tt);
  complain_meets : meets any complain (mret tt) }.

Lemma meets_ret {A A'} (R : A -> A' -> Prop) a a' : R a a' -> meets R (mret a) (mret a').
Proof. intros HR s r s' out [= <- <- <-]. exists (inl a), []. by split_and!. Qed.

Lemma meets_bind {A A' B B'} (R : A -> A' -> Prop) (S : B -> B' -> Prop) m m' (f : A -> console B) (f' : A' -> console B') :
  meets R m m' -> (forall a a', R a a' -> meets S (f a) (f' a')) -> meets S (m ≫= f) (m' ≫= f').
Proof.
  intros Hm Hf s r s' out H. apply ends_bind_inv in H as [(c & -> & H)|(a' & s1 & o1 & o2 & H1 & H2 & ->)].
  - destruct (Hm _ _ _ _ H) as ([a|c'] & o & He & Ho & Hr); [done|]. subst c'.
    exists (inr c), o. split_and!; try done. by apply ends_exit.
  - destruct (Hm _ _ _ _ H1) as ([a|c'] & o & He & Ho & Hr); [|done].
    destruct (Hf a a' Hr _ _ _ _ H2) as (r0 & o' & He' & Ho' & Hr'). exists r0, (o ++ o').
    split_and!; [by eapply ends_bind|by rewrite !shown_app, Ho, Ho'|done].
Qed.

(** A line that is no row is not seen. *)
Lemma meets_printf {A'} (R : unit -> A' -> Prop) fmt args a' :
  length args <> 4%nat -> R tt a' -> meets R (printf fmt args) (mret a').
Proof.
  intros Hl HR s r s' out [= <- <- <-]. exists (inl tt), [(fmt, args)]. split_and!; [done| |done].
  unfold shown. rewrite filter_cons_False, filter_nil; [done|]. unfold is_row. cbn. done.
Qed.

Lemma meets_refl {A} (m : console A) : meets eq m m.
Proof. intros s r s' out H. exists r, out. split_and!; try done. by destruct r. Qed.

Lemma meets_lift {A A'} (R : A -> A' -> Prop) (m : outcome A) m' :
  (forall a', m' = Done a' -> exists a, m = Done a /\ R a a') -> meets R (lift m) (lift m').
Proof.
  intros Hm s r s' out H. unfold ends, lift in H. destruct m' as [a'|]; [|done]. injection H as <- <- <-.
  destruct (Hm a' eq_refl) as (a & -> & HR). exists (inl a), []. by split_and!.
Qed.

(** Where choice 5 exits, the loop never ends by itself. *)
Lemma spec_never_returns fuel st s es s' out :
  allocated pol = true -> ~ ends (rounds_state fuel menu_round st) s (inl (inr es)) s' out.
Proof.
  intros Hal. revert st s s' out. induction fuel as [|n IH]; intros st s s' out; cbn [rounds_state]; [done|].
  intros H. apply ends_bind_inv in H as [(c & [=] & _)|(a & s1 & o1 & o2 & H1 & H2 & ->)].
  destruct a as [st'|a]; [by apply IH in H2|]. injection H2 as <- <- <-. clear IH.
  destruct st as [b ch]. unfold menu_round in H1.
  apply ends_bind_inv in H1 as [(c & [=] & _)|(? & ? & ? & ? & _ & H1 & _)].
  apply ends_bind_inv in H1 as [(c & [=] & _)|(? & ? & ? & ? & _ & H1 & _)].
  apply ends_bind_inv in H1 as [(c & [=] & _)|(v & ? & ? & ? & _ & H1 & _)].
  apply ends_bind_inv in H1 as [(c & [=] & _)|(b' & ? & ? & ? & Hb & H1 & _)].
  injection H1 as H1 _ _. destruct (Z.eqb_spec v 5) as [->|]; [|done]. cbn [Z.eqb Pos.eqb] in Hb.
  apply ends_bind_inv in Hb as [(c & [=] & _)|(? & ? & ? & ? & Hf & _ & _)].
  cbn in Hf. unfold spec_finish in Hf. by rewrite Hal in Hf.
Qed.

Section client.
Context {B : Type} `{BookSpec B R}.

Definition state_rel (st : B * option Z) (st' : list entry * option Z) : Prop := R st.1 st'.1 /\ st.2 = st'.2.

Definition round_rel (r : (B * option Z) + B) (r' : (list entry * option Z) + list entry) : Prop :=
  match r, r' with
  | inl st, inl st' => state_rel st st'
  | inr b, inr es => R b es
  | _, _ => False
  end.

Definition end_rel (r : option B) (r' : option (list entry)) : Prop :=
  match r, r' with Some b, Some es => R b es | None, None => True | _, _ => False end.

Lemma round_meets st st' : state_rel st st' -> meets round_rel (menu_round st) (menu_round st').
Proof.
  destruct st as [b ch], st' as [es ch']. intros [HR E]. cbn in HR, E. subst ch'. unfold menu_round.
  eapply meets_bind; [apply menu_meets|intros _ _ _].
  eapply meets_bind; [apply meets_refl|intros c _ <-].
  eapply meets_bind; [apply meets_refl|intros v _ <-].
  apply (meets_bind R).
  - repeat case_match; try by apply add_meets. all: try by apply remove_meets.
    all: first [ eapply meets_bind; [by apply find_meets|intros; by apply meets_ret]
               | eapply meets_bind; [by apply show_meets|intros; by apply meets_ret]
               | eapply meets_bind; [by apply finish_meets|intros; by apply meets_ret]
               | eapply meets_bind; [by apply complain_meets|intros; by apply meets_ret] ].
  - intros b' es' HR'. apply meets_ret. by case_match.
Qed.

Lemma rounds_meet fuel st st' : state_rel st st' ->
  meets end_rel (rounds fuel menu_round st) (rounds fuel menu_round st').
Proof.
  revert st st'. induction fuel as [|n IH]; intros st st' HR; cbn [rounds]; [by apply meets_ret|].
  eapply meets_bind; [by apply round_meets|]. intros [r|r] [r'|r'] Hr; try done; [by apply IH|by apply meets_ret].
Qed.

Lemma rounds_state_meet fuel st st' : state_rel st st' ->
  meets round_rel (rounds_state fuel menu_round st) (rounds_state fuel menu_round st').
Proof.
  revert st st'. induction fuel as [|n IH]; intros st st' HR; cbn [rounds_state]; [by apply meets_ret|].
  eapply meets_bind; [by apply round_meets|]. intros [r|r] [r'|r'] Hr; try done; [by apply IH|by apply meets_ret].
Qed.

Lemma menu_state_refines fuel b es : R b es -> meets round_rel (menu_state fuel b) (spec_menu_state fuel es).
Proof. intros HR. by apply rounds_state_meet. Qed.

Lemma menu_refines fuel b es : R b es -> meets end_rel (menu fuel b) (spec_menu fuel es).
Proof. intros HR. by apply rounds_meet. Qed.
End client.
End spec.

(** ** Steps only the implementation makes *)

Lemma meets_left {A A' B} (R : A -> A' -> Prop) (m : console B) b (f : B -> console A) m' o :
  (forall s, ends m s (inl b) s o) -> shown o = [] -> meets R (f b) m' -> meets R (m ≫= f) m'.
Proof.
  intros Hm Ho Hf s r s' out H. destruct (Hf _ _ _ _ H) as (r0 & o0 & He & Ho0 & Hr).
  exists r0, (o ++ o0). split_and!; [by eapply ends_bind|by rewrite shown_app, Ho|done].
Qed.

Lemma shown_other fmt args : length args <> 4%nat -> shown [(fmt, args)] = [].
Proof. intros H. unfold shown. rewrite filter_cons_False, filter_nil; done. Qed.

Lemma shown_row fmt args : length args = 4%nat -> shown [(fmt, args)] = [args].
Proof. intros H. unfold shown. by rewrite filter_cons_True, filter_nil. Qed.

Lemma meets_say {A A'} (R : A -> A' -> Prop) fmt args (m : console A) m' :
  length args <> 4%nat -> meets R m m' -> meets R (printf fmt args;; m) m'.
Proof.
  intros Hl. apply (meets_left R (printf fmt args) tt (fun _ => m) m' [(fmt, args)]); [done|by apply shown_other].
Qed.

Lemma meets_lifted {A A' B} (R : A -> A' -> Prop) (o : outcome B) b (f : B -> console A) m' :
  o = Done b -> meets R (f b) m' -> meets R (lift o ≫= f) m'.
Proof. intros ->. by apply (meets_left R (lift (Done b)) b f m' []). Qed.

Lemma meets_left_ret {A A' B} (R : A -> A' -> Prop) (b : B) (f : B -> console A) m' :
  meets R (f b) m' -> meets R (mret b ≫= f) m'.
Proof. by apply (meets_left R (mret b) b f m' []). Qed.

Lemma meets_assoc {A A' B C} (R : A -> A' -> Prop) (m : console B) (f : B -> console C) (g : C -> console A) m' :
  meets R (m ≫= fun b => f b ≫= g) m' -> meets R ((m ≫= f) ≫= g) m'.
Proof.
  intros H s r s' out He. destruct (H s r s' out He) as (r0 & o0 & He0 & Hr). exists r0, o0.
  split; [|done]. unfold ends in *. by rewrite console_bind_assoc.
Qed.

Lemma meets_exit {A A' B} (R : A -> A' -> Prop) c (f : B -> console A) :
  meets R (exit_with c ≫= f) (exit_with (A := A') c).
Proof. intros s r s' out [= <- <- <-]. by exists (inr c), []. Qed.

Lemma meets_right_ret {A A' B} (R : A -> A' -> Prop) (m : console A) (b : B) f :
  meets R m (f b) -> meets R m (mret b ≫= f).
Proof.
  intros H s r s' out He. apply ends_bind_inv in He as [(c & -> & He)|(b' & s1 & o1 & o2 & He1 & He2 & ->)]; [done|].
  injection He1 as <- <- <-. by apply H.
Qed.

(** A field the conversion has filled. *)
Definition holds (o : option (list Z)) (t : list Z) : Prop :=
  exists a, o = Some a /\ length a = 10%nat /\ terminated a /\ cstr a = t.

Lemma cstr_snoc s r : cstr (s ++ 0 :: r) = cstr s.
Proof.
  unfold cstr. induction s as [|b s IH]; [done|]. cbn [app span].
  destruct (nonzero b); [|done]. by destruct (span nonzero (s ++ 0 :: r)), (span nonzero s); cbn in *; subst.
Qed.

Lemma scan_meets w a : length a = 10%nat -> meets holds (scan_s w a) (spec_token w).
Proof.
  intros Ha s r s' out H. unfold ends, spec_token in H. unfold ends, scan_s, scanf_s.
  destruct (scan_token w s) as [tok rest| |]; [|done..].
  destruct (Nat.ltb_spec (length tok) 10); [|done]. injection H as <- <- <-.
  rewrite put_at_ok by len. cbn [mbind outcome_bind].
  eexists (inl (Some _)), []. split_and!; [done..|]. eexists. split; [done|].
  change (Z.to_nat 0) with 0%nat. rewrite take_0, app_nil_l. split_and!.
  - len.
  - apply elem_of_app. left. apply elem_of_app. right. by left.
  - rewrite <- app_assoc. apply cstr_snoc.
Qed.

(** * The array of src/hw5 *)

Record abonent := MkAbonent { name : list Z; second_name : list Z; tel : list Z }.

(** [call_book] and [count]. *)
Record book := MkBook { call_book : list abonent; count : Z }.

(** The globals at the start. *)
Definition init_book : book := MkBook (replicate 100 (MkAbonent (replicate 10 0) (replicate 10 0) (replicate 10 0))) 0.

(** [while (s1[i] != 0 || s2[i] != 0) { if (s1[i] != s2[i]) return 0; i++; } return 1]. *)
Fixpoint searchName (s1 s2 : list Z) : outcome bool :=
  match s1, s2 with
  | x :: s1', y :: s2' =>
      if negb (x =? 0) || negb (y =? 0) then
        if negb (x =? y) then Done false else searchName s1' s2'
      else Done true
  | _, _ => Undef OutOfBounds
  end.

Definition printMenu : console unit :=
  printf "\nMenu: \n" [];;
  printf "1. Добавить абонента\n" [];;
  printf "2. Удалить абонента\n" [];;
  printf "3. Поиск абонентов по имени\n" [];;
  printf "4. Вывод всех записей\n" [];;
  printf "5. Выход\n" [];;
  printf "Ваш выбор: " [].

(** An array a conversion did not fill keeps what it held. *)
Definition filled (old : list Z) (o : option (list Z)) : list Z := default old o.

Definition addAbonent (b : book) : console book :=
  if 100 <=? count b then printf "Справочник переполнен!\n" [];; mret b
  else
    printf "=========================\n" [];;
    printf "Введите данные абонента.\n" [];;
    printf "Имя: " [];;
    a ← lift (znth (call_book b) (count b));
    n ← scan_s None (name a);
    get_char;;
    printf "Фамилия: " [];;
    f ← scan_s None (second_name a);
    get_char;;
    printf "Телефон: " [];;
    t ← scan_s None (tel a);
    c ← lift (zset (call_book b) (count b) (MkAbonent (filled (name a) n) (filled (second_name a) f) (filled (tel a) t)));
    k ← lift (iadd (count b) 1);
    mret (MkBook c k).

(** The loop that empties the fields of [call_book[i]]. *)
Definition erase (c : list abonent) (i : Z) : outcome (list abonent) :=
  for_z 10 0 (fun k c =>
    a ← znth c i;
    n ← zset (name a) k 0;
    f ← zset (second_name a) k 0;
    t ← zset (tel a) k 0;
    zset c i (MkAbonent n f t)) c.

(** The loop that moves the entries after [i] down. *)
Definition shift (c : list abonent) (i n : Z) : outcome (list abonent) :=
  for_z (Z.to_nat (n - i)) i (fun k c => a ← znth c (k + 1); zset c k a) c.

Definition deleteAbonent (b : book) : console book :=
  printf "Введите номер удаляемого абонента: " [];;
  d ← scan_d;
  delete_number ← lift (of_option Uninitialised d);
  if (delete_number <=? 0) || (count b <? delete_number) then printf "Неверный номер!\n" [];; mret b
  else
    c ← lift (erase (call_book b) (delete_number - 1));
    c ← lift (shift c (delete_number - 1) (count b));
    k ← lift (isub (count b) 1);
    mret (MkBook c k).

Definition print_abonent (fmt : string) (i : Z) (a : abonent) : console unit :=
  n ← lift (chars (name a));
  f ← lift (chars (second_name a));
  t ← lift (chars (tel a));
  printf fmt [print_d (i + 1); n; f; t].

Definition findAbonent (b : book) : console unit :=
  printf "Введите имя абонента: " [];;
  o ← scan_s (Some 9%nat) (replicate 10 0);
  get_char;;
  printf "\nРезультат поиска: \n" [];;
  found ← each (seqZ 0 (count b)) (fun i found =>
    a ← lift (znth (call_book b) i);
    find ← lift (of_option Uninitialised o);
    eq ← lift (searchName (name a) find);
    if eq : bool then print_abonent "# %d\tИмя:  %s\tФамилия: %s\tТел: %s\n" i a;; mret true
    else mret found) false;
  if found : bool then mret tt else printf "Ничего не найдено.\n" [].

Definition showAllAbonent (b : book) : console unit :=
  printf "\nВсе абоненты: \n" [];;
  each (seqZ 0 (count b)) (fun i _ =>
    a ← lift (znth (call_book b) i);
    print_abonent "# %d\tName: %s\tSecond Name: %s\tTel: %s\n" i a) tt.

#[export] Instance array_book : Book book := {|
  print_menu := printMenu; add := addAbonent; remove := deleteAbonent; find := findAbonent;
  show_all := showAllAbonent; finish := fun _ => mret tt;
  complain := printf "\nВы ввели неверное значение, попробуйте еще.\n" [] |}.

(** [main] of src/hw5/hw5.c. *)
Definition main (fuel : nat) : console (option book) := menu fuel init_book.

(** * The one function of src/hw4 *)

(** [search_name] *)
Fixpoint search_name (s1 s2 : list Z) : outcome bool :=
  match s1, s2 with
  | x :: s1', y :: s2' =>
      if negb (x =? 0) || negb (y =? 0) then
        if negb (x =? y) then Done false else search_name s1' s2'
      else Done true
  | _, _ => Undef OutOfBounds
  end.

(** One round of the [do] loop of [main], whose cases are written out. *)
Definition hw4_round (st : book * option Z) : console ((book * option Z) + book) :=
  let '(b, choice) := st in
  (printf "\nMenu: \n" [];;
   printf "1. Добавить абонента\n" [];;
   printf "2. Удалить абонента\n" [];;
   printf "3. Поиск абонентов по имени\n" [];;
   printf "4. Вывод всех записей\n" [];;
   printf "5. Выход\n" [];;
   printf "Ваш выбор: " []);;
  c ← scan_d;
  let choice := match c with Some v => Some v | None => choice end in
  v ← lift (of_option Uninitialised choice);
  b ← (if v =? 1 then
         if 100 <=? count b then printf "Справочник переполнен!\n" [];; mret b
         else
           printf "=========================\n" [];;
           printf "Введите данные абонента.\n" [];;
           printf "Имя: " [];;
           a ← lift (znth (call_book b) (count b));
           n ← scan_s None (name a);
           get_char;;
           printf "Фамилия: " [];;
           f ← scan_s None (second_name a);
           get_char;;
           printf "Телефон: " [];;
           t ← scan_s None (tel a);
           c ← lift (zset (call_book b) (count b) (MkAbonent (filled (name a) n) (filled (second_name a) f) (filled (tel a) t)));
           k ← lift (iadd (count b) 1);
           mret (MkBook c k)
       else if v =? 2 then
         printf "Введите номер удаляемого абонента: " [];;
         d ← scan_d;
         delete_number ← lift (of_option Uninitialised d);
         if (delete_number <=? 0) || (count b <? delete_number) then printf "Неверный номер!\n" [];; mret b
         else
           c ← lift (for_z 10 0 (fun k c =>
                  a ← znth c (delete_number - 1);
                  n ← zset (name a) k 0;
                  f ← zset (second_name a) k 0;
                  t ← zset (tel a) k 0;
                  zset c (delete_number - 1) (MkAbonent n f t)) (call_book b));
           c ← lift (for_z (Z.to_nat (count b - (delete_number - 1))) (delete_number - 1)
                  (fun k c => a ← znth c (k + 1); zset c k a) c);
           k ← lift (isub (count b) 1);
           mret (MkBook c k)
       else if v =? 3 then
         (printf "Введите имя абонента: " [];;
          o ← scan_s (Some 9%nat) (replicate 10 0);
          get_char;;
          printf "\nРезультат поиска: \n" [];;
          found ← each (seqZ 0 (count b)) (fun i found =>
            a ← lift (znth (call_book b) i);
            find ← lift (of_option Uninitialised o);
            eq ← lift (search_name (name a) find);
            if eq : bool then print_abonent "# %d\tИмя:  %s\tФамилия: %s\tТел: %s\n" i a;; mret true
            else mret found) false;
          if found : bool then mret tt else printf "Ничего не найдено.\n" []);;
         mret b
       else if v =? 4 then
         (printf "\nВсе абоненты: \n" [];;
          each (seqZ 0 (count b)) (fun i _ =>
            a ← lift (znth (call_book b) i);
            print_abonent "# %d\tName: %s\tSecond Name: %s\tTel: %s\n" i a) tt);;
         mret b
       else if v =? 5 then mret tt;; mret b
       else printf "\nВы ввели неверное значение, попробуйте еще.\n" [];; mret b);
  mret (if negb (v =? 5) then inl (b, choice) else inr b).

(** The array is a local of [main]: [garbage] is what it holds at first. *)
Definition hw4_main (fuel : nat) (garbage : list abonent) : console (option book) :=
  rounds fuel hw4_round (MkBook garbage 0, None).

(** ** The array implements the specification *)

Definition entry_of (a : abonent) : entry := Entry (cstr (name a)) (cstr (second_name a)) (cstr (tel a)).

Definition field_ok (a : list Z) : Prop := length a = 10%nat /\ terminated a.
Definition abonent_ok (a : abonent) : Prop := field_ok (name a) /\ field_ok (second_name a) /\ field_ok (tel a).
Definition sized (a : abonent) : Prop :=
  length (name a) = 10%nat /\ length (second_name a) = 10%nat /\ length (tel a) = 10%nat.

Lemma ok_sized a : abonent_ok a -> sized a.
Proof. by intros ((? & _) & (? & _) & (? & _)). Qed.

(** The first [count] records are the entries and hold strings; the others may hold
    anything. *)
Record represents (b : book) (es : list entry) : Prop := Represents {
  rp_length : length (call_book b) = 100%nat;
  rp_count : 0 <= count b <= 100;
  rp_sized : Forall sized (call_book b);
  rp_ok : forall i a, 0 <= i < count b -> call_book b !! Z.to_nat i = Some a -> abonent_ok a;
  rp_entries : es = entry_of <$> take (Z.to_nat (count b)) (call_book b) }.

Definition array_policy : policy := Policy (Some 100) None true false.

Lemma searchName_spec a b : terminated a -> terminated b ->
  searchName a b = Done (bool_decide (cstr a = cstr b)).
Proof.
  intros Ha Hb. rewrite <- (streq_terminated a b Ha Hb). clear Ha Hb. unfold streq. revert b.
  induction a as [|x a IH]; intros [|y b]; try done. cbn [searchName strcmp].
  destruct (Z.eqb_spec x 0), (Z.eqb_spec y 0), (Z.eqb_spec x y); subst; cbn; try done || apply IH || lia.
  all: f_equal; symmetry; apply Z.eqb_neq; lia.
Qed.

Lemma represents_length b es : represents b es -> Z.of_nat (length es) = count b.
Proof. intros [Hl Hc _ _ ->]. rewrite length_fmap, length_take. lia. Qed.

Lemma holds_ok old o t : holds o t -> field_ok (filled old o) /\ cstr (filled old o) = t.
Proof. intros (a & -> & Hl & Ht & Hc). by repeat split. Qed.

Lemma array_add_meets b es : represents b es -> meets represents (addAbonent b) (spec_add array_policy es).
Proof.
  intros H. pose proof (represents_length b es H) as Hlen. pose proof H as [Hl Hc Hsz Hok Hes].
  unfold addAbonent, spec_add, full. cbn [capacity allocated array_policy]. rewrite Hlen.
  destruct (Z.leb_spec 100 (count b)); [apply meets_say; [done|]; by apply meets_ret|].
  do 3 (apply meets_say; [done|]).
  destruct (znth_ok (call_book b) (count b)) as (a & Ha & Hlook); [lia|].
  apply (meets_lifted _ _ a _ _ Ha).
  pose proof (proj1 (Forall_lookup _ _) Hsz _ _ Hlook) as (Hn & Hs & Ht).
  eapply meets_bind; [by apply scan_meets|]. intros n n' Hn'.
  eapply meets_bind; [apply meets_refl|]. intros _ _ _. apply meets_say; [done|].
  eapply meets_bind; [by apply scan_meets|]. intros f f' Hf'.
  eapply meets_bind; [apply meets_refl|]. intros _ _ _. apply meets_say; [done|].
  eapply meets_bind; [by apply scan_meets|]. intros t t' Ht'.
  apply (holds_ok (name a)) in Hn' as [Hnok <-]. apply (holds_ok (second_name a)) in Hf' as [Hfok <-].
  apply (holds_ok (tel a)) in Ht' as [Htok <-].
  eapply meets_lifted; [by apply zset_ok; lia|].
  eapply meets_lifted; [apply int_result_Done2; unfold_int; lia|].
  assert (Hnew : abonent_ok (MkAbonent (filled (name a) n) (filled (second_name a) f) (filled (tel a) t))) by done.
  apply meets_ret. split; cbn; [by rewrite length_insert|lia|by apply Forall_insert; [|apply ok_sized]| |].
  { intros i x Hi Hx. apply list_lookup_insert_Some in Hx as [(_ & <- & _)|[Hne Hx]]; [done|].
    apply (Hok i); [lia|done]. }
  replace (Z.to_nat (count b + 1)) with (S (Z.to_nat (count b))) by lia.
  rewrite (take_S_r _ _ (MkAbonent (filled (name a) n) (filled (second_name a) f) (filled (tel a) t))) by (rewrite list_lookup_insert_eq; [done|lia]).
  rewrite take_insert_ge by lia. by rewrite fmap_app, <- Hes.
Qed.

Lemma erase_spec c i : 0 <= i < Z.of_nat (length c) -> Forall sized c ->
  exists c', erase c i = Done c' /\ length c' = length c /\ Forall sized c' /\
    forall j, j <> Z.to_nat i -> c' !! j = c !! j.
Proof.
  intros Hi Hok. unfold erase.
  destruct (for_z_inv (fun _ c' => length c' = length c /\ Forall sized c' /\
    forall j, j <> Z.to_nat i -> c' !! j = c !! j) 10 0
    (fun k c => a ← znth c i; n ← zset (name a) k 0; f ← zset (second_name a) k 0; t ← zset (tel a) k 0;
       zset c i (MkAbonent n f t)) c) as (c' & -> & H); [|done|by exists c'].
  intros k d Hk (Hl & Hd & Hs).
  destruct (znth_ok d i) as (a & -> & Ha); [lia|].
  pose proof (proj1 (Forall_lookup _ _) Hd _ _ Ha) as (Hn & Hf & Ht). cbn [mbind outcome_bind].
  rewrite !zset_ok by lia. cbn [mbind outcome_bind]. rewrite zset_ok by lia. eexists. split; [done|].
  split_and!; [by rewrite length_insert|apply Forall_insert; [done|by repeat split; cbn; rewrite length_insert]|].
  intros j Hj. rewrite list_lookup_insert_ne by done. by apply Hs.
Qed.

Lemma shift_spec c i n : 0 <= i <= n -> n < Z.of_nat (length c) ->
  exists c', shift c i n = Done c' /\ length c' = length c /\
    forall j, c' !! j = if decide (Z.to_nat i <= j < Z.to_nat n)%nat then c !! S j else c !! j.
Proof.
  intros Hi Hn. unfold shift.
  destruct (for_z_inv (fun k c' => length c' = length c /\
    forall j, c' !! j = if decide (Z.to_nat i <= j < Z.to_nat k)%nat then c !! S j else c !! j)
    (Z.to_nat (n - i)) i (fun k c => a ← znth c (k + 1); zset c k a) c) as (c' & -> & H).
  - intros k d Hk (Hl & Hd). destruct (znth_ok d (k + 1)) as (a & -> & Ha); [lia|]. cbn [mbind outcome_bind].
    rewrite zset_ok by lia. eexists. split; [done|]. split; [by rewrite length_insert|]. intros j.
    destruct (decide (j = Z.to_nat k)) as [->|Hne].
    + rewrite list_lookup_insert_eq by lia. rewrite Hd in Ha. rewrite decide_False in Ha by lia.
      rewrite decide_True by lia. rewrite <- Ha. f_equal. lia.
    + rewrite list_lookup_insert_ne by done. rewrite Hd. repeat case_decide; done || lia.
  - split; [done|]. intros j. by rewrite decide_False by lia.
  - exists c'. split; [done|]. destruct H as [Hl H]. split; [done|]. intros j. rewrite H.
    repeat case_decide; done || lia.
Qed.

Lemma array_remove_meets b es :
  represents b es -> meets represents (deleteAbonent b) (spec_remove array_policy es).
Proof.
  intros H. pose proof (represents_length b es H) as Hlen. pose proof H as [Hl Hc Hsz Hok Hes].
  unfold deleteAbonent, spec_remove, full. cbn [capacity allocated array_policy negb]. rewrite Hlen.
  apply meets_say; [done|]. eapply meets_bind; [apply meets_refl|]. intros d _ <-.
  eapply meets_bind; [apply meets_refl|]. intros v _ <-.
  destruct (Z.leb_spec v 0), (Z.ltb_spec (count b) v); cbn [orb]; try by apply meets_say; [|apply meets_ret].
  destruct (Z.leb_spec 100 (count b)); cbn [andb]; [by intros s r s' out ?|].
  destruct (erase_spec (call_book b) (v - 1)) as (c1 & He & Hl1 & Hok1 & Hs1); [lia|done|].
  destruct (shift_spec c1 (v - 1) (count b)) as (c2 & Hs & Hl2 & Hs2); [lia|lia|].
  apply (meets_lifted _ _ c1 _ _ He). apply (meets_lifted _ _ c2 _ _ Hs).
  eapply meets_lifted; [apply int_result_Done2; unfold_int; lia|].
  apply meets_ret. split; cbn; [lia|lia| | |].
  - apply Forall_lookup. intros j a Ha. rewrite Hs2 in Ha. rewrite Forall_lookup in Hok1. case_decide; eauto.
  - intros j a Hj Ha. rewrite Hs2 in Ha. case_decide; rewrite Hs1 in Ha by lia.
    + apply (Hok (j + 1)); [lia|]. rewrite <- Ha. f_equal. lia.
    + apply (Hok j); [lia|done].
  - rewrite Hes. apply list_eq. intros j. rewrite !list_lookup_fmap.
    destruct (decide (j < Z.to_nat (v - 1))%nat).
    + rewrite list_lookup_delete_lt, list_lookup_fmap by lia. rewrite !lookup_take_lt by lia.
      rewrite Hs2, decide_False, Hs1 by lia. done.
    + rewrite list_lookup_delete_ge, list_lookup_fmap by lia.
      destruct (decide (j < Z.to_nat (count b - 1))%nat).
      * rewrite !lookup_take_lt by lia. rewrite Hs2, decide_True, Hs1 by lia. done.
      * rewrite !lookup_take_ge by lia. done.
Qed.

Lemma print_abonent_ends fmt i a s : abonent_ok a ->
  ends (print_abonent fmt i a) s (inl tt) s
    [(fmt, [print_d (i + 1); e_name (entry_of a); e_second (entry_of a); e_tel (entry_of a)])].
Proof.
  intros ((_ & Hn) & (_ & Hf) & (_ & Ht)). unfold print_abonent, ends, mbind, console_bind, lift.
  by rewrite !chars_terminated.
Qed.

(** The loops over the entries show the rows the specification names. *)
Lemma rows_loop {S} (b : book) (fmt : string) (p : entry -> bool) (body : Z -> S -> console S) n k (st : S) s :
  length (call_book b) = 100%nat -> 0 <= count b <= 100 ->
  k + Z.of_nat n = count b -> 0 <= k ->
  (forall i a st, 0 <= i < count b -> call_book b !! Z.to_nat i = Some a ->
     exists st', forall s, ends (body i st) s (inl st') s
       (if p (entry_of a) then [(fmt, (row (i + 1) (entry_of a)).2)] else [])) ->
  exists st' out, ends (each (seqZ k (Z.of_nat n)) body st) s (inl st') s out /\
    shown out = shown (rows_from (k + 1) p (drop (Z.to_nat k) (entry_of <$> take (Z.to_nat (count b)) (call_book b)))).
Proof.
  intros Hl Hc. revert k st. induction n as [|n IH]; intros k st Hn Hk Hb.
  - rewrite drop_ge; [by eexists _, []|]. rewrite length_fmap, length_take. lia.
  - rewrite seqZ_cons by lia. cbn [each]. replace (Z.pred (Z.of_nat (Datatypes.S n))) with (Z.of_nat n) by lia.
    destruct (lookup_lt_is_Some_2 (call_book b) (Z.to_nat k)) as [a Ha]; [lia|].
    destruct (Hb k a st) as (st1 & H1); [lia|done|].
    destruct (IH (Z.succ k) st1) as (st' & out & He & Ho); [lia|lia|done|].
    eexists st', _. split; [eapply ends_bind; [apply H1|exact He]|].
    rewrite (drop_S _ (entry_of a)) by (rewrite list_lookup_fmap, lookup_take_lt, Ha by lia; done).
    cbn [rows_from]. rewrite !shown_app, Ho. f_equal.
    + destruct (p (entry_of a)); [|done]. unfold row. cbn [snd]. by rewrite !shown_row.
    + replace (Z.succ k + 1) with (k + 1 + 1) by lia. by replace (Z.to_nat (Z.succ k)) with (Datatypes.S (Z.to_nat k)) by lia.
Qed.

Lemma array_show_meets b es : represents b es -> meets any (showAllAbonent b) (spec_show es).
Proof.
  intros H. pose proof H as [Hl Hc Hsz Hok Hes]. subst es. unfold showAllAbonent, spec_show. apply meets_say; [done|].
  intros s r s' out [= <- <- <-].
  destruct (rows_loop b "# %d\tName: %s\tSecond Name: %s\tTel: %s\n" (fun _ => true)
    (fun i _ => a ← lift (znth (call_book b) i); print_abonent "# %d\tName: %s\tSecond Name: %s\tTel: %s\n" i a)
    (Z.to_nat (count b)) 0 tt s Hl Hc) as ([] & out & He & Ho); [lia|lia| |].
  - intros i a [] Hi Ha. exists tt. intros s'.
    pose proof (Hok i a Hi Ha) as Hoka.
    assert (Hz : znth (call_book b) i = Done a) by (apply znth_Done; split; [lia|done]).
    change [("# %d\tName: %s\tSecond Name: %s\tTel: %s\n"%string, (row (i + 1) (entry_of a)).2)]
      with ([] ++ [("# %d\tName: %s\tSecond Name: %s\tTel: %s\n"%string, (row (i + 1) (entry_of a)).2)]).
    eapply ends_bind; [by apply ends_lift|]. by apply print_abonent_ends.
  - rewrite Z2Nat.id in He by lia. exists (inl tt), out. split_and!; [done| |done]. by rewrite Ho.
Qed.

Lemma array_find_meets b es : represents b es -> meets any (findAbonent b) (spec_find array_policy es).
Proof.
  intros H. pose proof H as [Hl Hc Hsz Hok Hes]. subst es. unfold findAbonent, spec_find. apply meets_say; [done|].
  eapply meets_bind; [by apply scan_meets|]. intros o t (f & -> & Hf & Hterm & <-).
  eapply meets_bind; [apply meets_refl|]. intros _ _ _. apply meets_say; [done|].
  intros s r s' out [= <- <- <-].
  destruct (rows_loop b "# %d\tИмя:  %s\tФамилия: %s\tТел: %s\n" (fun e => bool_decide (e_name e = cstr f))
    (fun i found => a ← lift (znth (call_book b) i); find ← lift (of_option Uninitialised (Some f));
       eq ← lift (searchName (name a) find);
       if eq : bool then print_abonent "# %d\tИмя:  %s\tФамилия: %s\tТел: %s\n" i a;; mret true else mret found)
    (Z.to_nat (count b)) 0 false s Hl Hc) as (found & out & He & Ho); [lia|lia| |].
  - intros i a found Hi Ha.
    pose proof (Hok i a Hi Ha) as Hoka. pose proof Hoka as ((_ & Hna) & _).
    assert (Hz : znth (call_book b) i = Done a) by (apply znth_Done; split; [lia|done]).
    pose proof (searchName_spec (name a) f Hna Hterm) as Hs. cbn [e_name entry_of].
    exists (if bool_decide (cstr (name a) = cstr f) then true else found). intros s'.
    unfold ends, mbind, console_bind, lift. rewrite Hz. cbn [of_option]. rewrite Hs. case_bool_decide; [|done].
    rewrite (print_abonent_ends _ i a s' Hoka). done.
  - rewrite Z2Nat.id in He by lia. exists (inl tt), (out ++ if found : bool then [] else [("Ничего не найдено.\n"%string, [])]).
    split_and!; [eapply ends_bind; [exact He|by destruct found]| |done].
    rewrite shown_app, Ho. destruct found; [by rewrite app_nil_r|]. by rewrite shown_other, app_nil_r.
Qed.

#[export] Instance array_spec : BookSpec array_policy book represents.
Proof.
  split.
  - apply array_add_meets.
  - apply array_remove_meets.
  - apply array_find_meets.
  - apply array_show_meets.
  - intros b es _. by apply meets_ret.
  - cbn. unfold printMenu. repeat (apply meets_say; [done|]). by apply meets_printf.
  - by apply meets_printf.
Qed.

(** * The programs *)

Lemma represents_empty c : length c = 100%nat -> Forall sized c -> represents (MkBook c 0) [].
Proof. intros Hl Hs. split; cbn; [done|lia|done|lia|by rewrite take_0]. Qed.

Lemma hw4_is_hw5 st : hw4_round st = menu_round st.
Proof. by destruct st. Qed.

Lemma hw4_rounds fuel st : rounds fuel hw4_round st = rounds fuel menu_round st.
Proof. done. Qed.

(** C16 The program of hw5 is a phone book: on every input on which the specification is
    defined (tokens of at most nine bytes, no removal from a full book, numbers where
    numbers are asked for) it has a defined meaning, consumes the same input, takes the
    same decisions and lists the same entries, and its array holds the entries of the
    specification. *)
Theorem hw5_refines_list fuel s r s' out :
  ends (spec_menu array_policy fuel []) s r s' out ->
  exists r0 out0, ends (main fuel) s r0 s' out0 /\ shown out0 = shown out /\
    match r0, r with
    | inl a, inl a' => end_rel (R := represents) a a'
    | inr c, inr c' => c = c'
    | _, _ => False
    end.
Proof.
  apply (menu_refines array_policy fuel init_book []).
  apply represents_empty; [done|]. by apply Forall_replicate.
Qed.

(** The program of hw4, which has everything in [main] and an array it never
    initialises, is the same phone book, whatever the array holds at first. *)
Theorem hw4_refines_list fuel garbage s r s' out :
  length garbage = 100%nat -> Forall sized garbage ->
  ends (spec_menu array_policy fuel []) s r s' out ->
  exists r0 out0, ends (hw4_main fuel garbage) s r0 s' out0 /\ shown out0 = shown out /\
    match r0, r with
    | inl a, inl a' => end_rel (R := represents) a a'
    | inr c, inr c' => c = c'
    | _, _ => False
    end.
Proof.
  intros Hl Hs. unfold hw4_main. rewrite hw4_rounds.
  by apply (menu_refines array_policy fuel (MkBook garbage 0) []), represents_empty.
Qed.

Lemma shift_full c i : 0 <= i < 100 -> length c = 100%nat -> shift c i 100 = Undef OutOfBounds.
Proof.
  intros Hi Hl. unfold shift. remember (Z.to_nat (100 - i)) as n eqn:En.
  assert (Hn : i = 100 - Z.of_nat n) by lia. assert (Hpos : (0 < n)%nat) by lia. clear En. subst i. revert c Hl.
  induction n as [|n IH]; [lia|]. intros c Hl. cbn [for_z].
  destruct (decide (n = 0%nat)) as [->|Hne].
  - rewrite znth_oob by lia. done.
  - destruct (znth_ok c (100 - Z.of_nat (S n) + 1)) as (a & -> & _); [lia|]. cbn [mbind outcome_bind].
    rewrite zset_ok by lia. cbn [mbind outcome_bind].
    replace (100 - Z.of_nat (S n) + 1) with (100 - Z.of_nat n) by lia. apply IH; [lia|lia|]. by rewrite length_insert.
Qed.

(** When the book is full no entry can be removed: for every valid number the loop that
    moves the entries down reads past the end of the array. *)
Theorem full_book_cannot_shrink b es s d rest :
  represents b es -> length es = 100%nat -> scanf_d s = Done (Matched d rest) -> 1 <= d <= 100 ->
  deleteAbonent b s = Undef OutOfBounds.
Proof.
  intros H Hes Hs Hd. pose proof (represents_length b es H) as Hc. pose proof H as [Hl _ Hsz _ _].
  unfold deleteAbonent, mbind, console_bind, printf, say, scan_d. rewrite Hs. cbn [of_option lift].
  destruct (Z.leb_spec d 0), (Z.ltb_spec (count b) d); cbn [orb]; try lia.
  destruct (erase_spec (call_book b) (d - 1)) as (c1 & He & Hl1 & _); [lia|done|].
  unfold lift. rewrite He. replace (count b) with 100 by lia. rewrite shift_full by lia. done.
Qed.

(** * A session *)

(** Ann and Bob are added, Ann is removed, Bob is listed. *)
Definition session : list Z :=
  str "1" ++ [10] ++ str "ann lee 12" ++ [10] ++ str "1 bob ray 34" ++ [10] ++ str "2 1 4 5" ++ [10].

Definition bob : entry := Entry (str "bob") (str "ray") (str "34").

Lemma session_spec : ends (spec_menu array_policy 6 []) session (inl (Some [bob])) [10] [row 1 bob].
Proof. by vm_compute. Qed.

Lemma hw5_refines_list_witness :
  exists b out0, ends (main 6) session (inl (Some b)) [10] out0 /\ count b = 1 /\
    shown out0 = [[str "1"; str "bob"; str "ray"; str "34"]].
Proof.
  pose proof (hw5_refines_list 6 session (inl (Some [bob])) [10] [row 1 bob] session_spec) as (r0 & out0 & He & Ho & Hr).
  destruct r0 as [[b|]|]; [|destruct Hr|destruct Hr].
  exists b, out0. split; [exact He|]. split; [|exact Ho]. symmetry. exact (represents_length b _ Hr).
Defined.

Definition garbage100 : list abonent := replicate 100 (MkAbonent (replicate 10 7) (replicate 10 7) (replicate 10 7)).

Lemma hw4_refines_list_witness :
  exists b out0, ends (hw4_main 6 garbage100) session (inl (Some b)) [10] out0 /\
    shown out0 = [[str "1"; str "bob"; str "ray"; str "34"]].
Proof.
  pose proof (hw4_refines_list 6 garbage100 session (inl (Some [bob])) [10] [row 1 bob] eq_refl
    ltac:(by apply Forall_replicate) session_spec) as (r0 & out0 & He & Ho & Hr).
  destruct r0 as [[b|]|]; [|destruct Hr|destruct Hr].
  exists b, out0. split; [exact He|exact Ho].
Defined.

Definition full_book : book := MkBook (call_book init_book) 100.

Lemma full_book_represents :
  represents full_book (entry_of <$> call_book init_book).
Proof.
  split; try done.
  - by apply Forall_replicate.
  - intros i a _ Ha. apply lookup_replicate in Ha as [-> _].
    repeat split; apply (bool_decide_unpack _); by vm_compute.
Qed.

Lemma full_book_cannot_shrink_witness : deleteAbonent full_book (str "7" ++ [10]) = Undef OutOfBounds.
Proof.
  apply (full_book_cannot_shrink full_book _ (str "7" ++ [10]) 7 [10] full_book_represents); [done|by vm_compute|lia].
Defined.
