(* ===== verification/PhoneList.v ===== *)
(** The phone book of src/hw6: a doubly linked list of nodes on the heap behind the same
    menu. The heap is a map from addresses to nodes; following a pointer that is null or
    whose node was freed has no meaning. The list implements the specification of
    PhoneBook.v, and its nodes are the only ones on the heap. *)

From S2P Require Import Prelude CInt CStr Stdio Console PhoneBook.

Record Abonent := MkAbonent { name : list Z; second_name : list Z; tel : list Z }.

(** An address; a pointer is an address or null. *)
Notation addr := nat (only parsing).

Record Node := MkNode { data : Abonent; prev : option addr; next : option addr }.

(** The heap: the nodes, the addresses used so far, for how many nodes [malloc] has room,
    and what a fresh node holds. *)
Record heap := Heap { mem : gmap addr Node; used : addr; limit : nat; garbage : Abonent }.

(** [list] of [main] and the heap. *)
Record program := Program { the_heap : heap; head_ref : option addr }.

(** * Pointers *)

Definition set_mem (h : heap) (m : gmap addr Node) : heap := Heap m (used h) (limit h) (garbage h).

(** [*p] *)
Definition deref (m : gmap addr Node) (p : option addr) : outcome (addr * Node) :=
  match p with
  | None => Undef NullDeref
  | Some l => n ← of_option UseAfterFree (m !! l); Done (l, n)
  end.

(** [p->next = q] and [p->prev = q] *)
Definition set_next (m : gmap addr Node) (p q : option addr) : outcome (gmap addr Node) :=
  '(l, n) ← deref m p; Done (<[l := MkNode (data n) (prev n) q]> m).
Definition set_prev (m : gmap addr Node) (p q : option addr) : outcome (gmap addr Node) :=
  '(l, n) ← deref m p; Done (<[l := MkNode (data n) q (next n)]> m).

Definition free (m : gmap addr Node) (p : option addr) : outcome (gmap addr Node) :=
  match p with
  | None => Done m
  | Some l => match m !! l with Some _ => Done (delete l m) | None => Undef BadFree end
  end.

(** * The operations of src/hw6/struct.c *)

Definition PrintMenu : console unit :=
  printf "\nMenu: \n" [];;
  printf "1. Добавить абонента\n" [];;
  printf "2. Удалить абонента\n" [];;
  printf "3. Поиск абонентов по имени\n" [];;
  printf "4. Вывод всех записей\n" [];;
  printf "5. Выход\n" [];;
  printf "Ваш выбор: " [].

Definition CreateNode (h : heap) : console (heap * addr) :=
  if decide (limit h <= size (mem h))%nat then printf "Ошибка выделения памяти!\n" [];; exit_with 1
  else
    let new_node := used h in
    printf "Введите данные абонента.\n" [];;
    printf "Имя: " [];;
    n ← scan_s (Some 9%nat) (name (garbage h));
    printf "Введите фамилию: \n" [];;
    f ← scan_s (Some 9%nat) (second_name (garbage h));
    printf "Введите номер телефона: \n" [];;
    t ← scan_s (Some 9%nat) (tel (garbage h));
    let d := MkAbonent (filled (name (garbage h)) n) (filled (second_name (garbage h)) f) (filled (tel (garbage h)) t) in
    mret (Heap (<[new_node := MkNode d None None]> (mem h)) (S new_node) (limit h) (garbage h), new_node).

(** [while (last_node->next != NULL) last_node = last_node->next]. *)
Fixpoint last_from (fuel : nat) (m : gmap addr Node) (last_node : option addr) : outcome (option addr) :=
  match fuel with
  | O => Undef OutOfFuel
  | S f =>
      '(_, n) ← deref m last_node;
      match next n with None => Done last_node | Some _ => last_from f m (next n) end
  end.

Definition Append (st : program) : console program :=
  '(h, new_node) ← CreateNode (the_heap st);
  match head_ref st with
  | None => mret (Program h (Some new_node))
  | Some _ =>
      last_node ← lift (last_from (size (mem h)) (mem h) (head_ref st));
      m ← lift (set_next (mem h) last_node (Some new_node));
      m ← lift (set_prev m (Some new_node) last_node);
      mret (Program (set_mem h m) (head_ref st))
  end.

(** [while (current != NULL && count < index) { current = current->next; count++; }]. *)
Fixpoint seek (fuel : nat) (m : gmap addr Node) (current : option addr) (count index : Z) : outcome (option addr) :=
  match fuel with
  | O => Undef OutOfFuel
  | S f =>
      match current with
      | None => Done None
      | Some _ =>
          if count <? index then
            '(_, n) ← deref m current; count ← iadd count 1; seek f m (next n) count index
          else Done current
      end
  end.

(** The pointers around [current] are redirected and the node is freed: the new head and
    nodes. *)
Definition unlink_node (m : gmap addr Node) (head current : option addr) : outcome (gmap addr Node * option addr) :=
  '(_, n) ← deref m current;
  '(m, head) ←
    (if decide (current = head) then
       let head := next n in
       m ← match head with Some _ => set_prev m head None | None => Done m end;
       Done (m, head)
     else
       m ← match prev n with Some _ => set_next m (prev n) (next n) | None => Done m end;
       m ← match next n with Some _ => set_prev m (next n) (prev n) | None => Done m end;
       Done (m, head));
  m ← free m current;
  Done (m, head).

Definition DeleteAbonent (st : program) : console program :=
  printf "Введите номер абонента для удаления: " [];;
  i ← scan_d;
  index ← lift (of_option Uninitialised i);
  if bool_decide (head_ref st = None) || (index <=? 0) then
    printf "Список пуст или неверный индекс.\n" [];; mret st
  else
    let m := mem (the_heap st) in
    current ← lift (seek (S (size m)) m (head_ref st) 1 index);
    match current with
    | None => printf "Абонент с таким номером не найден.\n" [];; mret st
    | Some _ =>
        '(m, head) ← lift (unlink_node m (head_ref st) current);
        printf "Абонент с номером %d удалён.\n" [print_d index];;
        mret (Program (set_mem (the_heap st) m) head)
    end.

(** The loops over the nodes print rows; [match_] tells which. *)
Definition print_node (fmt : string) (index : Z) (d : Abonent) : console unit :=
  n ← lift (chars (name d));
  f ← lift (chars (second_name d));
  t ← lift (chars (tel d));
  printf fmt [print_d index; n; f; t].

Fixpoint search_from (fuel : nat) (m : gmap addr Node) (search_name : option (list Z)) (current : option addr)
    (index : Z) (found : bool) : console bool :=
  match fuel with
  | O => lift (Undef OutOfFuel)
  | S f =>
      match current with
      | None => mret found
      | Some _ =>
          '(_, n) ← lift (deref m current);
          s ← lift (of_option Uninitialised search_name);
          eq ← lift (streq (name (data n)) s);
          found ← (if eq : bool then print_node "Найден абонент #%d: %s %s, Телефон: %s\n" index (data n);; mret true
                   else mret found);
          index ← lift (iadd index 1);
          search_from f m search_name (next n) index found
      end
  end.

Definition SearchByName (st : program) : console unit :=
  printf "Введите имя для поиска: " [];;
  o ← scan_s (Some 9%nat) (replicate 10 0);
  found ← search_from (S (size (mem (the_heap st)))) (mem (the_heap st)) o (head_ref st) 1 false;
  if found : bool then mret tt
  else
    s ← lift (of_option Uninitialised o);
    s ← lift (chars s);
    printf "Абоненты с именем %s не найдены.\n" [s].

Fixpoint show_from (fuel : nat) (m : gmap addr Node) (head : option addr) (i : Z) : console unit :=
  match fuel with
  | O => lift (Undef OutOfFuel)
  | S f =>
      match head with
      | None => mret tt
      | Some _ =>
          '(_, n) ← lift (deref m head);
          print_node "%d.%s %s %s \n" i (data n);;
          i ← lift (iadd i 1);
          show_from f m (next n) i
      end
  end.

Definition ShowAll (st : program) : console unit :=
  show_from (S (size (mem (the_heap st)))) (mem (the_heap st)) (head_ref st) 1.

(** [while (head != NULL) { tmp = head; head = head->next; free(tmp); }]: the nodes left. *)
Fixpoint FreeList (fuel : nat) (m : gmap addr Node) (head : option addr) : outcome (gmap addr Node) :=
  match fuel with
  | O => Undef OutOfFuel
  | S f =>
      match head with
      | None => Done m
      | Some _ => '(_, n) ← deref m head; m ← free m head; FreeList f m (next n)
      end
  end.

Definition ExitProgram (st : program) : console unit :=
  m ← lift (FreeList (S (size (mem (the_heap st)))) (mem (the_heap st)) (head_ref st));
  printf "Память освобождена. Выход из программы.\n" [];;
  exit_with 0.

#[export] Instance list_book : Book program := {|
  print_menu := PrintMenu; add := Append; remove := DeleteAbonent; find := SearchByName;
  show_all := ShowAll; finish := ExitProgram;
  complain := printf "Вы ввели неверное значение, попробуйте еще.\n" [] |}.

(** [main] of src/hw6/hw6.c, with memory for [room] nodes. *)
Definition main (fuel room : nat) (g : Abonent) : console (option program) :=
  menu fuel (Program (Heap ∅ 0 room g) None).

(** * The list in the heap *)

Definition before (ls : list addr) (i : nat) : option addr := match i with O => None | S j => ls !! j end.

(** The nodes of the heap are those at [ls], in this order, with the data [ds], and each
    points to its neighbours. *)
Record linked (m : gmap addr Node) (head : option addr) (ls : list addr) (ds : list Abonent) : Prop := Linked {
  lk_nodup : NoDup ls;
  lk_dom : forall l, is_Some (m !! l) <-> l ∈ ls;
  lk_length : length ls = length ds;
  lk_head : head = ls !! 0%nat;
  lk_node : forall i l d, ls !! i = Some l -> ds !! i = Some d ->
    m !! l = Some (MkNode d (before ls i) (ls !! S i)) }.

Lemma linked_size m head ls ds : linked m head ls ds -> size m = length ls.
Proof.
  intros H. rewrite <- size_dom, <- (size_list_to_set (C := gset nat) ls) by apply H. f_equal.
  apply set_eq. intros l. by rewrite elem_of_dom, (lk_dom _ _ _ _ H), elem_of_list_to_set.
Qed.

(** Following the pointer to the [i]-th node. *)
Lemma deref_at m head ls ds (i : nat) l : linked m head ls ds -> ls !! i = Some l ->
  exists d, ds !! i = Some d /\ deref m (Some l) = Done (l, MkNode d (before ls i) (ls !! S i)).
Proof.
  intros H Hl. destruct (lookup_lt_is_Some_2 ds i) as [d Hd].
  { rewrite <- (lk_length _ _ _ _ H). by eapply lookup_lt_Some. }
  exists d. split; [done|]. unfold deref. by rewrite (lk_node _ _ _ _ H i l d Hl Hd).
Qed.

Lemma last_from_spec m m' head ls ds fuel (i : nat) :
  linked m head ls ds -> (forall a, a ∈ ls -> m' !! a = m !! a) -> (i < length ls)%nat -> (length ls <= i + fuel)%nat ->
  last_from fuel m' (ls !! i) = Done (ls !! (length ls - 1)%nat).
Proof.
  intros H Hm. revert i. induction fuel as [|f IH]; intros i Hi Hf; [lia|].
  destruct (lookup_lt_is_Some_2 ls i Hi) as [l Hl]. rewrite Hl.
  destruct (deref_at m head ls ds i l H Hl) as (d & _ & E). cbn [last_from].
  unfold deref in *. rewrite Hm by (by eapply list_elem_of_lookup_2). rewrite E. cbn [mbind outcome_bind next].
  destruct (ls !! S i) as [l'|] eqn:Hn.
  - rewrite <- Hn. apply IH; [by eapply lookup_lt_Some|lia].
  - apply lookup_ge_None in Hn. rewrite <- Hl. do 2 f_equal. lia.
Qed.

Lemma seek_spec m head ls ds fuel (i : nat) index :
  linked m head ls ds -> (i <= length ls < i + fuel)%nat -> Z.of_nat i < index <= int_max ->
  seek fuel m (ls !! i) (Z.of_nat i + 1) index = Done (ls !! Z.to_nat (index - 1)).
Proof.
  intros H. revert i. induction fuel as [|f IH]; intros i Hf Hi.
  - cbn [seek]. lia.
  - cbn [seek]. destruct (ls !! i) as [l|] eqn:Hl.
    + destruct (Z.ltb_spec (Z.of_nat i + 1) index).
      * destruct (deref_at m head ls ds i l H Hl) as (d & _ & E). rewrite E. cbn [mbind outcome_bind next].
        unfold iadd. rewrite int_result_Done2 by (unfold_int; lia). cbn [mbind outcome_bind].
        apply lookup_lt_Some in Hl. replace (Z.of_nat i + 1 + 1) with (Z.of_nat (S i) + 1) by lia. apply IH; lia.
      * rewrite <- Hl. do 2 f_equal. lia.
    + apply lookup_ge_None in Hl. by rewrite lookup_ge_None_2 by lia.
Qed.

(** A store through a pointer to a node. *)
Lemma set_next_Done m l n q : m !! l = Some n ->
  set_next m (Some l) q = Done (<[l := MkNode (data n) (prev n) q]> m).
Proof. intros Hl. unfold set_next, deref. by rewrite Hl. Qed.

Lemma set_prev_Done m l n q : m !! l = Some n ->
  set_prev m (Some l) q = Done (<[l := MkNode (data n) q (next n)]> m).
Proof. intros Hl. unfold set_prev, deref. by rewrite Hl. Qed.

(** Distinct positions hold distinct addresses. *)
Lemma position_inj m head ls ds (i j : nat) l l' : linked m head ls ds ->
  ls !! i = Some l -> ls !! j = Some l' -> i <> j -> l <> l'.
Proof. intros H Hi Hj Hne ->. apply Hne. by apply (NoDup_lookup ls i j l' (lk_nodup _ _ _ _ H)). Qed.

Lemma linked_append m head ls ds l d last :
  linked m head ls ds -> m !! l = None -> last = ls !! (length ls - 1)%nat -> ls <> [] ->
  exists m1 m2, set_next (<[l := MkNode d None None]> m) last (Some l) = Done m1 /\
    set_prev m1 (Some l) last = Done m2 /\ linked m2 head (ls ++ [l]) (ds ++ [d]).
Proof.
  intros H Hl -> Hne.
  assert (Hlen : (0 < length ls)%nat) by (destruct ls; [done|cbn; lia]).
  assert (Hin : l ∉ ls) by (rewrite <- (lk_dom _ _ _ _ H), Hl; apply is_Some_None).
  destruct (lookup_lt_is_Some_2 ls (length ls - 1)) as [e He]; [lia|].
  assert (Hel : e <> l) by (intros ->; apply Hin; by eapply list_elem_of_lookup_2).
  destruct (deref_at m head ls ds _ e H He) as (de & Hde & _).
  pose proof (lk_node _ _ _ _ H _ _ _ He Hde) as Hm.
  rewrite He. eexists _, _. split; [apply set_next_Done; by rewrite lookup_insert_ne|].
  split; [apply set_prev_Done; rewrite lookup_insert_ne by done; apply lookup_insert_eq|]. cbn [data prev next].
  pose proof H as [Hnd Hdom Hld Hhd Hnode].
  split.
  - apply NoDup_app. split_and!; [done|set_solver|apply NoDup_singleton].
  - intros k. rewrite elem_of_app, list_elem_of_singleton, <- Hdom.
    destruct (decide (k = l)) as [->|Hkl]; [rewrite lookup_insert_eq; split; [by right|by eexists]|].
    rewrite lookup_insert_ne by done.
    destruct (decide (k = e)) as [->|Hke]; [rewrite lookup_insert_eq, Hm; split; [by left|by eexists]|].
    rewrite !lookup_insert_ne by done. naive_solver.
  - rewrite !length_app. cbn. lia.
  - rewrite Hhd. symmetry. apply lookup_app_l. lia.
  - intros i k dk Hk Hdk. destruct (decide (i < length ls)%nat) as [Hi|Hi].
    + rewrite lookup_app_l in Hk by lia. rewrite lookup_app_l in Hdk by lia.
      assert (k <> l) by (intros ->; apply Hin; by eapply list_elem_of_lookup_2). rewrite lookup_insert_ne by done.
      assert (Hb : before (ls ++ [l]) i = before ls i) by (destruct i; [done|cbn; by rewrite lookup_app_l by lia]). rewrite Hb.
      destruct (decide (i = length ls - 1)%nat) as [->|Hlast].
      * assert (k = e) as -> by congruence. assert (dk = de) as -> by congruence. rewrite lookup_insert_eq. do 2 f_equal.
        rewrite lookup_app_r by lia. by replace (S (length ls - 1) - length ls)%nat with 0%nat by lia.
      * assert (k <> e) by (eapply position_inj; [exact H|exact Hk|exact He|done]).
        rewrite !lookup_insert_ne by done. rewrite (Hnode i k dk) by done. by rewrite lookup_app_l by lia.
    + pose proof (lookup_lt_Some _ _ _ Hk) as Hlt. rewrite length_app in Hlt. cbn in Hlt.
      assert (i = length ls) as -> by lia.
      rewrite lookup_app_r, Nat.sub_diag in Hk by lia. rewrite Hld, (lookup_app_r ds), Nat.sub_diag in Hdk by lia.
      injection Hk as <-. injection Hdk as <-. rewrite lookup_insert_eq. do 2 f_equal.
      * destruct (length ls) as [|n] eqn:En; [lia|]. cbn. rewrite lookup_app_l by lia. rewrite <- He. f_equal. lia.
      * symmetry. apply lookup_ge_None_2. rewrite length_app. cbn. lia.
Qed.

(** The walk to the last node does not see a node that is not linked yet. *)
Lemma last_insert m head ls ds l n :
  linked m head ls ds -> m !! l = None -> ls <> [] ->
  last_from (size (<[l := n]> m)) (<[l := n]> m) (ls !! 0%nat) = Done (ls !! (length ls - 1)%nat).
Proof.
  intros H Hl Hne. apply (last_from_spec m _ head ls ds _ 0%nat H).
  - intros a Ha. apply (lk_dom _ _ _ _ H) in Ha. apply lookup_insert_ne. intros ->. rewrite Hl in Ha. by destruct Ha.
  - destruct ls; [done|cbn; lia].
  - rewrite map_size_insert_None by done. rewrite (linked_size _ _ _ _ H). lia.
Qed.

(** What the heap looks like when the [k]-th node is taken out. *)
Lemma linked_without m head ls ds (k : nat) l m' :
  linked m head ls ds -> ls !! k = Some l ->
  m' !! l = None -> (forall a, a ∉ ls -> m' !! a = None) ->
  (forall (j : nat) a d, ls !! j = Some a -> ds !! j = Some d -> j <> k ->
     m' !! a = Some (MkNode d (if decide (j = S k) then before ls k else before ls j)
                              (if decide (S j = k) then ls !! S k else ls !! S j))) ->
  linked m' (delete k ls !! 0%nat) (delete k ls) (delete k ds).
Proof.
  intros H Hk Hl Hout Hin. pose proof H as [Hnd Hdom Hld Hhd Hnode].
  pose proof (lookup_lt_Some _ _ _ Hk) as Hlt.
  assert (Hpos : forall i, exists j, j <> k /\ delete k ls !! i = ls !! j /\ delete k ds !! i = ds !! j /\
    (if decide (j = S k) then before ls k else before ls j) = before (delete k ls) i /\
    (if decide (S j = k) then ls !! S k else ls !! S j) = delete k ls !! S i).
  { intros i. destruct (decide (i < k)%nat) as [Hi|Hi].
    - exists i. rewrite !list_lookup_delete_lt by lia. split_and!; try done; [lia| |].
      + rewrite decide_False by lia. destruct i; [done|]. cbn. by rewrite list_lookup_delete_lt by lia.
      + case_decide; [subst; by rewrite list_lookup_delete_ge by lia|]. by rewrite list_lookup_delete_lt by lia.
    - exists (S i). rewrite !list_lookup_delete_ge by lia. split_and!; try done; [lia| |].
      + destruct (decide (i = k)) as [->|Hne].
        * rewrite decide_True by done. destruct k; [done|]. cbn. by rewrite list_lookup_delete_lt by lia.
        * rewrite decide_False by lia. destruct i; [lia|]. cbn. by rewrite list_lookup_delete_ge by lia.
      + rewrite decide_False by lia. done. }
  split.
  - eapply sublist_NoDup; [done|apply sublist_delete].
  - intros a. split.
    + intros [n Hn]. destruct (decide (a ∈ ls)) as [Ha|Ha]; [|rewrite Hout in Hn; done].
      apply list_elem_of_lookup in Ha as [j Hj]. destruct (decide (j = k)) as [->|Hne]; [congruence|].
      apply list_elem_of_lookup. destruct (decide (j < k)%nat).
      * exists j. by rewrite list_lookup_delete_lt.
      * exists (j - 1)%nat. rewrite list_lookup_delete_ge by lia. rewrite <- Hj. f_equal. lia.
    + intros [i Hi]%list_elem_of_lookup. destruct (Hpos i) as (j & Hj & E & _). rewrite E in Hi.
      destruct (lookup_lt_is_Some_2 ds j) as [d Hd]; [rewrite <- Hld; by eapply lookup_lt_Some|].
      rewrite (Hin j a d) by done. by eexists.
  - rewrite !length_delete by (apply lookup_lt_is_Some_2; lia). lia.
  - done.
  - intros i a d Ha Hd. destruct (Hpos i) as (j & Hj & E1 & E2 & E3 & E4). rewrite E1 in Ha. rewrite E2 in Hd.
    rewrite <- E3, <- E4. by apply Hin.
Qed.

(** The redirection of the pointer of a neighbour, if there is one. *)
Lemma set_next_opt m p q : (forall a, p = Some a -> is_Some (m !! a)) ->
  exists m1, (match p with Some _ => set_next m p q | None => Done m end) = Done m1 /\
    forall a, m1 !! a = (fun n => if decide (p = Some a) then MkNode (data n) (prev n) q else n) <$> m !! a.
Proof.
  intros Hp. destruct p as [a|].
  - destruct (Hp a eq_refl) as [n Hn]. rewrite (set_next_Done m a n q Hn). eexists. split; [done|]. intros b.
    destruct (decide (a = b)) as [->|Hne]; [by rewrite lookup_insert_eq, Hn; cbn; rewrite decide_True|].
    rewrite lookup_insert_ne by done. destruct (m !! b); [|done]. cbn. by rewrite decide_False by congruence.
  - exists m. split; [done|]. intros a. by destruct (m !! a).
Qed.

Lemma set_prev_opt m p q : (forall a, p = Some a -> is_Some (m !! a)) ->
  exists m1, (match p with Some _ => set_prev m p q | None => Done m end) = Done m1 /\
    forall a, m1 !! a = (fun n => if decide (p = Some a) then MkNode (data n) q (next n) else n) <$> m !! a.
Proof.
  intros Hp. destruct p as [a|].
  - destruct (Hp a eq_refl) as [n Hn]. rewrite (set_prev_Done m a n q Hn). eexists. split; [done|]. intros b.
    destruct (decide (a = b)) as [->|Hne]; [by rewrite lookup_insert_eq, Hn; cbn; rewrite decide_True|].
    rewrite lookup_insert_ne by done. destruct (m !! b); [|done]. cbn. by rewrite decide_False by congruence.
  - exists m. split; [done|]. intros a. by destruct (m !! a).
Qed.

(** Both branches of the unlinking make each neighbour point past [current]. *)
Lemma unlink_lookup m head l n :
  m !! l = Some n -> (head = Some l <-> prev n = None) ->
  (forall a, prev n = Some a \/ next n = Some a -> is_Some (m !! a)) ->
  exists m', unlink_node m head (Some l) = Done (m', if decide (Some l = head) then next n else head) /\
    m' !! l = None /\
    forall a, a <> l -> m' !! a = (fun x => MkNode (data x) (if decide (next n = Some a) then prev n else prev x)
                                                   (if decide (prev n = Some a) then next n else next x)) <$> m !! a.
Proof.
  intros Hl Hhead Hnb. unfold unlink_node, deref. rewrite Hl. cbn [of_option mbind outcome_bind].
  assert (Hfree : forall m2, is_Some (m2 !! l) -> free m2 (Some l) = Done (delete l m2)).
  { intros m2 [x Hx]. unfold free. by rewrite Hx. }
  case_decide as E.
  - destruct (set_prev_opt m (next n) None) as (m1 & E1 & H1); [intros; apply Hnb; by right|]. rewrite E1.
    cbn [mbind outcome_bind]. rewrite Hfree by (rewrite H1, Hl; by eexists). cbn [mbind outcome_bind].
    eexists. split; [done|]. split; [apply lookup_delete_eq|]. intros a Ha. rewrite lookup_delete_ne, H1 by done.
    rewrite (proj1 Hhead) by done. destruct (m !! a) as [[]|]; [|done]. cbn. by case_decide.
  - destruct (set_next_opt m (prev n) (next n)) as (m1 & E1 & H1); [intros; apply Hnb; by left|]. rewrite E1.
    cbn [mbind outcome_bind].
    destruct (set_prev_opt m1 (next n) (prev n)) as (m2 & E2 & H2).
    { intros a Ha. rewrite H1. destruct (Hnb a (or_intror Ha)) as [x ->]. by eexists. }
    rewrite E2. cbn [mbind outcome_bind]. rewrite Hfree by (rewrite H2, H1, Hl; by eexists). cbn [mbind outcome_bind].
    eexists. split; [done|]. split; [apply lookup_delete_eq|]. intros a Ha. rewrite lookup_delete_ne, H2, H1 by done.
    destruct (m !! a) as [[]|]; [|done]. cbn. by repeat case_decide.
Qed.

Lemma linked_unlink m head ls ds (k : nat) l :
  linked m head ls ds -> ls !! k = Some l ->
  exists m' head', unlink_node m head (Some l) = Done (m', head') /\
    linked m' head' (delete k ls) (delete k ds).
Proof.
  intros H Hk. pose proof H as [Hnd Hdom Hld Hhd Hnode]. pose proof (lookup_lt_Some _ _ _ Hk) as Hlt.
  destruct (lookup_lt_is_Some_2 ds k) as [d Hd]; [lia|].
  assert (Hpos : forall i j a, ls !! i = Some a -> ls !! j = Some a <-> j = i)
    by (intros i j a Hi; split; [intros Hj; by eapply NoDup_lookup|by intros ->]).
  assert (Hbefore : forall j a, ls !! j = Some a -> before ls k = Some a <-> S j = k).
  { intros j a Hj. destruct k as [|k']; cbn; [split; done|]. rewrite (Hpos j k' a Hj). lia. }
  destruct (unlink_lookup m head l (MkNode d (before ls k) (ls !! S k))) as (m' & E & Hl & Hm').
  - by apply Hnode.
  - rewrite Hhd, (Hpos k 0%nat l Hk). cbn [prev]. destruct k as [|k']; [done|]. cbn.
    destruct (lookup_lt_is_Some_2 ls k') as [x ->]; [lia|]. done.
  - cbn [prev next]. intros a [Ha|Ha]; apply Hdom; [|by eapply list_elem_of_lookup_2].
    destruct k; [done|]. by eapply list_elem_of_lookup_2.
  - eexists m', _. split; [exact E|]. cbn [prev next] in *.
    replace (if decide (Some l = head) then ls !! S k else head) with (delete k ls !! 0%nat).
    + apply (linked_without m head ls ds k l m' H Hk Hl).
      * intros a Ha. destruct (decide (a = l)) as [->|Hne]; [done|]. rewrite Hm' by done.
        rewrite (proj2 (eq_None_not_Some (m !! a))); [done|]. by rewrite Hdom.
      * intros j a da Ha Hda Hj. rewrite Hm' by (intros ->; apply Hj; by apply (Hpos k j l Hk)).
        rewrite (Hnode j a da Ha Hda). cbn. do 2 f_equal.
        -- rewrite (decide_ext _ (j = S k)) by (rewrite (Hpos j (S k) a Ha); lia). done.
        -- rewrite (decide_ext _ (S j = k)) by (by apply Hbefore). done.
    + case_decide as Eh.
      * assert (k = 0%nat) as -> by (apply (Hpos _ _ l); congruence). by rewrite list_lookup_delete_ge by lia.
      * rewrite list_lookup_delete_lt, Hhd; [done|]. destruct k; [congruence|lia].
Qed.

(** * The list implements the specification *)

Definition entry_of (d : Abonent) : entry := Entry (cstr (name d)) (cstr (second_name d)) (cstr (tel d)).

Definition sized (d : Abonent) : Prop :=
  length (name d) = 10%nat /\ length (second_name d) = 10%nat /\ length (tel d) = 10%nat.

Definition texts_ok (d : Abonent) : Prop := terminated (name d) /\ terminated (second_name d) /\ terminated (tel d).

(** The list holds the entries, and the heap nothing else. *)
Record lists (room : nat) (st : program) (es : list entry) : Prop := Lists {
  ls_addrs : exists ls ds, linked (mem (the_heap st)) (head_ref st) ls ds /\ es = entry_of <$> ds /\ Forall texts_ok ds;
  ls_used : forall l, is_Some (mem (the_heap st) !! l) -> (l < used (the_heap st))%nat;
  ls_limit : limit (the_heap st) = room /\ Z.of_nat room < int_max;
  ls_full : (size (mem (the_heap st)) <= room)%nat;
  ls_garbage : sized (garbage (the_heap st)) }.

Definition list_policy (room : nat) : policy := Policy (Some (Z.of_nat room)) (Some 9%nat) false true.

Lemma lists_size room st es : lists room st es -> size (mem (the_heap st)) = length es.
Proof.
  intros [(ls & ds & Hl & -> & _) _ _ _ _]. rewrite (linked_size _ _ _ _ Hl), length_fmap. apply (lk_length _ _ _ _ Hl).
Qed.

Lemma linked_first m l d : m = ∅ -> linked (<[l := MkNode d None None]> m) (Some l) [l] [d].
Proof.
  intros ->. split; try done.
  - apply NoDup_singleton.
  - intros k. rewrite list_elem_of_singleton. destruct (decide (k = l)) as [->|Hne].
    + rewrite lookup_insert_eq. split; [done|by eexists].
    + rewrite lookup_insert_ne by done. split; [intros [? Hx]; by rewrite lookup_empty in Hx|done].
  - intros [|i] a e; cbn; [intros [= <-] [= <-]; by rewrite lookup_insert_eq|done].
Qed.

Lemma linked_nil m head ds : linked m head [] ds -> head = None /\ m = ∅ /\ ds = [].
Proof.
  intros H. split_and!; [by rewrite (lk_head _ _ _ _ H)| |].
  - apply map_eq. intros l. rewrite lookup_empty. apply eq_None_not_Some. rewrite (lk_dom _ _ _ _ H). apply not_elem_of_nil.
  - pose proof (lk_length _ _ _ _ H). by destruct ds.
Qed.

(** The part of [Append] after [CreateNode]. *)
Lemma append_meets room h head ls ds d :
  linked (mem h) head ls ds -> Forall texts_ok ds -> texts_ok d ->
  (forall l, is_Some (mem h !! l) -> (l < used h)%nat) -> limit h = room -> Z.of_nat room < int_max -> (size (mem h) < room)%nat -> sized (garbage h) ->
  let h' := Heap (<[used h := MkNode d None None]> (mem h)) (S (used h)) (limit h) (garbage h) in
  meets (lists room)
    (match head with
     | None => mret (Program h' (Some (used h)))
     | Some _ =>
         last_node ← lift (last_from (size (mem h')) (mem h') head);
         m ← lift (set_next (mem h') last_node (Some (used h)));
         m ← lift (set_prev m (Some (used h)) last_node);
         mret (Program (set_mem h' m) head)
     end) (mret ((entry_of <$> ds) ++ [entry_of d])).
Proof.
  intros Hl Hok Hd Hused Hroom Hint Hsize Hg h'.
  assert (Hfresh : mem h !! used h = None).
  { apply eq_None_not_Some. intros Hs%Hused. lia. }
  destruct ls as [|a ls].
  - apply linked_nil in Hl as (-> & Hm & ->). apply meets_ret. split; cbn; [|..].
    + exists [used h], [d]. split_and!; [by apply linked_first|done|by constructor].
    + intros l. rewrite lookup_insert_is_Some. intros [->|[_ Hs%Hused]]; lia.
    + done.
    + rewrite map_size_insert_None by done. lia.
    + done.
  - pose proof (lk_head _ _ _ _ Hl) as Hh. cbn in Hh. subst head.
    destruct (linked_append (mem h) (Some a) (a :: ls) ds (used h) d _ Hl Hfresh eq_refl) as (m1 & m2 & E1 & E2 & H2); [done|].
    eapply meets_lifted.
    { exact (last_insert (mem h) (Some a) (a :: ls) ds (used h) (MkNode d None None) Hl Hfresh ltac:(done)). }
    apply (meets_lifted _ _ _ _ _ E1). apply (meets_lifted _ _ _ _ _ E2). apply meets_ret. split; cbn; [|..].
    + exists ((a :: ls) ++ [used h]), (ds ++ [d]). split_and!; [done|by rewrite fmap_app|].
      apply Forall_app. by split; [|constructor].
    + intros l Hs. apply (lk_dom _ _ _ _ H2) in Hs. apply elem_of_app in Hs as [Hs|Hs%list_elem_of_singleton]; [|lia].
      apply (lk_dom _ _ _ _ Hl), Hused in Hs. lia.
    + done.
    + rewrite (linked_size _ _ _ _ H2), length_app. rewrite (linked_size _ _ _ _ Hl) in Hsize. cbn in *. lia.
    + done.
Qed.

Lemma list_add_meets room st es : lists room st es -> meets (lists room) (Append st) (spec_add (list_policy room) es).
Proof.
  intros H. pose proof (lists_size room st es H) as Hsize. pose proof H as [(ls & ds & Hl & -> & Hok) Hused [Hroom Hint] _ (Hg1 & Hg2 & Hg3)].
  destruct st as [h head]. cbn [the_heap head_ref] in *. unfold Append, CreateNode, spec_add, full.
  cbn [capacity allocated list_policy the_heap head_ref]. subst room. rewrite Hsize. case_decide as Hfull.
  - rewrite (proj2 (Z.leb_le _ _)) by lia. apply meets_assoc, meets_say; [done|]. apply meets_exit.
  - rewrite (proj2 (Z.leb_gt _ _)) by lia. apply meets_assoc, meets_say; [done|]. apply meets_assoc, meets_say; [done|].
    apply meets_assoc. eapply meets_bind; [by apply scan_meets|]. intros n n' Hn'.
    apply meets_assoc, meets_say; [done|]. apply meets_right_ret.
    apply meets_assoc. eapply meets_bind; [by apply scan_meets|]. intros f f' Hf'.
    apply meets_assoc, meets_say; [done|]. apply meets_right_ret.
    apply meets_assoc. eapply meets_bind; [by apply scan_meets|]. intros t t' Ht'.
    apply (holds_ok (name (garbage h))) in Hn' as [[_ Hnok] <-].
    apply (holds_ok (second_name (garbage h))) in Hf' as [[_ Hfok] <-].
    apply (holds_ok (tel (garbage h))) in Ht' as [[_ Htok] <-].
    set (d := MkAbonent _ _ _).
    apply meets_left_ret.
    apply (append_meets (limit h) h head ls ds d); [done..|lia|done].
Qed.

Lemma scan_d_meets : meets (fun o o' => o = o' /\ match o with Some v => is_int v | None => True end) scan_d scan_d.
Proof.
  intros s r s' out H. exists r, out. split; [done|]. split; [done|]. revert H. unfold ends, scan_d, scanf_d.
  destruct (skip_ws s); [by intros [= <- _ _]|]. destruct (sign _) as [neg s2]. destruct (span isdigit s2) as [ds rest].
  destruct ds; [by intros [= <- _ _]|]. destruct (in_int _) eqn:E; [|done]. intros [= <- _ _].
  split; [done|]. by apply in_int_spec.
Qed.

Lemma list_remove_meets room st es :
  lists room st es -> meets (lists room) (DeleteAbonent st) (spec_remove (list_policy room) es).
Proof.
  intros H. pose proof H as [(ls & ds & Hl & -> & Hok) Hused Hroom Hfull Hg].
  destruct st as [h head]. cbn [the_heap head_ref] in *. unfold DeleteAbonent, spec_remove.
  cbn [allocated list_policy the_heap head_ref negb]. rewrite andb_false_r, length_fmap, <- (lk_length _ _ _ _ Hl).
  apply meets_say; [done|]. eapply meets_bind; [apply scan_d_meets|]. intros o _ [<- Ho].
  destruct o as [d|]; [|by intros s r s' out ?]. cbn [of_option].
  apply (meets_bind (fun a b => a = d /\ b = d)); [apply meets_lift; intros a [= <-]; by eexists|]. intros _ _ [-> ->].
  pose proof (lk_head _ _ _ _ Hl) as Hh. rewrite (linked_size _ _ _ _ Hl).
  destruct (Z.leb_spec d 0) as [Hd|Hd]; [rewrite orb_true_r; by apply meets_say; [|apply meets_ret]|].
  destruct ls as [|a ls0] eqn:Els.
  { cbn in Hh. subst head. rewrite bool_decide_true by done. cbn [orb length].
    rewrite (proj2 (Z.ltb_lt _ _)) by lia. by apply meets_say; [|apply meets_ret]. }
  rewrite <- Els in *. rewrite Hh. rewrite bool_decide_false by (by rewrite Els). cbn [orb].
  eapply meets_lifted.
  { apply (seek_spec (mem h) head ls ds (S (length ls)) 0%nat d Hl); [lia|]. unfold is_int in Ho. lia. }
  destruct (Z.ltb_spec (Z.of_nat (length ls)) d).
  - rewrite lookup_ge_None_2 by lia. rewrite <- Hh. by apply meets_say; [|apply meets_ret].
  - destruct (lookup_lt_is_Some_2 ls (Z.to_nat (d - 1))) as [l Hk]; [lia|]. rewrite Hk, <- Hh.
    destruct (linked_unlink (mem h) head ls ds _ l Hl Hk) as (m' & head' & E & H').
    apply (meets_lifted _ _ _ _ _ E). apply meets_say; [done|]. apply meets_ret.
    assert (Hsub : forall x, is_Some (m' !! x) -> is_Some (mem h !! x)).
    { intros x Hx. apply (lk_dom _ _ _ _ Hl). apply (lk_dom _ _ _ _ H') in Hx. by eapply elem_of_sublist, sublist_delete. }
    split; cbn; [| |done| |done].
    + exists (delete (Z.to_nat (d - 1)) ls), (delete (Z.to_nat (d - 1)) ds). split_and!; [done| |].
      * apply list_eq. intros i. rewrite !list_lookup_fmap. destruct (decide (i < Z.to_nat (d - 1))%nat).
        -- by rewrite !list_lookup_delete_lt, list_lookup_fmap by done.
        -- by rewrite !list_lookup_delete_ge, list_lookup_fmap by lia.
      * by apply Forall_delete.
    + intros x Hx. by apply Hused, Hsub.
    + rewrite (linked_size _ _ _ _ H'), length_delete by (by eexists). rewrite (linked_size _ _ _ _ Hl) in Hfull. lia.
Qed.

(** ** The loops that list the nodes *)

Lemma print_node_ends fmt i d s : texts_ok d ->
  ends (print_node fmt i d) s (inl tt) s [(fmt, (row i (entry_of d)).2)].
Proof.
  intros (Hn & Hf & Ht). unfold print_node, ends, mbind, console_bind, lift.
  by rewrite !chars_terminated.
Qed.

Lemma show_loop m head ls ds fuel (i : nat) s :
  linked m head ls ds -> Forall texts_ok ds -> Z.of_nat (length ls) < int_max ->
  (i <= length ls < i + fuel)%nat ->
  exists out, ends (show_from fuel m (ls !! i) (Z.of_nat i + 1)) s (inl tt) s out /\
    shown out = shown (rows_from (Z.of_nat i + 1) (fun _ => true) (drop i (entry_of <$> ds))).
Proof.
  intros H Hok Hint. revert i s. induction fuel as [|f IH]; intros i s Hi; [lia|].
  pose proof (lk_length _ _ _ _ H) as Hlen. destruct (ls !! i) as [l|] eqn:Hl; cbn [show_from].
  - destruct (deref_at m head ls ds i l H Hl) as (d & Hd & E). pose proof (lookup_lt_Some _ _ _ Hl).
    destruct (IH (S i) s) as (out & He & Ho); [lia|].
    exists (([] : list line) ++ [("%d.%s %s %s \n"%string, (row (Z.of_nat i + 1) (entry_of d)).2)] ++ [] ++ out). split.
    + eapply ends_bind; [by apply ends_lift|]. cbn beta iota.
      eapply ends_bind; [apply print_node_ends; by eapply Forall_lookup_1|].
      eapply ends_bind; [apply ends_lift, int_result_Done2; unfold_int; lia|].
      replace (Z.of_nat i + 1 + 1) with (Z.of_nat (S i) + 1) by lia. exact He.
    + rewrite (drop_S _ (entry_of d)) by (rewrite list_lookup_fmap, Hd; done). cbn [rows_from].
      rewrite !shown_app, Ho, !shown_row by done. cbn [app].
      by replace (Z.of_nat (S i) + 1) with (Z.of_nat i + 1 + 1) by lia.
  - apply lookup_ge_None in Hl. exists []. split; [done|]. by rewrite drop_ge by (rewrite length_fmap; lia).
Qed.

Lemma search_loop m head ls ds fuel (i : nat) s t found :
  linked m head ls ds -> Forall texts_ok ds -> terminated t -> Z.of_nat (length ls) < int_max ->
  (i <= length ls < i + fuel)%nat ->
  exists out found', ends (search_from fuel m (Some t) (ls !! i) (Z.of_nat i + 1) found) s (inl found') s out /\
    shown out = shown (rows_from (Z.of_nat i + 1) (fun e => bool_decide (e_name e = cstr t)) (drop i (entry_of <$> ds))).
Proof.
  intros H Hok Ht Hint. revert i s found. induction fuel as [|f IH]; intros i s found Hi; [lia|].
  pose proof (lk_length _ _ _ _ H) as Hlen. destruct (ls !! i) as [l|] eqn:Hl; cbn [search_from].
  - destruct (deref_at m head ls ds i l H Hl) as (d & Hd & E). pose proof (lookup_lt_Some _ _ _ Hl).
    pose proof (Forall_lookup_1 _ _ _ _ Hok Hd) as Hd'. pose proof Hd' as (Hn & _).
    destruct (IH (S i) s (if bool_decide (cstr (name d) = cstr t) then true else found)) as (out & found' & He & Ho); [lia|].
    eexists _, found'. split.
    + eapply ends_bind; [by apply ends_lift|]. eapply ends_bind; [by apply ends_lift|].
      eapply ends_bind; [apply ends_lift; by apply streq_terminated|]. cbn [data].
      eapply (ends_bind _ _ s (if bool_decide (cstr (name d) = cstr t) then true else found) s
        (if bool_decide (cstr (name d) = cstr t) then [("Найден абонент #%d: %s %s, Телефон: %s\n"%string, (row (Z.of_nat i + 1) (entry_of d)).2)] else [])).
      { case_bool_decide; [|done]. rewrite <- (app_nil_r [_]). eapply ends_bind; [by apply print_node_ends|done]. }
      eapply ends_bind; [apply ends_lift, int_result_Done2; unfold_int; lia|].
      replace (Z.of_nat i + 1 + 1) with (Z.of_nat (S i) + 1) by lia. exact He.
    + rewrite (drop_S _ (entry_of d)) by (rewrite list_lookup_fmap, Hd; done). cbn [rows_from e_name entry_of].
      rewrite !shown_app, Ho. cbn [app].
      replace (Z.of_nat (S i) + 1) with (Z.of_nat i + 1 + 1) by lia. case_bool_decide; by rewrite ?shown_row.
  - apply lookup_ge_None in Hl. exists [], found. split; [done|]. by rewrite drop_ge by (rewrite length_fmap; lia).
Qed.

(** Freeing the nodes from the [i]-th on: each is there when its turn comes. *)
Lemma free_loop m0 head ls ds fuel (i : nat) m :
  linked m0 head ls ds -> (i <= length ls < i + fuel)%nat ->
  (forall a, m !! a = if decide (a ∈ drop i ls) then m0 !! a else None) ->
  FreeList fuel m (ls !! i) = Done ∅.
Proof.
  intros H. revert i m. induction fuel as [|f IH]; intros i m Hi Hm; [lia|]. cbn [FreeList].
  destruct (ls !! i) as [l|] eqn:Hl.
  - destruct (deref_at m0 head ls ds i l H Hl) as (d & Hd & _). pose proof (lookup_lt_Some _ _ _ Hl).
    pose proof (drop_S ls l i Hl) as Hdrop.
    assert (Hml : m !! l = Some (MkNode d (before ls i) (ls !! S i))).
    { rewrite Hm, decide_True by (rewrite Hdrop; by left). by apply (lk_node _ _ _ _ H). }
    unfold deref, free. rewrite Hml. cbn [of_option mbind outcome_bind next]. apply IH; [lia|].
    intros a. destruct (decide (a = l)) as [->|Hne].
    + rewrite lookup_delete_eq, decide_False; [done|].
      pose proof (lk_nodup _ _ _ _ H) as Hnd. rewrite <- (take_drop i ls), Hdrop in Hnd.
      apply NoDup_app in Hnd as (_ & _ & Hnd). by apply NoDup_cons in Hnd as [Hnd _].
    + rewrite lookup_delete_ne, Hm, Hdrop by done. repeat case_decide; set_solver.
  - f_equal. apply map_eq. intros a. rewrite Hm, lookup_empty. apply lookup_ge_None in Hl.
    rewrite drop_ge by lia. by rewrite decide_False by apply not_elem_of_nil.
Qed.

Lemma free_list_spec m head ls ds : linked m head ls ds -> FreeList (S (size m)) m head = Done ∅.
Proof.
  intros H. rewrite (lk_head _ _ _ _ H), (linked_size _ _ _ _ H). apply (free_loop m head ls ds _ 0%nat m H); [lia|].
  intros a. case_decide as Ha; [done|]. apply eq_None_not_Some. by rewrite (lk_dom _ _ _ _ H).
Qed.

#[export] Instance list_spec room : BookSpec (list_policy room) program (lists room).
Proof.
  split.
  - apply list_add_meets.
  - apply list_remove_meets.
  - intros st es [(ls & ds & Hl & -> & Hok) _ [_ Hint] Hfull _]. cbn [find list_book]. unfold SearchByName, spec_find.
    rewrite (linked_size _ _ _ _ Hl) in *. rewrite (lk_head _ _ _ _ Hl).
    apply meets_say; [done|]. eapply meets_bind; [by apply scan_meets|]. intros o t (f & -> & Hf & Ht & <-).
    apply meets_right_ret. intros s r s' out [= <- <- <-].
    destruct (search_loop _ _ ls ds (S (length ls)) 0%nat s f false Hl Hok Ht) as (out & found & He & Ho); [lia|lia|].
    exists (inl tt), (out ++ if found : bool then [] else [("Абоненты с именем %s не найдены.\n"%string, [cstr f])]).
    split_and!; [eapply ends_bind; [exact He|]| |done].
    + destruct found; [done|]. cbn [of_option]. unfold ends, mbind, console_bind, lift. by rewrite chars_terminated.
    + rewrite shown_app, Ho. destruct found; [by rewrite app_nil_r|]. by rewrite shown_other, app_nil_r.
  - intros st es [(ls & ds & Hl & -> & Hok) _ [_ Hint] Hfull _]. cbn [show_all list_book]. unfold ShowAll, spec_show.
    rewrite (linked_size _ _ _ _ Hl) in *. rewrite (lk_head _ _ _ _ Hl). intros s r s' out [= <- <- <-].
    destruct (show_loop _ _ ls ds (S (length ls)) 0%nat s Hl Hok) as (out & He & Ho); [lia|lia|].
    exists (inl tt), out. by split_and!.
  - intros st es [(ls & ds & Hl & -> & Hok) _ _ _ _]. cbn [finish list_book]. unfold ExitProgram, spec_finish.
    cbn [allocated list_policy]. eapply meets_lifted; [by eapply free_list_spec|]. apply meets_say; [done|].
    intros s r s' out [= <- <- <-]. by exists (inr 0), [].
  - cbn [print_menu list_book]. unfold PrintMenu. repeat (apply meets_say; [done|]). by apply meets_printf.
  - by apply meets_printf.
Qed.

(** * The program *)

Lemma lists_empty room g : sized g -> Z.of_nat room < int_max -> lists room (Program (Heap ∅ 0 room g) None) [].
Proof.
  intros Hg Hint. split; cbn; [|intros l [x Hx]; by rewrite lookup_empty in Hx|done|rewrite map_size_empty; lia|done].
  exists [], []. split_and!; [|done|constructor]. split; try done; [constructor|].
  intros l. split; [intros [x Hx]; by rewrite lookup_empty in Hx|by intros ?%not_elem_of_nil].
Qed.

(** C12 The program of hw6 is a phone book: on every input on which the specification is
    defined it follows no null or dangling pointer, consumes the same input, takes the
    same decisions, lists the same entries and exits with the same status. After every
    number of rounds of the menu its nodes form a doubly linked list that holds the entries
    of the specification, and the heap holds no other node. *)
Theorem hw6_refines_list fuel room g s r s' out :
  sized g -> Z.of_nat room < int_max ->
  ends (spec_menu_state (list_policy room) fuel []) s r s' out ->
  exists r0 out0,
    ends (menu_state fuel (Program (Heap ∅ 0 room g) None)) s r0 s' out0 /\
    ends (main fuel room g) s (without_state r0) s' out0 /\ shown out0 = shown out /\
    match r0, r with
    | inl (inl (st, choice)), inl (inl (es, choice')) =>
        choice = choice' /\ length es = size (mem (the_heap st)) /\
        exists ls ds, linked (mem (the_heap st)) (head_ref st) ls ds /\ es = entry_of <$> ds
    | inr c, inr c' => c = c'
    | _, _ => False
    end.
Proof.
  intros Hg Hint H.
  destruct (menu_state_refines (list_policy room) fuel (Program (Heap ∅ 0 room g) None) [] (lists_empty _ _ Hg Hint) _ _ _ _ H)
    as (r0 & out0 & He & Ho & Hr).
  exists r0, out0. split; [exact He|]. split; [by apply rounds_of_state|]. split; [exact Ho|].
  destruct r0 as [[[st ch]|st]|c], r as [[[es ch']|es]|c']; try done; [|by apply spec_never_returns in H].
  destruct Hr as [Hl Hc]. cbn in Hl, Hc. split; [done|]. split; [symmetry; by eapply lists_size|].
  destruct (ls_addrs _ _ _ Hl) as (ls & ds & Hk & Hes & _). by exists ls, ds.
Qed.

(** C38 Leaving the program frees every node exactly once and nothing else: [FreeList]
    stops, and the heap is empty when [exit] is called. *)
Theorem exit_frees_all room st es :
  lists room st es ->
  FreeList (S (size (mem (the_heap st)))) (mem (the_heap st)) (head_ref st) = Done ∅ /\
  forall s, ends (ExitProgram st) s (inr 0) s [("Память освобождена. Выход из программы.\n"%string, [])].
Proof.
  intros [(ls & ds & Hl & _ & _) _ _ _ _]. pose proof (free_list_spec _ _ _ _ Hl) as E. split; [done|].
  intros s. unfold ExitProgram, ends, mbind, console_bind, lift. by rewrite E.
Qed.

(** * A session *)

Definition garbage0 : Abonent := MkAbonent (replicate 10 7) (replicate 10 7) (replicate 10 7).

Lemma session_spec6 : ends (spec_menu_state (list_policy 5) 6 []) session (inr 0) [10] [row 1 bob].
Proof. by vm_compute. Qed.

(** After its first three rounds, Bob alone is in the list. *)
Lemma session_spec3 : ends (spec_menu_state (list_policy 5) 3 []) session (inl (inl ([bob], Some 2))) (str " 4 5" ++ [10]) [].
Proof. by vm_compute. Qed.

Lemma hw6_refines_list_witness :
  (exists out0, ends (main 6 5 garbage0) session (inr 0) [10] out0 /\
    shown out0 = [[str "1"; str "bob"; str "ray"; str "34"]]) /\
  exists st out0, ends (menu_state 3 (Program (Heap ∅ 0 5 garbage0) None)) session (inl (inl (st, Some 2))) (str " 4 5" ++ [10]) out0 /\
    size (mem (the_heap st)) = 1%nat.
Proof.
  split.
  - pose proof (hw6_refines_list 6 5 garbage0 session (inr 0) [10] [row 1 bob]
      ltac:(done) ltac:(done) session_spec6) as (r0 & out0 & _ & He & Ho & Hr).
    destruct r0 as [[[b ch]|b]|c]; [destruct Hr..|]. exists out0. rewrite <- Hr. split; [exact He|exact Ho].
  - pose proof (hw6_refines_list 3 5 garbage0 session (inl (inl ([bob], Some 2))) (str " 4 5" ++ [10]) []
      ltac:(done) ltac:(done) session_spec3) as (r0 & out0 & He & _ & _ & Hr).
    destruct r0 as [[[st ch]|st]|c]; [|destruct Hr..]. destruct Hr as (Hc & Hs & _). exists st, out0.
    rewrite <- Hc, <- Hs. split; [exact He|reflexivity].
Defined.

Definition ann : Abonent := MkAbonent (lit "ann" ++ replicate 6 0) (lit "lee" ++ replicate 6 0) (lit "12" ++ replicate 7 0).
Definition one_node : program := Program (Heap (<[0%nat := MkNode ann None None]> ∅) 1 5 garbage0) (Some 0%nat).

Lemma one_node_lists : lists 5 one_node [entry_of ann].
Proof.
  split; cbn; [|..].
  - exists [0%nat], [ann]. split_and!; [by apply linked_first|done|].
    constructor; [|done]. repeat split; apply (bool_decide_unpack _); by vm_compute.
  - intros l. rewrite lookup_insert_is_Some. intros [->|[_ [x Hx]]]; [lia|by rewrite lookup_empty in Hx].
  - done.
  - rewrite map_size_insert_None by apply lookup_empty. rewrite map_size_empty. lia.
  - done.
Qed.

Lemma exit_frees_all_witness :
  FreeList (S (size (mem (the_heap one_node)))) (mem (the_heap one_node)) (head_ref one_node) = Done ∅.
Proof. apply (exit_frees_all 5 one_node [entry_of ann] one_node_lists). Defined.
