(* ===== verification/FileManager.v ===== *)
(** The two-panel file manager of src/hw9_vfs/file_manager: the list of a panel, loading
    and sorting a directory, changing the path, moving the selection, drawing, and the
    loop over the keys. The names of the entries are blocks of the heap. The file system,
    [realpath] and [qsort] are not part of the sources: they are parameters with the
    behaviour their manual pages promise. *)

From Stdlib Require Import Sorted.
From S2P Require Import Prelude CInt CStr.

Definition MAX_FILES : Z := 1024.
Definition PATH_MAX : Z := 4096.

(** [name] points to a block of the heap. *)
Record FileEntry := MkEntry { name : nat; is_dir : Z }.

Record FileList := MkFileList {
  path : list Z; files : list FileEntry; count : Z; selected : Z; start_line : Z }.

(** The blocks [strdup] has made, and how many there have been. *)
Record heap := Heap { mem : gmap nat (list Z); used : nat }.

Definition strdup (h : heap) (s : list Z) : heap * nat := (Heap (<[used h := s ++ [0]]> (mem h)) (S (used h)), used h).

Definition read (h : heap) (p : nat) : outcome (list Z) := of_option UseAfterFree (mem h !! p).

Definition free (h : heap) (p : nat) : outcome heap :=
  match mem h !! p with Some _ => Done (Heap (delete p (mem h)) (used h)) | None => Undef BadFree end.

(** What the program asks the system and the library: the names in a directory, unless it
    cannot be opened; whether a path is one of a directory; the canonical form of a path;
    and a sort by a comparison. *)
Class system := {
  listing : list Z -> option (list (list Z));
  is_directory : list Z -> bool;
  realpath : list Z -> option (list Z);
  qsort : (FileEntry -> FileEntry -> Z) -> list FileEntry -> list FileEntry }.

(** * The engine *)

Definition with_files (fl : FileList) (fs : list FileEntry) (n : Z) : FileList :=
  MkFileList (path fl) fs n (selected fl) (start_line fl).
Definition with_path (fl : FileList) (p : list Z) : FileList :=
  MkFileList p (files fl) (count fl) (selected fl) (start_line fl).
Definition with_view (fl : FileList) (sel start : Z) : FileList :=
  MkFileList (path fl) (files fl) (count fl) sel start.

(** Directories first, then by name without case. *)
Definition compare_entries (h : heap) (a b : FileEntry) : outcome Z :=
  if negb (is_dir a =? is_dir b) then isub (is_dir b) (is_dir a)
  else na ← read h (name a); nb ← read h (name b); strcasecmp na nb.

(** [free(files[i].name)] for the [n] entries from [i] on. *)
Definition free_names (fl : FileList) (h : heap) : outcome heap :=
  for_z (Z.to_nat (count fl)) 0 (fun i h => e ← znth (files fl) i; free h (name e)) h.

Definition free_files (fl : FileList) (h : heap) : outcome (FileList * heap) :=
  h ← free_names fl h; Done (with_files fl (files fl) 0, h).

(** [snprintf(out, PATH_MAX, "%s/%s", a, b)]: what it stores, if it fits. *)
Definition join_path (a b : list Z) : option (list Z) :=
  let p := a ++ [47] ++ b in if Z.of_nat (length p) <? PATH_MAX then Some p else None.

Section engine.
Context `{system}.

(** The loop over [readdir]. *)
Fixpoint read_entries (names : list (list Z)) (fl : FileList) (h : heap) : outcome (FileList * heap) :=
  match names with
  | [] => Done (fl, h)
  | d_name :: rest =>
      if count fl <? MAX_FILES then
        if bool_decide (d_name = str ".") then read_entries rest fl h
        else
          let '(h, p) := strdup h d_name in
          e ← znth (files fl) (count fl);
          fs ← zset (files fl) (count fl) (MkEntry p (is_dir e));
          dir ← chars (path fl);
          match join_path dir d_name with
          | None => h ← free h p; read_entries rest (with_files fl fs (count fl)) h
          | Some full =>
              fs ← zset fs (count fl) (MkEntry p (if is_directory full then 1 else 0));
              n ← iadd (count fl) 1;
              read_entries rest (with_files fl fs n) h
          end
      else Done (fl, h)
  end.

(** [qsort] calls the comparison on the entries, which reads their names. *)
Definition sort_entries (h : heap) (l : list FileEntry) : outcome (list FileEntry) :=
  if forallb (fun e => bool_decide (is_Some (mem h !! name e))) l
  then Done (qsort (fun a b => match compare_entries h a b with Done z => z | Undef _ => 0 end) l)
  else Undef UseAfterFree.

Definition load_directory (fl : FileList) (h : heap) : outcome (FileList * heap) :=
  dir ← chars (path fl);
  match listing dir with
  | None => Done (with_files fl (files fl) 0, h)
  | Some names =>
      h ← free_names fl h;
      '(fl, h) ← read_entries names (with_files fl (files fl) 0) h;
      part ← get_at (files fl) 0 (count fl);
      part ← sort_entries h part;
      fs ← put_at (files fl) 0 part;
      Done (with_view (with_files fl fs (count fl)) 0 0, h)
  end.

(** The new path before it is resolved: [None] when nothing was written to [newpath]. In
    the fourth case the code shortens [flist->path] itself. *)
Definition new_path (fl : FileList) (subdir : list Z) : outcome (FileList * option (list Z)) :=
  dir ← chars (path fl);
  sub ← chars subdir;
  if bool_decide (sub = str "..") then
    if bool_decide (dir = str "/") then Done (fl, Some (str "/"))
    else
      s ← strrchr (path fl) 47;
      match s with
      | None => Done (fl, Some (str "/"))
      | Some k =>
          if k =? 0 then p ← zset (path fl) (k + 1) 0; Done (with_path fl p, None)
          else Done (fl, Some (take (Z.to_nat k) dir))
      end
  else
    match join_path dir sub with
    | Some p => Done (fl, Some p)
    | None => Done (fl, Some dir)
    end.

Definition update_path (fl : FileList) (subdir : list Z) : outcome FileList :=
  '(fl, newpath) ← new_path fl subdir;
  newpath ← of_option Uninitialised newpath;
  match realpath newpath with
  | Some resolved =>
      p ← strncpy_z (path fl) (resolved ++ [0]);
      Done (with_path fl p)
  | None => Done fl
  end.

(** The rows a panel shows: line, whether it is a directory, whether it is highlighted,
    and the name. *)
Definition shown_row : Type := Z * bool * bool * list Z.

Fixpoint draw_rows (n : nat) (i : Z) (fl : FileList) (h : heap) (active : bool) : outcome (list shown_row) :=
  match n with
  | O => Done []
  | S n' =>
      idx ← iadd (start_line fl) i;
      if count fl <=? idx then Done []
      else
        e ← znth (files fl) idx;
        s ← read h (name e);
        t ← chars s;
        rest ← draw_rows n' (i + 1) fl h active;
        Done ((i + 1, negb (is_dir e =? 0), active && (idx =? selected fl), t) :: rest)
  end.

(** The title and the rows. *)
Definition draw_filelist (fl : FileList) (h : heap) (height : Z) (active : bool) : outcome (list Z * list shown_row) :=
  title ← chars (path fl);
  rows ← draw_rows (Z.to_nat (height - 2)) 0 fl h active;
  Done (title, rows).

Definition move_selection (fl : FileList) (delta height : Z) : outcome FileList :=
  max_visible ← isub height 2;
  new_sel ← iadd (selected fl) delta;
  let new_sel := if new_sel <? 0 then 0 else new_sel in
  let new_sel := if count fl <=? new_sel then count fl - 1 else new_sel in
  if new_sel <? start_line fl then Done (with_view fl new_sel new_sel)
  else
    bottom ← iadd (start_line fl) max_visible;
    if bottom <=? new_sel then Done (with_view fl new_sel (new_sel - max_visible + 1))
    else Done (with_view fl new_sel (start_line fl)).

(** * The program *)

Record manager := Manager { left : FileList; right : FileList; active : Z; the_heap : heap }.

Definition KEY_DOWN : Z := 258.
Definition KEY_UP : Z := 259.

(** The panel [fl] points to, and a change of it. *)
Definition focus (m : manager) : FileList := if active m =? 0 then left m else right m.
Definition set_focus (m : manager) (fl : FileList) (h : heap) : manager :=
  if active m =? 0 then Manager fl (right m) (active m) h else Manager (left m) fl (active m) h.

(** The [switch] on a key. *)
Definition on_key (height : Z) (m : manager) (ch : Z) : outcome manager :=
  let fl := focus m in
  if ch =? 9 then Done (Manager (left m) (right m) (1 - active m) (the_heap m))
  else if ch =? KEY_UP then fl ← move_selection fl (-1) height; Done (set_focus m fl (the_heap m))
  else if ch =? KEY_DOWN then fl ← move_selection fl 1 height; Done (set_focus m fl (the_heap m))
  else if ch =? 10 then
    if 0 <? count fl then
      e ← znth (files fl) (selected fl);
      if negb (is_dir e =? 0) then
        s ← read (the_heap m) (name e);
        fl ← update_path fl s;
        '(fl, h) ← load_directory fl (the_heap m);
        Done (set_focus m fl h)
      else Done m
    else Done m
  else Done m.

Definition screen : Type := (list Z * list shown_row) * (list Z * list shown_row).

Definition draw (height : Z) (m : manager) : outcome screen :=
  l ← draw_filelist (left m) (the_heap m) height (active m =? 0);
  r ← draw_filelist (right m) (the_heap m) height (active m =? 1);
  Done (l, r).

(** The loop over the keys up to [q]; [None] while it waits for another. *)
Fixpoint key_loop (height : Z) (m : manager) (keys : list Z) : outcome (manager * option heap) :=
  match keys with
  | [] => Done (m, None)
  | ch :: rest =>
      if ch =? 113 then
        '(l, h) ← free_files (left m) (the_heap m);
        '(r, h) ← free_files (right m) h;
        Done (Manager l r (active m) h, Some h)
      else
        m ← on_key height m ch;
        _ ← draw height m;
        key_loop height m rest
  end.

(** [realpath(rel, path)], or the root when it fails. *)
Definition init_path (old rel : list Z) : outcome (list Z) :=
  put_at old 0 (default (str "/") (realpath rel) ++ [0]).

(** [main] after the screen is set up; [l0] and [r0] are the uninitialised locals. *)
Definition main (height : Z) (l0 r0 : FileList) (keys : list Z) : outcome (manager * option heap) :=
  pl ← init_path (path l0) (str ".");
  pr ← init_path (path r0) (str "..");
  '(l, h) ← load_directory (with_path l0 pl) (Heap ∅ 0);
  '(r, h) ← load_directory (with_path r0 pr) h;
  let m := Manager l r 0 h in
  _ ← draw height m;
  key_loop height m keys.
End engine.

(** * The blocks of a panel *)

(** The heap holds the blocks [ps], each once, and no other. *)
Record owns (h : heap) (ps : list nat) : Prop := Owns {
  ow_nodup : NoDup ps;
  ow_dom : forall p, is_Some (mem h !! p) <-> p ∈ ps;
  ow_used : forall p, p ∈ ps -> (p < used h)%nat }.

Lemma owns_perm h ps qs : ps ≡ₚ qs -> owns h ps -> owns h qs.
Proof.
  intros Hp [Hn Hd Hu]. split.
  - by rewrite <- Hp.
  - intros p. by rewrite Hd, Hp.
  - intros p Hq. apply Hu. by rewrite Hp.
Qed.

Lemma owns_free h p ps : owns h (p :: ps) ->
  exists h', free h p = Done h' /\ owns h' ps /\ used h' = used h /\ mem h' = delete p (mem h).
Proof.
  intros [Hn Hd Hu]. unfold free. apply NoDup_cons in Hn as [Hp Hn].
  assert (Hs : is_Some (mem h !! p)) by (apply Hd; by left). destruct Hs as [s ->].
  eexists. split; [done|]. split; [|done]. split; cbn; [done| |].
  - intros q. destruct (decide (q = p)) as [->|Hne].
    + rewrite lookup_delete_eq. split; [by intros [? ?]|done].
    + rewrite lookup_delete_ne, Hd by done. set_solver.
  - intros q Hq. apply Hu. by right.
Qed.

Lemma owns_strdup h s ps : owns h ps ->
  owns (strdup h s).1 ((strdup h s).2 :: ps) /\ (strdup h s).2 = used h /\
  mem (strdup h s).1 = <[used h := s ++ [0]]> (mem h).
Proof.
  intros [Hn Hd Hu]. split; [|done]. split; cbn.
  - apply NoDup_cons. split; [|done]. intros Hin%Hu. lia.
  - intros p. rewrite lookup_insert_is_Some, Hd, elem_of_cons. destruct (decide (p = used h)); naive_solver.
  - intros p [->|Hp]%elem_of_cons; [lia|]. apply Hu in Hp. lia.
Qed.

(** The blocks of [rest] are what they were. *)
Definition frame (rest : list nat) (h h' : heap) : Prop := forall p, p ∈ rest -> mem h' !! p = mem h !! p.

Lemma frame_trans rest h1 h2 h3 : frame rest h1 h2 -> frame rest h2 h3 -> frame rest h1 h3.
Proof. intros H1 H2 p Hp. by rewrite H2, H1. Qed.

(** * The shape of a panel *)

Definition entries (fl : FileList) : list FileEntry := take (Z.to_nat (count fl)) (files fl).
Definition blocks (fl : FileList) : list nat := name <$> entries fl.

Record shape (fl : FileList) : Prop := Shape {
  sh_path : length (path fl) = 4096%nat;
  sh_term : terminated (path fl);
  sh_files : length (files fl) = 1024%nat;
  sh_count : 0 <= count fl <= 1024 }.

(** A file name: its bytes without the NUL. *)
Definition filename (n : list Z) : Prop := text n /\ Forall is_byte n.

(** The entry stands for the name [v.1], a directory or not. *)
Definition stands (h : heap) (e : FileEntry) (v : list Z * bool) : Prop :=
  mem h !! name e = Some (v.1 ++ [0]) /\ is_dir e = (if v.2 then 1 else 0) /\ filename v.1.

Definition shows (h : heap) (fl : FileList) (vs : list (list Z * bool)) : Prop := Forall2 (stands h) (entries fl) vs.

Lemma shows_frame h h' fl vs : frame (blocks fl) h h' -> shows h fl vs -> shows h' fl vs.
Proof.
  unfold shows, blocks. intros Hf Hs. assert (Hin : forall e, e ∈ entries fl -> mem h' !! name e = mem h !! name e).
  { intros e He. apply Hf. by apply list_elem_of_fmap_2. }
  clear Hf. induction Hs as [|e v es vs He Hs IH]; [constructor|]. constructor.
  - destruct He as (Hm & Hrest). split; [rewrite Hin by (by left)|]; done.
  - apply IH. intros. apply Hin. by right.
Qed.

Lemma free_names_ok fl h rest : shape fl -> owns h (blocks fl ++ rest) ->
  exists h', free_names fl h = Done h' /\ owns h' rest /\ frame rest h h'.
Proof.
  intros [_ _ Hf Hc] H. unfold free_names.
  destruct (for_z_inv (fun k h' => owns h' (drop (Z.to_nat k) (blocks fl) ++ rest) /\ frame rest h h')
    (Z.to_nat (count fl)) 0 (fun i h => e ← znth (files fl) i; free h (name e)) h) as (h' & -> & H').
  - intros k g Hk [Hg Hfr]. destruct (znth_ok (files fl) k) as (e & -> & He); [lia|]. cbn [mbind outcome_bind].
    assert (Hb : blocks fl !! Z.to_nat k = Some (name e)).
    { unfold blocks, entries. rewrite list_lookup_fmap, lookup_take_lt, He by lia. done. }
    rewrite (drop_S _ _ _ Hb) in Hg. cbn [app] in Hg.
    pose proof (ow_nodup _ _ Hg) as Hnd. apply NoDup_cons in Hnd as [Hnotin _].
    destruct (owns_free g (name e) _ Hg) as (g' & E & Hg' & _ & Hm). exists g'. split; [done|].
    replace (Z.to_nat (k + 1)) with (S (Z.to_nat k)) by lia. split; [done|].
    intros p Hp. rewrite Hm, lookup_delete_ne; [by apply Hfr|]. intros <-. apply Hnotin, elem_of_app. by right.
  - split; [done|]. by intros p.
  - exists h'. split; [done|]. destruct H' as [H' Hfr]. split; [|done].
    rewrite drop_ge in H'; [done|]. unfold blocks, entries. rewrite length_fmap, length_take. lia.
Qed.

(** * What the system promises *)

(** A comparison by which a list can be sorted: on its elements it is total and transitive. *)
Definition orders {A} (cmp : A -> A -> Z) (l : list A) : Prop :=
  (forall a b, a ∈ l -> b ∈ l -> cmp a b <= 0 \/ cmp b a <= 0) /\
  (forall a b c, a ∈ l -> b ∈ l -> c ∈ l -> cmp a b <= 0 -> cmp b c <= 0 -> cmp a c <= 0).

Class system_ok `{system} := {
  listing_names p ns : listing p = Some ns -> Forall filename ns;
  realpath_path p q : realpath p = Some q -> text q /\ Z.of_nat (length q) < PATH_MAX;
  qsort_permutation cmp l : qsort cmp l ≡ₚ l;
  qsort_sorted cmp l : orders cmp l -> StronglySorted (fun a b => cmp a b <= 0) (qsort cmp l) }.

(** * Reading a directory *)

Lemma entries_same fl e : shape fl -> count fl < 1024 ->
  entries (with_files fl (<[Z.to_nat (count fl) := e]> (files fl)) (count fl)) = entries fl.
Proof. intros. unfold entries. cbn. by rewrite take_insert_ge by lia. Qed.

Lemma entries_snoc fl e : shape fl -> count fl < 1024 ->
  entries (with_files fl (<[Z.to_nat (count fl) := e]> (files fl)) (count fl + 1)) = entries fl ++ [e].
Proof.
  intros [_ _ Hf Hc] Hlt. unfold entries. cbn. replace (Z.to_nat (count fl + 1)) with (S (Z.to_nat (count fl))) by lia.
  rewrite (take_S_r _ _ e) by (rewrite list_lookup_insert_eq; [done|lia]). by rewrite take_insert_ge by lia.
Qed.

Section reading.
Context `{system_ok}.

Definition shown_name (dir n : list Z) : Prop := n <> str "." /\ is_Some (join_path dir n).
#[local] Instance shown_name_dec dir n : Decision (shown_name dir n).
Proof. unfold shown_name. apply _. Defined.

(** The names that are listed, and the entry of a name. *)
Definition wanted (dir : list Z) (names : list (list Z)) : list (list Z) := filter (shown_name dir) names.
Definition value (dir n : list Z) : list Z * bool := (n, is_directory (dir ++ [47] ++ n)).

Lemma join_path_Some a b p : join_path a b = Some p -> p = a ++ [47] ++ b.
Proof. unfold join_path. case_match; congruence. Qed.

Lemma read_entries_ok names dir fl h rest vs :
  shape fl -> owns h (blocks fl ++ rest) -> shows h fl vs -> cstr (path fl) = dir -> Forall filename names ->
  exists fl' h', read_entries names fl h = Done (fl', h') /\ shape fl' /\ path fl' = path fl /\
    owns h' (blocks fl' ++ rest) /\ frame rest h h' /\
    shows h' fl' (vs ++ (value dir <$> take (1024 - Z.to_nat (count fl)) (wanted dir names))).
Proof using All.
  intros Hsh Ho Hs Hdir Hn. revert fl h vs Hsh Ho Hs Hdir. induction Hn as [|n names Hn Hns IH]; intros fl h vs Hsh Ho Hs Hdir;
    cbn [read_entries].
  { exists fl, h. unfold wanted. rewrite filter_nil, take_nil, app_nil_r. by split_and!. }
  pose proof Hsh as [Hp Ht Hf Hc]. unfold MAX_FILES. destruct (Z.ltb_spec (count fl) 1024) as [Hlt|Hge].
  2:{ exists fl, h. replace (1024 - Z.to_nat (count fl))%nat with 0%nat by lia. rewrite take_0, app_nil_r. by split_and!. }
  unfold wanted. destruct (decide (n = str ".")) as [->|Hdot].
  { rewrite bool_decide_true by done. rewrite filter_cons_False by (by intros []). by apply IH. }
  rewrite bool_decide_false by done.
  destruct (owns_strdup h n _ Ho) as (Ho1 & Hused & Hm1). destruct (strdup h n) as [h1 p] eqn:Ed. cbn [fst snd] in *. subst p.
  assert (Hfresh : used h ∉ blocks fl ++ rest) by (by pose proof (ow_nodup _ _ Ho1) as [? _]%NoDup_cons).
  assert (Hfr1 : forall q, q ∈ blocks fl ++ rest -> mem h1 !! q = mem h !! q)
    by (intros q Hq; rewrite Hm1, lookup_insert_ne; [done|intros <-; done]).
  destruct (znth_ok (files fl) (count fl)) as (e & -> & _); [lia|]. cbn [mbind outcome_bind].
  rewrite zset_ok by lia. cbn [mbind outcome_bind]. rewrite chars_terminated, Hdir by done. cbn [mbind outcome_bind].
  destruct (join_path dir n) as [full|] eqn:Ej.
  - rewrite zset_ok by (rewrite length_insert; lia). cbn [mbind outcome_bind]. rewrite list_insert_insert_eq.
    unfold iadd. rewrite int_result_Done2 by (unfold_int; lia). cbn [mbind outcome_bind].
    rewrite (join_path_Some _ _ _ Ej).
    set (e' := MkEntry (used h) (if is_directory (dir ++ [47] ++ n) then 1 else 0)).
    set (fl1 := with_files fl _ _). assert (He1 : entries fl1 = entries fl ++ [e']) by (by apply entries_snoc).
    assert (Hb1 : blocks fl1 = blocks fl ++ [used h]) by (unfold blocks; by rewrite He1, fmap_app).
    destruct (IH fl1 h1 (vs ++ [value dir n])) as (fl' & h' & E & Hsh' & Hpath & Ho' & Hfr & Hs'); try done.
    + split; cbn; [done|done|by rewrite length_insert|lia].
    + rewrite Hb1. eapply owns_perm; [|exact Ho1]. solve_Permutation.
    + unfold shows. rewrite He1. apply Forall2_app.
      * apply (shows_frame h); [|done]. intros q Hq. apply Hfr1, elem_of_app. by left.
      * constructor; [|constructor]. split_and!; [|done|done]. cbn. by rewrite Hm1, lookup_insert_eq.
    + exists fl', h'. split_and!; try done.
      * intros q Hq. rewrite Hfr by done. apply Hfr1, elem_of_app. by right.
      * rewrite filter_cons_True by (split; [done|by eexists]).
        replace (1024 - Z.to_nat (count fl))%nat with (S (1024 - Z.to_nat (count fl1))) by (subst fl1; cbn; lia).
        cbn [take fmap list_fmap]. change (vs ++ [value dir n]) with (vs ++ [value dir n]) in Hs'.
        by rewrite <- app_assoc in Hs'.
  - destruct (owns_free h1 (used h) _ Ho1) as (h2 & E2 & Ho2 & _ & Hm2). rewrite E2. cbn [mbind outcome_bind].
    assert (Hback : forall q, q ∈ blocks fl ++ rest -> mem h2 !! q = mem h !! q).
    { intros q Hq. rewrite Hm2, lookup_delete_ne by (intros <-; done). by apply Hfr1. }
    set (fl1 := with_files fl _ _). assert (He1 : entries fl1 = entries fl) by (by apply entries_same).
    assert (Hb1 : blocks fl1 = blocks fl) by (unfold blocks; by rewrite He1).
    destruct (IH fl1 h2 vs) as (fl' & h' & E & Hsh' & Hpath & Ho' & Hfr & Hs'); try done.
    + split; cbn; [done|done|by rewrite length_insert|lia].
    + by rewrite Hb1.
    + unfold shows. rewrite He1. apply (shows_frame h); [|done]. intros q Hq. apply Hback, elem_of_app. by left.
    + exists fl', h'. split_and!; try done.
      * intros q Hq. rewrite Hfr by done. apply Hback, elem_of_app. by right.
      * rewrite filter_cons_False by (intros [_ [x Hx]]; by rewrite Ej in Hx). done.
Qed.
End reading.

(** * Sorting *)

(** The order of the panel on names and kinds. *)
Definition cmp_value (v w : list Z * bool) : Z :=
  if Bool.eqb v.2 w.2 then casecmp v.1 w.1 else (if w.2 then 1 else 0) - (if v.2 then 1 else 0).

(** What an entry stands for, read from the heap. *)
Definition val (h : heap) (e : FileEntry) : list Z * bool :=
  (match mem h !! name e with Some s => cstr s | None => [] end, bool_decide (is_dir e = 1)).

Lemma stands_val h e v : stands h e v -> v = val h e /\ stands h e (val h e).
Proof.
  intros (Hm & Hd & Hn & Hb). assert (v = val h e) as <-; [|by repeat split].
  unfold val. rewrite Hm, Hd, cstr_app by done. destruct v as [n []]; cbn; by case_bool_decide.
Qed.

Lemma shows_val h fl vs : shows h fl vs -> vs = val h <$> entries fl /\ Forall (fun e => stands h e (val h e)) (entries fl).
Proof.
  unfold shows. induction 1 as [|e v es vs He Hs [-> IH]]; [done|].
  apply stands_val in He as [-> He]. split; [done|by constructor].
Qed.

Lemma shows_of_val h fl : Forall (fun e => stands h e (val h e)) (entries fl) -> shows h fl (val h <$> entries fl).
Proof. unfold shows. induction 1; cbn; by constructor. Qed.

Lemma compare_entries_ok h a b v w : stands h a v -> stands h b w -> compare_entries h a b = Done (cmp_value v w).
Proof.
  intros (Ha & Hda & Hna & Hba) (Hb & Hdb & Hnb & Hbb). unfold compare_entries, cmp_value, read.
  rewrite Ha, Hb, Hda, Hdb. cbn [of_option mbind outcome_bind].
  destruct (v.2), (w.2); cbn [Z.eqb Pos.eqb negb Bool.eqb]; try done; by apply strcasecmp_app.
Qed.

Lemma cmp_value_total v w : cmp_value v w <= 0 \/ cmp_value w v <= 0.
Proof. unfold cmp_value. rewrite (casecmp_flip v.1). destruct (v.2), (w.2); cbn; lia. Qed.

Lemma cmp_value_trans u v w : filename u.1 -> filename v.1 -> filename w.1 ->
  cmp_value u v <= 0 -> cmp_value v w <= 0 -> cmp_value u w <= 0.
Proof.
  intros [Hu Bu] [Hv Bv] [Hw Bw]. unfold cmp_value.
  destruct (u.2), (v.2), (w.2); cbn; try lia; by apply casecmp_trans.
Qed.

Section loading.
Context `{system_ok}.

Lemma sort_entries_ok h l : Forall (fun e => stands h e (val h e)) l ->
  exists l', sort_entries h l = Done l' /\ l' ≡ₚ l /\
    StronglySorted (fun v w => cmp_value v w <= 0) (val h <$> l').
Proof using All.
  intros Hl. unfold sort_entries. rewrite Forall_forall in Hl.
  assert (forallb (fun e => bool_decide (is_Some (mem h !! name e))) l = true) as ->.
  { apply forallb_forall. intros e He. apply list_elem_of_In, Hl in He as (Hm & _). rewrite Hm. by apply bool_decide_eq_true. }
  set (cmp := fun a b => _). assert (Hcmp : forall a b, a ∈ l -> b ∈ l -> cmp a b = cmp_value (val h a) (val h b)).
  { intros a b Ha Hb. unfold cmp. by rewrite (compare_entries_ok h a b _ _ (Hl a Ha) (Hl b Hb)). }
  exists (qsort cmp l). split; [done|]. split; [apply qsort_permutation|].
  assert (Ho : orders cmp l).
  { split; [intros a b Ha Hb; rewrite !Hcmp by done; apply cmp_value_total|].
    intros a b c Ha Hb Hc. rewrite !Hcmp by done.
    apply cmp_value_trans; [apply (Hl a Ha)|apply (Hl b Hb)|apply (Hl c Hc)]. }
  pose proof (qsort_sorted cmp l Ho) as Hs. pose proof (qsort_permutation cmp l) as Hp.
  assert (Hin : forall a, a ∈ qsort cmp l -> a ∈ l) by (intros a; by rewrite Hp). clearbody cmp. clear Hp Ho.
  induction Hs as [|a l' Hs IH Ha]; [constructor|]. cbn. constructor.
  - apply IH. intros. apply Hin. by right.
  - apply Forall_fmap. apply Forall_forall. intros b Hb. rewrite Forall_forall in Ha. cbn.
    rewrite <- Hcmp; [by apply Ha|apply Hin; by left|apply Hin; by right].
Qed.

Lemma load_directory_spec fl h rest dir names :
  shape fl -> owns h (blocks fl ++ rest) -> cstr (path fl) = dir -> listing dir = Some names ->
  exists fl' h' vs, load_directory fl h = Done (fl', h') /\ shape fl' /\ path fl' = path fl /\
    selected fl' = 0 /\ start_line fl' = 0 /\
    owns h' (blocks fl' ++ rest) /\ frame rest h h' /\ shows h' fl' vs /\
    vs ≡ₚ value dir <$> take 1024 (wanted dir names) /\
    StronglySorted (fun v w => cmp_value v w <= 0) vs.
Proof using All.
  intros Hsh Ho Hdir Hlist. pose proof Hsh as [Hp Ht Hf Hc]. unfold load_directory.
  rewrite chars_terminated, Hdir by done. cbn [mbind outcome_bind]. rewrite Hlist.
  destruct (free_names_ok fl h rest Hsh Ho) as (h1 & -> & Ho1 & Hfr1). cbn [mbind outcome_bind].
  assert (Hsh0 : shape (with_files fl (files fl) 0)) by (split; cbn; done || lia).
  destruct (read_entries_ok names dir (with_files fl (files fl) 0) h1 rest [] Hsh0) as
    (fl2 & h2 & E2 & Hsh2 & Hpath2 & Ho2 & Hfr2 & Hs2); [exact Ho1|constructor|exact Hdir|by eapply listing_names|].
  rewrite E2. cbn [mbind outcome_bind]. pose proof Hsh2 as [Hp2 Ht2 Hf2 Hc2].
  assert (Hget : get_at (files fl2) 0 (count fl2) = Done (entries fl2)).
  { unfold get_at. zbool; cbn; done || lia. }
  rewrite Hget. cbn [mbind outcome_bind]. apply shows_val in Hs2 as [Hvs Hall]. cbn [app] in Hvs.
  destruct (sort_entries_ok h2 _ Hall) as (l & -> & Hperm & Hsorted). cbn [mbind outcome_bind].
  assert (Hlen : Z.of_nat (length l) = count fl2).
  { rewrite Hperm. unfold entries. rewrite length_take. lia. }
  rewrite put_at_ok by lia. cbn [mbind outcome_bind]. eexists _, h2, (val h2 <$> l). split; [done|].
  set (fs := take _ _ ++ _). set (fl' := with_view _ 0 0).
  assert (Hent : entries fl' = l).
  { unfold entries. cbn. subst fs. change (Z.to_nat 0) with 0%nat. rewrite take_0, app_nil_l. by rewrite take_app_length' by lia. }
  split_and!; try done.
  - split; cbn; [done|done| |done]. subst fs. len.
  - eapply owns_perm; [|exact Ho2]. unfold blocks. rewrite Hent. by rewrite Hperm.
  - by eapply frame_trans.
  - rewrite <- Hent. apply shows_of_val. rewrite Hent. by rewrite Hperm.
  - rewrite Hperm, <- Hvs. cbn. by rewrite Nat.sub_0_r.
Qed.
(** C29 Loading a directory replaces the entries of the panel by those of the directory,
    except [.] and those whose path is too long, at most 1024 of them, with directories
    before files and each group in alphabetical order without case; the blocks of the old
    names are freed, the panel's new names are the only new blocks, and the selection
    starts at the top. *)
Theorem load_directory_sorted fl h rest dir names :
  shape fl -> owns h (blocks fl ++ rest) -> cstr (path fl) = dir -> listing dir = Some names ->
  exists fl' h' vs, load_directory fl h = Done (fl', h') /\ shape fl' /\ path fl' = path fl /\
    selected fl' = 0 /\ start_line fl' = 0 /\
    owns h' (blocks fl' ++ rest) /\ frame rest h h' /\ shows h' fl' vs /\
    vs ≡ₚ value dir <$> take 1024 (wanted dir names) /\
    StronglySorted (fun v w => cmp_value v w <= 0) vs.
Proof using All. intros. by apply load_directory_spec. Qed.
End loading.

(** * The view *)

(** The selection is on an entry, if there is one, and in the rows the panel shows. *)
Record view_ok (height : Z) (fl : FileList) : Prop := ViewOk {
  vw_selected : 0 < count fl -> selected fl < count fl;
  vw_bound : selected fl < 1024;
  vw_start : 0 <= start_line fl <= selected fl;
  vw_visible : selected fl < start_line fl + (height - 2) }.

Lemma move_selection_ok height fl delta : shape fl -> view_ok height fl -> 0 < count fl -> 3 <= height <= 2 ^ 30 ->
  delta = 1 \/ delta = -1 ->
  exists fl', move_selection fl delta height = Done fl' /\ view_ok height fl' /\
    path fl' = path fl /\ files fl' = files fl /\ count fl' = count fl.
Proof.
  intros [_ _ _ Hc] [Hs Hb Ht Hv] H0 Hh Hd. specialize (Hs H0). unfold move_selection, isub, iadd.
  rewrite !int_result_Done2 by (unfold_int; lia). cbn [mbind outcome_bind].
  set (s1 := if _ <? 0 then _ else _). set (s2 := if count fl <=? s1 then _ else _).
  assert (Hs2 : 0 <= s2 < count fl /\ selected fl - 1 <= s2 <= selected fl + 1).
  { subst s2 s1. destruct Hd; subst delta; zbool; lia. }
  rewrite int_result_Done2 by (unfold_int; lia). cbn [mbind outcome_bind].
  destruct (Z.ltb_spec s2 (start_line fl)); [|destruct (Z.leb_spec (start_line fl + (height - 2)) s2)];
    (eexists; split; [done|]; split_and!; try done; split; cbn; lia).
Qed.

(** In a panel without entries the selection becomes -1. *)
Lemma move_selection_empty height fl delta : count fl = 0 -> 0 <= selected fl <= 1024 -> 0 <= start_line fl <= 1024 ->
  3 <= height <= 2 ^ 30 -> delta = 1 \/ delta = -1 -> move_selection fl delta height = Done (with_view fl (-1) (-1)).
Proof.
  intros Hc Hsel Hst Hh Hd. unfold move_selection, isub, iadd. rewrite Hc.
  rewrite !int_result_Done2 by (unfold_int; lia). cbn [mbind outcome_bind].
  set (s := if _ <? 0 then _ else _). assert (0 <= s) by (subst s; zbool; lia).
  destruct (Z.leb_spec 0 s); [|lia]. destruct (Z.ltb_spec (0 - 1) (start_line fl)); [done|lia].
Qed.

(** Such a panel cannot be drawn any more. *)
Lemma draw_filelist_before fl h height b : shape fl -> count fl = 0 -> 3 <= height <= 2 ^ 30 ->
  draw_filelist (with_view fl (-1) (-1)) h height b = Undef OutOfBounds.
Proof.
  intros [_ Ht _ _] Hc Hh. unfold draw_filelist. cbn [path with_view]. rewrite chars_terminated by done. cbn [mbind outcome_bind].
  destruct (Z.to_nat (height - 2)) as [|n] eqn:En; [lia|]. cbn [draw_rows start_line count with_view].
  unfold iadd. rewrite int_result_Done2, Hc by (unfold_int; lia). done.
Qed.

Lemma draw_rows_ok n i fl h b vs : shape fl -> shows h fl vs -> 0 <= start_line fl -> 0 <= i -> i + Z.of_nat n <= 2 ^ 30 ->
  start_line fl <= 1024 -> defined (draw_rows n i fl h b).
Proof.
  intros Hsh Hs Hst. pose proof Hsh as [_ _ Hf Hc]. revert i. induction n as [|n IH]; intros i Hi Hn Hb; cbn [draw_rows]; [by eexists|].
  unfold iadd. rewrite int_result_Done2 by (unfold_int; lia). cbn [mbind outcome_bind].
  destruct (Z.leb_spec (count fl) (start_line fl + i)); [by eexists|].
  destruct (znth_ok (files fl) (start_line fl + i)) as (e & -> & He); [lia|]. cbn [mbind outcome_bind].
  apply shows_val in Hs as [_ Hall]. destruct (Forall_lookup_1 _ _ (Z.to_nat (start_line fl + i)) e Hall) as (Hm & _ & Hn' & _).
  { unfold entries. by rewrite lookup_take_lt by lia. }
  unfold read. rewrite Hm. cbn [of_option mbind outcome_bind]. rewrite chars_app by done. cbn [mbind outcome_bind].
  destruct (IH (i + 1)) as [rest ->]; [lia|lia|done|]. by eexists.
Qed.

Lemma draw_filelist_ok height fl h b vs : shape fl -> shows h fl vs -> view_ok height fl -> 3 <= height <= 2 ^ 30 ->
  defined (draw_filelist fl h height b).
Proof.
  intros Hsh Hs [_ Hsel Hst _] Hh. pose proof Hsh as [_ Ht _ Hc]. unfold draw_filelist. rewrite chars_terminated by done.
  cbn [mbind outcome_bind]. destruct (draw_rows_ok (Z.to_nat (height - 2)) 0 fl h b vs) as [rows ->]; try done; try lia.
  by eexists.
Qed.

(** * Changing the path *)

Lemma strrchr_from_spec l c i last : terminated l -> c <> 0 ->
  exists r, strrchr_from i last l c = Done r /\
    (r = last \/ exists k, r = Some k /\ i <= k < i + Z.of_nat (length (cstr l))).
Proof.
  intros [r ->]%terminated_split Hc. rewrite cstr_app by apply cstr_text.
  pose proof (cstr_text l) as Ht. revert i last. induction Ht as [|x s Hx Hs IH]; intros i last; cbn [app strrchr_from length].
  - destruct (Z.eqb_spec 0 c); [congruence|]. cbn. eexists. split; [done|]. by left.
  - apply nonzero_spec in Hx. destruct (Z.eqb_spec x 0); [done|].
    destruct (IH (i + 1) (if x =? c then Some i else last)) as (q & -> & Hq). exists q. split; [done|].
    destruct Hq as [->|(k & -> & Hk)]; [|right; exists k; split; [done|lia]].
    destruct (x =? c); [right; exists i; split; [done|lia]|by left].
Qed.

Section path.
Context `{system_ok}.

(** A path the program can be at: the root, or one the system resolved. *)
Definition resolved (q : list Z) : Prop := q = str "/" \/ exists p, realpath p = Some q.

Lemma resolved_path q : resolved q -> text q /\ Z.of_nat (length q) < PATH_MAX.
Proof using All.
  intros [->|[p Hp]]; [|by eapply realpath_path]. split; [|done]. apply (bool_decide_unpack _). by vm_compute.
Qed.

(** The path is that of a directory directly below the root, and [..] is chosen. *)
Definition leaves_first_level (fl : FileList) (sub : list Z) : Prop :=
  cstr (path fl) <> str "/" /\ strrchr (path fl) 47 = Done (Some 0) /\ sub = str "..".

Lemma update_path_ok fl sub r : shape fl -> resolved (cstr (path fl)) -> text sub ->
  (exists fl', update_path fl (sub ++ 0 :: r) = Done fl' /\ shape fl' /\ resolved (cstr (path fl')) /\
     files fl' = files fl /\ count fl' = count fl /\ selected fl' = selected fl /\ start_line fl' = start_line fl) \/
  (update_path fl (sub ++ 0 :: r) = Undef Uninitialised /\ leaves_first_level fl sub).
Proof using All.
  intros Hsh Hres Hsub. pose proof Hsh as [Hp Ht Hf Hc]. unfold update_path, new_path.
  rewrite (chars_terminated (path fl)), chars_app by done. cbn [mbind outcome_bind].
  assert (Hdone : forall np, exists fl', (newpath ← of_option Uninitialised (Some np); match realpath newpath with
      | Some q => p ← strncpy_z (path fl) (q ++ [0]); Done (with_path fl p) | None => Done fl end) = Done fl' /\
      shape fl' /\ resolved (cstr (path fl')) /\ files fl' = files fl /\ count fl' = count fl /\
      selected fl' = selected fl /\ start_line fl' = start_line fl).
  { intros np. cbn [of_option mbind outcome_bind]. destruct (realpath np) as [q|] eqn:Eq; [|by exists fl].
    destruct (realpath_path np q Eq) as [Hq Hql]. unfold PATH_MAX in Hql.
    destruct (strncpy_z_spec (path fl) q [] Hq) as (d & -> & Hdl & Hdt & Hdc); [lia|]. cbn [mbind outcome_bind].
    eexists. split; [done|]. split; [by split; cbn; try lia|]. split; [|done]. cbn. rewrite Hdc, take_ge by lia.
    right. by exists np. }
  case_bool_decide as Hdd; [|left; destruct (join_path _ _); apply Hdone].
  case_bool_decide as Hroot; [left; apply Hdone|].
  destruct (strrchr_from_spec (path fl) 47 0 None Ht) as (s & Es & Hs); [done|].
  fold (strrchr (path fl) 47) in Es. rewrite Es. cbn [mbind outcome_bind].
  destruct s as [k|]; [|left; apply Hdone]. destruct Hs as [?|(k' & [= <-] & Hk)]; [done|].
  destruct (Z.eqb_spec k 0) as [->|Hk0]; [right|left; apply Hdone].
  assert (Z.of_nat (length (cstr (path fl))) < PATH_MAX) by (by apply resolved_path). unfold PATH_MAX in *.
  rewrite zset_ok by lia. by split.
Qed.
End path.

(** * Sessions *)

Section session.
Context `{system_ok} (height : Z).
Context (height_ok : 3 <= height <= 2 ^ 30).

(** The panel shows the names of the directory its path leads to, in order, or nothing. *)
Definition displays (h : heap) (fl : FileList) : Prop :=
  exists vs, shows h fl vs /\ (vs = [] \/ exists names, listing (cstr (path fl)) = Some names /\
    vs ≡ₚ value (cstr (path fl)) <$> take 1024 (wanted (cstr (path fl)) names) /\
    StronglySorted (fun v w => cmp_value v w <= 0) vs).

Definition panel_ok (h : heap) (fl : FileList) : Prop :=
  shape fl /\ view_ok height fl /\ resolved (cstr (path fl)) /\ displays h fl.

Definition other (m : manager) : FileList := if active m =? 0 then right m else left m.

(** [lost] are the names nothing points to any more. *)
Record manager_ok (lost : list nat) (m : manager) : Prop := ManagerOk {
  mo_left : panel_ok (the_heap m) (left m);
  mo_right : panel_ok (the_heap m) (right m);
  mo_owns : owns (the_heap m) (blocks (left m) ++ blocks (right m) ++ lost) }.

(** No directory the program can be in is closed to it. *)
Definition all_open : Prop := forall q, resolved q -> listing q <> None.

Definition in_order (m : manager) : Prop := exists lost, manager_ok lost m /\ (all_open -> lost = []).

Lemma focus_ok lost m : manager_ok lost m ->
  panel_ok (the_heap m) (focus m) /\ panel_ok (the_heap m) (other m) /\
  owns (the_heap m) (blocks (focus m) ++ blocks (other m) ++ lost).
Proof using.
  intros [Hl Hr Ho]. unfold focus, other. destruct (active m =? 0); [done|]. split_and!; [done..|].
  eapply owns_perm; [|exact Ho]. solve_Permutation.
Qed.

Lemma panel_frame h h' fl : frame (blocks fl) h h' -> panel_ok h fl -> panel_ok h' fl.
Proof using. intros Hf (Hs & Hv & Hr & vs & Hsh & Hd). split_and!; try done. exists vs. split; [by eapply shows_frame|done]. Qed.

Lemma set_focus_ok lost lost' m fl h : manager_ok lost m -> panel_ok h fl -> owns h (blocks fl ++ blocks (other m) ++ lost') ->
  frame (blocks (other m)) (the_heap m) h -> manager_ok lost' (set_focus m fl h).
Proof using.
  intros [Hl Hr Ho] Hp Hown Hf. unfold set_focus, other in *. destruct (active m =? 0); split; cbn; try done.
  - by eapply panel_frame.
  - by eapply panel_frame.
  - eapply owns_perm; [|exact Hown]. solve_Permutation.
Qed.

(** A directory that opens is displayed; one that does not loses the names of the panel. *)
Lemma load_open fl h rest : shape fl -> resolved (cstr (path fl)) -> owns h (blocks fl ++ rest) ->
  listing (cstr (path fl)) <> None ->
  exists fl' h', load_directory fl h = Done (fl', h') /\ panel_ok h' fl' /\ owns h' (blocks fl' ++ rest) /\ frame rest h h'.
Proof using All.
  intros Hsh Hres Ho Hopen. destruct (listing (cstr (path fl))) as [names|] eqn:Hlist; [|done].
  destruct (load_directory_spec fl h rest _ names Hsh Ho eq_refl Hlist) as
    (fl' & h' & vs & E & Hsh' & Hpath & Hsel & Hst & Ho' & Hfr & Hs & Hperm & Hsort).
  exists fl', h'. split_and!; try done. split_and!; [done|split; lia|by rewrite Hpath|]. exists vs. split; [done|]. right.
  rewrite Hpath. by exists names.
Qed.

Lemma load_ok fl h rest : shape fl -> view_ok height fl -> resolved (cstr (path fl)) -> owns h (blocks fl ++ rest) ->
  exists fl' h' lost, load_directory fl h = Done (fl', h') /\ panel_ok h' fl' /\ owns h' (blocks fl' ++ rest ++ lost) /\
    frame rest h h' /\ (all_open -> lost = []).
Proof using All.
  intros Hsh Hv Hres Ho. destruct (listing (cstr (path fl))) as [names|] eqn:Hlist.
  - destruct (load_open fl h rest Hsh Hres Ho) as (fl' & h' & E & Hp & Ho' & Hf); [by rewrite Hlist|].
    exists fl', h', []. by rewrite app_nil_r.
  - pose proof Hsh as [Hp Ht Hf Hc]. exists (with_files fl (files fl) 0), h, (blocks fl). split_and!.
    + unfold load_directory. rewrite chars_terminated by done. cbn [mbind outcome_bind]. by rewrite Hlist.
    + split_and!; [by split; cbn; try lia|destruct Hv; split; cbn; lia|done|]. exists []. by split; [constructor|left].
    + eapply owns_perm; [|exact Ho]. unfold blocks at 2. cbn. by rewrite Permutation_app_comm.
    + by intros ?.
    + intros Hall. by destruct (Hall _ Hres).
Qed.

(** The keys that do not end well, and how: an arrow where there is nothing to select, and
    [..] on the first level. *)
Definition bad_key (m : manager) (ch : Z) (u : undef) : Prop :=
  (u = OutOfBounds /\ (ch = KEY_UP \/ ch = KEY_DOWN) /\ count (focus m) = 0) \/
  (u = Uninitialised /\ ch = 10 /\ leaves_first_level (focus m) (str "..")).

Definition round (m : manager) (ch : Z) : outcome manager := m ← on_key height m ch; _ ← draw height m; Done m.

Lemma draw_ok lost m : manager_ok lost m -> defined (draw height m).
Proof using height_ok.
  intros [(Hs1 & Hv1 & _ & vs1 & Hsh1 & _) (Hs2 & Hv2 & _ & vs2 & Hsh2 & _) _]. unfold draw.
  destruct (draw_filelist_ok height (left m) (the_heap m) (active m =? 0) vs1 Hs1 Hsh1 Hv1 height_ok) as [l ->].
  cbn [mbind outcome_bind].
  destruct (draw_filelist_ok height (right m) (the_heap m) (active m =? 1) vs2 Hs2 Hsh2 Hv2 height_ok) as [r ->]. by eexists.
Qed.

Lemma round_done m m' ch : on_key height m ch = Done m' -> in_order m' -> round m ch = Done m' /\ in_order m'.
Proof using height_ok.
  intros E (lost & Hm & Hl). unfold round. rewrite E. cbn [mbind outcome_bind]. destruct (draw_ok _ _ Hm) as [s ->].
  split; [done|]. by exists lost.
Qed.

(** An arrow key moves the selection, or runs off an empty panel. *)
Lemma round_arrow lost m ch d : manager_ok lost m -> (all_open -> lost = []) -> d = 1 \/ d = -1 ->
  on_key height m ch = (fl ← move_selection (focus m) d height; Done (set_focus m fl (the_heap m))) ->
  (exists m', round m ch = Done m' /\ in_order m') \/ (round m ch = Undef OutOfBounds /\ count (focus m) = 0).
Proof using height_ok.
  intros Hm Hlost Hd E. destruct (focus_ok _ m Hm) as ((Hsh & Hv & Hres & Hs) & Hother & Ho).
  destruct (Z.eq_dec (count (focus m)) 0) as [Hc|Hc].
  - right. split; [|done]. unfold round. rewrite E, move_selection_empty by (done || destruct Hv; lia). cbn [mbind outcome_bind].
    unfold draw, set_focus. unfold focus, other in *.
    destruct (active m =? 0) eqn:Ea; cbn [left right the_heap active mbind outcome_bind].
    + by rewrite draw_filelist_before.
    + destruct Hother as (Hs1 & Hv1 & _ & vs1 & Hsh1 & _).
      destruct (draw_filelist_ok height (left m) (the_heap m) (active m =? 0) vs1 Hs1 Hsh1 Hv1 height_ok) as [l El].
      rewrite El. cbn [mbind outcome_bind]. by rewrite draw_filelist_before.
  - left. destruct (move_selection_ok height (focus m) d Hsh Hv) as (fl' & E' & Hv' & Hp & Hf & Hc'); [destruct Hsh; lia|done..|].
    rewrite E' in E. cbn [mbind outcome_bind] in E. eexists. apply (round_done _ _ _ E). exists lost. split; [|done].
    assert (Hent : entries fl' = entries (focus m)) by (unfold entries; by rewrite Hf, Hc').
    apply (set_focus_ok lost); [done| |unfold blocks at 1; by rewrite Hent|by intros ?].
    destruct Hsh. split_and!; [by split; rewrite ?Hp, ?Hf, ?Hc'|done|by rewrite Hp|].
    unfold displays, shows. by rewrite Hp, Hent.
Qed.

(** [Enter] loads a directory, or leaves the first level. *)
Lemma on_key_enter lost m : manager_ok lost m -> (all_open -> lost = []) ->
  (exists m', on_key height m 10 = Done m' /\ in_order m') \/
  (on_key height m 10 = Undef Uninitialised /\ leaves_first_level (focus m) (str "..")).
Proof using All.
  intros Hm Hlost. destruct (focus_ok _ m Hm) as ((Hsh & Hv & Hres & vs & Hs & _) & Hother & Ho). unfold on_key.
  change (10 =? 9) with false. change (10 =? KEY_UP) with false. change (10 =? KEY_DOWN) with false. cbv match. change (10 =? 10) with true. cbv match.
  assert (Hstay : exists m', Done m = Done m' /\ in_order m') by (exists m; split; [done|by exists lost]).
  destruct (Z.ltb_spec 0 (count (focus m))); [|by left].
  destruct (znth_ok (files (focus m)) (selected (focus m))) as (e & -> & He); [destruct Hv, Hsh; lia|].
  cbn [mbind outcome_bind]. destruct (is_dir e =? 0); [by left|]. cbn [negb].
  apply shows_val in Hs as [_ Hall]. destruct (Forall_lookup_1 _ _ (Z.to_nat (selected (focus m))) e Hall) as (Hme & _ & Hn & _).
  { unfold entries. destruct Hv. by rewrite lookup_take_lt by lia. }
  unfold read. rewrite Hme. cbn [of_option mbind outcome_bind].
  destruct (update_path_ok (focus m) _ [] Hsh Hres Hn) as [(fl1 & -> & Hsh1 & Hres1 & Hf1 & Hc1 & Hsel1 & Hst1)|[-> Hleave]].
  - left. cbn [mbind outcome_bind]. assert (Hb : blocks fl1 = blocks (focus m)) by (unfold blocks, entries; by rewrite Hf1, Hc1).
    destruct (load_ok fl1 (the_heap m) (blocks (other m) ++ lost) Hsh1) as (fl2 & h2 & lost2 & -> & Hp2 & Ho2 & Hfr2 & Hl2);
      [destruct Hv; split; rewrite ?Hc1, ?Hsel1, ?Hst1; lia|done|by rewrite Hb|].
    cbn [mbind outcome_bind]. eexists. split; [done|]. exists (lost ++ lost2). split.
    + apply (set_focus_ok lost); [done..|by rewrite <- app_assoc in Ho2|]. intros q Hq. apply Hfr2, elem_of_app. by left.
    + intros Ha. by rewrite Hlost, Hl2.
  - right. split; [done|]. destruct Hleave as (? & ? & Hsub). by split_and!.
Qed.

Lemma round_ok m ch : in_order m ->
  (exists m', round m ch = Done m' /\ in_order m') \/ (exists u, round m ch = Undef u /\ bad_key m ch u).
Proof using All.
  intros (lost & Hm & Hlost).
  assert (Hnext : forall m', on_key height m ch = Done m' -> in_order m' -> exists m', round m ch = Done m' /\ in_order m')
    by (intros m' E Hm'; exists m'; by apply round_done).
  destruct (Z.eqb_spec ch 9) as [->|H9].
  { left. eapply Hnext; [done|]. exists lost. split; [by destruct Hm|done]. }
  destruct (Z.eqb_spec ch KEY_UP) as [->|Hup].
  { destruct (round_arrow lost m KEY_UP (-1) Hm Hlost) as [?|[? ?]]; [by right|done|by left|]. right. eexists. split; [done|]. left. auto. }
  destruct (Z.eqb_spec ch KEY_DOWN) as [->|Hdown].
  { destruct (round_arrow lost m KEY_DOWN 1 Hm Hlost) as [?|[? ?]]; [by left|done|by left|]. right. eexists. split; [done|]. left. auto. }
  destruct (Z.eqb_spec ch 10) as [->|H10].
  { destruct (on_key_enter lost m Hm Hlost) as [(m' & E & Hm')|[E Hl]]; [left; by eapply Hnext|].
    right. exists Uninitialised. split; [unfold round; by rewrite E|]. by right. }
  left. eapply Hnext; [|by exists lost]. unfold on_key.
  by rewrite (proj2 (Z.eqb_neq _ _) H9), (proj2 (Z.eqb_neq _ _) Hup), (proj2 (Z.eqb_neq _ _) Hdown), (proj2 (Z.eqb_neq _ _) H10).
Qed.

(** What a session comes to: it waits for a key in good order; it has ended and freed
    everything but the lost names; or, after the keys [ks], a bad key was typed. *)
Definition session_result (run : list Z -> outcome (manager * option heap)) (keys : list Z) : Prop :=
  (exists m, run keys = Done (m, None) /\ in_order m) \/
  (exists m h lost, run keys = Done (m, Some h) /\ owns h lost /\ (all_open -> lost = [] /\ mem h = ∅)) \/
  (exists u ks ch ks' m, run keys = Undef u /\ keys = ks ++ ch :: ks' /\
     run ks = Done (m, None) /\ in_order m /\ bad_key m ch u).

Lemma key_loop_step m ch keys : ch <> 113 ->
  key_loop height m (ch :: keys) = (m ← round m ch; key_loop height m keys).
Proof using.
  intros Hq. cbn [key_loop]. rewrite (proj2 (Z.eqb_neq _ _) Hq). unfold round.
  destruct (on_key height m ch) as [m'|]; [|done]. cbn [mbind outcome_bind]. by destruct (draw height m').
Qed.

Lemma quit_ok m keys : in_order m ->
  exists m' h lost, key_loop height m (113 :: keys) = Done (m', Some h) /\ owns h lost /\ (all_open -> lost = [] /\ mem h = ∅).
Proof using.
  intros (lost & [(Hs1 & _) (Hs2 & _) Ho] & Hlost). cbn [key_loop]. change (113 =? 113) with true. cbv match.
  destruct (free_names_ok (left m) _ _ Hs1 Ho) as (h1 & E1 & Ho1 & _). unfold free_files. rewrite E1. cbn [mbind outcome_bind].
  destruct (free_names_ok (right m) h1 lost Hs2 Ho1) as (h2 & E2 & Ho2 & _).
  rewrite E2. cbn [mbind outcome_bind]. eexists _, h2, lost. split; [done|]. split; [done|]. intros Ha. specialize (Hlost Ha).
  subst lost. split; [done|]. apply map_eq. intros p. rewrite lookup_empty.
  apply eq_None_not_Some. rewrite (ow_dom _ _ Ho2). apply not_elem_of_nil.
Qed.

Lemma key_loop_result m keys : in_order m -> session_result (key_loop height m) keys.
Proof using All.
  revert m. induction keys as [|ch keys IH]; intros m Hm; [by left; exists m|]. unfold session_result.
  destruct (Z.eq_dec ch 113) as [->|Hq]; [right; left; by apply quit_ok|]. rewrite key_loop_step by done.
  destruct (round_ok m ch Hm) as [(m' & E & Hm')|(u & E & Hb)]; rewrite E; cbn [mbind outcome_bind].
  - destruct (IH m' Hm') as [Hr|[Hr|(u & ks & ch' & ks' & m2 & Hr & -> & Hk & Hm2 & Hb)]]; [by left|by right; left|].
    right. right. exists u, (ch :: ks), ch', ks', m2. split_and!; try done. by rewrite key_loop_step, E.
  - right. right. by exists u, [], ch, keys, m.
Qed.

(** The directories the program starts in. *)
Definition start_path (rel : list Z) : list Z := default (str "/") (realpath rel).

Lemma init_path_ok old rel : length old = 4096%nat ->
  exists p, init_path old rel = Done p /\ length p = 4096%nat /\ terminated p /\ resolved (cstr p) /\ cstr p = start_path rel.
Proof using H H0.
  intros Hl. unfold init_path. fold (start_path rel).
  assert (Hq : resolved (start_path rel)) by (unfold start_path; destruct (realpath rel) eqn:E; [right; by exists rel|by left]).
  destruct (resolved_path _ Hq) as [Ht Hlen]. unfold PATH_MAX in Hlen. set (q := start_path rel) in *.
  rewrite put_at_ok by len. eexists. split; [done|]. change (Z.to_nat 0) with 0%nat. rewrite take_0, app_nil_l, <- app_assoc.
  assert (Hc : cstr (q ++ [0] ++ drop (0 + length (q ++ [0])) old) = q) by (by apply cstr_app).
  split_and!; [len|apply elem_of_app; right; by left|by rewrite Hc|done].
Qed.

(** A count that happens not to be positive is as good as 0. *)
Lemma load_uncounted fl h : count fl <= 0 -> load_directory fl h = load_directory (with_files fl (files fl) 0) h.
Proof using.
  intros Hc. unfold load_directory, free_names. cbn [path files count with_files].
  by replace (Z.to_nat (count fl)) with 0%nat by lia.
Qed.

(** One that happens to be positive makes the program free what the entries happen to point to. *)
Lemma load_counted fl : terminated (path fl) -> length (files fl) = 1024%nat -> 0 < count fl ->
  listing (cstr (path fl)) <> None -> load_directory fl (Heap ∅ 0) = Undef BadFree.
Proof using.
  intros Ht Hf Hc Ho. unfold load_directory. rewrite chars_terminated by done. cbn [mbind outcome_bind].
  destruct (listing (cstr (path fl))) as [names|]; [|done]. unfold free_names.
  destruct (Z.to_nat (count fl)) as [|n] eqn:En; [lia|]. cbn [for_z].
  by destruct (znth_ok (files fl) 0) as (e & -> & _); [lia|].
Qed.

Lemma load_first fl h rest p : length p = 4096%nat -> terminated p -> resolved (cstr p) -> length (files fl) = 1024%nat ->
  count fl <= 0 -> owns h rest -> listing (cstr p) <> None ->
  exists fl' h', load_directory (with_path fl p) h = Done (fl', h') /\ panel_ok h' fl' /\ owns h' (blocks fl' ++ rest) /\ frame rest h h'.
Proof using All. intros. rewrite load_uncounted by done. by apply load_open; [split; cbn|..]. Qed.

Lemma owns_nothing : owns (Heap ∅ 0) [].
Proof using.
  split; cbn; [constructor| |by intros ? ?%not_elem_of_nil].
  intros p. rewrite lookup_empty. split; [by intros [? ?]|by intros ?%not_elem_of_nil].
Qed.

(** C14 On a terminal of at least three lines, when the two directories the program starts in
    can be opened and the uninitialised [count] of both panels happens not to be positive:
    whatever keys are typed, and whatever other directories are closed or have nothing to
    show, the program waits in good order, or [q] has ended it, or a bad key was its last. In
    good order each panel displays the names of the directory of its path, sorted, or
    nothing; the selection is on an entry, if there is one, and visible; and the heap holds
    the names of the two panels and the names lost when a directory could not be opened, none
    if all can. [q] frees all but the lost names. The bad keys are an arrow in a panel without
    entries, which makes the program draw the entry before the first, and [..] in a directory
    directly below the root, where the uninitialised [newpath] is read. When [count] happens
    to be positive in the left panel the program frees an indeterminate pointer at once (the
    case of the right panel alone is left out). *)
Theorem session_safe l0 r0 keys :
  length (path l0) = 4096%nat -> length (files l0) = 1024%nat ->
  length (path r0) = 4096%nat -> length (files r0) = 1024%nat ->
  listing (start_path (str ".")) <> None -> listing (start_path (str "..")) <> None ->
  (count l0 <= 0 -> count r0 <= 0 -> session_result (main height l0 r0) keys) /\
  (0 < count l0 -> main height l0 r0 keys = Undef BadFree).
Proof using All.
  intros Hp1 Hf1 Hp2 Hf2 Ho1 Ho2. unfold session_result, main.
  destruct (init_path_ok (path l0) (str ".") Hp1) as (pl & -> & Hpl & Htl & Hrl & El). cbn [mbind outcome_bind].
  destruct (init_path_ok (path r0) (str "..") Hp2) as (pr & -> & Hpr & Htr & Hrr & Er). cbn [mbind outcome_bind].
  rewrite <- El in Ho1. rewrite <- Er in Ho2. split.
  - intros Hc1 Hc2. destruct (load_first l0 (Heap ∅ 0) [] pl) as (l & h1 & -> & Hl & Hw1 & _); [done..|apply owns_nothing|done|].
    cbn [mbind outcome_bind].
    destruct (load_first r0 h1 (blocks l) pr) as (r & h2 & -> & Hr & Hw2 & Hfr2); [done..|by rewrite app_nil_r in Hw1|done|].
    cbn [mbind outcome_bind].
    assert (Hm : manager_ok [] (Manager l r 0 h2)).
    { split; cbn; [by eapply panel_frame|done|]. rewrite app_nil_r. eapply owns_perm; [|exact Hw2]. solve_Permutation. }
    destruct (draw_ok _ _ Hm) as [s ->]. cbn [mbind outcome_bind]. apply key_loop_result. by exists [].
  - intros Hc. by rewrite load_counted.
Qed.
End session.

(** A directory that cannot be opened is fatal: the panel is left empty (and its old
    names are never freed), the next arrow key selects entry -1, and drawing the panel
    reads before the array. *)
Theorem unreadable_directory_overruns `{system} fl h dir delta height b :
  shape fl -> cstr (path fl) = dir -> listing dir = None ->
  0 <= selected fl <= 1024 -> 0 <= start_line fl <= 1024 -> delta = 1 \/ delta = -1 -> 3 <= height <= 2 ^ 30 ->
  exists fl1 fl2, load_directory fl h = Done (fl1, h) /\ count fl1 = 0 /\
    move_selection fl1 delta height = Done fl2 /\ selected fl2 = -1 /\
    draw_filelist fl2 h height b = Undef OutOfBounds.
Proof.
  intros Hsh Hdir Hlist Hsel Hst Hd Hh. pose proof Hsh as [Hp Ht Hf Hc]. unfold load_directory.
  rewrite chars_terminated, Hdir by done. cbn [mbind outcome_bind]. rewrite Hlist.
  exists (with_files fl (files fl) 0), (with_view (with_files fl (files fl) 0) (-1) (-1)). split_and!; try done.
  - by apply move_selection_empty.
  - apply draw_filelist_before; [split; cbn; try done; lia|done|done].
Qed.

(** * A concrete system *)

(** A sort that keeps the promise of [qsort]. *)
Fixpoint insert_by {A} (cmp : A -> A -> Z) (x : A) (l : list A) : list A :=
  match l with [] => [x] | y :: l' => if cmp x y <=? 0 then x :: l else y :: insert_by cmp x l' end.
Definition sort_by {A} (cmp : A -> A -> Z) (l : list A) : list A := foldr (insert_by cmp) [] l.

Lemma insert_by_perm {A} (cmp : A -> A -> Z) x l : insert_by cmp x l ≡ₚ x :: l.
Proof. induction l as [|y l IH]; cbn; [done|]. destruct (cmp x y <=? 0); [done|]. rewrite IH. apply Permutation_swap. Qed.

Lemma sort_by_perm {A} (cmp : A -> A -> Z) l : sort_by cmp l ≡ₚ l.
Proof. induction l as [|x l IH]; cbn; [done|]. by rewrite insert_by_perm, IH. Qed.

Lemma insert_by_sorted {A} (cmp : A -> A -> Z) x l : orders cmp (x :: l) ->
  StronglySorted (fun a b => cmp a b <= 0) l -> StronglySorted (fun a b => cmp a b <= 0) (insert_by cmp x l).
Proof.
  intros [Ht Htr] Hs. induction Hs as [|y l Hs IH Hy]; cbn; [by repeat constructor|].
  destruct (Z.leb_spec (cmp x y) 0) as [Hle|Hgt].
  - constructor; [by constructor|]. constructor; [done|]. apply Forall_forall. intros z Hz.
    rewrite Forall_forall in Hy. apply (Htr x y z); set_solver.
  - constructor.
    + apply IH; intros; [apply Ht|eapply Htr]; try eassumption; set_solver.
    + rewrite insert_by_perm. constructor; [|done]. destruct (Ht x y) as [?|?]; [set_solver|set_solver|lia|done].
Qed.

Lemma sort_by_sorted {A} (cmp : A -> A -> Z) l : orders cmp l -> StronglySorted (fun a b => cmp a b <= 0) (sort_by cmp l).
Proof.
  intros Ho. induction l as [|x l IH]; [constructor|]. change (sort_by cmp (x :: l)) with (insert_by cmp x (sort_by cmp l)). destruct Ho as [Ht Htr]. apply insert_by_sorted.
  - split; [intros a b|intros a b c]; rewrite !elem_of_cons, !sort_by_perm, <- !elem_of_cons; [apply Ht|apply Htr].
  - apply IH. split; intros; [apply Ht|eapply Htr]; try eassumption; by right.
Qed.

(** Every directory holds [.], [..], a directory [src] and a file [a]; every path resolves
    to [/x/y]. *)
Definition demo_names : list (list Z) := [str "src"; str "."; str "a"; str ".."].

#[local] Instance demo_system : system := {|
  listing := fun _ => Some demo_names;
  is_directory := fun p => negb (bool_decide (last p = Some 97));
  realpath := fun _ => Some (str "/x/y");
  qsort := sort_by |}.

#[local] Instance demo_ok : system_ok.
Proof.
  split.
  - intros p ns [= <-]. repeat constructor; apply (bool_decide_unpack _); by vm_compute.
  - intros p q [= <-]. split; [|done]. apply (bool_decide_unpack _). by vm_compute.
  - intros. apply sort_by_perm.
  - intros. by apply sort_by_sorted.
Qed.

Definition demo_panel : FileList := MkFileList (lit "/" ++ replicate 4094 7) (replicate 1024 (MkEntry 0 0)) 0 5 5.

Lemma demo_shape : shape demo_panel.
Proof. split; cbn [path files count demo_panel]; [by vm_compute|by right; left|by vm_compute|lia]. Qed.

Lemma demo_empty : owns (Heap ∅ 0) [].
Proof.
  split; cbn; [constructor| |by intros ? ?%not_elem_of_nil].
  intros p. rewrite lookup_empty. split; [by intros [? ?]|by intros ?%not_elem_of_nil].
Qed.

Lemma load_directory_sorted_witness :
  exists fl' h' vs, load_directory demo_panel (Heap ∅ 0) = Done (fl', h') /\ shows h' fl' vs /\
    vs ≡ₚ value (str "/") <$> take 1024 (wanted (str "/") demo_names).
Proof.
  destruct (load_directory_sorted (H := demo_system) demo_panel (Heap ∅ 0) [] (str "/") demo_names demo_shape demo_empty
      ltac:(by vm_compute) eq_refl)
    as (fl' & h' & vs & E & _ & _ & _ & _ & _ & _ & Hs & Hp & _). by exists fl', h', vs.
Defined.

(** The program is left, every name is freed; and with an indeterminate count it is not. *)
Lemma session_safe_witness :
  session_result 10 (main 10 demo_panel demo_panel) [KEY_DOWN; 10; 9; KEY_UP; 113] /\
  main 10 (with_files demo_panel (files demo_panel) 7) demo_panel [113] = Undef BadFree.
Proof.
  split.
  - destruct (session_safe 10 ltac:(lia) demo_panel demo_panel [KEY_DOWN; 10; 9; KEY_UP; 113]) as [Hs _]; [by vm_compute..|].
    by apply Hs.
  - destruct (session_safe 10 ltac:(lia) (with_files demo_panel (files demo_panel) 7) demo_panel [113]) as [_ Hs]; [by vm_compute..|].
    by apply Hs.
Defined.

Definition locked_system : system := {|
  listing := fun _ => None; is_directory := fun _ => true; realpath := fun _ => None; qsort := sort_by |}.

Lemma unreadable_directory_overruns_witness :
  exists fl1 fl2, load_directory (H := locked_system) demo_panel (Heap ∅ 0) = Done (fl1, Heap ∅ 0) /\
    move_selection fl1 1 24 = Done fl2 /\ draw_filelist fl2 (Heap ∅ 0) 24 true = Undef OutOfBounds.
Proof.
  destruct (unreadable_directory_overruns (H := locked_system) demo_panel (Heap ∅ 0) (str "/") 1 24 true
    demo_shape ltac:(by vm_compute) eq_refl ltac:(cbn; lia) ltac:(cbn; lia) ltac:(by left) ltac:(lia)) as (fl1 & fl2 & E1 & _ & E2 & _ & E3).
  by exists fl1, fl2.
Defined.
