(* ===== verification/Shell.v ===== *)
(** The two shells: src/hw10_proc/p3_bash/main.c runs the command of a line, and
    src/hw12_pipe/part3/main.c also runs two commands with a pipe between them. Both cut
    a line into words with the same [parser]. *)

From S2P Require Import Prelude CInt CStr Sys.

Definition MAX_ARGS : Z := 20.
Definition BUFFER_SIZE : Z := 100.
Definition STDIN_FILENO : Z := 0.
Definition STDOUT_FILENO : Z := 1.

(** [while (token != NULL && i < MAX_ARGS - 1)]: [slots] is how many more arguments fit. *)
Fixpoint parse_from (slots : nat) (input : list Z) : list (list Z) :=
  match slots with
  | O => []
  | S n => match strtok_next space input with None => [] | Some (token, rest) => token :: parse_from n rest end
  end.

(** The entries of [args] before the [NULL]. *)
Definition parser (input : list Z) : list (list Z) := parse_from (Z.to_nat (MAX_ARGS - 1)) input.

(** [execvp(args[0], args)] in a child. When it succeeds the program is another one, and
    there is nothing more to observe of this one. *)
Definition run_command {A} (args : list (list Z)) : prog A :=
  match args with
  | [] => Halt (Crashed NullDeref)
  | file :: _ =>
      r ← sys (c_execvp args);
      if r =? -1 then sys_ (c_print "MyShell-->Command not found: %s\n" [file]);; exit 1
      else Halt Cut
  end.

(** Reading a line: [None] at the end of the input. *)
Definition read_line (input : list Z) : prog (option (list Z)) :=
  sys_ (c_print "MyShell-->Enter command: " []);;
  '(n, data) ← sys_data (c_gets BUFFER_SIZE);
  if n <? 0 then Ret None
  else
    input ← of_outcome (put_at input 0 (data ++ [0]));
    input ← of_outcome (chomp input);
    Ret (Some input).

(** A round of the loop of hw10. *)
Definition shell_round (input : list Z) : prog (list Z + Z) :=
  l ← read_line input;
  match l with
  | None => Ret (inr 0)
  | Some input =>
      e ← of_outcome (streq input (lit "exit"));
      if e : bool then sys_ (c_print "MyShell-->Exiting the terminal...\n" []);; Ret (inr 0)
      else
        s ← of_outcome (chars input);
        let args := parser s in
        child_pid ← sys c_fork;
        if child_pid =? 0 then run_command args
        else sys_ c_wait;; Ret (inl input)
  end.

Definition shell_main (fuel : nat) (input : list Z) : prog Z := forever fuel shell_round input.

(** [while ( *cmd2 == ' ') cmd2++]. *)
Fixpoint skip_spaces (p : list Z) : list Z :=
  match p with b :: p' => if b =? space then skip_spaces p' else p | [] => [] end.

(** The child on the left writes to the pipe, the one on the right reads from it. *)
Definition left_child {A} (fd0 fd1 : Z) (args1 : list (list Z)) : prog A :=
  sys_ (c_close fd0);; sys_ (c_dup2 fd1 STDOUT_FILENO);; sys_ (c_close fd1);; run_command args1.
Definition right_child {A} (fd0 fd1 : Z) (args2 : list (list Z)) : prog A :=
  sys_ (c_close fd1);; sys_ (c_dup2 fd0 STDIN_FILENO);; sys_ (c_close fd0);; run_command args2.

(** The branch for a line with a [|] at [pipe_pos]. *)
Definition pipeline (input : list Z) (pipe_pos : Z) : prog (list Z + Z) :=
  input ← of_outcome (zset input pipe_pos 0);
  cmd1 ← of_outcome (chars input);
  cmd2 ← of_outcome (chars (skip_spaces (drop (Z.to_nat (pipe_pos + 1)) input)));
  let args1 := parser cmd1 in
  let args2 := parser cmd2 in
  '(r, fd) ← sys_data c_pipe;
  if r =? -1 then sys_ (c_perror "MyShell-->Pipe creation failed");; Ret (inl input)
  else
    fd0 ← of_outcome (znth fd 0);
    fd1 ← of_outcome (znth fd 1);
    child_pid1 ← sys c_fork;
    if child_pid1 <? 0 then sys_ (c_perror "MyShell-->Fork failed");; Ret (inl input)
    else if child_pid1 =? 0 then left_child fd0 fd1 args1
    else
      child_pid2 ← sys c_fork;
      if child_pid2 <? 0 then sys_ (c_perror "MyShell-->Fork failed");; Ret (inl input)
      else if child_pid2 =? 0 then right_child fd0 fd1 args2
      else
        sys_ (c_close fd0);;
        sys_ (c_close fd1);;
        sys_ (c_waitpid child_pid1);;
        sys_ (c_waitpid child_pid2);;
        Ret (inl input).

(** A round of the loop of hw12. *)
Definition pipe_shell_round (input : list Z) : prog (list Z + Z) :=
  l ← read_line input;
  match l with
  | None => Ret (inr 0)
  | Some input =>
      e ← of_outcome (streq input (lit "exit"));
      if e : bool then sys_ (c_print "MyShell-->Exiting the terminal...\n" []);; Ret (inr 0)
      else
        pipe_pos ← of_outcome (strchr input 124);
        match pipe_pos with
        | Some pipe_pos => pipeline input pipe_pos
        | None =>
            s ← of_outcome (chars input);
            let args1 := parser s in
            child_pid ← sys c_fork;
            if child_pid =? 0 then run_command args1
            else sys_ c_wait;; Ret (inl input)
        end
  end.

Definition pipe_shell_main (fuel : nat) (input : list Z) : prog Z := forever fuel pipe_shell_round input.

(** * The words of a line *)

(** The pieces between the spaces, the empty ones left out. *)
Fixpoint split_at (d : Z) (s : list Z) : list (list Z) :=
  match s with
  | [] => [[]]
  | b :: s' =>
      if b =? d then [] :: split_at d s'
      else match split_at d s' with p :: ps => (b :: p) :: ps | [] => [[b]] end
  end.
Definition nonempty (w : list Z) : Prop := w <> [].
#[export] Instance nonempty_dec w : Decision (nonempty w).
Proof. unfold nonempty. apply _. Defined.
Definition words (s : list Z) : list (list Z) := filter nonempty (split_at space s).

Lemma split_at_cons d s : exists p ps, split_at d s = p :: ps.
Proof. destruct s as [|b s]; cbn; [by eexists _, _|]. destruct (b =? d); [by eexists _, _|]. destruct (split_at d s); by eexists _, _. Qed.

Lemma split_token d tok s : Forall (fun b => negb (d =? b) = true) tok ->
  split_at d (tok ++ s) = match split_at d s with p :: ps => (tok ++ p) :: ps | [] => [] end.
Proof.
  destruct (split_at_cons d s) as (p & ps & Es). rewrite Es. induction 1 as [|b tok Hb Ht IH]; [done|]. cbn [app split_at].
  rewrite negb_true_iff, Z.eqb_sym in Hb. by rewrite Hb, IH.
Qed.

Lemma words_skip s : words (span (Z.eqb space) s).2 = words s.
Proof.
  induction s as [|b s IH]; [done|]. cbn [span]. destruct (Z.eqb_spec space b) as [<-|]; [|done].
  destruct (span (Z.eqb space) s) as [x y]; cbn [snd] in *. rewrite IH. unfold words. cbn [split_at].
  rewrite Z.eqb_refl. rewrite filter_cons_False; [done|]. by intros Hn.
Qed.

(** A call of [strtok] delivers the first word and leaves the others. *)
Lemma words_next s :
  match strtok_next space s with None => words s = [] | Some (tok, rest) => words s = tok :: words rest end.
Proof.
  destruct (strtok_next space s) as [[tok rest]|] eqn:E.
  - pose proof (strtok_next_Some _ _ _ _ E) as (Hne & _ & _). unfold strtok_next in E.
    rewrite <- (words_skip s). destruct ((span (Z.eqb space) s).2) as [|b l] eqn:Es; [done|].
    pose proof (span_all (fun b => negb (space =? b)) (b :: l)) as Hall. pose proof (span_app (fun b => negb (space =? b)) (b :: l)) as Happ.
    pose proof (span_stop (fun b => negb (space =? b)) (b :: l)) as Hstop.
    destruct (span (fun b => negb (space =? b)) (b :: l)) as [t r]. cbn [fst snd] in *. injection E as -> <-.
    rewrite <- Happ. unfold words. rewrite split_token by done. destruct r as [|c r].
    + cbn [split_at]. rewrite app_nil_r. by rewrite filter_cons_True.
    + pose proof (Hstop c r eq_refl) as Hc. apply negb_false_iff, Z.eqb_eq in Hc. subst c. cbn [split_at drop].
      rewrite Z.eqb_refl, app_nil_r. by rewrite filter_cons_True.
  - unfold strtok_next in E. rewrite <- words_skip. destruct ((span (Z.eqb space) s).2); [done|]. by destruct (span _ _).
Qed.

Lemma parse_from_words n s : parse_from n s = take n (words s).
Proof.
  revert s. induction n as [|n IH]; intros s; [done|]. cbn [parse_from]. pose proof (words_next s) as H.
  destruct (strtok_next space s) as [[tok rest]|]; rewrite H; [|done]. cbn. by rewrite IH.
Qed.

Lemma parser_words s : parser s = take 19 (words s).
Proof. apply parse_from_words. Qed.

Lemma parser_skip s : parser (span (Z.eqb space) s).2 = parser s.
Proof. by rewrite !parser_words, words_skip. Qed.

(** * What the shells run *)

Definition before_bar (l : list Z) : list Z := (span (fun b => negb (b =? 124)) l).1.
Definition after_bar (l : list Z) : list Z := drop 1 (span (fun b => negb (b =? 124)) l).2.

Definition prompt : call := c_print "MyShell-->Enter command: " [].
Definition goodbye : call := c_print "MyShell-->Exiting the terminal...\n" [].

(** Where the process stands: a parent with calls left before its next prompt; it reads a
    line; it has a line to execute; it has a pipe for it, and the left child; a child with
    calls left before it runs its command; a child whose command was not found; and the ends,
    the command running, the loop left, the child given up. *)
Inductive standing :=
  | Parent (todo : list call)
  | Reading
  | Typed (l : list Z)
  | Piped (l : list Z) (fd0 fd1 : Z)
  | LeftForked (l : list Z) (fd0 fd1 pid1 : Z)
  | Child (todo : list call) (command : list Z)
  | NotFound (file : list Z)
  | Running
  | Left
  | GivenUp.

(** The call that has to come next: [Parent] prompts for a line, and a child runs at most 19
    words of its command. With [pipes] a line with a bar gets a pipe. *)
Definition next_call (pipes : bool) (s : standing) (c : call) : Prop :=
  match s with
  | Parent [] => c = prompt
  | Parent (c' :: _) | Child (c' :: _) _ => c = c'
  | Reading => c = c_gets 100
  | Typed l =>
      c = if decide (l = str "exit") then goodbye else if decide (pipes = true /\ 124 ∈ l) then c_pipe else c_fork
  | Piped _ _ _ | LeftForked _ _ _ _ => c = c_fork
  | Child [] command => words command <> [] /\ c = c_execvp (take 19 (words command))
  | NotFound file => c = c_print "MyShell-->Command not found: %s\n" [file]
  | Running | Left | GivenUp => False
  end.

(** A reply of 0 from fork makes the process the child. *)
Definition moves (pipes : bool) (s : standing) (r : reply) : standing :=
  match s with
  | Parent [] => Reading
  | Parent (_ :: cs) => Parent cs
  | Reading => if r_val r <? 0 then Left else Typed (line_of (r_data r))
  | Typed l =>
      if decide (l = str "exit") then Left
      else if decide (pipes = true /\ 124 ∈ l) then
        match r_data r with
        | [fd0; fd1] => if r_val r =? -1 then Parent [c_perror "MyShell-->Pipe creation failed"] else Piped l fd0 fd1
        | _ => Parent [c_perror "MyShell-->Pipe creation failed"]
        end
      else if r_val r =? 0 then Child [] l else Parent [c_wait]
  | Piped l fd0 fd1 =>
      if r_val r <? 0 then Parent [c_perror "MyShell-->Fork failed"]
      else if r_val r =? 0 then Child [c_close fd0; c_dup2 fd1 1; c_close fd1] (before_bar l)
      else LeftForked l fd0 fd1 (r_val r)
  | LeftForked l fd0 fd1 pid1 =>
      if r_val r <? 0 then Parent [c_perror "MyShell-->Fork failed"]
      else if r_val r =? 0 then Child [c_close fd1; c_dup2 fd0 0; c_close fd0] (after_bar l)
      else Parent [c_close fd0; c_close fd1; c_waitpid pid1; c_waitpid (r_val r)]
  | Child (_ :: cs) command => Child cs command
  | Child [] command => if r_val r =? -1 then NotFound (default [] (head (words command))) else Running
  | NotFound _ => GivenUp
  | _ => s
  end.

Definition runs_words (pipes : bool) : monitor standing := Monitor
  (next_call pipes)
  (fun _ c r =>
     match c with
     | c_gets n => 0 <= r_val r -> Z.of_nat (length (r_data r)) = r_val r /\ r_val r < n
     | c_pipe => r_val r = -1 \/ length (r_data r) = 2%nat
     | _ => -1 <= r_val r
     end)
  (fun s _ r => moves pipes s r).

(** How a shell ends: with 0 when the loop is left, with 1 when a command was not found, and
    undefined in a child whose command has no word; the observation ends between two rounds
    or with the command of a child running. *)
Definition shell_ends (r : result Z) (s : standing) : Prop :=
  match r with
  | Returned v => v = 0 /\ s = Left
  | Halted (Exited v) => v = 1 /\ s = GivenUp
  | Halted (Crashed u) => u = NullDeref /\ exists command, s = Child [] command /\ words command = []
  | Halted Cut => s = Parent [] \/ s = Running
  end.

(** What a round leaves to the next. *)
Definition round_ok (r : result (list Z + Z)) (s : standing) : Prop :=
  match r with
  | Returned (inl input) => length input = 100%nat /\ s = Parent []
  | Returned (inr v) => shell_ends (Returned v) s
  | Halted h => shell_ends (Halted h) s
  end.

Lemma wp_run_command {A} pipes command (Q : result A -> standing -> Prop) :
  (forall h s, shell_ends (Halted h) s -> Q (Halted h) s) ->
  wp (runs_words pipes) (run_command (parser command)) (Child [] command) Q.
Proof.
  intros HQ. rewrite parser_words. unfold run_command. destruct (words command) as [|file args] eqn:E; cbn [take firstn].
  - apply HQ. split; [done|]. by exists command.
  - apply wp_one; [split; by rewrite E|]. intros r _. prog_simp. cbn [post runs_words moves]. rewrite E.
    destruct (r_val r =? -1).
    + apply wp_one; [done|]. intros r2 _. by apply HQ.
    + apply HQ. by right.
Qed.

Lemma wp_read_line pipes input (f : option (list Z) -> prog (list Z + Z)) : length input = 100%nat ->
  wp (runs_words pipes) (f None) Left round_ok ->
  (forall l r, text l -> length (l ++ 0 :: r) = 100%nat -> wp (runs_words pipes) (f (Some (l ++ 0 :: r))) (Typed l) round_ok) ->
  wp (runs_words pipes) (read_line input ≫= f) (Parent []) round_ok.
Proof.
  intros Hi Hn Hs. unfold read_line. prog_simp. apply wp_one; [done|]. intros r0 _. apply wp_one; [done|]. intros r Hr.
  cbn in Hr. cbn [post runs_words moves]. destruct (Z.ltb_spec (r_val r) 0); [apply Hn|].
  destruct Hr as [Hl Hb]; [done|]. unfold BUFFER_SIZE in *.
  destruct (line_of_read 100 input (r_data r) Hi) as (b & q & E1 & _ & E2 & Hlen & Ht); [lia|].
  prog_simp. apply wp_bind. apply wp_bind. rewrite E1. cbn [of_outcome wp seq_post].
  apply wp_bind. rewrite E2. cbn [of_outcome wp seq_post]. by apply Hs.
Qed.

Lemma streq_exit l r : text l -> streq (l ++ 0 :: r) (lit "exit") = Done (bool_decide (l = str "exit")).
Proof.
  intros Hl. rewrite streq_terminated.
  - by rewrite cstr_app.
  - apply elem_of_app. right. by left.
  - apply (bool_decide_unpack _). by vm_compute.
Qed.

Ltac pure_steps := cbn [mbind prog_mbind prog_bind of_outcome].
Ltac obey := apply wp_one; [done|intros ? _]; cbn [post runs_words moves].

(** The line [exit]. *)
Lemma wp_exit pipes : wp (runs_words pipes) (sys_ (c_print "MyShell-->Exiting the terminal...\n" []);; Ret (inr 0)) (Typed (str "exit")) round_ok.
Proof. prog_simp. apply wp_one; [done|]. by intros r _. Qed.

(** A child for the whole line, and the wait for it. *)
Lemma wp_single pipes l input : length input = 100%nat -> l <> str "exit" -> ~ (pipes = true /\ 124 ∈ l) ->
  wp (runs_words pipes) (child_pid ← sys c_fork;
    if child_pid =? 0 then run_command (parser l) else sys_ c_wait;; Ret (inl input)) (Typed l) round_ok.
Proof.
  intros Hi He Hp. prog_simp. apply wp_one; [cbn; by rewrite !decide_False|]. intros r _. cbn [post runs_words moves].
  rewrite !decide_False by done. destruct (r_val r =? 0).
  - by apply wp_run_command.
  - by obey.
Qed.

Lemma wp_shell pipes round input : (forall input, length input = 100%nat -> wp (runs_words pipes) (round input) (Parent []) round_ok) ->
  length input = 100%nat -> forall fuel, wp (runs_words pipes) (forever fuel round input) (Parent []) shell_ends.
Proof.
  intros Hr Hi fuel. apply (wp_forever _ (fun input s => length input = 100%nat /\ s = Parent [])); [|by intros ? ? [_ ->]; left|done].
  clear input Hi. intros input s [Hi ->]. eapply wp_mono; [|by apply Hr]. by intros [[?|?]|?] s'.
Qed.

(** Whatever is typed, and whatever the system replies, the shell of hw10 prompts, reads a
    line, and for each line but [exit] forks a child that runs the words of the line, at most
    19 of them and in order, while the parent waits before it prompts again. It keeps its
    buffer, and the only undefined behaviour is in a child whose line has no word: its
    [args[0]] is null. *)
Theorem shell_runs_line fuel input :
  length input = 100%nat -> wp (runs_words false) (shell_main fuel input) (Parent []) shell_ends.
Proof.
  intros Hi. apply wp_shell; [|done]. clear. intros input Hi. unfold shell_round.
  apply wp_read_line; [done|done|]. intros l r Hl Hlen. rewrite streq_exit by done. pure_steps.
  case_bool_decide as He; [subst l; apply wp_exit|]. rewrite chars_app by done. pure_steps. by apply wp_single; [..|intros [? _]].
Qed.

(** The line at its first bar. *)
Lemma strchr_bar l r i : text l ->
  strchr_from i (l ++ 0 :: r) 124 = Done (if decide (124 ∈ l) then Some (i + Z.of_nat (length (before_bar l))) else None) /\
  (124 ∈ l -> l = before_bar l ++ 124 :: after_bar l).
Proof.
  intros Hl. revert i. unfold before_bar, after_bar. induction Hl as [|b l Hb Hl IH]; intros i; cbn [app strchr_from span].
  - split; [by rewrite decide_False by apply not_elem_of_nil|by intros ?%not_elem_of_nil].
  - apply nonzero_spec in Hb. destruct (IH (i + 1)) as [E1 E2]. destruct (Z.eqb_spec b 124) as [->|Hne].
    + rewrite decide_True by (by left). cbn. split; [do 2 f_equal; lia|done].
    + destruct (Z.eqb_spec b 0); [done|]. rewrite E1. cbn [negb]. destruct (span _ l) as [x y]. cbn [fst snd length] in *. split.
      * destruct (decide (124 ∈ l)) as [Hin|Hin].
        -- rewrite decide_True by (by right). do 2 f_equal. lia.
        -- by rewrite decide_False by (rewrite elem_of_cons; intros [?|?]; congruence).
      * intros [?|Hin]%elem_of_cons; [congruence|]. by rewrite (E2 Hin) at 1.
Qed.

Lemma skip_spaces_spec s r : text s -> skip_spaces (s ++ 0 :: r) = (span (Z.eqb space) s).2 ++ 0 :: r.
Proof.
  induction 1 as [|b s Hb Hs IH]; [done|]. cbn [app skip_spaces span]. rewrite (Z.eqb_sym space).
  destruct (b =? space); [rewrite IH; by destruct (span (Z.eqb space) s)|done].
Qed.

Lemma wp_pipeline l r : text l -> l <> str "exit" -> 124 ∈ l -> length (l ++ 0 :: r) = 100%nat ->
  wp (runs_words true) (pipeline (l ++ 0 :: r) (Z.of_nat (length (before_bar l)))) (Typed l) round_ok.
Proof.
  intros Hl He Hin Hlen. destruct (strchr_bar l r 0 Hl) as [_ Hsplit]. specialize (Hsplit Hin).
  set (a := before_bar l) in *. set (b := after_bar l) in *.
  assert (Hab : text a /\ text b) by (unfold text in *; rewrite Hsplit in Hl; apply Forall_app in Hl as [? Hl]; by apply Forall_cons in Hl as [_ ?]).
  destruct Hab as [Ha Hb]. unfold pipeline. rewrite zset_ok by (rewrite Hlen, Hsplit, !length_app in *; cbn in *; lia).
  rewrite Nat2Z.id. prog_simp. pure_steps.
  assert (Hz : <[length a := 0]> (l ++ 0 :: r) = a ++ 0 :: (b ++ 0 :: r)).
  { rewrite Hsplit, <- app_assoc. rewrite insert_app_r_alt by lia. by rewrite Nat.sub_diag. }
  rewrite Hz, chars_app by done. pure_steps.
  replace (drop (Z.to_nat (Z.of_nat (length a) + 1)) (a ++ 0 :: b ++ 0 :: r)) with (b ++ 0 :: r).
  2:{ replace (Z.to_nat (Z.of_nat (length a) + 1)) with (length a + 1)%nat by lia. by rewrite <- drop_drop, drop_app_length. }
  rewrite skip_spaces_spec by done. pose proof (span_app (Z.eqb space) b) as Hspan.
  rewrite chars_app by (unfold text in *; rewrite <- Hspan in Hb; by apply Forall_app in Hb as [_ ?]). pure_steps.
  assert (Hinput : length (a ++ 0 :: b ++ 0 :: r) = 100%nat) by (rewrite <- Hz, length_insert; done).
  set (input := a ++ 0 :: b ++ 0 :: r) in *. clearbody input.
  assert (Hd : pre (runs_words true) (Typed l) c_pipe) by (cbn; rewrite decide_False, decide_True by done; done).
  apply wp_one; [exact Hd|]. intros rp Hrp. cbn [post runs_words moves]. rewrite decide_False, decide_True by done.
  destruct (Z.eqb_spec (r_val rp) (-1)) as [Hm|Hm].
  { assert (Hs : match r_data rp with [_; _] | _ => Parent [c_perror "MyShell-->Pipe creation failed"] end = Parent [c_perror "MyShell-->Pipe creation failed"])
      by (destruct (r_data rp) as [|? [|? [|]]]; done). rewrite Hs. by obey. }
  destruct Hrp as [?|Hrp]; [done|]. destruct (r_data rp) as [|fd0 [|fd1 [|]]]; [done|done| |done]. pure_steps.
  obey. destruct (r_val r0 <? 0); [by obey|]. destruct (r_val r0 =? 0).
  { unfold left_child. prog_simp. do 3 obey. by apply wp_run_command. }
  obey. destruct (r_val r1 <? 0); [by obey|]. destruct (r_val r1 =? 0).
  { unfold right_child. prog_simp. do 3 obey. fold b. rewrite (parser_skip b). by apply wp_run_command. }
  by do 4 obey.
Qed.

(** C32 Whatever is typed, and whatever the system replies, each call of the shell of hw12 is
    the one that has to come. It prompts and reads a line, leaves on [exit] or the end of the
    input, and otherwise executes the line: without a bar it forks a child that runs its
    words while the parent waits; with one it makes a pipe and forks the child that redirects
    its output and runs the words before the first bar, and the child that redirects its
    input and runs the words after it, while the parent closes the pipe and waits for both
    before it prompts again. At most 19 words are passed, in order; a child whose command is
    not found says so and exits with 1; the only undefined behaviour is in a child whose
    command has no word. *)
Theorem pipe_shell_runs_line fuel input :
  length input = 100%nat -> wp (runs_words true) (pipe_shell_main fuel input) (Parent []) shell_ends.
Proof.
  intros Hi. apply wp_shell; [|done]. clear. intros input Hi. unfold pipe_shell_round.
  apply wp_read_line; [done|done|]. intros l r Hl Hlen. rewrite streq_exit by done. pure_steps.
  case_bool_decide as He; [subst l; apply wp_exit|]. destruct (strchr_bar l r 0 Hl) as [E _]. unfold strchr. rewrite E. pure_steps.
  destruct (decide (124 ∈ l)) as [Hin|Hin]; [by apply wp_pipeline|].
  rewrite chars_app by done. pure_steps. by apply wp_single; [..|intros [_ ?]].
Qed.

(** * Sessions *)

Definition stack100 : list Z := replicate 100 7.

Lemma shell_runs_line_witness : wp (runs_words false) (shell_main 3 stack100) (Parent []) shell_ends.
Proof. apply (shell_runs_line 3 stack100). by vm_compute. Defined.

(** A run of it: [ls -l | wc] is typed; the first child runs [ls -l]. *)
Example left_child_runs :
  (run [ok0; data_reply (str "ls -l |  wc" ++ [10]); Reply 0 [3; 4] 0; value_reply 0; ok0; ok0; ok0; failed]
     (pipe_shell_main 1 stack100)).1 !! 7%nat = Some (c_execvp [str "ls"; str "-l"]).
Proof. by vm_compute. Qed.

Lemma pipe_shell_runs_line_witness : wp (runs_words true) (pipe_shell_main 3 stack100) (Parent []) shell_ends.
Proof. apply (pipe_shell_runs_line 3 stack100). by vm_compute. Defined.
