(* ===== verification/Calc.v ===== *)
(** The calculator of src/hw7_static_lib (src/hw8_dinamic_lib/main.c is the same file) and
    the one of src/hw8_dinamic_lib/dlOpen, which loads its functions when they are chosen. *)

From S2P Require Import Prelude CInt CStr Stdio Console.

(** [scanf("%d", &x)] into an [x] that has no value before. *)
Definition read_int : console Z := r ← scan_d; lift (of_option Uninitialised r).

(** The two operands; without the first number the second is not read. *)
Definition operands : console (Z * Z) :=
  printf "Введите два целых числа: " [];;
  a ← read_int;
  b ← read_int;
  mret (a, b).

Definition Add : console Z := '(a, b) ← operands; lift (iadd a b).
Definition Sub : console Z := '(a, b) ← operands; lift (isub a b).
Definition Mul : console Z := '(a, b) ← operands; lift (imul a b).
Definition Div : console Z := '(a, b) ← operands; lift (idiv a b).

Definition PrintMenu : console unit :=
  say [("\nMenu: \n"%string, []); ("1. Сложение\n"%string, []); ("2. Вычитание\n"%string, []); ("3. Умножение\n"%string, []);
       ("4. Деление\n"%string, []); ("5. Выход\n"%string, []); ("Ваш выбор: "%string, [])].

(** The choice keeps its value when no number is read; at first it has none. *)
Definition read_choice (choise : option Z) : console Z :=
  c ← scan_d;
  lift (of_option Uninitialised (match c with Some v => Some v | None => choise end)).

Definition bye : console unit := printf "Выход из программы...\n" [].
Definition complain : console unit := printf "\nВы ввели неверное значение, попробуйте еще.\n" [].

Definition calculate (f : console Z) : console unit := r ← f; printf "Результат: %d" [print_d r].

Definition main_round (choise : option Z) : console (option Z + unit) :=
  PrintMenu;;
  v ← read_choice choise;
  (if v =? 1 then calculate Add
   else if v =? 2 then calculate Sub
   else if v =? 3 then calculate Mul
   else if v =? 4 then calculate Div
   else if v =? 5 then bye
   else complain);;
  mret (if v =? 5 then inr tt else inl (Some v)).

(** At most [fuel] rounds of the menu. *)
Definition main (fuel : nat) : console (option unit) := rounds fuel main_round None.

(** * The calculator that loads its functions *)

Section library.

(** What [dlopen] gives for libcalc.so and [dlsym] for a name, or the text of [dlerror]. *)
Context (libcalc : list Z + (string -> list Z + console Z)).

(** The function of a name: without it the program closes the library and returns 1. *)
Definition loaded (lib : string -> list Z + console Z) (name : string) : console unit :=
  match lib name with
  | inr f => calculate f
  | inl error => printf "dlsym error: %s\n" [error];; exit_with 1
  end.

Definition dl_round (lib : string -> list Z + console Z) (choise : option Z) : console (option Z + unit) :=
  PrintMenu;;
  v ← read_choice choise;
  (if v =? 1 then loaded lib "Add"
   else if v =? 2 then loaded lib "Sub"
   else if v =? 3 then loaded lib "Mul"
   else if v =? 4 then loaded lib "Div"
   else if v =? 5 then bye
   else complain);;
  mret (if v =? 5 then inr tt else inl (Some v)).

Definition dl_main (fuel : nat) : console (option unit) :=
  match libcalc with
  | inl error => printf "dlopen error: %s\n" [error];; exit_with 1
  | inr lib => rounds fuel (dl_round lib) None
  end.
End library.

(** * What a session means *)

(** An operation with its operands; the number is that of the menu. *)
Record request := Request { op : Z; left : Z; right : Z }.

Definition valid (q : request) : Prop := 1 <= op q <= 4 /\ is_int (left q) /\ is_int (right q).

(** The exact result, when the C operator has one. *)
Definition answer (q : request) : outcome Z :=
  if op q =? 1 then int_result (left q + right q)
  else if op q =? 2 then int_result (left q - right q)
  else if op q =? 3 then int_result (left q * right q)
  else if right q =? 0 then Undef DivByZero
  else int_result (left q ÷ right q).

(** The session as it is typed, and the lines it shows. *)
Definition typed_request (q : request) : list Z :=
  print_d (op q) ++ newline :: print_d (left q) ++ space :: print_d (right q) ++ [newline].
Definition typed (qs : list request) : list Z := concat (typed_request <$> qs) ++ print_d 5.

Definition menu_lines : list line :=
  [("\nMenu: \n"%string, []); ("1. Сложение\n"%string, []); ("2. Вычитание\n"%string, []); ("3. Умножение\n"%string, []);
   ("4. Деление\n"%string, []); ("5. Выход\n"%string, []); ("Ваш выбор: "%string, [])].
Definition shown_request (r : Z) : list line :=
  menu_lines ++ [("Введите два целых числа: "%string, []); ("Результат: %d"%string, [print_d r])].
Definition bye_lines : list line := menu_lines ++ [("Выход из программы...\n"%string, [])].

(** The results of a session: those of the requests in order, up to one without a result. *)
Fixpoint answers (qs : list request) : outcome (list Z) :=
  match qs with
  | [] => Done []
  | q :: qs' => r ← answer q; rs ← answers qs'; Done (r :: rs)
  end.

(** * Sessions *)

Lemma bind_step {A B} (m : console A) (f : A -> console B) s a s1 o1 :
  m s = Done (inl a, s1, o1) ->
  (m ≫= f) s = match f a s1 with Done (r, s2, o2) => Done (r, s2, o1 ++ o2) | Undef u => Undef u end.
Proof. intros H. unfold mbind, console_bind. by rewrite H. Qed.

Lemma scanf_blanks ws s : Forall (fun b => isspace b = true) ws -> scanf_d (ws ++ s) = scanf_d s.
Proof.
  intros H. unfold scanf_d. replace (skip_ws (ws ++ s)) with (skip_ws s); [done|].
  unfold skip_ws. induction H as [|b ws Hb _ IH]; [done|]. cbn. rewrite Hb. by destruct (span isspace (ws ++ s)).
Qed.

(** What may follow a number: nothing, or a byte that is not a digit. *)
Definition stops (rest : list Z) : Prop := head rest = None \/ exists b, head rest = Some b /\ isdigit b = false.

Lemma scan_number ws z rest : Forall (fun b => isspace b = true) ws -> is_int z -> stops rest ->
  ends scan_d (ws ++ print_d z ++ rest) (inl (Some z)) rest [].
Proof. intros Hw Hz Hr. unfold ends, scan_d. by rewrite scanf_blanks, scanf_print_d. Qed.

Lemma read_number ws z rest : Forall (fun b => isspace b = true) ws -> is_int z -> stops rest ->
  ends read_int (ws ++ print_d z ++ rest) (inl z) rest [].
Proof. intros Hw Hz Hr. unfold read_int. eapply (ends_bind _ _ _ _ _ []); [by apply scan_number|done]. Qed.

Lemma choice_number ch ws z rest : Forall (fun b => isspace b = true) ws -> is_int z -> stops rest ->
  ends (read_choice ch) (ws ++ print_d z ++ rest) (inl z) rest [].
Proof. intros Hw Hz Hr. unfold read_choice. eapply (ends_bind _ _ _ _ _ []); [by apply scan_number|done]. Qed.

Lemma blank b : b = newline \/ b = space -> isspace b = true /\ isdigit b = false.
Proof. by intros [-> | ->]. Qed.

Lemma stops_blank b rest : b = newline \/ b = space -> stops (b :: rest).
Proof. intros H. right. exists b. split; [done|]. by apply blank. Qed.

Lemma operands_read a b rest : is_int a -> is_int b ->
  ends operands (newline :: print_d a ++ space :: print_d b ++ newline :: rest) (inl (a, b)) (newline :: rest)
    [("Введите два целых числа: "%string, [])].
Proof.
  intros Ha Hb. unfold operands. eapply (ends_bind _ _ _ _ _ [_] _ _ []); [apply ends_printf|].
  eapply (ends_bind _ _ _ _ _ []); [apply (read_number [newline] a); [by repeat constructor|done|by apply stops_blank; right]|].
  eapply (ends_bind _ _ _ _ _ []); [apply (read_number [space] b); [by repeat constructor|done|by apply stops_blank; left]|].
  apply ends_ret.
Qed.

(** The function of an operation. *)
Definition operation (o : Z) : console Z := if o =? 1 then Add else if o =? 2 then Sub else if o =? 3 then Mul else Div.

Lemma operation_answers q rest : valid q ->
  operation (op q) (newline :: print_d (left q) ++ space :: print_d (right q) ++ newline :: rest) =
    match answer q with
    | Done r => Done (inl r, newline :: rest, [("Введите два целых числа: "%string, [])])
    | Undef u => Undef u
    end.
Proof.
  intros (Ho & Ha & Hb). pose proof (operands_read _ _ rest Ha Hb) as H. unfold ends in H.
  unfold operation, answer, Add, Sub, Mul, Div, iadd, isub, imul, idiv, mbind, console_bind.
  repeat (destruct (_ =? _); [rewrite H; unfold lift; destruct (int_result _); done|]).
  rewrite H. unfold lift. destruct (_ =? 0); [done|]. by destruct (int_result _).
Qed.

(** A round that carries out a request. *)
Lemma main_round_request ch ws q rest : Forall (fun b => isspace b = true) ws -> valid q ->
  main_round ch (ws ++ typed_request q ++ rest) =
    match answer q with
    | Done r => Done (inl (inl (Some (op q))), newline :: rest, shown_request r)
    | Undef u => Undef u
    end.
Proof.
  intros Hw Hq. pose proof Hq as (Ho & _). unfold main_round.
  rewrite (bind_step PrintMenu _ _ tt _ menu_lines) by done.
  assert (Hin : ws ++ typed_request q ++ rest
    = ws ++ print_d (op q) ++ newline :: print_d (left q) ++ space :: print_d (right q) ++ newline :: rest).
  { unfold typed_request. by repeat (rewrite <- app_assoc; cbn [app]). }
  rewrite Hin. clear Hin. pose proof (operation_answers q rest Hq) as Hop.
  rewrite (bind_step (read_choice ch) _ _ (op q) (newline :: print_d (left q) ++ space :: print_d (right q) ++ newline :: rest) []);
    [|apply choice_number; [done|unfold_int; lia|by apply stops_blank; left]].
  assert (Hsel : (if op q =? 1 then calculate Add else if op q =? 2 then calculate Sub
                  else if op q =? 3 then calculate Mul else if op q =? 4 then calculate Div
                  else if op q =? 5 then bye else complain) = calculate (operation (op q))).
  { assert (op q = 1 \/ op q = 2 \/ op q = 3 \/ op q = 4) as Hcases by lia. unfold operation.
    destruct Hcases as [-> |[-> |[-> | ->]]]; cbn [Z.eqb Pos.eqb]; reflexivity. }
  rewrite Hsel. assert (Hn : (op q =? 5) = false) by lia. rewrite Hn. unfold calculate.
  destruct (answer q) as [r|u].
  - rewrite (bind_step _ _ _ tt (newline :: rest) [("Введите два целых числа: "%string, []); ("Результат: %d"%string, [print_d r])]); [done|].
    by rewrite (bind_step _ _ _ r (newline :: rest) _ Hop).
  - unfold mbind, console_bind. by rewrite Hop.
Qed.

(** The round that ends the session. *)
Lemma main_round_exit ch ws : Forall (fun b => isspace b = true) ws ->
  main_round ch (ws ++ print_d 5) = Done (inl (inr tt), [], bye_lines).
Proof.
  intros Hw. unfold main_round. rewrite (bind_step PrintMenu _ _ tt _ menu_lines) by done.
  rewrite (bind_step (read_choice ch) _ _ 5 [] []); [done|].
  rewrite <- (app_nil_r (print_d 5)). apply choice_number; [done|unfold_int; lia|by left].
Qed.

Definition session_lines (rs : list Z) : list line := concat (shown_request <$> rs) ++ bye_lines.

Lemma session_from ch ws qs fuel :
  Forall (fun b => isspace b = true) ws -> Forall valid qs -> (length qs < fuel)%nat ->
  rounds fuel main_round ch (ws ++ typed qs) =
    match answers qs with
    | Done rs => Done (inl (Some tt), [], session_lines rs)
    | Undef u => Undef u
    end.
Proof.
  intros Hw Hqs. revert ch ws fuel Hw. induction Hqs as [|q qs Hq Hqs IH]; intros ch ws [|fuel] Hw Hf; cbn [length] in Hf; try lia.
  - cbn [rounds]. unfold typed. cbn. by rewrite (bind_step _ _ _ _ _ _ (main_round_exit ch ws Hw)).
  - cbn [rounds answers]. unfold typed. cbn [fmap list_fmap concat]. rewrite <- app_assoc.
    pose proof (main_round_request ch ws q (typed qs) Hw Hq) as Hr. fold (typed qs).
    destruct (answer q) as [r|u]; [|unfold mbind at 1, console_bind at 1; by rewrite Hr].
    rewrite (bind_step _ _ _ _ _ _ Hr). cbn [mbind outcome_bind].
    pose proof (IH (Some (op q)) [newline] fuel ltac:(by repeat constructor) ltac:(lia)) as Hi. cbn [app] in Hi. rewrite Hi.
    destruct (answers qs) as [rs|u]; [|done]. cbn [mbind outcome_bind]. unfold session_lines. cbn [fmap list_fmap concat].
    by rewrite <- app_assoc.
Qed.

(** C37 A session with the calculator: whatever operations are typed, each with two ints,
    and the choice 5 at the end, the program shows the menu and the exact result of each,
    says goodbye and ends, having read everything; when a result does not fit an int, or the
    divisor is 0, it has no defined meaning. *)
Theorem calculator_session qs fuel : Forall valid qs -> (length qs < fuel)%nat ->
  main fuel (typed qs) =
    match answers qs with
    | Done rs => Done (inl (Some tt), [], session_lines rs)
    | Undef u => Undef u
    end.
Proof. intros Hq Hf. by apply (session_from None []). Qed.

(** The calculator that loads its functions agrees with the linked one on every input
    when the library has the four functions; without the library it returns 1 before the
    menu, and a missing function is reported and returns 1 as soon as it is chosen. *)
Theorem dl_calculator_agrees lib fuel s error :
  (lib "Add"%string = inr Add -> lib "Sub"%string = inr Sub -> lib "Mul"%string = inr Mul -> lib "Div"%string = inr Div ->
   dl_main (inr lib) fuel s = main fuel s) /\
  dl_main (inl error) fuel s = Done (inr 1, s, [("dlopen error: %s\n"%string, [error])]) /\
  (forall ws rest ch, Forall (fun b => isspace b = true) ws -> stops rest -> lib "Div"%string = inl error ->
     dl_round lib ch (ws ++ print_d 4 ++ rest) =
       Done (inr 1, rest, menu_lines ++ [("dlsym error: %s\n"%string, [error])])).
Proof.
  split_and!; [|done|].
  - intros H1 H2 H3 H4. unfold dl_main, main. generalize (@None Z). revert s. induction fuel as [|n IH]; intros s ch; [done|].
    assert (Hr : dl_round lib ch = main_round ch) by (unfold dl_round, main_round, loaded; by rewrite H1, H2, H3, H4).
    cbn [rounds]. rewrite Hr. unfold mbind, console_bind. destruct (main_round ch s) as [[[[[ch'|[]]|c] s1] o1]|u]; [|done..].
    by rewrite IH.
  - intros ws rest ch Hw Hr H. unfold dl_round. rewrite (bind_step PrintMenu _ _ tt _ menu_lines) by done.
    rewrite (bind_step (read_choice ch) _ _ 4 rest []); [|apply choice_number; [done|unfold_int; lia|done]].
    cbn [Z.eqb Pos.eqb]. unfold loaded. by rewrite H.
Qed.

(** Input that is not a number is never consumed: after a choice it is made again and again,
    and an operation then reads operands that have no value. *)
Lemma garbage_repeats fuel : main (S fuel) (str "x") = Undef Uninitialised /\
  main 2 (str "9 x") = Done (inl None, str "x", menu_lines ++ [("\nВы ввели неверное значение, попробуйте еще.\n"%string, [])]
    ++ menu_lines ++ [("\nВы ввели неверное значение, попробуйте еще.\n"%string, [])]).
Proof. split; by vm_compute. Qed.

Lemma calculator_session_witness :
  typed [Request 1 2 3; Request 4 7 (-2)] = str "1" ++ newline :: str "2 3" ++ newline :: str "4" ++ newline :: str "7 -2" ++ newline :: str "5" /\
  main 3 (typed [Request 1 2 3; Request 4 7 (-2)]) = Done (inl (Some tt), [], session_lines [5; -3]) /\
  main 2 (typed [Request 3 65536 32768]) = Undef SignedOverflow.
Proof.
  split_and!.
  - by vm_compute.
  - rewrite (calculator_session [Request 1 2 3; Request 4 7 (-2)] 3); [done| |cbn; lia].
    repeat constructor; unfold valid; cbn; unfold_int; lia.
  - rewrite (calculator_session [Request 3 65536 32768] 2); [done| |cbn; lia].
    repeat constructor; unfold valid; cbn; unfold_int; lia.
Defined.

(** A library with the four functions, and one without the division. *)
Definition demo_lib (div : list Z + console Z) (name : string) : list Z + console Z :=
  if String.eqb name "Add" then inr Add else if String.eqb name "Sub" then inr Sub
  else if String.eqb name "Mul" then inr Mul else if String.eqb name "Div" then div else inl (str "undefined symbol").

Lemma dl_calculator_agrees_witness :
  dl_main (inr (demo_lib (inr Div))) 2 (typed [Request 1 2 3]) = main 2 (typed [Request 1 2 3]) /\
  dl_round (demo_lib (inl (str "no Div"))) None (print_d 4) = Done (inr 1, [], menu_lines ++ [("dlsym error: %s\n"%string, [str "no Div"])]).
Proof.
  split.
  - by apply (dl_calculator_agrees (demo_lib (inr Div)) 2 (typed [Request 1 2 3]) []).
  - rewrite <- (app_nil_r (print_d 4)). apply (dl_calculator_agrees (demo_lib (inl (str "no Div"))) 1 [] (str "no Div")) with (ws := []); [constructor|by left|done].
Defined.
