(* ===== verification/Lessons.v ===== *)
(** The first exercises: the bits of a number (src/hw1/hw1.c), matrices (src/hw2/hw2.c), a
    byte of a number, pointers and the search of a substring (src/hw3/hw3.c, hw3_2.c, hw3_3.c,
    hw3_4.c), a password
    (src/hw5/hw5_p2/isPassOk.c) and a file read backwards (src/hw9_vfs/output/main.c). The
    newline at the end of a format is left out. *)

From S2P Require Import Prelude CInt CStr Stdio Console Calc.

(** * hw1: the bits of a number *)

(** [scanf] of an unsigned number of [w] bits: a sign is read as well, and a negative number
    wraps. *)
Definition scanf_u (w : Z) (s : list Z) : outcome (scan Z) :=
  match skip_ws s with
  | [] => Done AtEof
  | s1 =>
      let '(neg, s2) := sign s1 in
      let '(ds, rest) := span isdigit s2 in
      match ds with
      | [] => Done (NoMatch s2)
      | _ =>
          let v := value ds in
          if v <? 2 ^ w then Done (Matched (if neg then (- v) mod 2 ^ w else v) rest) else Undef Unrepresentable
      end
  end.

(** The object that is read had no value before. *)
Definition scan_u (w : Z) : console Z := fun s =>
  match scanf_u w s with
  | Done (Matched z rest) => Done (inl z, rest, [])
  | Done _ => Undef Uninitialised
  | Undef u => Undef u
  end.

(** [num & (1 << i)]; [1 << 31] has the bit the compiler gives it. *)
Definition bit_set (num i : Z) : bool := negb (Z.land num (u32 (Z.shiftl 1 i)) =? 0).

(** A round of [for (int i = 31; i >= 0; --i)]. *)
Definition show_bit (num i : Z) : console unit :=
  (if bit_set num i then printf "1" [] else printf "0" []);;
  if (i mod 4 =? 0) && negb (i =? 0) then printf " " [] else mret tt.

Definition show_bits (num : Z) : console unit :=
  each (rev (seqZ 0 32)) (fun i _ => show_bit num i) tt;; printf "\n" [].

(** [while (num > 0)]: the count and the number that is left; [None] when [fuel] is used up. *)
Fixpoint count_ones (fuel : nat) (num count : Z) : option (Z * Z) :=
  if 0 <? num then
    match fuel with
    | O => None
    | S n => count_ones n (Z.shiftr num 1) (count + Z.land num 1)
    end
  else Some (count, num).

(** [(num & ~(0xFF << 16)) | (new_byte << 16)]. *)
Definition set_third_byte (num new_byte : Z) : Z :=
  Z.lor (Z.land num (u32 (Z.lnot (Z.shiftl 255 16)))) (u32 (Z.shiftl new_byte 16)).

Definition hw1_main : console Z :=
  printf "Введите число: " [];;
  n ← read_int;
  let num := u32 n in
  show_bits num;;
  '(count, num) ← lift (of_option OutOfFuel (count_ones 32 num 0));
  printf "Единиц в двоичном представлении целого числа: %d \n" [print_d count];;
  printf "Введите новое значение третьего байта (0-255): " [];;
  new_byte ← scan_u 32;
  if (255 <? new_byte) || (new_byte <=? 0) then
    printf "Вы ввели не корректное чисто.\n" [];; mret 1
  else
    let num := set_third_byte num new_byte in
    printf "Измененное двоичное представление: \n" [];;
    show_bits num;;
    mret 0.

(** * hw2: matrices *)

Definition N : Z := 5.

(** The title of the third task, which has quotes around its 1. *)
Definition triangle_title : string :=
  "Матрица заполненная " ++ String (Ascii.ascii_of_nat 34) ("1" ++ String (Ascii.ascii_of_nat 34) " в верхнем треугольнике: \n").

(** [value] counts the cells. *)
Definition firstTask : console unit :=
  each (seqZ 0 N) (fun i value =>
    value ← each (seqZ 0 N) (fun j value => printf "%3d" [print_d value];; mret (value + 1)) value;
    printf "\n" [];; mret value) 1;;
  printf "\n" [].

Definition thirdTask : console unit :=
  each (seqZ 0 N) (fun i _ =>
    each (seqZ 0 N) (fun j _ => printf "%d " [print_d (if N - 1 <=? i + j then 0 else 1)]) tt;;
    printf "\n" []) tt;;
  printf "\n" [].

Definition swap_step (i : Z) (arr : list Z) : outcome (list Z) :=
  temp ← znth arr i;
  b ← znth arr (N - 1 - i);
  arr ← zset arr i b;
  zset arr (N - 1 - i) temp.

Definition reverse_array (arr : list Z) : outcome (list Z) := for_z (Z.to_nat (N / 2)) 0 swap_step arr.

Definition secondTask : console unit :=
  arr ← each (seqZ 0 N) (fun i arr => x ← read_int; mret (arr ++ [x])) [];
  arr ← lift (reverse_array arr);
  each arr (fun x _ => printf "%d " [print_d x]) tt;;
  printf "\n\n" [].

(** The cells written so far. *)
Notation matrix := (gmap (Z * Z) Z).

(** [matrix[r][c] = v], inside the array. *)
Definition store (m : matrix) (r c v : Z) : outcome matrix :=
  if (0 <=? r) && (r <? N) && (0 <=? c) && (c <? N) then Done (<[(r, c) := v]> m) else Undef OutOfBounds.

Record spiral := Spiral { cells : matrix; next_value : Z; rowStart : Z; rowEnd : Z; colStart : Z; colEnd : Z }.

(** A side of the spiral: its cells in order, each [value++]. *)
Fixpoint side (cs : list (Z * Z)) (m : matrix) (v : Z) : outcome (matrix * Z) :=
  match cs with
  | [] => Done (m, v)
  | (r, c) :: cs' => m ← store m r c v; side cs' m (v + 1)
  end.

Definition up (a b : Z) : list Z := seqZ a (b - a + 1).
Definition down (a b : Z) : list Z := rev (up b a).

Definition turn (s : spiral) : outcome spiral :=
  '(m, v) ← side ((fun i => (rowStart s, i)) <$> up (colStart s) (colEnd s)) (cells s) (next_value s);
  let r0 := rowStart s + 1 in
  '(m, v) ← side ((fun i => (i, colEnd s)) <$> up r0 (rowEnd s)) m v;
  let c1 := colEnd s - 1 in
  '(m, v, r1) ← (if r0 <=? rowEnd s then
      '(m, v) ← side ((fun i => (rowEnd s, i)) <$> down c1 (colStart s)) m v; Done (m, v, rowEnd s - 1)
    else Done (m, v, rowEnd s));
  '(m, v, c0) ← (if colStart s <=? c1 then
      '(m, v) ← side ((fun i => (i, colStart s)) <$> down r1 r0) m v; Done (m, v, colStart s + 1)
    else Done (m, v, colStart s));
  Done (Spiral m v r0 r1 c0 c1).

Fixpoint snail (fuel : nat) (s : spiral) : outcome matrix :=
  if (rowStart s <=? rowEnd s) && (colStart s <=? colEnd s) then
    match fuel with O => Undef OutOfFuel | S n => s ← turn s; snail n s end
  else Done (cells s).

(** A cell that was not written has no value. *)
Definition fourthTask : console unit :=
  m ← lift (snail (Z.to_nat N) (Spiral ∅ 1 0 (N - 1) 0 (N - 1)));
  each (seqZ 0 N) (fun i _ =>
    each (seqZ 0 N) (fun j _ =>
      v ← lift (of_option Uninitialised (m !! (i, j))); printf "%3d " [print_d v]) tt;;
    printf "\n" []) tt.

(** The quotes of the third title are left out. *)
Definition hw2_main : console Z :=
  printf "Размерность матрицы N = %d\n" [print_d N];;
  printf "Квадратная матрица: \n" [];;
  firstTask;;
  printf "Введите числа от 0 до %d: \n" [print_d N];;
  secondTask;;
  printf triangle_title [];;
  thirdTask;;
  printf "Матрица-улитка:\n" [];;
  fourthTask;;
  mret 0.

(** * hw3: a byte through a pointer *)

(** [byte_ptr[2] = new_byte], [byte_ptr] being the address of [num]. *)
Definition poke (num new_byte : Z) : outcome Z :=
  b ← zset (le32 (u32 num)) 2 new_byte; Done (to_int (of_le b)).

Definition hw3_main : console Z :=
  printf "Введите целое положительное число: " [];;
  num ← read_int;
  printf "Введите новое значение третьего байта (0-255): " [];;
  new_byte ← scan_u 8;
  num ← lift (poke num new_byte);
  printf "Измененное число: %d\n" [print_d num];;
  mret 0.

(** * hw3_2, hw3_3: pointers *)

(** [%f] of a value that is an integer; 5.0, 6.0 and their sum are exact as [float]. *)
Definition print_f (v : Z) : list Z := print_d v ++ str ".000000".

(** [x] and [y] are cells 0 and 1 of the memory; both pointers are [&y]. *)
Definition hw3_2_main : console Z :=
  let x := 5 in
  printf "x = %f, " [print_f x];;
  let y := 6 in
  printf "y = %f" [print_f y];;
  let mem := [x; y] in
  let xp := 1 in
  let yp := 1 in
  a ← lift (znth mem xp);
  b ← lift (znth mem yp);
  printf "Результат: %f\n" [print_f (a + b)];;
  mret 0.

(** The pointer, an index into the array, ends one past its last element. *)
Definition hw3_3_main : console Z :=
  let arr := [1; 2; 3; 4; 5; 6; 7; 8; 9; 10] in
  each (seqZ 0 (Z.of_nat (length arr))) (fun _ ptr =>
    v ← lift (znth arr ptr);
    printf "%d \n" [print_d v];;
    mret (ptr + 1)) 0;;
  mret 0.

(** * hw3_4: the search of a substring *)

(** The inner loop from [j]: whether it returns; both arguments are what is left of the
    arrays. *)
Fixpoint matches (str sub : list Z) : outcome bool :=
  match sub with
  | [] => Undef OutOfBounds
  | b :: sub' =>
      if b =? 0 then Done true
      else match str with
           | [] => Undef OutOfBounds
           | a :: str' => if a =? b then matches str' sub' else Done false
           end
  end.

(** The outer loop from [i]: the position returned, or NULL. *)
Fixpoint find_substr (i : Z) (str sub : list Z) : outcome (option Z) :=
  match str with
  | [] => Undef OutOfBounds
  | a :: str' =>
      if a =? 0 then Done None
      else r ← matches str sub; match r with true => Done (Some i) | false => find_substr (i + 1) str' sub end
  end.

Definition not_newline (b : Z) : bool := negb (b =? newline).

(** [scanf("%99[^\n]", a)] into an [a] of 80 bytes that has no value: white space is not
    skipped, and without a character nothing is stored. *)
Definition scan_line (w : nat) (a : list Z) : console (option (list Z)) := fun s =>
  match take w (span not_newline s).1 with
  | [] => Done (inl (@None (list Z)), s, [])
  | tok => a' ← put_at a 0 (tok ++ [0]); Done (inl (Some a'), drop (length tok) s, [])
  end.

(** An array that holds no string is not read when [str] is empty. *)
Definition hw3_4_main : console Z :=
  printf "Введите первоначальную строку: " [];;
  str ← scan_line 99 (replicate 80 0);
  get_char;;
  printf "Введите искомую подстроку: " [];;
  buffer ← scan_line 99 (replicate 80 0);
  get_char;;
  str ← lift (of_option Uninitialised str);
  buffer ← lift (match buffer with
                 | Some b => Done b
                 | None => c ← znth str 0; check (c =? 0) Uninitialised;; Done []
                 end);
  result ← lift (find_substr 0 str buffer);
  (match result with
   | Some i => printf "Позиция: %ld\n" [print_d i]
   | None => printf "Не найдено\n" []
   end);;
  mret 0.

(** * hw5_p2: the password *)

(** [gets(Pass)]: the line without its newline and a NUL; at the end of the input the array
    keeps what it has, which is nothing. *)
Definition gets (a : list Z) : console (list Z) := fun s =>
  match s with
  | [] => Undef Uninitialised
  | _ => let '(tok, rest) := span not_newline s in
         a' ← put_at a 0 (tok ++ [0]); Done (inl a', drop 1 rest, [])
  end.

Definition isPassOk : console bool :=
  Pass ← gets (replicate 12 0);
  lift (streq Pass (lit "test")).

Definition hw5_p2_main : console Z :=
  printf "Enter password: " [];;
  pwStatus ← isPassOk;
  if (pwStatus : bool) then printf "Access granted!\n" [];; mret 0
  else printf "Bad password!\n" [];; exit_with 1.

(** * hw9: a file read backwards *)

Section output.

(** Whether the file can be opened for writing and for reading, and memory be had. *)
Context (can_write can_read has_memory : bool).

Definition filename : string := "outputfile.txt".
Definition file_text : list Z := str "String from file".

(** [for (long i = filesize - 1; i >= 0; i--) putchar(buffer[i])]. *)
Fixpoint backwards (n : nat) (buffer : list Z) : outcome (list Z) :=
  match n with
  | O => Done []
  | S n' => c ← znth buffer (Z.of_nat n'); cs ← backwards n' buffer; Done (c :: cs)
  end.

(** The status, the files afterwards and the bytes written to the terminal, but for the
    messages. *)
Definition output_main (fs : gmap string (list Z)) : outcome (Z * gmap string (list Z) * list Z) :=
  if negb can_write then Done (1, fs, []) else
  let fs := <[filename := []]> fs in
  let fs := alter (fun old => old ++ file_text) filename fs in
  match (if can_read then fs !! filename else None) with
  | None => Done (1, fs, [])
  | Some file =>
      let filesize := Z.of_nat (length file) in
      if filesize <=? 0 then Done (1, fs, []) else
      if negb has_memory then Done (1, fs, []) else
      buffer ← put_at (replicate (Z.to_nat (filesize + 1)) 0) 0 file;
      buffer ← zset buffer filesize newline;
      out ← backwards (Z.to_nat filesize) buffer;
      Done (0, fs, out ++ [newline])
  end.
End output.

(** * The bits that are shown *)

Lemma bit_set_testbit num i : 0 <= i < 32 -> bit_set num i = Z.testbit num i.
Proof.
  intros Hi. unfold bit_set, u32. rewrite Z.shiftl_1_l.
  rewrite Z.mod_small by (split; [apply Z.pow_nonneg; lia|apply Z.pow_lt_mono_r; lia]).
  assert (Hb : forall j, 0 <= j -> Z.testbit (Z.land num (2 ^ i)) j = Z.testbit num j && (i =? j)).
  { intros j Hj. by rewrite Z.land_spec, Z.pow2_bits_eqb by lia. }
  destruct (Z.testbit num i) eqn:E.
  - apply negb_true_iff, Z.eqb_neq. intros H. specialize (Hb i ltac:(lia)).
    by rewrite H, Z.bits_0, E, Z.eqb_refl in Hb.
  - apply negb_false_iff, Z.eqb_eq. apply Z.bits_inj'. intros j Hj. rewrite Hb, Z.bits_0 by done.
    destruct (Z.eqb_spec i j) as [<-|]; [by rewrite E|by rewrite andb_false_r].
Qed.

(** The lines of a bit: the digit and the space between groups of four. *)
Definition bit_line (num i : Z) : list line :=
  (if Z.testbit num i then "1" else "0"%string, []) ::
  (if (i mod 4 =? 0) && negb (i =? 0) then [(" "%string, [])] else []).
Definition bit_lines (num : Z) : list line := concat (bit_line num <$> rev (seqZ 0 32)) ++ [("\n"%string, [])].

Lemma show_bit_line num i s : 0 <= i < 32 -> ends (show_bit num i) s (inl tt) s (bit_line num i).
Proof.
  intros Hi. unfold show_bit, bit_line. rewrite bit_set_testbit by done.
  eapply (ends_bind _ _ _ _ _ [_]); [by destruct (Z.testbit num i); apply ends_printf|].
  destruct (_ && _); [apply ends_printf|apply ends_ret].
Qed.

Lemma each_ends {A S} (l : list A) (body : A -> S -> console S) (out : A -> list line) st s :
  (forall x, x ∈ l -> ends (body x st) s (inl st) s (out x)) ->
  ends (each l body st) s (inl st) s (concat (out <$> l)).
Proof.
  induction l as [|x l IH]; intros H; [apply ends_ret|]. cbn [each fmap list_fmap concat].
  eapply ends_bind; [apply H; left|]. apply IH. intros y Hy. apply H. by right.
Qed.

Lemma show_bits_lines num s : ends (show_bits num) s (inl tt) s (bit_lines num).
Proof.
  unfold show_bits, bit_lines. eapply ends_bind; [|apply ends_printf]. apply each_ends.
  intros i Hi. apply show_bit_line. apply list_elem_of_In, in_rev, list_elem_of_In, elem_of_seqZ in Hi. lia.
Qed.

(** The number that a reader of the digits reads. *)
Definition read_digit (acc : Z) (l : line) : Z :=
  if String.eqb l.1 "1" then 2 * acc + 1 else if String.eqb l.1 "0" then 2 * acc else acc.
Definition read_binary (ls : list line) : Z := fold_left read_digit ls 0.

Lemma read_bit_line num i acc ls :
  fold_left read_digit (bit_line num i ++ ls) acc = fold_left read_digit ls (2 * acc + Z.b2z (Z.testbit num i)).
Proof.
  unfold bit_line. destruct (Z.testbit num i), (_ && _); cbn -[Z.mul Z.add]; by rewrite ?Z.add_0_r.
Qed.

Lemma mod_next_bit num k : 0 <= k -> num mod 2 ^ (k + 1) = Z.b2z (Z.testbit num k) * 2 ^ k + num mod 2 ^ k.
Proof.
  intros Hk. rewrite Z.testbit_spec' by done. rewrite Z.pow_add_r, Z.rem_mul_r by lia. change (2 ^ 1) with 2. lia.
Qed.

Lemma read_bit_lines num k acc ls :
  fold_left read_digit (concat (bit_line num <$> rev (seqZ 0 (Z.of_nat k))) ++ ls) acc =
  fold_left read_digit ls (acc * 2 ^ Z.of_nat k + num mod 2 ^ Z.of_nat k).
Proof.
  revert acc. induction k as [|k IH]; intros acc.
  - cbn -[Z.mul]. rewrite Z.mod_1_r. f_equal. lia.
  - rewrite seqZ_S, Nat2Z.inj_succ, rev_app_distr. cbn [rev app fmap list_fmap concat].
    rewrite <- app_assoc, read_bit_line, IH, <- Z.add_1_r, mod_next_bit by lia.
    f_equal. rewrite Z.pow_add_r by lia. change (2 ^ 1) with 2. rewrite Z.add_0_l. lia.
Qed.

(** What is shown is the number. *)
Lemma bit_lines_read num : 0 <= num < 2 ^ 32 -> read_binary (bit_lines num) = num.
Proof.
  intros H. unfold read_binary, bit_lines. change 32 with (Z.of_nat 32).
  rewrite read_bit_lines. cbn -[Z.modulo]. by rewrite Z.mod_small.
Qed.

(** * The number of ones *)

Definition ones (k num : Z) : Z := total ((fun i => Z.b2z (Z.testbit num i)) <$> seqZ 0 k).

Lemma ones_0 k : ones k 0 = 0.
Proof.
  unfold ones. induction (seqZ 0 k) as [|i l IH]; [done|]. cbn [fmap list_fmap total foldr].
  rewrite Z.bits_0. exact IH.
Qed.

Lemma ones_next k num : 0 <= k -> ones (k + 1) num = Z.land num 1 + ones k (Z.shiftr num 1).
Proof.
  intros Hk. unfold ones. rewrite Z.add_1_r, seqZ_cons by lia. rewrite Z.pred_succ. cbn [fmap list_fmap].
  match goal with |- total (?x :: ?l) = _ => change (x + total l = Z.land num 1 + total ((fun i => Z.b2z (Z.testbit (Z.shiftr num 1) i)) <$> seqZ 0 k)) end.
  f_equal.
  - pose proof (Z.land_ones num 1 ltac:(lia)) as E. change (Z.ones 1) with 1 in E. rewrite E. apply Z.bit0_mod.
  - change (Z.succ 0) with (1 + 0). rewrite <- fmap_add_seqZ. rewrite <- list_fmap_compose. f_equal. apply list_fmap_ext. intros j i Hi. apply list_elem_of_lookup_2, elem_of_seqZ in Hi.
    cbn. f_equal. rewrite Z.shiftr_spec by lia. f_equal. lia.
Qed.

(** The loop ends within as many rounds as the number has bits, and leaves 0. *)
Lemma count_ones_spec k num c : 0 <= num < 2 ^ Z.of_nat k ->
  count_ones k num c = Some (c + ones (Z.of_nat k) num, 0).
Proof.
  revert num c. induction k as [|k IH]; intros num c H.
  - change (2 ^ Z.of_nat 0) with 1 in H. assert (num = 0) as -> by lia. rewrite ones_0. cbn [count_ones Z.ltb Z.compare]. do 2 f_equal. lia.
  - cbn [count_ones]. destruct (Z.ltb_spec 0 num).
    + rewrite Nat2Z.inj_succ in *. rewrite Z.pow_succ_r in H by lia.
      rewrite IH by (rewrite Z.shiftr_div_pow2 by lia; change (2 ^ 1) with 2; split; [apply Z.div_pos; lia|apply Z.div_lt_upper_bound; lia]).
      rewrite <- Z.add_1_r, ones_next by lia. do 2 f_equal. lia.
    + assert (num = 0) by lia. subst. rewrite ones_0. do 2 f_equal. lia.
Qed.

(** * The third byte *)

Lemma set_third_bits w b i : 0 <= w < 2 ^ 32 -> is_byte b -> 0 <= i ->
  Z.testbit (set_third_byte w b) i = if (16 <=? i) && (i <? 24) then Z.testbit b (i - 16) else Z.testbit w i.
Proof.
  intros Hw Hb Hi. unfold is_byte in Hb. unfold set_third_byte, u32.
  rewrite Z.lor_spec, Z.land_spec.
  assert (Hhigh : forall x n j, 0 <= x < 2 ^ n -> n <= j -> 0 <= n -> Z.testbit x j = false).
  { intros x n j Hx Hj Hn. rewrite <- (Z.mod_small x (2 ^ n)) by done. apply Z.mod_pow2_bits_high. lia. }
  destruct (Z.ltb_spec i 32) as [H32|H32].
  - rewrite !Z.mod_pow2_bits_low by lia. rewrite Z.lnot_spec, !Z.shiftl_spec by lia.
    change 255 with (Z.ones 8). destruct (Z.leb_spec 16 i).
    + destruct (Z.ltb_spec i 24).
      * rewrite Z.ones_spec_low by lia. cbn. by rewrite andb_false_r.
      * rewrite Z.ones_spec_high by lia. cbn. rewrite andb_true_r, (Hhigh b 8) by (cbn; lia). by rewrite orb_false_r.
    + rewrite !(Z.testbit_neg_r _ (i - 16)) by lia. cbn. by rewrite andb_true_r, orb_false_r.
  - rewrite !Z.mod_pow2_bits_high by lia. rewrite andb_false_r. cbn.
    replace (i <? 24) with false by lia. rewrite andb_false_r. symmetry. by apply (Hhigh w 32).
Qed.

Lemma set_third_value w b : 0 <= w < 2 ^ 32 -> is_byte b ->
  set_third_byte w b = w mod 2 ^ 16 + 2 ^ 16 * b + 2 ^ 24 * (w / 2 ^ 24).
Proof.
  intros Hw Hb. set (x := set_third_byte w b).
  assert (H1 : x mod 2 ^ 16 = w mod 2 ^ 16).
  { apply Z.bits_inj'. intros i Hi. rewrite !Z.testbit_mod_pow2 by lia. unfold x. rewrite set_third_bits by done.
    destruct (Z.ltb_spec i 16); [|done]. replace (16 <=? i) with false by lia. done. }
  assert (H2 : (x / 2 ^ 16) mod 2 ^ 8 = b).
  { rewrite <- (Z.mod_small b (2 ^ 8)) by (unfold is_byte in Hb; cbn; lia). apply Z.bits_inj'. intros i Hi.
    rewrite !Z.testbit_mod_pow2 by lia. destruct (Z.ltb_spec i 8); [|done]. rewrite Z.div_pow2_bits by lia.
    unfold x. rewrite set_third_bits by (done || lia). replace ((16 <=? i + 16) && (i + 16 <? 24)) with true by lia.
    cbn. f_equal. lia. }
  assert (H3 : x / 2 ^ 24 = w / 2 ^ 24).
  { apply Z.bits_inj'. intros i Hi. rewrite !Z.div_pow2_bits by lia. unfold x. rewrite set_third_bits by (done || lia).
    replace ((16 <=? i + 24) && (i + 24 <? 24)) with false by lia. done. }
  assert (H4 : x / 2 ^ 24 = x / 2 ^ 16 / 2 ^ 8) by (by rewrite Z.div_div).
  pose proof (Z.div_mod x (2 ^ 16) ltac:(done)) as E1. pose proof (Z.div_mod (x / 2 ^ 16) (2 ^ 8) ltac:(done)) as E2.
  rewrite H1 in E1. rewrite <- H4, H3, H2 in E2. rewrite E1, E2. clear.
  change (2 ^ 24) with (2 ^ 16 * 2 ^ 8). generalize (w / (2 ^ 16 * 2 ^ 8)), (w mod 2 ^ 16). intros. lia.
Qed.

(** The pointer and the bit operations store the same byte. *)
Lemma poke_set num b : is_int num -> is_byte b -> poke num b = Done (to_int (set_third_byte (u32 num) b)).
Proof.
  intros Hn Hb. unfold poke, le32. rewrite zset_ok by (cbn; lia). cbn [mbind outcome_bind]. do 2 f_equal.
  pose proof (u32_range num) as Hr. rewrite set_third_value by (done || lia). set (w := u32 num) in *.
  rewrite (Z.mod_small (w / 16777216))
    by (split; [apply Z.div_pos; lia|apply Z.div_lt_upper_bound; lia]).
  change (2 ^ 24) with 16777216. change (2 ^ 16) with (256 * 256). rewrite Z.rem_mul_r by lia.
  change (Z.to_nat 2) with 2%nat. cbn [insert list_insert of_le foldr].
  generalize (w / 16777216), (w / 256 mod 256), (w mod 256). intros. unfold of_le. cbn [foldr]. lia.
Qed.

(** * The first program *)

(** An unsigned number that is typed is read back. *)
Lemma read_unsigned ws b : Forall (fun c => isspace c = true) ws -> 0 <= b < 2 ^ 32 ->
  ends (scan_u 32) (ws ++ print_d b) (inl b) [] [].
Proof.
  intros Hw Hb. unfold ends, scan_u, scanf_u. rewrite <- (app_nil_r (print_d b)).
  destruct (digits_spec 9 b) as (Hv & Hd & Hne); [lia|].
  unfold print_d. replace (b <? 0) with false by lia.
  assert (Hskip : skip_ws (ws ++ digits 10 b ++ []) = digits 10 b ++ []).
  { unfold skip_ws. rewrite span_forall; [done|done|]. right.
    destruct (digits 10 b) as [|d ds]; [done|]. exists d. split; [done|].
    apply Forall_cons in Hd as [Hd _]. by apply isdigit_not_space. }
  rewrite Hskip. destruct (digits 10 b) as [|d ds] eqn:E; [done|].
  assert (Hs : sign ((d :: ds) ++ []) = (false, (d :: ds) ++ [])).
  { apply Forall_cons in Hd as [Hd _]. cbn. unfold isdigit in Hd. zbool; cbn; done || lia. }
  cbn [app] in Hs |- *. rewrite Hs. rewrite (app_comm_cons ds [] d), span_forall by (done || by left).
  rewrite Hv. by replace (b <? 2 ^ 32) with true by lia.
Qed.

(** What the program shows up to its question, and afterwards. *)
Definition hw1_question (num : Z) : list line :=
  [("Введите число: "%string, [])] ++ bit_lines num
  ++ [("Единиц в двоичном представлении целого числа: %d \n"%string, [print_d (ones 32 num)]);
      ("Введите новое значение третьего байта (0-255): "%string, [])].
Definition hw1_answer (b : Z) : list line :=
  if (0 <? b) && (b <=? 255) then ("Измененное двоичное представление: \n"%string, []) :: bit_lines (b * 2 ^ 16)
  else [("Вы ввели не корректное чисто.\n"%string, [])].

Lemma set_third_of_zero b : is_byte b -> set_third_byte 0 b = b * 2 ^ 16.
Proof. intros Hb. rewrite set_third_value by (done || lia). change (0 mod 2 ^ 16) with 0. change (0 / 2 ^ 24) with 0. lia. Qed.

Lemma read_typed n rest : is_int n -> ends read_int (print_d n ++ newline :: rest) (inl n) (newline :: rest) [].
Proof. intros Hn. apply (read_number []); [done|done|]. by apply stops_blank; left. Qed.

(** The first program on a number and a byte: the digits it shows denote the number, a
    negative one modulo 2^32, the count is that of its bits that are 1, and the last
    representation is that of the byte alone at its place, whatever number was typed, since
    the count has used it up; a byte of 0 is refused, like one above 255. *)
Theorem hw1_session n b : is_int n -> 0 <= b < 2 ^ 32 ->
  hw1_main (print_d n ++ newline :: print_d b) =
    Done (inl (if (0 <? b) && (b <=? 255) then 0 else 1), [], hw1_question (u32 n) ++ hw1_answer b) /\
  read_binary (bit_lines (u32 n)) = n mod 2 ^ 32 /\
  (is_byte b -> read_binary (bit_lines (b * 2 ^ 16)) = b * 2 ^ 16).
Proof.
  intros Hn Hb. pose proof (u32_range n) as Hr. split_and!; [|by apply bit_lines_read|].
  2: { intros Hby. apply bit_lines_read. unfold is_byte in Hby. change (2 ^ 32) with (65536 * 2 ^ 16). lia. }
  unfold hw1_main. rewrite (bind_step _ _ _ tt _ [("Введите число: "%string, [])]) by done.
  rewrite (bind_step _ _ _ n _ []) by (by apply read_typed).
  rewrite (bind_step _ _ _ _ _ _ (show_bits_lines _ _)).
  rewrite (bind_step _ _ _ (ones 32 (u32 n), 0) (newline :: print_d b) [])
    by (unfold lift; by rewrite (count_ones_spec 32)).
  rewrite !(bind_step (printf _ _) _ _ tt _ [_]) by done.
  rewrite (bind_step _ _ _ b [] []) by (by apply (read_unsigned [newline]); [repeat constructor|]).
  unfold hw1_question, hw1_answer. assert (Hc : (255 <? b) || (b <=? 0) = negb ((0 <? b) && (b <=? 255))) by lia.
  rewrite Hc. destruct ((0 <? b) && (b <=? 255)) eqn:E; cbn [negb].
  - rewrite set_third_of_zero by (unfold is_byte; lia).
    rewrite (bind_step (printf _ _) _ _ tt _ [_]) by done. rewrite (bind_step _ _ _ _ _ _ (show_bits_lines _ _)).
    cbn [mret console_ret]. by rewrite app_nil_r, <- !app_assoc.
  - rewrite (bind_step (printf _ _) _ _ tt _ [_]) by done. cbn [mret console_ret]. by rewrite <- !app_assoc.
Qed.

Lemma hw1_session_witness :
  hw1_main (print_d (-3) ++ newline :: print_d 5) = Done (inl 0, [], hw1_question (2 ^ 32 - 3) ++ hw1_answer 5) /\
  ones 32 (2 ^ 32 - 3) = 31 /\ read_binary (bit_lines (2 ^ 32 - 3)) = 2 ^ 32 - 3 /\
  hw1_main (print_d 7 ++ newline :: print_d 0) = Done (inl 1, [], hw1_question 7 ++ hw1_answer 0).
Proof.
  split_and!.
  - apply (hw1_session (-3) 5); [unfold_int; lia|lia].
  - by vm_compute.
  - apply (hw1_session (-3) 5); [unfold_int; lia|lia].
  - apply (hw1_session 7 0); [unfold_int; lia|lia].
Defined.

(** * The matrices *)

(** The exercise asks for the result 12.0, and for the numbers 1 to 10 in order. *)
Lemma pointers_print s :
  ends hw3_2_main s (inl 0) s
    [("x = %f, "%string, [str "5.000000"]); ("y = %f"%string, [str "6.000000"]); ("Результат: %f\n"%string, [str "12.000000"])] /\
  ends hw3_3_main s (inl 0) s ((fun v => ("%d \n"%string, [print_d v])) <$> seqZ 1 10).
Proof. done. Qed.

Lemma reverse_array_rev arr : length arr = 5%nat -> reverse_array arr = Done (rev arr).
Proof. intros H. do 5 (destruct arr as [|? arr]; [done|]). by destruct arr. Qed.

(** The five numbers are printed in the opposite order. *)
Lemma secondTask_reverses a b c d e : Forall is_int [a; b; c; d; e] ->
  secondTask (concat ((fun x => print_d x ++ [newline]) <$> [a; b; c; d; e])) =
    Done (inl tt, [newline], ((fun x => ("%d "%string, [print_d x])) <$> [e; d; c; b; a]) ++ [("\n\n"%string, [])]).
Proof.
  rewrite !Forall_cons. intros (Ha & Hb & Hc & Hd & He & _). unfold secondTask.
  cbn [fmap list_fmap concat]. rewrite <- !app_assoc. cbn [app].
  assert (Hread : forall x l rest, is_int x ->
    ends (x ← read_int; mret (l ++ [x])) (newline :: print_d x ++ newline :: rest) (inl (l ++ [x])) (newline :: rest) []).
  { intros x l rest Hx. eapply (ends_bind _ _ _ _ _ []); [|apply ends_ret].
    apply (read_number [newline]); [by repeat constructor|done|by apply stops_blank; left]. }
  rewrite (bind_step _ _ _ [a; b; c; d; e] [newline] []).
  - rewrite (bind_step _ _ _ [e; d; c; b; a] [newline] []) by done. done.
  - change (seqZ 0 N) with [0; 1; 2; 3; 4]. cbn [each].
    rewrite (bind_step _ _ _ [a] (newline :: print_d b ++ newline :: print_d c ++ newline :: print_d d ++ newline :: print_d e ++ [newline]) []).
    2: { rewrite (bind_step _ _ _ a _ []) by (by apply read_typed). done. }
    rewrite (bind_step _ _ _ _ _ _ (Hread b [a] _ Hb)), (bind_step _ _ _ _ _ _ (Hread c [a; b] _ Hc)),
      (bind_step _ _ _ _ _ _ (Hread d [a; b; c] _ Hd)), (bind_step _ _ _ _ _ _ (Hread e [a; b; c; d] _ He)).
    done.
Qed.

(** The snail fills the matrix with 1 to 25, each number beside the one before. *)
Definition cells_of : list (Z * Z) := i ← seqZ 0 N; (fun j => (i, j)) <$> seqZ 0 N.
Definition position (m : matrix) (v : Z) : option (Z * Z) :=
  head (filter (fun p => bool_decide (m !! p = Some v) = true) cells_of).
Definition beside (m : matrix) (v : Z) : bool :=
  match position m v, position m (v + 1) with
  | Some (i, j), Some (i', j') => Z.abs (i - i') + Z.abs (j - j') =? 1
  | _, _ => false
  end.
Definition walked (m : matrix) : bool :=
  (Z.of_nat (size m) =? N * N) && bool_decide (position m 1 = Some (0, 0))
  && bool_decide (position m (N * N) = Some (2, 2)) && forallb (beside m) (seqZ 1 (N * N - 1)).

Lemma snail_walks :
  walked <$> snail (Z.to_nat N) (Spiral ∅ 1 0 (N - 1) 0 (N - 1)) = Done true.
Proof. by vm_compute. Qed.

(** * The search *)

Lemma matches_prefix s t r q : text s -> text t ->
  matches (s ++ 0 :: r) (t ++ 0 :: q) = Done (bool_decide (t `prefix_of` s)).
Proof.
  intros Hs Ht. revert t Ht. induction Hs as [|a s Ha Hs IH]; intros t Ht.
  - destruct Ht as [|b t Hb Ht]; [done|]. apply nonzero_spec in Hb. cbn [app matches].
    destruct (Z.eqb_spec b 0); [done|]. destruct (Z.eqb_spec 0 b); [lia|done].
  - destruct Ht as [|b t Hb Ht].
    + done.
    + apply nonzero_spec in Hb. cbn [app matches]. destruct (Z.eqb_spec b 0); [done|].
      destruct (Z.eqb_spec a b) as [->|Hne].
      * rewrite IH by done. f_equal. apply bool_decide_ext. split; [apply prefix_cons|apply prefix_cons_inv_2].
      * f_equal. symmetry. apply bool_decide_eq_false. intros H. by apply prefix_cons_inv_1 in H.
Qed.

(** The first position where [t] occurs in [s], an empty [t] occurring in no empty [s]. *)
Fixpoint first_at (i : Z) (s t : list Z) : option Z :=
  match s with
  | [] => None
  | _ :: s' => if bool_decide (t `prefix_of` s) then Some i else first_at (i + 1) s' t
  end.

Lemma find_substr_first i s t r q : text s -> text t ->
  find_substr i (s ++ 0 :: r) (t ++ 0 :: q) = Done (first_at i s t).
Proof.
  intros Hs Ht. revert i. induction Hs as [|a s Ha Hs IH]; intros i; [done|].
  pose proof (matches_prefix (a :: s) t r q ltac:(by constructor) Ht) as Hm.
  apply nonzero_spec in Ha. cbn [app find_substr first_at] in *. destruct (Z.eqb_spec a 0); [done|].
  rewrite Hm. cbn [mbind outcome_bind]. destruct (bool_decide _); [done|apply IH].
Qed.

Lemma first_at_spec i s t :
  match first_at i s t with
  | Some k => exists j, k = i + Z.of_nat j /\ (j < length s)%nat /\ t `prefix_of` drop j s /\
                forall j', (j' < j)%nat -> ~ t `prefix_of` drop j' s
  | None => forall j, (j < length s)%nat -> ~ t `prefix_of` drop j s
  end.
Proof.
  revert i. induction s as [|a s IH]; intros i; cbn [first_at]; [intros j Hj; cbn in Hj; lia|].
  destruct (bool_decide_reflect (t `prefix_of` a :: s)) as [H|H].
  - exists 0%nat. split_and!; [lia|cbn; lia|done|lia].
  - specialize (IH (i + 1)). destruct (first_at (i + 1) s t) as [k|].
    + destruct IH as (j & -> & Hj & Hp & Hb). exists (S j). split_and!; [lia|cbn; lia|done|].
      intros [|j'] Hj'; [done|]. apply Hb. lia.
    + intros [|j] Hj; [done|]. apply IH. cbn in Hj. lia.
Qed.

(** A line that is typed is stored when it fits the array. *)
Lemma scan_line_ok w n l rest : l <> [] -> Forall (fun b => not_newline b = true) l ->
  (length l <= w)%nat -> (length l < n)%nat ->
  ends (scan_line w (replicate n 0)) (l ++ newline :: rest) (inl (Some (l ++ 0 :: replicate (n - length l - 1) 0)))
    (newline :: rest) [].
Proof.
  intros Hne Hl Hw Hn. unfold ends, scan_line.
  rewrite span_forall by (done || (right; by exists newline)). cbn [fst]. rewrite take_ge by done.
  destruct l as [|b l]; [done|]. rewrite put_at_ok by (lia || rewrite length_app, length_replicate; cbn [length] in *; lia). cbn [mbind outcome_bind].
  rewrite drop_app_length, drop_replicate.
  replace (n - (Z.to_nat 0 + length ((b :: l) ++ [0%Z])))%nat with (n - length (b :: l) - 1)%nat
    by (rewrite length_app; cbn [length]; lia).
  change (Z.to_nat 0) with 0%nat. cbn [take]. by rewrite <- (app_assoc (b :: l)).
Qed.

Lemma scan_line_overflow w n l rest : l <> [] -> Forall (fun b => not_newline b = true) l ->
  (0 < n <= length l)%nat -> (n <= w)%nat ->
  scan_line w (replicate n 0) (l ++ newline :: rest) = Undef OutOfBounds.
Proof.
  intros Hne Hl Hn Hw. unfold scan_line.
  rewrite span_forall by (done || (right; by exists newline)). cbn [fst].
  destruct (take w l) as [|b l'] eqn:E.
  - destruct l; [done|]. destruct w; [lia|done].
  - rewrite <- E. unfold put_at. assert (n < length (take w l ++ [0%Z]))%nat by (rewrite length_app, length_take; cbn [length]; lia).
    rewrite length_replicate. replace (0 + Z.of_nat (length (take w l ++ [0])) <=? Z.of_nat n) with false by lia. by rewrite andb_false_r.
Qed.

Definition typeable (b : Z) : bool := nonzero b && not_newline b.

Lemma typeable_text l : Forall (fun b => typeable b = true) l -> text l /\ Forall (fun b => not_newline b = true) l.
Proof. intros H. split; (eapply Forall_impl; [exact H|]); cbn; intros b Hb; by apply andb_true_iff in Hb as [??]. Qed.

(** The search of a substring: on two lines of at most 79 characters the program shows
    the first position at which the second occurs in the first, or that it does not occur;
    but the width in the format is that of a longer array, and a first line of 80 characters
    or more is stored past the end of the array. *)
Theorem substring_session s t : s <> [] -> t <> [] ->
  Forall (fun b => typeable b = true) s -> Forall (fun b => typeable b = true) t ->
  let r := hw3_4_main (s ++ newline :: t ++ [newline]) in
  let asked := [("Введите первоначальную строку: "%string, []); ("Введите искомую подстроку: "%string, [])] in
  (80 <= length s -> r = Undef OutOfBounds)%nat /\
  ((length s <= 79)%nat -> (length t <= 79)%nat ->
    (exists j : nat, (j < length s)%nat /\ t `prefix_of` drop j s /\ (forall i, (i < j)%nat -> ~ t `prefix_of` drop i s) /\
       r = Done (inl 0, [], asked ++ [("Позиция: %ld\n"%string, [print_d (Z.of_nat j)])])) \/
    ((forall j, (j < length s)%nat -> ~ t `prefix_of` drop j s) /\
       r = Done (inl 0, [], asked ++ [("Не найдено\n"%string, [])]))).
Proof.
  intros Hs Ht [Ts Ls]%typeable_text [Tt Lt]%typeable_text r asked. split.
  - intros Hl. unfold r, hw3_4_main. rewrite (bind_step (printf _ _) _ _ tt _ [_]) by done.
    unfold mbind at 1, console_bind at 1. rewrite scan_line_overflow by (done || lia). done.
  - intros Hl1 Hl2. pose proof (first_at_spec 0 s t) as Hf.
    assert (Hr : r = match first_at 0 s t with
                     | Some i => Done (inl 0, [], asked ++ [("Позиция: %ld\n"%string, [print_d i])])
                     | None => Done (inl 0, [], asked ++ [("Не найдено\n"%string, [])])
                     end).
    { unfold r, hw3_4_main, asked. rewrite (bind_step (printf _ _) _ _ tt _ [_]) by done.
      rewrite (bind_step _ _ _ _ _ _ (scan_line_ok 99 80 s _ Hs Ls ltac:(lia) ltac:(lia))).
      rewrite (bind_step get_char _ _ tt (t ++ [newline]) []) by done.
      rewrite (bind_step (printf _ _) _ _ tt _ [_]) by done.
      rewrite (bind_step _ _ _ _ _ _ (scan_line_ok 99 80 t [] Ht Lt ltac:(lia) ltac:(lia))).
      rewrite (bind_step get_char _ _ tt [] []) by done.
      cbn [of_option]. rewrite !(bind_step (lift (Done _)) _ _ _ _ []) by done.
      rewrite (bind_step _ _ _ _ [] []) by (unfold lift; by rewrite find_substr_first).
      by destruct (first_at 0 s t). }
    destruct (first_at 0 s t) as [k|].
    + destruct Hf as (j & -> & Hj & Hp & Hb). left. by exists j.
    + right. done.
Qed.

Lemma substring_session_witness :
  hw3_4_main (str "abcabd" ++ newline :: str "abd" ++ [newline]) =
    Done (inl 0, [], [("Введите первоначальную строку: "%string, []); ("Введите искомую подстроку: "%string, []);
                      ("Позиция: %ld\n"%string, [str "3"])]) /\
  hw3_4_main (replicate 80 97 ++ newline :: str "b" ++ [newline]) = Undef OutOfBounds.
Proof.
  assert (Hd : forall l, forallb typeable l = true -> Forall (fun b => typeable b = true) l)
    by (intros l H; apply Forall_forall; intros x Hx; by apply (proj1 (forallb_forall _ _) H), list_elem_of_In).
  split.
  - destruct (substring_session (str "abcabd") (str "abd")) as [_ [(j & Hj & Hp & Hb & ->)|(Hn & _)]]; [done|done|by apply Hd..|cbn; lia|cbn; lia| |].
    + destruct j as [|[|[|[|[|[|j]]]]]]; try (exfalso; revert Hp; apply (proj1 (bool_decide_eq_false _)); by vm_compute); [done|cbn in Hj; lia].
    + exfalso. apply (Hn 3%nat); [cbn; lia|]. by exists [].
  - apply (substring_session (replicate 80 97) (str "b")); [done|done|by apply Hd..|by vm_compute; lia].
Defined.

(** * The password *)

(** [gets] has no bound: a line of 12 characters or more is stored past the end of the
    array; below that exactly the line test is accepted. *)
Lemma password_session l rest : Forall (fun b => typeable b = true) l ->
  hw5_p2_main (l ++ newline :: rest) =
    if bool_decide (length l < 12)%nat then
      if bool_decide (l = str "test") then Done (inl 0, rest, [("Enter password: "%string, []); ("Access granted!\n"%string, [])])
      else Done (inr 1, rest, [("Enter password: "%string, []); ("Bad password!\n"%string, [])])
    else Undef OutOfBounds.
Proof.
  intros [Tl Ll]%typeable_text. unfold hw5_p2_main. rewrite (bind_step (printf _ _) _ _ tt _ [_]) by done.
  assert (Hg : gets (replicate 12 0) (l ++ newline :: rest) =
    a' ← put_at (replicate 12 0) 0 (l ++ [0]); Done (inl a', rest, [])).
  { unfold gets. rewrite span_forall by (done || (right; by exists newline)). by destruct l. }
  assert (El : length (l ++ [0]) = S (length l)) by (rewrite length_app; cbn; lia).
  case_bool_decide as Hl.
  - rewrite put_at_ok in Hg by (lia || (rewrite El, length_replicate; lia)). cbn [mbind outcome_bind] in Hg.
    assert (Hp : isPassOk (l ++ newline :: rest) = Done (inl (bool_decide (l = str "test")), rest, [])).
    { unfold isPassOk. rewrite (bind_step _ _ _ _ _ _ Hg). unfold lift. change (Z.to_nat 0) with 0%nat. rewrite take_0.
      cbn [app]. rewrite <- app_assoc. cbn [app]. rewrite streq_terminated.
      - rewrite (cstr_app l) by done. by change (cstr (lit "test")) with (str "test").
      - apply elem_of_app. right. left.
      - by vm_compute; repeat constructor. }
    rewrite (bind_step _ _ _ _ _ _ Hp). by case_bool_decide.
  - unfold put_at in Hg. rewrite El, length_replicate in Hg.
    assert (E : (0 + Z.of_nat (S (length l)) <=? Z.of_nat 12) = false) by (clear Hg; apply Z.leb_gt; lia).
    rewrite E, andb_false_r in Hg.
    unfold isPassOk, mbind, console_bind. by rewrite Hg.
Qed.

(** * The file read backwards *)

Lemma backwards_rev n buffer : (n <= length buffer)%nat -> backwards n buffer = Done (rev (take n buffer)).
Proof.
  induction n as [|n IH]; intros H; [done|]. cbn [backwards]. unfold znth.
  replace (0 <=? Z.of_nat n) with true by lia. rewrite Nat2Z.id.
  destruct (lookup_lt_is_Some_2 buffer n H) as [c Hc]. rewrite Hc. cbn [of_option mbind outcome_bind].
  rewrite IH by lia. cbn [mbind outcome_bind]. by rewrite (take_S_r _ _ c), rev_app_distr by done.
Qed.

(** Whatever the files were, the text is left in its file and shown backwards. *)
Lemma output_reverses fs :
  output_main true true true fs = Done (0, <[filename := file_text]> fs, rev file_text ++ [newline]).
Proof.
  unfold output_main. cbn [negb]. rewrite alter_insert_eq, lookup_insert_eq. done.
Qed.
