(* ===== verification/CharDev.v ===== *)
(** The character device of src/hw20_modules_linux/p2/test2.c: a string of 16 bytes that
    processes read and write at the same time, under a reader-writer lock. The calls in
    progress are a step relation; [copy_to_user] and [copy_from_user] may fail, the latter
    after part of the bytes. The position given to a read is not negative; that an open
    file keeps it so is [file_session_ok]. [test_init] and [test_exit] are at the end. *)

From S2P Require Import Prelude CInt CStr.

Definition EINVAL : Z := 22.
Definition EFAULT : Z := 14.

(** [test_string] at the start: the text of line 9 fills 14 of the 16 bytes. *)
Definition test_string0 : list Z := str "Hello, World!" ++ [10; 0; 0].

(** * The two operations, cut where the lock is taken *)

(** [test_read] before the lock: how much is to be copied, or the end of the string. *)
Definition read_size (s : list Z) (off size : Z) : outcome (option Z) :=
  len ← strlen s;
  if len <=? off then Done None
  else Done (Some (if len - off <? size then len - off else size)).

(** [copy_to_user(buff, test_string + *off, size)]. *)
Definition read_copy (s : list Z) (off size : Z) : outcome (list Z) := get_at s off size.

(** [size > 15]. *)
Definition too_long (src : list Z) : bool := 15 <? Z.of_nat (length src).

(** [copy_from_user], which stores the first [k] bytes and fills up with zeros what it could
    not copy, and the NUL that follows. *)
Definition write_copy (s src : list Z) (k : nat) : outcome (list Z) :=
  put_at s 0 (take k src ++ replicate (length src - k) 0).
Definition write_end (s src : list Z) : outcome (list Z) := zset s (Z.of_nat (length src)) 0.

(** * Calls in progress *)

Inductive call :=
  | RStart (off size : Z)                       (** [test_read] is entered *)
  | RLock (off size : Z)                        (** before [read_lock] *)
  | RIn (off size : Z)                          (** it holds the lock for reading *)
  | RDone (ret : Z) (data : list Z) (off : Z)
  | WStart (src : list Z)                       (** [test_write] is entered *)
  | WLock (src : list Z)
  | WIn (src : list Z)                          (** it holds the lock for writing *)
  | WCopied (src : list Z)                      (** all bytes are copied *)
  | WDone (ret : Z).

Record device := Device { test_string : list Z; calls : list call }.

(** The calls inside a section of the lock. *)
Definition reading (c : call) : bool := match c with RIn _ _ => true | _ => false end.
Definition writing (c : call) : bool := match c with WIn _ | WCopied _ => true | _ => false end.

(** One step of a call; [free] and [shared] say whether the lock can be had for writing
    and for reading. *)
Inductive call_step (free shared : bool) (s : list Z) : call -> call -> list Z -> Prop :=
  | s_end off size :
      read_size s off size = Done None -> call_step free shared s (RStart off size) (RDone 0 [] off) s
  | s_size off size n :
      read_size s off size = Done (Some n) -> call_step free shared s (RStart off size) (RLock off n) s
  | s_read_lock off n : shared = true -> call_step free shared s (RLock off n) (RIn off n) s
  | s_copied off n data :
      read_copy s off n = Done data -> call_step free shared s (RIn off n) (RDone n data (off + n)) s
  | s_read_fault off n : call_step free shared s (RIn off n) (RDone (- EFAULT) [] off) s
  | s_invalid src : too_long src = true -> call_step free shared s (WStart src) (WDone (- EINVAL)) s
  | s_valid src : too_long src = false -> call_step free shared s (WStart src) (WLock src) s
  | s_write_lock src : free = true -> call_step free shared s (WLock src) (WIn src) s
  | s_write_fault src k s' :
      (k < length src)%nat -> write_copy s src k = Done s' -> call_step free shared s (WIn src) (WDone (- EFAULT)) s'
  | s_write_copied src s' :
      write_copy s src (length src) = Done s' -> call_step free shared s (WIn src) (WCopied src) s'
  | s_written src s' :
      write_end s src = Done s' -> call_step free shared s (WCopied src) (WDone (Z.of_nat (length src))) s'.

(** A process enters a call, or a call makes a step. *)
Definition entry (c : call) : Prop :=
  match c with RStart off size => 0 <= off /\ 0 <= size | WStart _ => True | _ => False end.

Inductive step (d : device) : device -> Prop :=
  | step_enter c : entry c -> step d (Device (test_string d) (calls d ++ [c]))
  | step_call i c c' s' :
      calls d !! i = Some c ->
      call_step (negb (existsb reading (calls d)) && negb (existsb writing (calls d)))
                (negb (existsb writing (calls d))) (test_string d) c c' s' ->
      step d (Device s' (<[i := c']> (calls d))).

Definition loaded : device := Device test_string0 [].

(** * The invariant *)

(** The last byte of the string is the NUL no write can reach. *)
Definition string_ok (s : list Z) : Prop := length s = 16%nat /\ s !! 15%nat = Some 0.

Definition call_ok (c : call) : Prop :=
  match c with
  | RStart off size => 0 <= off /\ 0 <= size
  | RLock off n | RIn off n => 0 <= off /\ 0 <= n /\ off + n <= 15
  | RDone ret data off => ret = - EFAULT \/ ret = Z.of_nat (length data) /\ ret <= 15
  | WLock src | WIn src | WCopied src => (length src <= 15)%nat
  | _ => True
  end.

Record inv (d : device) : Prop := Inv {
  iv_string : string_ok (test_string d);
  iv_calls : Forall call_ok (calls d);
  iv_alone : forall i j c c', calls d !! i = Some c -> calls d !! j = Some c' ->
    writing c = true -> reading c' = true \/ writing c' = true -> i = j }.

Lemma string_terminated s : string_ok s -> terminated s /\ (length (cstr s) <= 15)%nat.
Proof.
  intros [Hl H15]. assert (Ht : terminated s) by (by eapply list_elem_of_lookup_2). split; [done|].
  apply terminated_split in Ht as [r E]. rewrite E in Hl. rewrite length_app in Hl. cbn in Hl. lia.
Qed.

Lemma string_put s src : string_ok s -> (length src <= 15)%nat ->
  exists s', put_at s 0 src = Done s' /\ string_ok s'.
Proof.
  intros [Hl H15] Hs. destruct (put_at_total s 0 src) as (s' & E & Hl'); [lia|lia|]. exists s'. split; [done|].
  split; [lia|]. rewrite <- H15. eapply lookup_put_at_out; [exact E|lia].
Qed.

Lemma write_copy_ok s src k : string_ok s -> (k <= length src <= 15)%nat ->
  exists s', write_copy s src k = Done s' /\ string_ok s'.
Proof. intros Hs Hk. apply string_put; [done|]. len. Qed.

Lemma write_copy_all s src : write_copy s src (length src) = put_at s 0 src.
Proof. unfold write_copy. by rewrite firstn_all, Nat.sub_diag, app_nil_r. Qed.

Lemma string_end s src : string_ok s -> (length src <= 15)%nat -> exists s', write_end s src = Done s' /\ string_ok s'.
Proof.
  intros [Hl H15] Hs. unfold write_end. rewrite zset_ok by lia. eexists. split; [done|]. split; [by rewrite length_insert|].
  rewrite Nat2Z.id. destruct (decide (length src = 15%nat)) as [E|E]; [by rewrite E, list_lookup_insert_eq by lia|].
  by rewrite list_lookup_insert_ne.
Qed.

Lemma read_size_ok s off size : string_ok s -> 0 <= off -> 0 <= size ->
  exists o, read_size s off size = Done o /\
    match o with Some n => 0 <= n <= size /\ off + n <= Z.of_nat (length (cstr s)) | None => True end.
Proof.
  intros Hs Ho Hz. destruct (string_terminated s Hs) as [Ht Hl]. unfold read_size. rewrite strlen_terminated by done.
  cbn [mbind outcome_bind]. destruct (Z.leb_spec (Z.of_nat (length (cstr s))) off); [by exists None|].
  eexists. split; [done|]. cbn. destruct (Z.ltb_spec (Z.of_nat (length (cstr s)) - off) size); lia.
Qed.

Lemma call_step_ok f sh s c c' s' : string_ok s -> call_ok c -> call_step f sh s c c' s' ->
  string_ok s' /\ call_ok c' /\
  (writing c' = true -> writing c = true \/ f = true) /\
  (reading c' = true -> sh = true \/ reading c = true).
Proof.
  intros Hs Hc Hstep. revert Hs Hc.
  destruct Hstep as [off size E|off size n E|off n E|off n data E|off n|src E|src E|src E|src k s2 Hk E|src s2 E|src s2 E];
    intros Hs Hc; cbn [call_ok writing reading] in Hc |- *.
  - split_and!; [done|right; cbn; lia|done|done].
  - destruct (read_size_ok s off size Hs) as (o & Eo & Ho); [lia..|]. rewrite E in Eo. injection Eo as <-. cbn in Ho.
    destruct (string_terminated s Hs) as [_ Hl]. split_and!; [done|lia|lia|lia|done|done].
  - split_and!; [done|lia|lia|lia|done|by left].
  - unfold read_copy in E. split_and!; [done| |done|done]. right. apply get_at_length in E. lia.
  - split_and!; [done|by left|done|done].
  - by split_and!.
  - unfold too_long in E. apply Z.ltb_ge in E. split_and!; [done|lia|done|done].
  - split_and!; [done|done|by right|done].
  - destruct (write_copy_ok s src k Hs) as (s3 & E3 & H3); [lia|].
    rewrite E in E3. injection E3 as <-. by split_and!.
  - destruct (write_copy_ok s src (length src) Hs) as (s3 & E3 & H3); [lia|].
    rewrite E in E3. injection E3 as <-. split_and!; [done|done|by left|done].
  - destruct (string_end s src Hs Hc) as (s3 & E3 & H3). rewrite E in E3. injection E3 as <-. by split_and!.
Qed.

Lemma existsb_false {A} (p : A -> bool) l i x : existsb p l = false -> l !! i = Some x -> p x = false.
Proof.
  intros H Hi. destruct (p x) eqn:E; [|done]. rewrite <- H. symmetry. apply existsb_exists.
  exists x. split; [|done]. apply list_elem_of_In. by eapply list_elem_of_lookup_2.
Qed.

Lemma inv_device_step d d' : inv d -> step d d' -> inv d'.
Proof.
  intros [Hs Hc Ha] [c He|i c c' s' Hi Hstep].
  - split; cbn; [done| |].
    + apply Forall_app. split; [done|]. constructor; [|constructor]. by destruct c.
    + assert (Hno : writing c = false /\ reading c = false) by (by destruct c). destruct Hno as [Hw Hr].
      intros a b x y Hx Hy. rewrite lookup_snoc_Some in Hx, Hy.
      destruct Hx as [[_ Hx]|[-> <-]]; [|congruence]. destruct Hy as [[_ Hy]|[-> <-]]; [|intros _ [?|?]; congruence].
      by apply Ha.
  - pose proof (Forall_lookup_1 _ _ _ _ Hc Hi) as Hci.
    destruct (call_step_ok _ _ _ _ _ _ Hs Hci Hstep) as (Hs' & Hc' & Hw & Hr). split; cbn; [done|by apply Forall_insert|].
    intros a b x y Hx Hy Hwx Hy'. apply list_lookup_insert_Some in Hx, Hy.
    destruct Hx as [(<- & <- & _)|[Hna Hx]], Hy as [(<- & <- & _)|[Hnb Hy]]; [done| | |by eapply Ha].
    + destruct (Hw Hwx) as [Hwc|Hf]; [by eapply Ha|].
      apply andb_true_iff in Hf as [Hf1 Hf2]. apply negb_true_iff in Hf1, Hf2.
      apply (existsb_false _ _ _ _ Hf1) in Hy as H1. apply (existsb_false _ _ _ _ Hf2) in Hy as H2. destruct Hy'; congruence.
    + destruct Hy' as [Hry|Hwy].
      * destruct (Hr Hry) as [Hf|Hrc]; [|eapply Ha; eauto].
        apply negb_true_iff in Hf. apply (existsb_false _ _ _ _ Hf) in Hx. congruence.
      * destruct (Hw Hwy) as [Hwc|Hf]; [eapply Ha; eauto|].
        apply andb_true_iff in Hf as [_ Hf]. apply negb_true_iff in Hf. apply (existsb_false _ _ _ _ Hf) in Hx. congruence.
Qed.

Lemma device_reachable d : rtc step loaded d -> inv d.
Proof.
  intros H. assert (Hi : inv loaded) by (split; cbn; [done|constructor|intros i j c c' Hc; by rewrite lookup_nil in Hc]).
  induction H; [done|]. apply IHrtc. by eapply inv_device_step.
Qed.

(** * Safety *)

(** What a call is about to do with the string has a meaning. *)
Definition access_ok (s : list Z) (c : call) : Prop :=
  match c with
  | RStart off size => defined (read_size s off size)
  | RIn off n => defined (read_copy s off n)
  | WIn src => forall k, (k <= length src)%nat -> defined (write_copy s src k)
  | WCopied src => defined (write_end s src)
  | _ => True
  end.

Definition finished (c : call) : bool := match c with RDone _ _ _ | WDone _ => true | _ => false end.

Lemma call_access_ok s c : string_ok s -> call_ok c -> access_ok s c.
Proof.
  intros Hs Hc. pose proof Hs as [Hl _]. destruct c as [off size| |off n| |src| |src|src|]; cbn [access_ok call_ok] in *; try done.
  - destruct (read_size_ok s off size Hs) as (o & E & _); [lia|lia|]. by exists o.
  - destruct (get_at_total s off n) as (r & E & _); [lia..|]. by exists r.
  - intros k Hk. destruct (write_copy_ok s src k Hs) as (s' & E & _); [lia|]. by exists s'.
  - destruct (string_end s src Hs Hc) as (s' & E & _). by exists s'.
Qed.

Lemma device_progress d i c : inv d -> calls d !! i = Some c -> finished c = false ->
  exists j cj cj' s', calls d !! j = Some cj /\
    call_step (negb (existsb reading (calls d)) && negb (existsb writing (calls d)))
      (negb (existsb writing (calls d))) (test_string d) cj cj' s'.
Proof.
  intros [Hs Hc _] Hi Hf. set (free := _ && _). set (shared := negb _).
  assert (Hin : forall j cj, calls d !! j = Some cj -> reading cj = true \/ writing cj = true ->
    exists cj' s', call_step free shared (test_string d) cj cj' s').
  { intros j cj Hj Hm. pose proof (call_access_ok _ _ Hs (Forall_lookup_1 _ _ _ _ Hc Hj)) as Ha.
    destruct cj as [| |off n| | | |src|src|]; cbn in Hm, Ha; try (by destruct Hm).
    - eexists _, _. apply s_read_fault.
    - destruct (Ha (length src)) as [s' E]; [done|]. eexists _, _. by apply s_write_copied.
    - destruct Ha as [s' E]. eexists _, _. by apply s_written. }
  destruct (existsb (fun c => reading c || writing c) (calls d)) eqn:Eb.
  - apply existsb_exists in Eb as (cj & Hj & Hm). apply list_elem_of_In, list_elem_of_lookup in Hj as [j Hj].
    apply orb_true_iff in Hm. destruct (Hin j cj Hj Hm) as (cj' & s' & Hstep). by exists j, cj, cj', s'.
  - assert (Hno : existsb reading (calls d) = false /\ existsb writing (calls d) = false).
    { split; apply not_true_is_false; intros (x & Hx & Hr)%existsb_exists; apply not_true_iff_false in Eb; apply Eb, existsb_exists;
        exists x; by rewrite Hr, ?orb_true_r. }
    assert (free = true /\ shared = true) as [Ef Es] by (subst free shared; by destruct Hno as [-> ->]).
    pose proof (call_access_ok _ _ Hs (Forall_lookup_1 _ _ _ _ Hc Hi)) as Ha.
    exists i, c. destruct c as [off size|off n|off n| |src|src|src|src|]; cbn in Ha, Hf; try done.
    + destruct Ha as [[n|] E]; eexists _, _; (split; [done|]); by constructor.
    + eexists _, _. split; [done|]. by constructor.
    + eexists _, _. split; [done|]. apply s_read_fault.
    + destruct (too_long src) eqn:E; eexists _, _; (split; [done|]); by constructor.
    + eexists _, _. split; [done|]. by constructor.
    + destruct (Ha (length src)) as [s' E]; [done|]. eexists _, _. split; [done|]. by apply s_write_copied.
    + destruct Ha as [s' E]. eexists _, _. split; [done|]. by apply s_written.
Qed.

(** C33 However reads and writes are interleaved, and wherever a copy fails, the string
    keeps its 16 bytes and its last NUL, every access of every call is inside it, a writer
    in its section is alone, a read delivers at most 15 bytes, and the calls never block
    one another for good. *)
Theorem device_safe d :
  rtc step loaded d ->
  string_ok (test_string d) /\
  (forall i c, calls d !! i = Some c -> access_ok (test_string d) c) /\
  (forall i j c c', calls d !! i = Some c -> calls d !! j = Some c' ->
     writing c = true -> reading c' = true \/ writing c' = true -> i = j) /\
  (forall i ret data off, calls d !! i = Some (RDone ret data off) ->
     ret = - EFAULT \/ ret = Z.of_nat (length data) /\ ret <= 15) /\
  (forall i c, calls d !! i = Some c -> finished c = false -> exists d', step d d' /\ length (calls d') = length (calls d)).
Proof.
  intros H%device_reachable. pose proof H as [Hs Hc Ha]. split_and!; try done.
  - intros i c Hi. apply call_access_ok; [done|]. by eapply Forall_lookup_1.
  - intros i ret data off Hi. exact (Forall_lookup_1 _ _ _ _ Hc Hi).
  - intros i c Hi Hf. destruct (device_progress d i c H Hi Hf) as (j & cj & cj' & s' & Hj & Hstep).
    eexists. split; [by eapply step_call|]. cbn. apply length_insert.
Qed.

(** * Calls one after the other *)

Definition test_write (s src : list Z) : outcome (Z * list Z) :=
  if too_long src then Done (- EINVAL, s)
  else s ← write_copy s src (length src); s ← write_end s src; Done (Z.of_nat (length src), s).

Definition test_read (s : list Z) (off size : Z) : outcome (Z * list Z * Z) :=
  o ← read_size s off size;
  match o with
  | None => Done (0, [], off)
  | Some n => data ← read_copy s off n; Done (n, data, off + n)
  end.

(** What a write of at most 15 bytes stores, a read from the start delivers, with the
    end of the string after it; a longer write is refused and changes nothing. *)
Theorem device_roundtrip s src size :
  string_ok s -> text src -> Z.of_nat (length src) <= size ->
  if too_long src then test_write s src = Done (- EINVAL, s)
  else exists s', test_write s src = Done (Z.of_nat (length src), s') /\ string_ok s' /\
    test_read s' (Z.of_nat (length src)) size = Done (0, [], Z.of_nat (length src)) /\
    (src <> [] -> test_read s' 0 size = Done (Z.of_nat (length src), src, Z.of_nat (length src))).
Proof.
  intros Hs Ht Hz. pose proof Hs as [Hl _]. unfold test_write. destruct (too_long src) eqn:E; [done|].
  unfold too_long in E. apply Z.ltb_ge in E. rewrite write_copy_all.
  destruct (string_put s src Hs) as (s1 & E1 & Hs1); [lia|]. rewrite E1. cbn [mbind outcome_bind].
  destruct (string_end s1 src Hs1) as (s2 & E2 & Hs2); [lia|]. rewrite E2. cbn [mbind outcome_bind].
  exists s2. split_and!; [done|done|..].
  all: assert (Hcut : exists r, s2 = src ++ 0 :: r).
  1, 3: unfold write_end in E2; apply zset_Done in E2 as [_ ->]; apply put_at_Done in E1 as (_ & _ & ->);
    change (Z.to_nat 0) with 0%nat; rewrite take_0, app_nil_l, Nat2Z.id, insert_app_r_alt, Nat.sub_diag by lia;
    (destruct (drop _ s) as [|x r] eqn:Ed; [apply (f_equal length) in Ed; rewrite length_drop in Ed; cbn in Ed; lia|]); by exists r.
  all: destruct Hcut as [r Hr]; unfold test_read, read_size; rewrite Hr, strlen_app by done; cbn [mbind outcome_bind].
  - by rewrite Z.leb_refl.
  - intros Hne. destruct src as [|b src]; [done|]. set (l := b :: src) in *.
    assert (0 < Z.of_nat (length l)) by (subst l; cbn; lia).
    destruct (Z.leb_spec (Z.of_nat (length l)) 0); [lia|]. cbn [mbind outcome_bind].
    rewrite Z.sub_0_r. replace (if Z.of_nat (length l) <? size then Z.of_nat (length l) else size) with (Z.of_nat (length l))
      by (destruct (Z.ltb_spec (Z.of_nat (length l)) size); lia).
    unfold read_copy, get_at. rewrite length_app. zbool; cbn [andb]; try lia. cbn [mbind outcome_bind].
    change (Z.to_nat 0) with 0%nat. rewrite drop_0, Nat2Z.id, take_app_length. done.
Qed.

(** * An open file *)

(** [fixed_size_llseek] of the kernel: from the position, the offset and [whence] to its
    result and the new position. *)
Section file.
Context (fixed_size_llseek : Z -> Z -> Z -> Z -> Z * Z).
Hypothesis llseek_fixed : forall pos off whence size, 0 <= pos <= size ->
  let '(r, pos') := fixed_size_llseek pos off whence size in r < 0 /\ pos' = pos \/ 0 <= r <= size /\ pos' = r.

Definition test_llseek (pos off whence : Z) : Z * Z := fixed_size_llseek pos off whence 15.
Definition test_open : Z := 0.

(** The entries of [fops] that a process uses, its position passed to [test_read]. *)
Inductive file_op := Seek (off whence : Z) | Read (size : Z) | Write (src : list Z).

Definition fops (s : list Z) (pos : Z) (op : file_op) : outcome (Z * list Z * (list Z * Z)) :=
  match op with
  | Seek off whence => let '(r, pos') := test_llseek pos off whence in Done (r, [], (s, pos'))
  | Read size => '(r, data, pos') ← test_read s pos size; Done (r, data, (s, pos'))
  | Write src => '(r, s') ← test_write s src; Done (r, [], (s', pos))
  end.

Fixpoint file_session (s : list Z) (pos : Z) (ops : list file_op) : outcome (list (Z * list Z) * (list Z * Z)) :=
  match ops with
  | [] => Done ([], (s, pos))
  | op :: ops' =>
      '(r, data, (s, pos)) ← fops s pos op;
      '(rs, end_) ← file_session s pos ops';
      Done ((r, data) :: rs, end_)
  end.

Definition op_ok (op : file_op) : Prop := match op with Read size => 0 <= size | _ => True end.

Lemma fops_ok s pos op : string_ok s -> 0 <= pos <= 15 -> op_ok op ->
  exists r data s' pos', fops s pos op = Done (r, data, (s', pos')) /\ string_ok s' /\ 0 <= pos' <= 15 /\
    Z.of_nat (length data) <= 15.
Proof.
  intros Hs Hp Ho. pose proof Hs as [Hl _]. destruct op as [off whence|size|src]; cbn [fops op_ok] in *.
  - unfold test_llseek. pose proof (llseek_fixed pos off whence 15 Hp) as H.
    destruct (fixed_size_llseek pos off whence 15) as [r p]. eexists _, _, _, _. split; [done|]. split_and!; try done; lia.
  - unfold test_read. destruct (read_size_ok s pos size Hs) as (o & -> & Hn); [lia|done|]. cbn [mbind outcome_bind].
    destruct (string_terminated s Hs) as [_ Hc].
    destruct o as [n|]; [|eexists _, _, _, _; split; [done|]; cbn; split_and!; done || lia].
    unfold read_copy. destruct (get_at_total s pos n) as (data & E & Hd); [lia..|]. rewrite E. cbn [mbind outcome_bind].
    eexists _, _, _, _. split; [done|]. split; [exact Hs|lia].
  - unfold test_write. destruct (too_long src) eqn:E; [eexists _, _, _, _; split; [done|]; cbn; split_and!; done || lia|].
    unfold too_long in E. apply Z.ltb_ge in E. rewrite write_copy_all.
    destruct (string_put s src Hs) as (s1 & -> & Hs1); [lia|]. cbn [mbind outcome_bind].
    destruct (string_end s1 src Hs1) as (s2 & -> & Hs2); [lia|]. cbn [mbind outcome_bind].
    eexists _, _, _, _. split; [done|]. cbn. split_and!; done || lia.
Qed.

(** Every session with a file has a defined end: the position never leaves 0 to 15, which
    is what a read relies on, and no read delivers more than 15 bytes. *)
Lemma file_session_ok ops s pos : string_ok s -> 0 <= pos <= 15 -> Forall op_ok ops ->
  exists rs s' pos', file_session s pos ops = Done (rs, (s', pos')) /\ length rs = length ops /\
    string_ok s' /\ 0 <= pos' <= 15 /\ Forall (fun x => Z.of_nat (length x.2) <= 15) rs.
Proof using llseek_fixed.
  intros Hs Hp Ho. revert s pos Hs Hp. induction Ho as [|op ops Ho Hos IH]; intros s pos Hs Hp; cbn [file_session].
  - eexists _, _, _. split; [done|]. split; [done|]. split; [done|]. by split.
  - destruct (fops_ok s pos op Hs Hp Ho) as (r & data & s1 & p1 & -> & Hs1 & Hp1 & Hd). cbn [mbind outcome_bind].
    destruct (IH s1 p1 Hs1 Hp1) as (rs & s2 & p2 & -> & Hl & Hs2 & Hp2 & Hf). cbn [mbind outcome_bind].
    eexists _, _, _. split; [done|]. split; [cbn; lia|]. split; [done|]. split; [lia|by constructor].
Qed.
End file.

(** * Loading and unloading *)

(** The global [major], and the numbers registered with the kernel. *)
Record module_state := Module_ { major : Z; registered : list (Z * string) }.

(** [reply] is what [register_chrdev] answers: a free number, or a negative error. *)
Definition test_init (reply : Z) (st : module_state) : Z * module_state :=
  let st := Module_ reply (if reply <? 0 then registered st else (reply, "test2"%string) :: registered st) in
  if major st <? 0 then (major st, st) else (0, st).

Definition test_exit (st : module_state) : module_state :=
  Module_ (major st) (filter (fun x => x <> (major st, "test2"%string)) (registered st)).

(** The kernel calls [test_exit] only after a [test_init] that returned 0: then the module
    leaves nothing behind, and a load that fails has registered nothing. *)
Lemma module_unloads reply st ret st' :
  (reply, "test2"%string) ∉ registered st -> test_init reply st = (ret, st') ->
  if ret =? 0 then registered (test_exit st') = registered st else ret < 0 /\ registered st' = registered st.
Proof.
  unfold test_init. intros Hf H. cbn [major] in H. destruct (Z.ltb_spec reply 0) as [Hr|Hr]; injection H as <- <-.
  - destruct (Z.eqb_spec reply 0); [lia|]. by split; [lia|].
  - cbn [Z.eqb test_exit major registered]. rewrite filter_cons_False by naive_solver.
    induction (registered st) as [|x l IH]; [done|]. apply not_elem_of_cons in Hf as [Hx Hf].
    rewrite filter_cons_True by (intros ->; done). by rewrite IH.
Qed.

(** * Runs *)

Definition s_world : list Z := str "Hello, World!" ++ [10].

(** A reader has measured the string and waits for the lock; a writer shortens the string
    first; the reader then delivers bytes of both. *)
Lemma stale_length :
  rtc step loaded (Device (str "Hi" ++ 0 :: drop 3 test_string0)
    [RDone 14 (str "Hi" ++ 0 :: drop 3 s_world) 14; WDone 2]).
Proof.
  eapply rtc_l; [apply (step_enter _ (RStart 0 20)); cbn; lia|].
  eapply rtc_l; [by eapply (step_call _ 0), (s_size _ _ _ _ _ 14)|].
  eapply rtc_l; [apply (step_enter _ (WStart (str "Hi"))); done|].
  eapply rtc_l; [by eapply (step_call _ 1), s_valid|].
  eapply rtc_l; [by eapply (step_call _ 1), s_write_lock|].
  eapply rtc_l; [by eapply (step_call _ 1), s_write_copied|].
  eapply rtc_l; [by eapply (step_call _ 1), s_written|].
  eapply rtc_l; [by eapply (step_call _ 0), s_read_lock|].
  eapply rtc_l; [by eapply (step_call _ 0), s_copied|].
  apply rtc_refl.
Qed.

Lemma device_safe_witness :
  access_ok (str "Hi" ++ 0 :: drop 3 test_string0) (WDone 2) /\ string_ok (str "Hi" ++ 0 :: drop 3 test_string0).
Proof.
  destruct (device_safe _ stale_length) as (Hs & Ha & _). split; [|exact Hs]. by apply (Ha 1%nat).
Defined.

Lemma device_roundtrip_witness :
  exists s', test_write test_string0 (str "Hi") = Done (2, s') /\ test_read s' 0 64 = Done (2, str "Hi", 2).
Proof.
  assert (Ht : text (str "Hi")) by (apply (bool_decide_unpack _); by vm_compute).
  destruct (device_roundtrip test_string0 (str "Hi") 64 ltac:(done) Ht ltac:(done)) as (s' & Hw & _ & _ & Hr).
  exists s'. split; [exact Hw|by apply Hr].
Defined.

(** A positioning function as the kernel documents it. *)
Definition demo_llseek (pos off whence size : Z) : Z * Z :=
  let n := if whence =? 0 then off else if whence =? 1 then pos + off else size + off in
  if (n <? 0) || (size <? n) then (- EINVAL, pos) else (n, n).

Lemma demo_llseek_fixed pos off whence size : 0 <= pos <= size ->
  let '(r, pos') := demo_llseek pos off whence size in r < 0 /\ pos' = pos \/ 0 <= r <= size /\ pos' = r.
Proof. intros H. unfold demo_llseek, EINVAL. destruct (whence =? 0), (whence =? 1); zbool; cbn; lia. Qed.

Lemma demo_file_session :
  file_session demo_llseek test_string0 0 [Write (str "Hi"); Read 1; Read 20; Read 20; Seek 16 0; Seek 0 0; Read 20]
    = Done ([(2, []); (1, str "H"); (1, str "i"); (0, []); (-22, []); (0, []); (2, str "Hi")],
            (str "Hi" ++ 0 :: drop 3 test_string0, 2)).
Proof. by vm_compute. Qed.

Lemma demo_file_bounds size : 0 <= size -> exists rs s' pos',
  file_session demo_llseek test_string0 0 [Read size; Seek 0 2; Read size] = Done (rs, (s', pos')) /\ 0 <= pos' <= 15.
Proof.
  intros Hs. destruct (file_session_ok demo_llseek demo_llseek_fixed [Read size; Seek 0 2; Read size] test_string0 0)
    as (rs & s' & pos' & E & _ & _ & Hp & _); [done|lia|by repeat constructor|]. by exists rs, s', pos'.
Qed.
