(* ===== verification/Endpoint.v ===== *)
(** What the small clients and servers of hw12 to hw16 have in common: a failing call is
    reported, what is open is closed and the program exits with status 1; a message is
    received into a local array, ended with a NUL byte and printed.

    [courier] watches what such a program says: it may only send what [says] allows after
    the message received last, and only print that message up to its first NUL, or a text
    of [notes]; both may depend on that message. It knows no descriptors; [exec_transfer]
    gives a run under one monitor as a run under another, so that a program is proved
    against [kernel] and [courier] apart. *)

From S2P Require Import Prelude CInt CStr Stdio Sys.

(** [perror], [close] for each descriptor, [exit(EXIT_FAILURE)]. *)
Definition die {A} (what : string) (open : list Z) : prog A :=
  sys_ (c_perror what);; foreach open (fun fd _ => sys_ (c_close fd)) tt;; exit 1.

(** [buffer[n] = 0] after [n] bytes were stored at the start of it. *)
Definition fill (buffer data : list Z) (n : Z) : outcome (list Z) :=
  b ← put_at buffer 0 data; zset b n 0.

(** The same, then [printf(fmt, buffer)]. *)
Definition received (fmt : string) (buffer data : list Z) (n : Z) : prog (list Z) :=
  b ← of_outcome (fill buffer data n);
  s ← of_outcome (chars b);
  sys_ (c_print fmt [s]);;
  Ret b.

(** What follows a NUL byte is not part of the string. *)
Lemma cstr_ended d r : cstr (d ++ 0 :: r) = cstr d.
Proof.
  unfold cstr. induction d as [|b d IH]; [done|]. cbn. destruct (nonzero b); [|done].
  destruct (span nonzero (d ++ 0 :: r)) eqn:E1, (span nonzero d) eqn:E2. cbn in *. by rewrite IH.
Qed.

Lemma fill_ok buffer data n :
  Z.of_nat (length data) = n -> n < Z.of_nat (length buffer) ->
  exists b, fill buffer data n = Done b /\ length b = length buffer /\ terminated b /\ cstr b = cstr data.
Proof.
  intros Hd Hn. unfold fill. rewrite put_at_ok by lia. obind. change (Z.to_nat 0) with 0%nat.
  rewrite take_0, app_nil_l, zset_ok by len. eexists. split; [done|].
  rewrite insert_app_r_alt by lia. replace (Z.to_nat n - length data)%nat with 0%nat by lia.
  destruct (drop _ buffer) as [|x r] eqn:Ed.
  { apply (f_equal length) in Ed. rewrite length_drop in Ed. cbn in Ed. lia. }
  cbn. split_and!.
  - apply (f_equal length) in Ed. rewrite length_drop in Ed. rewrite length_app. cbn in *. lia.
  - apply elem_of_app. right. left.
  - apply cstr_ended.
Qed.

(** A message as long as the array leaves no room for the NUL byte. *)
Lemma fill_full buffer data n :
  Z.of_nat (length data) = n -> n = Z.of_nat (length buffer) -> fill buffer data n = Undef OutOfBounds.
Proof. intros Hd Hn. unfold fill. rewrite put_at_ok by lia. obind. apply zset_oob. len. Qed.

(** ** Rules *)

Lemma wp_die {A B W} (M : monitor W) what open (f : A -> prog B) w Q :
  wp M (die what open : prog B) w Q -> wp M (prog_bind (die what open) f) w Q.
Proof.
  intros H. apply wp_bind. unfold die in *. cbn in *. destruct H as [Hp H]. split; [done|]. intros r Hr.
  specialize (H r Hr). revert H. generalize (post M w (c_perror what) r). clear.
  induction open as [|fd l IH]; intros w; cbn; [done|]. intros [Hp H]. split; [done|]. intros r Hr. by apply IH, H.
Qed.

(** Under the monitor of descriptors. *)
Lemma wp_die_kernel {A} what open w (Q : result A -> world -> Prop) :
  NoDup open -> Forall (fun fd => fd ∈ fds w) open ->
  Q (Halted (Exited 1)) (World (fds w ∖ list_to_set open) (names w)) -> wp kernel (die what open) w Q.
Proof.
  intros Hnd Hin HQ. unfold die. prog_simp. wp_call. clear r Hr. revert w Hin HQ.
  induction Hnd as [|fd l Hfd Hnd IH]; intros w Hin HQ; cbn.
  - replace (World _ _) with w in HQ; [done|]. destruct w. cbn. f_equal. set_solver.
  - apply Forall_cons in Hin as [Hfd' Hin]. prog_simp. eapply wp_close; try reflexivity; [done|]. intros _.
    apply IH.
    + rewrite Forall_forall in Hin |- *. cbn. intros x Hx. specialize (Hin x Hx). set_solver.
    + cbn. by replace (fds w ∖ {[fd]} ∖ list_to_set l) with (fds w ∖ list_to_set (fd :: l)) by set_solver.
Qed.

(** A received message, printed up to its first NUL. *)
Lemma wp_received {B W} (M : monitor W) fmt buffer data n (f : list Z -> prog B) w Q :
  Z.of_nat (length data) = n -> n < Z.of_nat (length buffer) ->
  pre M w (c_print fmt [cstr data]) ->
  (forall r b, rep M w (c_print fmt [cstr data]) r -> length b = length buffer -> terminated b -> cstr b = cstr data ->
     wp M (f b) (post M w (c_print fmt [cstr data]) r) Q) ->
  wp M (prog_bind (received fmt buffer data n) f) w Q.
Proof.
  intros Hd Hn Hp H. unfold received. destruct (fill_ok buffer data n Hd Hn) as (b & E & Hl & Ht & Hc).
  rewrite E. cbn [of_outcome mbind prog_mbind prog_bind]. rewrite chars_terminated by done. rewrite Hc. split; [done|].
  intros r Hr. by apply H.
Qed.

(** Where the message may fill the array. *)
Lemma wp_received_or {B W} (M : monitor W) fmt buffer data n (f : list Z -> prog B) w Q :
  Z.of_nat (length data) = n -> n <= Z.of_nat (length buffer) ->
  (n < Z.of_nat (length buffer) -> wp M (prog_bind (received fmt buffer data n) f) w Q) ->
  (n = Z.of_nat (length buffer) -> Q (Halted (Crashed OutOfBounds)) w) ->
  wp M (prog_bind (received fmt buffer data n) f) w Q.
Proof.
  intros Hd Hn Hok Hbad. destruct (Z.eq_dec n (Z.of_nat (length buffer))) as [E|]; [|apply Hok; lia].
  unfold received. rewrite fill_full by done. cbn. by apply Hbad.
Qed.

Lemma wp_received_kernel {B} fmt buffer data n (f : list Z -> prog B) w Q :
  Z.of_nat (length data) = n -> n < Z.of_nat (length buffer) ->
  (forall b, length b = length buffer -> terminated b -> cstr b = cstr data -> wp kernel (f b) w Q) ->
  wp kernel (prog_bind (received fmt buffer data n) f) w Q.
Proof.
  intros Hd Hn H. eapply wp_received; [done|done|constructor|]. intros r b _ Hl Ht Hc. cbn.
  rewrite (after_eq _ _ _ [] (fds w) (names w)); [rewrite world_eta; by apply H|..].
  - by apply opened_none.
  - cbn. set_solver.
  - cbn. case_match; set_solver.
Qed.

(** A program that reports a failing call and exits. *)
Ltac fds_die :=
  lazymatch goal with
  | |- wp _ (die _ _) _ _ =>
      apply wp_die_kernel;
        [repeat constructor; set_solver | repeat (constructor; [fds_in|]); constructor | cbn [fds names]]
  end.

(** The size of a reply that carries bytes. *)
Lemma reply_size w c r n : reply_ok w c r -> receives c = Some n -> r_val r <> -1 ->
  Z.of_nat (length (r_data r)) = r_val r /\ 0 <= r_val r <= n.
Proof. intros (H1 & _ & _ & H4 & _) Hn Hr. destruct (H4 n Hn) as [H5 H6]. split; [apply H6|]; lia. Qed.

(** The size is a constant of the program. *)
Ltac size_const H :=
  lazymatch type of H with _ /\ _ <= _ <= ?n => let v := eval vm_compute in n in change n with v in H end.

Ltac reply_sizes :=
  match goal with
  | H : reply_ok _ _ ?r, E : (r_val ?r =? -1) = false |- _ =>
      pose proof (reply_size _ _ _ _ H eq_refl ltac:(lia)) as H'; clear H; rename H' into H; size_const H
  | H : reply_ok _ _ ?r, E : (r_val ?r <? 0) = false |- _ =>
      pose proof (reply_size _ _ _ _ H eq_refl ltac:(lia)) as H'; clear H; rename H' into H; size_const H
  | H : reply_ok _ _ ?r, E : (0 <? r_val ?r) = true |- _ =>
      pose proof (reply_size _ _ _ _ H eq_refl ltac:(lia)) as H'; clear H; rename H' into H; size_const H
  | H : reply_ok _ _ ?r, E : (0 <=? r_val ?r) = true |- _ =>
      pose proof (reply_size _ _ _ _ H eq_refl ltac:(lia)) as H'; clear H; rename H' into H; size_const H
  end.

(** The steps of a client or server under [kernel], up to the ends of its runs. *)
Ltac endpoint :=
  repeat first
    [ fds_die
    | lazymatch goal with
      | |- wp _ (mbind _ (received _ _ _ _)) _ _ =>
          reply_sizes; try (apply wp_received_or; [lia | lia | intros ?Hn | intros _]; [|solve [cbn; auto]]);
          apply wp_received_kernel; [lia | lia | intros ?b ?Hb ?Ht ?Hc]
      | |- wp _ (prog_bind (mbind _ (received _ _ _ _)) _) _ _ => apply wp_bind
      | |- wp _ (mbind _ (mbind _ (received _ _ _ _))) _ _ => apply wp_bind
      end
    | wp_step; try (exfalso; lia); cbn [fds names] ].

(** A round that only goes on, in a loop that is cut. *)
Lemma wp_beat {S} fuel (body : S -> prog (S + Z)) s w (Q : result Z -> world -> Prop) :
  (forall s, wp kernel (body s) w (fun r w' =>
     match r with Returned (inl _) => w' = w | Returned (inr a) => False | Halted h => Q (Halted h) w' end)) ->
  Q (Halted Cut) w -> wp kernel (forever fuel body s) w Q.
Proof.
  intros Hb HC. apply (wp_forever _ (fun _ w' => w' = w)); [|by intros _ _ ->|done].
  intros s' _ ->. eapply wp_mono; [|apply Hb]. by intros [[]|] w'; cbn.
Qed.

(** * What is said *)

Section courier.
Context (says : list Z -> list Z -> Prop) (notes : list Z -> list (list Z) -> Prop).

(** The state is the message received last. *)
Definition courier : monitor (list Z) := Monitor
  (fun last c => match c with
     | c_send _ d | c_sendto _ d | c_write _ d | c_mq_send _ d | c_msgsnd _ _ d => says last d
     | c_print _ args => args = [cstr last] \/ notes last args
     | _ => True
     end)
  (fun _ c r => -1 <= r_val r /\ forall n, receives c = Some n ->
     r_val r <= n /\ (0 <= r_val r -> Z.of_nat (length (r_data r)) = r_val r))
  (fun last c r => match receives c with
     | Some _ => if r_val r <? 0 then last else r_data r
     | None => last
     end).
End courier.

Lemma courier_size says notes last c r n : rep (courier says notes) last c r -> receives c = Some n -> r_val r <> -1 ->
  Z.of_nat (length (r_data r)) = r_val r /\ 0 <= r_val r <= n.
Proof. cbn. intros (H1 & H4) Hn Hr. destruct (H4 n Hn) as [H5 H6]. split; [apply H6|]; lia. Qed.

Ltac courier_fact H r :=
  pose proof (courier_size _ _ _ _ _ _ H eq_refl ltac:(lia)) as H'; clear H; rename H' into H; size_const H;
  cbn [post courier receives]; destruct (Z.ltb_spec (r_val r) 0); [lia|].

Ltac courier_sizes :=
  match goal with
  | H : rep (courier _ _) _ _ ?r, E : (r_val ?r =? -1) = false |- _ => courier_fact H r
  | H : rep (courier _ _) _ _ ?r, E : (r_val ?r <? 0) = false |- _ => courier_fact H r
  | H : rep (courier _ _) _ _ ?r, E : (0 <? r_val ?r) = true |- _ => courier_fact H r
  | H : rep (courier _ _) _ _ ?r, E : (0 <=? r_val ?r) = true |- _ => courier_fact H r
  end.

(** The steps of a client or server under [courier]. *)
Ltac corresponds :=
  repeat first
    [ lazymatch goal with
      | |- wp _ (mbind _ (received _ _ _ _)) _ _ =>
          courier_sizes; try (apply wp_received_or; [lia | lia | intros ?Hn | intros ?Hn]; [|solve [cbn; lia]]);
          apply wp_received; [lia | lia | by left | intros ?r ?b ?Hr ?Hb ?Ht ?Hc]
      | |- wp _ (prog_bind (mbind _ (received _ _ _ _)) _) _ _ => apply wp_bind
      | |- wp _ (mbind _ (mbind _ (received _ _ _ _))) _ _ => apply wp_bind
      | |- wp _ (die _ _) _ _ => unfold die; cbn [foreach]
      end
    | wp_plain; cbn [pre post courier receives]; try (by right); try (right; simpl; by eauto) ].

(** The state of a monitor after a trace. *)
Definition final {W} (M : monitor W) (w : W) (t : trace) : W := foldl (fun w cr => post M w cr.1 cr.2) w t.

Lemma exec_final {W A} (M : monitor W) (p : prog A) w t w1 res : exec M p w t w1 res -> w1 = final M w t.
Proof. by induction 1. Qed.

(** The same calls and replies under another monitor. *)
Lemma exec_transfer {W W' A} (M : monitor W) (M' : monitor W') (p : prog A) w t w1 res :
  (forall w w' c r, rep M w c r -> rep M' w' c r) -> exec M p w t w1 res ->
  forall w', exists w1', exec M' p w' t w1' res.
Proof.
  intros Hrep H. induction H as [| | |c k r w t w1 res Hr H IH]; intros w'; [eexists; constructor..|].
  destruct (IH (post M' w' c r)) as [w1' H']. exists w1'. constructor; [by eapply Hrep|done].
Qed.

(** A specification under [courier] holds of the runs of a process. *)
Lemma courier_sound {A} says notes (p : prog A) w t w1 res (Q : result A -> list Z -> Prop) :
  wp (courier says notes) p [] Q -> exec kernel p w t w1 res ->
  allowed (courier says notes) [] t /\
  match res with Some r => Q r (final (courier says notes) [] t) | None => True end.
Proof.
  intros Hwp H. destruct (exec_transfer kernel (courier says notes) p w t w1 res) with (w' := @nil Z) as [last H']; [|done|].
  { intros w0 w' c r (H1 & _ & _ & H4 & _). split; [done|].
    intros n Hn. destruct (H4 n Hn) as [Hle Hlen]. split; [done|]. intros H0. by apply Hlen. }
  pose proof (exec_final _ _ _ _ _ _ H') as ->. by eapply wp_sound.
Qed.

(** ** Replies of concrete runs *)

#[export] Instance is_byte_dec b : Decision (is_byte b).
Proof. unfold is_byte. apply _. Defined.

Lemma reply_ok_intro w c r :
  -1 <= r_val r -> NoDup (opened c r) -> Forall (fun fd => 0 <= fd /\ fd ∉ fds w) (opened c r) ->
  (status_call c = true -> r_val r <= 0) ->
  (forall n, receives c = Some n -> r_val r <= n /\
     (0 <= r_val r -> Z.of_nat (length (r_data r)) = r_val r /\ Forall is_byte (r_data r))) ->
  (forall ep n, c = c_epoll_wait ep n -> Forall (fun e => 0 <= e.1) (events_of (r_data r))) ->
  (c = c_pipe \/ c = c_socketpair -> 0 <= r_val r -> length (r_data r) = 2%nat) ->
  (forall fd, c = c_recvmsg fd -> (length (r_data r) <= 1)%nat) -> reply_ok w c r.
Proof. unfold reply_ok. tauto. Qed.

Ltac reply_holds :=
  apply reply_ok_intro; cbn;
    [ lia
    | repeat first [apply NoDup_nil_2 | apply NoDup_cons_2; [set_solver|]]
    | repeat first [apply Forall_nil_2 | apply Forall_cons_2; [split; [lia|cbn; set_solver]|]]
    | intros; first [done | lia]
    | intros ?n ?Hn; first
        [ done
        | injection Hn as <-; split; [cbn; lia | intros _; split; [done | apply (bool_decide_unpack _); by vm_compute]] ]
    | intros ?ep ?n ?Hn; first [done | repeat constructor; cbn; lia]
    | intros ?Hn; first [by destruct Hn | done]
    | intros ?fd ?Hn; first [done | cbn; lia] ].

Lemma exec_received {W B} (M : monitor W) fmt buffer data n (f : list Z -> prog B) w r t w1 res :
  Z.of_nat (length data) = n -> n < Z.of_nat (length buffer) -> rep M w (c_print fmt [cstr data]) r ->
  (forall b, exec M (f b) (post M w (c_print fmt [cstr data]) r) t w1 res) ->
  exec M (prog_bind (received fmt buffer data n) f) w ((c_print fmt [cstr data], r) :: t) w1 res.
Proof.
  intros Hd Hn Hr H. unfold received. destruct (fill_ok buffer data n Hd Hn) as (b & E & Hl & Ht & Hc).
  rewrite E. cbn [of_outcome mbind prog_mbind prog_bind]. rewrite chars_terminated by done. rewrite Hc.
  by constructor.
Qed.

(** The next call of a run. *)
Ltac run_call := eapply exec_step; [reply_holds|]; cbn [r_val r_data value_reply ok0 data_reply].
