(* ===== verification/EchoMain.v ===== *)
(** The whole programs of src/final_hw_1 over system calls: the options of the command
    line, the raw socket, and the loops around the operations of EchoRaw.v.

    [getopt] is the C library's: the options are the letters and arguments it returns.
    [inet_ntoa] and [inet_addr] are parameters. *)

From S2P Require Import Prelude CInt CStr Stdio RawNet EchoRaw Sys Endpoint.

Definition AF_PACKET : Z := 17.
Definition SOCK_RAW : Z := 3.
Definition ETH_P_ALL : Z := 3.

(** [char a[n] = "s"]. *)
Definition array (n : nat) (s : string) : list Z := str s ++ replicate (n - length (str s)) 0.

(** ['c'] *)
Definition letter (s : string) : Z := hd 0 (str s).

(** What [getopt] returns for an argument, and [optarg]. *)
Definition option_arg : Type := Z * list Z.

(** [while ((opt = getopt(...)) != -1) switch (opt)]: the variables that are set, or the
    value [main] returns. *)
Fixpoint options {S} (handler : S -> option_arg -> prog (S + Z)) (opts : list option_arg) (st : S) : prog (S + Z) :=
  match opts with
  | [] => Ret (inl st)
  | o :: opts' => r ← handler st o; match r with inl st' => options handler opts' st' | inr s => Ret (inr s) end
  end.

Section programs.
(** [inet_ntoa] and [inet_addr] of <arpa/inet.h>, and [argv[0]]. *)
Context (inet_ntoa : Z -> list Z) (inet_addr : list Z -> Z) (argv0 : list Z).

(** * The server *)

Definition server_mac0 : list Z := [148; 187; 67; 13; 86; 163].

Definition server_option (st : list Z * list Z) (o : option_arg) : prog ((list Z * list Z) + Z) :=
  let '(if_name, server_mac) := st in
  let '(opt, optarg) := o in
  if opt =? letter "i" then
    if_name ← of_outcome (strncpy_z if_name optarg); Ret (inl (if_name, server_mac))
  else if opt =? letter "S" then
    '(ok, server_mac) ← of_outcome (parse_mac optarg server_mac);
    if (ok : bool) then Ret (inl (if_name, server_mac))
    else sys_ (c_print "Invalid server MAC\n" []);; Ret (inr 1)
  else sys_ (c_print "Usage: %s [-i interface] [-S server_mac]\n" [argv0]);; Ret (inr 1).

(** The client of a request, added with a message when it is new. *)
Definition server_locate (st : server) (rq : request) : prog (server * Z) :=
  let client_idx := find_client st (rq_ip rq) (rq_port rq) in
  if client_idx =? -1 then
    st' ← of_outcome (add_client st (rq_ip rq) (rq_port rq));
    (if client_count st' =? client_count st then Ret tt
     else sys_ (c_print "New client %s:%d connected\n" [inet_ntoa (rq_ip rq); print_d (rq_port rq)]));;
    Ret (st', client_count st' - 1)
  else Ret (st, client_idx).

Definition server_round (sock_fd : Z) (s : server * list Z) : prog ((server * list Z) + Z) :=
  let '(st, buffer) := s in
  '(bytes, data) ← sys_data (c_recvfrom sock_fd BUF_SIZE);
  buffer ← of_outcome (if 0 <=? bytes then put_at buffer 0 data else Done buffer);
  '(buffer, rq) ← of_outcome (server_receive buffer bytes);
  match rq with
  | None => Ret (inl (st, buffer))
  | Some rq =>
      '(st, client_idx) ← server_locate st rq;
      close ← of_outcome (streq (rq_data rq) (lit "CLOSE"));
      if (close : bool) then
        sys_ (c_print "Client %s:%d disconnected\n" [inet_ntoa (rq_ip rq); print_d (rq_port rq)]);;
        st ← of_outcome (set_counter st client_idx 0);
        Ret (inl (st, buffer))
      else
        '(st, counter) ← of_outcome (bump st client_idx);
        let reply := format_reply (rq_data rq) counter in
        '(buffer, s) ← of_outcome (build_reply buffer (rq_iplen rq) (server_mac st) reply);
        sent ← sys (c_sendto sock_fd (frame s));
        (if 0 <? sent then
           sys_ (c_print "-> %s:%d: %s (%d)\n" [inet_ntoa (rq_ip rq); print_d (rq_port rq); reply; print_d counter])
         else Ret tt);;
        Ret (inl (st, buffer))
  end.

Definition server_loop (fuel : nat) (sock_fd : Z) (server_mac buffer : list Z) : prog Z :=
  forever fuel (server_round sock_fd) (init_server server_mac, buffer).

(** [buffer] is what the local array holds. The loop has no end. *)
Definition server_main (fuel : nat) (opts : list option_arg) (buffer : list Z) : prog Z :=
  r ← options server_option opts (array 16 "wlo1", server_mac0);
  match r with
  | inr s => Ret s
  | inl (if_name, server_mac) =>
      name ← of_outcome (chars if_name);
      sys_ (c_print "Server on %s, MAC: %02x:%02x:%02x:%02x:%02x:%02x\n" [name; print_mac server_mac]);;
      sock_fd ← sys (c_socket AF_PACKET SOCK_RAW (htons ETH_P_ALL));
      if sock_fd <? 0 then die "socket" [] else
      ifindex ← sys (c_if_nametoindex name);
      if ifindex =? 0 then die "if_nametoindex" [sock_fd] else
      sys_ (c_print "Server listening...\n" []);;
      server_loop fuel sock_fd server_mac buffer
  end.

(** * The client *)

(** The strings and the two addresses that the options set. *)
Record settings := Settings { if_name : list Z; addresses : config }.

Definition settings0 : settings := Settings (array 16 "enp34s0")
  (Config (array 16 "192.168.1.100") (array 16 "192.168.1.200") [0; 17; 34; 51; 68; 85] [102; 119; 136; 153; 170; 187]).

Definition client_option (st : settings) (o : option_arg) : prog (settings + Z) :=
  let '(Settings if_name (Config cip sip cmac smac)) := st in
  let '(opt, optarg) := o in
  if opt =? letter "c" then
    cip ← of_outcome (strncpy_z cip optarg); Ret (inl (Settings if_name (Config cip sip cmac smac)))
  else if opt =? letter "s" then
    sip ← of_outcome (strncpy_z sip optarg); Ret (inl (Settings if_name (Config cip sip cmac smac)))
  else if opt =? letter "C" then
    '(ok, cmac) ← of_outcome (parse_mac optarg cmac);
    if (ok : bool) then Ret (inl (Settings if_name (Config cip sip cmac smac)))
    else sys_ (c_print "Invalid client MAC\n" []);; Ret (inr 1)
  else if opt =? letter "S" then
    '(ok, smac) ← of_outcome (parse_mac optarg smac);
    if (ok : bool) then Ret (inl (Settings if_name (Config cip sip cmac smac)))
    else sys_ (c_print "Invalid server MAC\n" []);; Ret (inr 1)
  else if opt =? letter "i" then
    if_name ← of_outcome (strncpy_z if_name optarg); Ret (inl (Settings if_name (Config cip sip cmac smac)))
  else
    sys_ (c_print "Usage: %s [-c client_ip] [-s server_ip] [-C client_mac] [-S server_mac] [-i interface]\n" [argv0]);;
    Ret (inr 1).

(** A line is read into a new array, [input], each time; what it holds before does not
    matter. *)
Definition client_round (sock_fd : Z) (cfg : config) (buffer : list Z) : prog (list Z + unit) :=
  '(n, data) ← sys_data (c_gets BUF_SIZE);
  if n <? 0 then Ret (inr tt) else
  input ← of_outcome (put_at (replicate (Z.to_nat BUF_SIZE) 0) 0 (data ++ [0]));
  input ← of_outcome (chomp input);
  close ← of_outcome (streq input (lit "CLOSE"));
  (if (close : bool) then sys_ (c_print "Sending CLOSE...\n" []) else Ret tt);;
  '(buffer, packet) ← of_outcome (client_frame inet_addr cfg buffer input);
  sent ← sys (c_sendto sock_fd packet);
  if sent <? 0 then sys_ (c_perror "sendto");; Ret (inl buffer) else
  line ← of_outcome (chars input);
  sys_ (c_print "Sent (%zd bytes): %s\n" [print_d sent; line]);;
  if (close : bool) then Ret (inr tt) else
  '(bytes, data) ← sys_data (c_recvfrom sock_fd BUF_SIZE);
  buffer ← of_outcome (if 0 <=? bytes then put_at buffer 0 data else Done buffer);
  '(buffer, answer) ← of_outcome (client_receive buffer bytes);
  (match answer with Some a => sys_ (c_print "Server: %s\n" [a]) | None => Ret tt end);;
  Ret (inl buffer).

Definition client_main (fuel : nat) (opts : list option_arg) (buffer : list Z) : prog Z :=
  r ← options client_option opts settings0;
  match r with
  | inr s => Ret s
  | inl (Settings if_name cfg) =>
      cip ← of_outcome (chars (client_ip_str cfg));
      sip ← of_outcome (chars (server_ip_str cfg));
      name ← of_outcome (chars if_name);
      sys_ (c_print "Client IP: %s, Server IP: %s, Interface: %s\n" [cip; sip; name]);;
      sys_ (c_print "Client MAC: %02x:%02x:%02x:%02x:%02x:%02x\nServer MAC: %02x:%02x:%02x:%02x:%02x:%02x\n"
              [print_mac (client_mac cfg); print_mac (cl_server_mac cfg)]);;
      sock_fd ← sys (c_socket AF_PACKET SOCK_RAW (htons ETH_P_ALL));
      if sock_fd <? 0 then die "socket" [] else
      ifindex ← sys (c_if_nametoindex name);
      if ifindex =? 0 then die "if_nametoindex" [sock_fd] else
      sys_ (c_print "Enter messages or 'CLOSE' to exit:\n" []);;
      forever fuel (client_round sock_fd cfg) buffer;;
      sys_ (c_close sock_fd);;
      Ret 0
  end.
End programs.

(** * What the server does with the table *)

(** The counters stay below the number of requests. *)
Definition serving (k : Z) (st : server) : Prop :=
  length (clients st) = 100%nat /\ 0 <= client_count st <= 100 /\
  Forall (fun c => 0 <= counter c <= k) (clients st) /\ length (server_mac st) = 6%nat.

Lemma serving_init mac : length mac = 6%nat -> serving 0 (init_server mac).
Proof.
  intros H. unfold serving, init_server. cbn [clients client_count server_mac].
  split_and!; [done|lia|lia| |done]. apply Forall_replicate. cbn. lia.
Qed.

Lemma serving_le k k' st : k <= k' -> serving k st -> serving k' st.
Proof.
  intros Hk (H1 & H2 & H3 & H4). split_and!; [done|lia|lia| |done].
  eapply Forall_impl; [exact H3|]. cbn. lia.
Qed.

Lemma find_client_range st a p : serving 0 st \/ length (clients st) = 100%nat -> 0 <= client_count st <= 100 ->
  -1 <= find_client st a p < 100.
Proof.
  intros Hl Hc. unfold find_client. destruct (find_from _ 0 _) as [i|] eqn:E; [|lia].
  apply find_from_Some in E as (_ & (c & Hi & _) & _). rewrite Nat.sub_0_r in Hi.
  apply lookup_lt_Some in Hi. rewrite length_take in Hi. lia.
Qed.

Lemma add_client_serving k st a p : 0 <= k -> serving k st ->
  exists st', add_client st a p = Done st' /\ serving k st' /\ 1 <= client_count st'.
Proof.
  intros Hk Hs. pose proof Hs as (H1 & H2 & H3 & H4). unfold add_client. destruct (Z.leb_spec 100 (client_count st)).
  - exists st. split_and!; [done|done|lia].
  - rewrite zset_ok by lia. cbn [mbind outcome_bind]. eexists. split; [done|].
    unfold serving. cbn [clients client_count server_mac]. rewrite length_insert.
    split_and!; [done|lia|lia| |done|lia]. apply Forall_insert; [done|]. cbn. lia.
Qed.

Lemma locate_serving k st a p : 0 <= k -> serving k st ->
  exists st' i, locate st a p = Done (st', i) /\ serving k st' /\ 0 <= i < 100.
Proof.
  intros Hk Hs. pose proof Hs as (H1 & H2 & H3 & H4). unfold locate.
  pose proof (find_client_range st a p ltac:(by right) H2). destruct (Z.eqb_spec (find_client st a p) (-1)).
  - destruct (add_client_serving k st a p Hk Hs) as (st' & -> & Hs' & Hc). cbn [mbind outcome_bind].
    eexists _, _. split; [done|]. split; [done|]. destruct Hs' as (_ & ? & _). lia.
  - eexists _, _. split; [done|]. split; [done|lia].
Qed.

Lemma set_counter_serving k st i v : serving k st -> 0 <= i < 100 -> 0 <= v <= k ->
  exists st', set_counter st i v = Done st' /\ serving k st'.
Proof.
  intros (H1 & H2 & H3 & H4) Hi Hv. unfold set_counter.
  destruct (znth_ok (clients st) i) as (c & -> & _); [lia|]. cbn [mbind outcome_bind].
  rewrite zset_ok by lia. cbn [mbind outcome_bind]. eexists. split; [done|].
  unfold serving. cbn [clients client_count server_mac]. rewrite length_insert.
  split_and!; [done|lia|lia| |done]. by apply Forall_insert.
Qed.

Lemma bump_serving k st i : serving k st -> 0 <= i < 100 -> 0 <= k < int_max ->
  exists st' n, bump st i = Done (st', n) /\ serving (k + 1) st' /\ 0 <= n <= k + 1.
Proof.
  intros Hs Hi Hk. pose proof Hs as (H1 & _ & H3 & _). unfold bump.
  destruct (znth_ok (clients st) i) as (c & Hz & Hc); [lia|]. rewrite Hz. cbn [mbind outcome_bind].
  pose proof (Forall_lookup_1 _ _ _ _ H3 Hc) as Hcc. cbn in Hcc. unfold iadd.
  rewrite int_result_Done2 by (unfold_int; lia). cbn [mbind outcome_bind].
  destruct (set_counter_serving (k + 1) st i (counter c + 1)) as (st' & -> & Hs'); [|done|lia|].
  { apply (serving_le k); [lia|done]. }
  cbn [mbind outcome_bind]. eexists _, _. split_and!; [done|done|lia|lia].
Qed.

(** * What the server reads and writes in its buffer *)

(** A frame of [bytes] bytes carries at most [bytes - 22] characters. *)
Lemma server_receive_request buf bytes b rq :
  length buf = 1500%nat -> bytes < 1500 -> server_receive buf bytes = Done (b, Some rq) ->
  length b = 1500%nat /\ terminated (rq_data rq) /\ Z.of_nat (length (cstr (rq_data rq))) <= bytes - 22 /\
  0 <= rq_iplen rq <= 60.
Proof.
  intros Hb Hn H. pose proof (server_receive_length _ _ _ _ H) as Hl. unfold server_receive in H.
  destruct (bytes <? ETH_HLEN + IPHDR) eqn:E0; [done|]. obind_inv H. case_match; [done|].
  obind_inv H. rename a0 into ihl, Ha0 into Hihl. do 2 obind_inv H. case_match; [done|]. obind_inv H. case_match; [done|].
  obind_inv H. injection H as <- <-. cbn [rq_data rq_iplen].
  assert (Hr : 0 <= ihl < 16).
  { unfold get_ihl in Hihl. obind_inv Hihl. injection Hihl as <-. apply ihl_range. }
  unfold_fields. rewrite to_int_id in * by (unfold_int; lia).
  match goal with E : (_ <=? 0) || _ = false |- _ => apply orb_false_iff in E as [Hd _]; apply Z.leb_gt in Hd end.
  pose proof (znth_zset_eq _ _ _ _ Ha3) as Hz.
  destruct (drop_at a3 (14 + ihl * 4 + 8) (bytes - 14 - ihl * 4 - 8) (take (Z.to_nat (bytes - 14 - ihl * 4 - 8)) (drop (Z.to_nat (14 + ihl * 4 + 8)) a3)) 0) as [rest Hrest]; [|done|].
  { unfold get_at. zbool; cbn [andb]; try done; apply zset_length in Ha3; lia. }
  set (p := take _ (drop _ a3)) in *. assert (Hp : (length p <= Z.to_nat (bytes - 14 - ihl * 4 - 8))%nat).
  { unfold p. rewrite length_take. lia. }
  rewrite Hrest. split_and!; [lia| |rewrite cstr_ended|lia|lia].
  - apply elem_of_app. right. left.
  - assert (length (cstr p) <= length p)%nat; [|lia]. unfold cstr. pose proof (f_equal length (span_app nonzero p)) as Hs.
    rewrite length_app in Hs. lia.
Qed.

(** A reply of at most 1457 characters fits the buffer. *)
Lemma build_reply_total buf ip_len smac reply :
  length buf = 1500%nat -> 0 <= ip_len <= 60 -> length smac = 6%nat -> (length reply <= 1457)%nat ->
  exists b s, build_reply buf ip_len smac reply = Done (b, s) /\ length b = 1500%nat.
Proof.
  intros Hb Hi Hs Hr. assert (Hd : defined (build_reply buf ip_len smac reply)).
  { unfold build_reply. unfold_fields. change (length (replicate 20 0)) with 20%nat. repeat total_step.
    match goal with |- defined (get_at ?b 0 (14 + ntohs (of_le ?r)) ≫= _) =>
      assert (r = le16 (htons (20 + 8 + Z.of_nat (length reply)))) as ->;
        [cut (get_at b (14 + 2) 2 = Done (le16 (htons (20 + 8 + Z.of_nat (length reply)))));
          [congruence|peel; match goal with E : put_at _ (14 + 2) _ = Done _ |- _ => exact (get_put_same _ _ _ _ E) end]|]
    end.
    rewrite ntohs_len by lia. total_step. by eexists. }
  destruct Hd as [[b s] H]. exists b, s. split; [done|]. unfold build_reply in H. unfold_fields. chain.
  injection H as <- _. put_lengths. lia.
Qed.

(** * What the client writes and reads *)

Lemma client_frame_total inet cfg buf msg r :
  length buf = 1500%nat -> length (client_mac cfg) = 6%nat -> length (cl_server_mac cfg) = 6%nat ->
  text msg -> (length msg <= 1457)%nat ->
  exists b f, client_frame inet cfg buf (msg ++ 0 :: r) = Done (b, f) /\ length b = 1500%nat.
Proof.
  intros Hb Hc Hs Ht Hl. assert (Hd : defined (client_frame inet cfg buf (msg ++ 0 :: r))).
  { unfold client_frame. rewrite strlen_app by done. cbn [mbind outcome_bind]. unfold_fields.
    change (length (replicate 20 0)) with 20%nat. rewrite Nat2Z.id, take_app_length. repeat total_step.
    assert (Z.land x1 15 = 5) as ->.
    { assert (x1 = Z.lor (Z.land x0 240) 5) as ->; [|by rewrite Z.land_lor_distr_l, <- Z.land_assoc, Z.land_0_r].
      cut (znth b11 14 = Done (Z.lor (Z.land x0 240) 5)); [congruence|]. apply znth_get1. loaded E6. }
    repeat total_step.
    match goal with |- defined (zset ?b ?i 0 ≫= _) =>
      destruct (zset_total b i 0) as (b' & Hz & E' & L'); [block_len|]; rewrite Hz; cbn [mbind outcome_bind] end.
    assert (get_at b' (14 + 2) 2 = Done (le16 (htons (20 + 8 + Z.of_nat (length msg))))) as -> by (loaded E7).
    cbn [fmap outcome_fmap mbind outcome_bind]. rewrite ntohs_len by lia. total_step. by eexists. }
  destruct Hd as [[b f] H]. exists b, f. split; [done|]. unfold client_frame in H. unfold_fields. chain.
  injection H as <- _. put_lengths. match goal with E : zset _ _ _ = Done _ |- _ => apply zset_length in E end. lia.
Qed.

Lemma client_receive_total buf bytes : length buf = 1500%nat -> -1 <= bytes < 1500 ->
  exists b a, client_receive buf bytes = Done (b, a) /\ length b = 1500%nat.
Proof.
  intros Hb Hn. destruct (znth_ok buf 14) as (x & Hx & _); [lia|]. pose proof (ihl_range x) as Hi.
  unfold client_receive. case_match; [by eexists _, _|].
  destruct (znth_ok buf (ETH_HLEN + ip_protocol)) as (p & -> & _); [unfold ETH_HLEN, ip_protocol; lia|]. cbn [mbind outcome_bind].
  case_match; [by eexists _, _|]. unfold get_ihl. change ETH_HLEN with 14. rewrite Hx. cbn [mbind outcome_bind].
  unfold load16, udp_dest, udp_source, UDPHDR.
  destruct (get_at_total buf (14 + Z.land x 15 * 4 + 0) 2) as (l1 & -> & _); [lia..|].
  destruct (get_at_total buf (14 + Z.land x 15 * 4 + 2) 2) as (l2 & -> & _); [lia..|].
  cbn [fmap outcome_fmap mbind outcome_bind]. case_match; [by eexists _, _|].
  case_match; [|by eexists _, _]. rewrite to_int_id in * by (unfold_int; lia).
  match goal with |- context [zset buf ?i 0] => destruct (zset_total buf i 0) as (b' & E & _ & L); [lia|] end.
  rewrite E. cbn [mbind outcome_bind]. eexists _, _. split; [done|lia].
Qed.

(** * The server as a program *)

(** What the server owes after a packet: the state, the buffer and the reply of
    [server_step], the specification of a round. *)
Definition owing : Type := server * list Z * option (list Z).

Definition arrival (w : owing) (r : reply) : owing :=
  let '(st, buf, _) := w in
  match (buf' ← (if 0 <=? r_val r then put_at buf 0 (r_data r) else Done buf); server_step st buf' (r_val r)) with
  | Done (st', buf', s) => (st', buf', frame <$> s)
  | Undef _ => (st, buf, None)
  end.

(** A packet may only be waited for when nothing is owed, and only what is owed may be
    sent; packets have at most [limit] bytes. *)
Definition service (limit : Z) : monitor owing := Monitor
  (fun w c => match c with c_sendto _ d => w.2 = Some d | c_recvfrom _ _ => w.2 = None | _ => True end)
  (fun _ c r => match c with
     | c_recvfrom _ n => -1 <= r_val r <= Z.min n limit /\ (0 <= r_val r -> Z.of_nat (length (r_data r)) = r_val r)
     | _ => -1 <= r_val r
     end)
  (fun w c r => match c with c_recvfrom _ _ => arrival w r | c_sendto _ _ => (w.1, None) | _ => w end).

(** The largest packet whose reply always fits the buffer. *)
Definition packet_limit : Z := 1467.

Lemma wp_server_locate inet_ntoa limit st rq st' i {B} (f : server * Z -> prog B) w Q :
  locate st (rq_ip rq) (rq_port rq) = Done (st', i) -> wp (service limit) (f (st', i)) w Q ->
  wp (service limit) (prog_bind (server_locate inet_ntoa st rq) f) w Q.
Proof.
  unfold locate, server_locate. intros H Hf. destruct (find_client _ _ _ =? -1).
  - destruct (add_client st _ _) as [s|]; [|done]. cbn [mbind outcome_bind] in H. injection H as -> <-.
    cbn [of_outcome mbind prog_mbind prog_bind]. destruct (_ =? _); [exact Hf|]. by apply wp_one.
  - injection H as <- <-. exact Hf.
Qed.

Lemma format_reply_fits data n : 0 <= n -> Z.of_nat (length (format_reply data n)) <= Z.of_nat (length (cstr data)) + 12.
Proof.
  intros Hn. unfold format_reply. rewrite length_take, !length_app. cbn [length].
  pose proof (print_d_length n). lia.
Qed.

(** A round carries out [server_step] and sends its reply. *)
Lemma server_round_serves inet_ntoa fd k st buf :
  serving k st -> 0 <= k < int_max -> length buf = 1500%nat ->
  wp (service packet_limit) (server_round inet_ntoa fd (st, buf)) (st, buf, None) (fun r w =>
    exists st' buf', r = Returned (inl (st', buf')) /\ w = (st', buf', None) /\ serving (k + 1) st' /\ length buf' = 1500%nat).
Proof.
  intros Hs Hk Hb. pose proof (serving_le k (k + 1) st ltac:(lia) Hs) as Hs1.
  unfold server_round. prog_simp. apply wp_one; [done|]. intros r [[Hlo Hhi] Hlen].
  unfold BUF_SIZE, packet_limit in Hhi.
  assert (Hp : exists b, (if 0 <=? r_val r then put_at buf 0 (r_data r) else Done buf) = Done b /\ length b = 1500%nat).
  { destruct (Z.leb_spec 0 (r_val r)); [|by exists buf].
    destruct (put_at_total buf 0 (r_data r)) as (b & E & L); [lia|lia|]. exists b. split; [done|lia]. }
  destruct Hp as (b & Ep & Hlb). cbn [post service arrival]. rewrite Ep. cbn [of_outcome mbind prog_mbind prog_bind outcome_bind].
  destruct (server_receive_defined b (r_val r) Hlb ltac:(lia)) as [[b1 rq] Er]. unfold server_step. rewrite Er.
  cbn [of_outcome mbind prog_mbind prog_bind outcome_bind].
  pose proof (server_receive_length _ _ _ _ Er) as Hl1.
  destruct rq as [rq|]; [|by exists st, b1; rewrite Hl1].
  destruct (server_receive_request b (r_val r) b1 rq Hlb ltac:(lia) Er) as (_ & Ht & Hd & Hi). clear Er Ep.
  destruct (locate_serving k st (rq_ip rq) (rq_port rq) ltac:(lia) Hs) as (st1 & i & El & Hs' & Hir).
  eapply wp_server_locate; [exact El|]. unfold account. rewrite El. cbn [mbind outcome_bind].
  rewrite streq_lit by (done || apply close_text). cbn [of_outcome mbind prog_mbind prog_bind outcome_bind].
  destruct (bool_decide _) eqn:Ec.
  - destruct (set_counter_serving k st1 i 0 Hs' Hir ltac:(lia)) as (st2 & E2 & Hs2). rewrite E2.
    cbn [outcome_bind]. prog_simp. apply wp_one; [done|]. intros r2 _. cbn [post service of_outcome prog_bind].
    exists st2, b1. split_and!; [done|done|by apply (serving_le k); [lia|]|lia].
  - destruct (bump_serving k st1 i Hs' Hir Hk) as (st2 & n & E2 & Hs2 & Hn). rewrite E2.
    cbn [of_outcome mbind prog_mbind prog_bind outcome_bind].
    pose proof (format_reply_fits (rq_data rq) n ltac:(lia)) as Hf. pose proof Hs2 as (_ & _ & _ & Hmac).
    destruct (build_reply_total b1 (rq_iplen rq) (server_mac st2) (format_reply (rq_data rq) n)) as (b2 & s & E3 & Hl2); [lia|lia|done|lia|].
    rewrite E3. cbn [of_outcome mbind prog_mbind prog_bind outcome_bind fmap option_fmap option_map]. prog_simp.
    apply wp_one; [done|]. intros r3 _. cbn [post service].
    assert (HQ : wp (service packet_limit) (Ret (inl (st2, b2)) : prog ((server * list Z) + Z)) ((st2, b2, Some (frame s)).1, None) (fun r w =>
      exists st' buf', r = Returned (inl (st', buf')) /\ w = (st', buf', None) /\ serving (k + 1) st' /\ length buf' = 1500%nat))
      by (by exists st2, b2).
    destruct (0 <? r_val r3); [|exact HQ]. by apply wp_one.
Qed.

Lemma server_loop_serves inet_ntoa fuel fd mac buffer :
  length mac = 6%nat -> length buffer = 1500%nat -> Z.of_nat fuel < int_max ->
  wp (service packet_limit) (server_loop inet_ntoa fuel fd mac buffer) (init_server mac, buffer, None)
    (fun r w => r = Halted Cut /\ w.2 = None).
Proof.
  intros Hm Hb Hf. unfold server_loop.
  apply (wp_rounds _ (fun n s w => exists k, w = (s.1, s.2, None) /\ serving k s.1 /\ 0 <= k /\
    k + Z.of_nat n < int_max /\ length s.2 = 1500%nat)).
  - intros n [st buf] w (k & -> & Hs & Hk & Hn & Hl). cbn [fst snd] in *.
    eapply wp_mono; [|apply (server_round_serves _ _ k); [done|lia|done]].
    intros r w (st' & buf' & -> & -> & Hs' & Hl'). exists (k + 1). cbn. split_and!; [done|done|lia|lia|done].
  - by intros s w (k & -> & _).
  - exists 0. cbn [fst snd]. split_and!; [done|by apply serving_init|lia|lia|done].
Qed.

(** ** Its descriptors *)

(** The variables stay in order over the options, until one is wrong. *)
Lemma wp_options {S W} (M : monitor W) (handler : S -> option_arg -> prog (S + Z)) (I : S -> W -> Prop) (Q : result (S + Z) -> W -> Prop) :
  let ends r w := match r with Returned (inl st) => I st w | _ => Q r w end in
  (forall st o w, I st w -> wp M (handler st o) w ends) -> forall opts st w, I st w -> wp M (options handler opts st) w ends.
Proof.
  intros ends Hh. induction opts as [|o opts IH]; intros st w HI; [done|]. cbn [options].
  eapply wp_seq; [by apply Hh|]. intros [[st'|s]|h] w' H; cbn [seq_post]; [by apply IH|done..].
Qed.

(** The options only print, and [main] returns 1 for a wrong one. *)
Definition quiet {S} (w : world) (r : result (S + Z)) (w' : world) : Prop :=
  match r with
  | Returned (inl _) => w' = w
  | Returned (inr s) => w' = w /\ s = 1
  | Halted h => w' = w /\ exists u, h = Crashed u
  end.

Lemma wp_quiet {S} (handler : S -> option_arg -> prog (S + Z)) w :
  (forall st o, wp kernel (handler st o) w (quiet w)) -> forall opts st, wp kernel (options handler opts st) w (quiet w).
Proof.
  intros Hh opts st. eapply wp_mono; [|apply (wp_options kernel handler (fun _ w' => w' = w) (quiet w)); [|done]].
  - by intros [[]|] w'.
  - intros st' o w' ->. eapply wp_mono; [|apply Hh]. by intros [[]|] w'.
Qed.

(** A pure step that may crash. *)
Ltac may_crash :=
  repeat first
    [ wp_step
    | progress prog_simp
    | lazymatch goal with
      | |- wp _ (prog_bind (of_outcome _) _) _ _ => apply wp_pure; [intros ?a ?Ha|intros ?u ?Hu]
      | |- wp _ (mbind _ (of_outcome _)) _ _ => apply wp_pure; [intros ?a ?Ha|intros ?u ?Hu]
      | |- wp _ (prog_bind (mbind _ (of_outcome _)) _) _ _ => apply wp_bind
      | |- wp _ (mbind _ (mbind _ (of_outcome _))) _ _ => apply wp_bind
      | |- wp _ (let '(_, _) := ?a in _) _ _ => destruct a
      | |- wp _ (match ?a with _ => _ end) _ _ => destruct a
      | |- wp _ (prog_bind (match ?a with _ => _ end) _) _ _ => destruct a
      | |- wp _ (mbind _ (match ?a with _ => _ end)) _ _ => destruct a
      end ].

Lemma server_option_quiet argv0 st o w : wp kernel (server_option argv0 st o) w (quiet w).
Proof. destruct st as [n m], o as [c a]. unfold server_option. may_crash; cbn; eauto. Qed.

Lemma client_option_quiet argv0 st o w : wp kernel (client_option argv0 st o) w (quiet w).
Proof. destruct st as [n [c1 c2 m1 m2]], o as [c a]. unfold client_option. may_crash; cbn; eauto. Qed.

Lemma server_round_kernel inet_ntoa fd s w : fd ∈ fds w ->
  wp kernel (server_round inet_ntoa fd s) w (fun r w' =>
    match r with Returned (inl _) => w' = w | Returned (inr a) => False | Halted h => exists u, h = Crashed u end).
Proof.
  intros Hfd. destruct s as [st buf]. unfold server_round, server_locate. may_crash; eauto.
Qed.

Lemma client_round_kernel inet fd cfg buf w : fd ∈ fds w ->
  wp kernel (client_round inet fd cfg buf) w (fun r w' =>
    match r with Returned _ => w' = w | Halted h => exists u, h = Crashed u end).
Proof. intros Hfd. unfold client_round. may_crash; eauto. Qed.

(** What is left open when a program of this file stops. *)
Definition closed_up (r : result Z) (w : world) : Prop :=
  match r with
  | Returned s => fds w = ∅ /\ (s = 0 \/ s = 1)
  | Halted (Exited s) => fds w = ∅ /\ s = 1
  | Halted Cut => exists fd, fds w = {[fd]}
  | Halted (Crashed _) => True
  end.

Lemma one_fd (x : Z) (w : world) : fds w = ∅ -> fds (World ({[x]} ∪ fds w) (names w)) = {[x]}.
Proof. cbn. intros ->. set_solver. Qed.

Lemma server_main_closed inet_ntoa argv0 fuel opts buffer :
  wp kernel (server_main inet_ntoa argv0 fuel opts buffer) start closed_up.
Proof.
  unfold server_main. eapply wp_seq; [apply wp_quiet; intros; apply server_option_quiet|].
  intros [[[nm mac]|s]|h] w H; cbn [seq_post quiet] in *; [subst w|by destruct H as [-> ->]; split; [|right]|by destruct H as [_ [u ->]]].
  may_crash; try (cbn; exact I); try (exfalso; lia); try fds_die; try (cbn; set_solver).
  apply wp_beat; [|cbn; exists (r_val r0); set_solver]. intros s. eapply wp_mono; [|apply server_round_kernel; cbn; set_solver].
  intros [[?|?]|h] w'; [done|done|]. by intros [u ->].
Qed.

Lemma client_main_closed inet argv0 fuel opts buffer :
  wp kernel (client_main inet argv0 fuel opts buffer) start closed_up.
Proof.
  unfold client_main. eapply wp_seq; [apply wp_quiet; intros; apply client_option_quiet|].
  intros [[[nm cfg]|s]|h] w H; cbn [seq_post quiet] in *; [subst w|by destruct H as [-> ->]; split; [|right]|by destruct H as [_ [u ->]]].
  may_crash; try (cbn; exact I); try (exfalso; lia); try fds_die; try (cbn; set_solver).
  apply wp_bind. apply (wp_forever _ (fun _ w' => w' = World ({[r_val r1]} ∪ fds start) (names start))); [| |done].
  - intros b w' ->. eapply wp_mono; [|apply client_round_kernel; cbn; set_solver].
    intros [[?|[]]|h] w'; [done| |by intros [u ->]]. intros ->. cbn [seq_post]. wp_step. wp_step. cbn. split; [set_solver|by left].
  - intros b w' ->. cbn. exists (r_val r1). set_solver.
Qed.

(** * The client as a program *)

Section client_program.
Context (inet : list Z -> Z) (cfg : config).

(** What is sent is the frame of the line read last; lines have at most 1457 characters
    and packets fewer than 1500 bytes. *)
Definition typing : monitor (option (list Z)) := Monitor
  (fun w c => match c with
     | c_sendto _ d => exists line buf q b, w = Some line /\ client_frame inet cfg buf (line ++ 0 :: q) = Done (b, d)
     | _ => True
     end)
  (fun _ c r => match c with
     | c_gets n => -1 <= r_val r /\ (0 <= r_val r -> Z.of_nat (length (r_data r)) = r_val r /\ r_val r < n /\
                     (length (line_of (r_data r)) <= 1457)%nat)
     | c_recvfrom _ n => -1 <= r_val r < 1500 /\ (0 <= r_val r -> Z.of_nat (length (r_data r)) = r_val r)
     | _ => -1 <= r_val r
     end)
  (fun w c r => match c with c_gets _ => if r_val r <? 0 then w else Some (line_of (r_data r)) | _ => w end).

Lemma client_round_types fd buf w :
  length (client_mac cfg) = 6%nat -> length (cl_server_mac cfg) = 6%nat -> length buf = 1500%nat ->
  wp typing (client_round inet fd cfg buf) w (fun r _ =>
    r = Returned (inr tt) \/ exists buf', r = Returned (inl buf') /\ length buf' = 1500%nat).
Proof.
  intros Hc Hs Hb. unfold client_round. prog_simp. apply wp_one; [done|]. intros r [Hlo Hr].
  cbn [post typing]. destruct (r_val r <? 0) eqn:En; [by left|]. destruct Hr as (Hlen & Hlt & Hline); [lia|].
  unfold BUF_SIZE in Hlt |- *. change (Z.to_nat 1500) with 1500%nat.
  destruct (line_of_read 1500 (replicate 1500 0) (r_data r)) as (i1 & q & E1 & _ & E2 & _ & Ht); [by rewrite length_replicate|lia|].
  rewrite E1. cbn [of_outcome mbind prog_mbind prog_bind]. rewrite E2. cbn [of_outcome mbind prog_mbind prog_bind].
  set (line := line_of (r_data r)) in *.
  rewrite streq_lit by (apply close_text || (apply elem_of_app; right; left)). rewrite cstr_app by done.
  cbn [of_outcome mbind prog_mbind prog_bind].
  destruct (client_frame_total inet cfg buf line q Hb Hc Hs Ht Hline) as (b & d & Ef & Hl).
  assert (Hrest : wp typing (sent ← sys (c_sendto fd d);
      if sent <? 0 then sys_ (c_perror "sendto");; Ret (inl b) else
      l ← of_outcome (chars (line ++ 0 :: q));
      sys_ (c_print "Sent (%zd bytes): %s\n" [print_d sent; l]);;
      if bool_decide (line = str "CLOSE") then Ret (inr tt) else
      '(bytes, data) ← sys_data (c_recvfrom fd 1500);
      buffer ← of_outcome (if 0 <=? bytes then put_at b 0 data else Done b);
      '(buffer, answer) ← of_outcome (client_receive buffer bytes);
      (match answer with Some a => sys_ (c_print "Server: %s\n" [a]) | None => Ret tt end);;
      Ret (inl buffer)) (Some line) (fun r _ =>
    r = Returned (inr tt) \/ exists buf', r = Returned (inl buf') /\ length buf' = 1500%nat)).
  { prog_simp. apply wp_one; [by exists line, buf, q, b|]. intros r2 _. cbn [post typing].
    destruct (r_val r2 <? 0); [apply wp_one; [done|]; intros r3 _; right; by exists b|].
    rewrite chars_app by done. cbn [of_outcome mbind prog_mbind prog_bind]. apply wp_one; [done|]. intros r3 _. cbn [post typing].
    destruct (bool_decide _); [by left|]. prog_simp. apply wp_one; [done|]. intros r4 [Hr4 Hd4]. cbn [post typing].
    assert (Hp : exists b2, (if 0 <=? r_val r4 then put_at b 0 (r_data r4) else Done b) = Done b2 /\ length b2 = 1500%nat).
    { destruct (Z.leb_spec 0 (r_val r4)); [|by exists b].
      destruct (put_at_total b 0 (r_data r4)) as (b2 & E & L); [lia|lia|]. exists b2. split; [done|lia]. }
    destruct Hp as (b2 & E & Hl2). rewrite E. cbn [of_outcome mbind prog_mbind prog_bind].
    destruct (client_receive_total b2 (r_val r4) Hl2 Hr4) as (b3 & a & E3 & Hl3). rewrite E3.
    cbn [of_outcome mbind prog_mbind prog_bind]. destruct a; [apply wp_one; [done|]; intros r5 _|]; right; by exists b3. }
  destruct (bool_decide _); prog_simp; [apply wp_one; [done|]; intros r1 _; cbn [post typing]|];
    rewrite Ef; exact Hrest.
Qed.

Lemma client_loop_types fuel fd buf w :
  length (client_mac cfg) = 6%nat -> length (cl_server_mac cfg) = 6%nat -> length buf = 1500%nat ->
  wp typing (forever fuel (client_round inet fd cfg) buf) w (fun r _ => r = Halted Cut \/ r = Returned tt).
Proof.
  intros Hc Hs Hb. apply (wp_forever _ (fun b _ => length b = 1500%nat)); [|by intros; left|done].
  intros b w' Hl. eapply wp_mono; [|by apply client_round_types]. intros r w2 [-> | (b' & -> & Hl')]; cbn; [by right|done].
Qed.
End client_program.

(** * The programs *)

(** C8 The server as a program, whatever the network delivers and whatever fails. It uses
    its socket while it is open and closes it when it exits. On packets of at most 1467
    bytes it never meets undefined behaviour, and it implements [server_step]: after each
    packet it sends the reply of that step and nothing else, before it waits again. *)
Theorem echo_server_program inet_ntoa argv0 opts fuel fd mac buffer :
  length buffer = 1500%nat -> length mac = 6%nat -> Z.of_nat fuel < int_max ->
  wp kernel (server_main inet_ntoa argv0 fuel opts buffer) start closed_up /\
  wp (service packet_limit) (server_loop inet_ntoa fuel fd mac buffer) (init_server mac, buffer, None)
    (fun r w => r = Halted Cut /\ w.2 = None).
Proof. intros Hb Hm Hf. split; [apply server_main_closed|by apply server_loop_serves]. Qed.

(** C20 The client as a program, whatever is typed, whatever arrives and whatever fails. It
    uses its socket while it is open and closes it when it stops. On lines of at most 1457
    characters and packets of fewer than 1500 bytes it never meets undefined behaviour,
    and what it sends is always the frame of the line that was read last. *)
Theorem echo_client_program inet argv0 opts fuel fd cfg buffer w :
  length buffer = 1500%nat -> length (client_mac cfg) = 6%nat -> length (cl_server_mac cfg) = 6%nat ->
  wp kernel (client_main inet argv0 fuel opts buffer) start closed_up /\
  wp (typing inet cfg) (forever fuel (client_round inet fd cfg) buffer) w
    (fun r _ => r = Halted Cut \/ r = Returned tt).
Proof. intros Hb Hc Hs. split; [apply client_main_closed|by apply client_loop_types]. Qed.

(** ** Concrete runs *)

(** A packet of 1499 bytes, which fits the buffer, is answered with a string that does
    not: [strcpy] of the reply leaves the buffer. *)
Definition long_packet : list Z :=
  replicate 12 0 ++ [8; 0] ++ [69] ++ replicate 8 0 ++ [17] ++ replicate 2 0 ++ [127; 0; 0; 1; 127; 0; 0; 1]
  ++ le16 (htons CLIENT_PORT) ++ le16 (htons SERVER_PORT) ++ replicate 4 0 ++ replicate 1457 97.

Lemma long_packet_overruns inet_ntoa :
  length long_packet = 1499%nat /\
  (run [data_reply long_packet; ok0] (server_loop inet_ntoa 1 3 server_mac0 (replicate 1500 0))).2 =
    Some (Halted (Crashed OutOfBounds)).
Proof. split; by vm_compute. Qed.

Lemma echo_server_program_witness :
  length (replicate 1500 0) = 1500%nat /\ length server_mac0 = 6%nat /\
  wp kernel (server_main print_d (lit "echo_server") 9 [(letter "i", lit "eth0")] (replicate 1500 0)) start closed_up /\
  wp (service packet_limit) (server_loop print_d 9 3 server_mac0 (replicate 1500 0))
    (init_server server_mac0, replicate 1500 0, None) (fun r w => r = Halted Cut /\ w.2 = None).
Proof.
  split; [done|]. split; [done|].
  apply (echo_server_program print_d (lit "echo_server") [(letter "i", lit "eth0")] 9 3 server_mac0 (replicate 1500 0)); [done|done|].
  unfold int_max. lia.
Defined.

Lemma echo_client_program_witness :
  wp kernel (client_main demo_inet_addr (lit "echo_client") 9 [(letter "c", lit "10.0.0.7")] (replicate 1500 0)) start closed_up /\
  wp (typing demo_inet_addr demo_cfg) (forever 9 (client_round demo_inet_addr 3 demo_cfg) (replicate 1500 0)) None
    (fun r _ => r = Halted Cut \/ r = Returned tt).
Proof.
  apply (echo_client_program demo_inet_addr (lit "echo_client") [(letter "c", lit "10.0.0.7")] 9 3 demo_cfg (replicate 1500 0) None); done.
Defined.
