(* ===== verification/ShmPair.v ===== *)
(** One message each way in shared memory: src/hw14_shmemory/part1, with a segment of POSIX
    and one of System V. Server and client load and store single bytes of the segment
    ([c_load], [c_store]), and their calls are interleaved ([Sys.pair_step]); the memory
    is the object they share. A client that maps the segment before the server has given
    it a size is not modelled. *)

From stdpp Require Import relations.
From S2P Require Import Prelude CInt CStr Stdio Sys Endpoint.

Definition SHM_SIZE : Z := 1024.
Definition SHM_NAME : list Z := str "/myshm".

(** * Strings in the segment *)

(** The stores of [bs] from [i] on. *)
Fixpoint store_bytes (i : Z) (bs : list Z) : prog unit :=
  match bs with [] => Ret tt | b :: bs' => sys_ (c_store i b);; store_bytes (i + 1) bs' end.

(** [strncpy(p, s, SHM_SIZE - 1); p[SHM_SIZE - 1] = 0]. *)
Definition write_text (s : string) : prog unit :=
  bs ← of_outcome (strncpy_bytes (lit s) (Z.to_nat (SHM_SIZE - 1)));
  store_bytes 0 bs;;
  sys_ (c_store (SHM_SIZE - 1) 0).

(** The characters up to the NUL, for [printf]: [n] bytes of the segment are left. *)
Fixpoint load_text (n : nat) (i : Z) : prog (list Z) :=
  match n with
  | O => Halt (Crashed OutOfBounds)
  | S n' => b ← sys (c_load i); if b =? 0 then Ret [] else rest ← load_text n' (i + 1); Ret (b :: rest)
  end.

Definition read_text : prog (list Z) := load_text (Z.to_nat SHM_SIZE) 0.

(** [strncmp(p, t, n) != 0]. *)
Fixpoint differs (n : nat) (i : Z) (t : list Z) : prog bool :=
  match n, t with
  | O, _ => Ret false
  | S _, [] => Halt (Crashed OutOfBounds)
  | S n', c :: t' =>
      b ← sys (c_load i);
      if b =? c then if c =? 0 then Ret false else differs n' (i + 1) t' else Ret true
  end.

(** [while (strncmp(p, "Hello!", SHM_SIZE) != 0) sleep(1)]. *)
Definition wait_round (_ : unit) : prog (unit + unit) :=
  d ← differs (Z.to_nat SHM_SIZE) 0 (lit "Hello!");
  if (d : bool) then sys_ (c_sleep 1);; Ret (inl tt) else Ret (inr tt).
Definition wait_reply (fuel : nat) : prog unit := forever fuel wait_round tt.

(** * POSIX *)

(** From the first store on; [shm_fd] is not used in between. *)
Definition posix_server_talk (fuel : nat) (shm_fd : Z) : prog Z :=
  write_text "Hi!";;
  text ← read_text;
  sys_ (c_print "Server: wrote message '%s'\n" [text]);;
  wait_reply fuel;;
  text ← read_text;
  sys_ (c_print "Server: received reply '%s'\n" [text]);;
  u ← sys (c_munmap SHM_SIZE);
  (if u =? -1 then sys_ (c_perror "Server: munmap") else Ret tt);;
  sys_ (c_close shm_fd);;
  u ← sys (c_shm_unlink SHM_NAME);
  (if u =? -1 then sys_ (c_perror "Server: shm_unlink")
   else sys_ (c_print "Server:shared memory removed\n" []));;
  Ret 0.

Definition posix_server (fuel : nat) : prog Z :=
  shm_fd ← sys (c_shm_open SHM_NAME true);
  if shm_fd =? -1 then sys_ (c_perror "Server:sh_open");; exit 1 else
  t ← sys (c_ftruncate shm_fd SHM_SIZE);
  if t =? -1 then sys_ (c_perror "Server:ftrumcate");; sys_ (c_shm_unlink SHM_NAME);; exit 1 else
  m ← sys (c_mmap shm_fd SHM_SIZE);
  if m =? -1 then sys_ (c_perror "Server:mmap");; sys_ (c_shm_unlink SHM_NAME);; exit 1 else
  posix_server_talk fuel shm_fd.

Definition posix_client : prog Z :=
  shm_fd ← sys (c_shm_open SHM_NAME false);
  if shm_fd =? -1 then sys_ (c_perror "Client:shm_open");; exit 1 else
  m ← sys (c_mmap shm_fd SHM_SIZE);
  if m =? -1 then die "Client:mmap" [shm_fd] else
  text ← read_text;
  sys_ (c_print "Client: received message: '%s'\n" [text]);;
  write_text "Hello!";;
  text ← read_text;
  sys_ (c_print "Client: sent reply '%s'\n" [text]);;
  u ← sys (c_munmap SHM_SIZE);
  (if u =? -1 then sys_ (c_perror "Client:munmap") else Ret tt);;
  sys_ (c_close shm_fd);;
  Ret 0.

(** * System V *)

Definition sysv_server_talk (fuel : nat) (shmid : Z) : prog Z :=
  write_text "Hi!";;
  sys_ (c_print "Server: Sent message 'Hi!'. Waiting for reply...\n " []);;
  wait_reply fuel;;
  text ← read_text;
  sys_ (c_print "Server: Received reply from client: '%s'\n" [text]);;
  d ← sys c_shmdt;
  if d =? -1 then die "Server:shmdt" [] else
  d ← sys (c_shmctl_rmid shmid);
  if d =? -1 then die "Server:shmctl" [] else
  sys_ (c_print "Server: Shared memory segment removed.\n" []);;
  Ret 0.

Definition sysv_server (fuel : nat) : prog Z :=
  key ← sys c_ftok;
  if key =? -1 then die "Server:ftok" [] else
  shmid ← sys (c_shmget true);
  if shmid =? -1 then die "Server:shmget" [] else
  sys_ (c_print "Server:shared memory segment created\n" []);;
  a ← sys (c_shmat shmid);
  if a =? -1 then die "Server:shmat" [] else
  sysv_server_talk fuel shmid.

Definition sysv_client : prog Z :=
  key ← sys c_ftok;
  if key =? -1 then die "Client:ftok" [] else
  shmid ← sys (c_shmget false);
  if shmid =? -1 then die "Client:shmget" [] else
  sys_ (c_print "Client: Accessed shared memory segment\n" []);;
  a ← sys (c_shmat shmid);
  if a =? -1 then die "Client:shmat" [] else
  text ← read_text;
  sys_ (c_print "Client: Received message from server: '%s'\n" [text]);;
  write_text "Hello!";;
  sys_ (c_print "Client: Sent message 'Hello!'\n" []);;
  d ← sys c_shmdt;
  if d =? -1 then die "Client:shmdt" [] else
  Ret 0.

(** * The segment *)

(** What a call does to the memory and what it answers. *)
Inductive act : list Z -> call -> reply -> list Z -> Prop :=
  | act_load m i b : m !! Z.to_nat i = Some b -> 0 <= i -> act m (c_load i) (value_reply b) m
  | act_store m i v : 0 <= i < Z.of_nat (length m) -> act m (c_store i v) ok0 (<[Z.to_nat i := v]> m)
  | act_other m c r : (forall i, c <> c_load i) -> (forall i v, c <> c_store i v) -> -1 <= r_val r -> act m c r m.

Definition steps : configuration (S := list Z) (A := Z) (B := Z) -> configuration -> Prop := rtc (pair_step act).

(** The message of the server and the reply as they are in the segment. *)
Definition hi_bytes : list Z := str "Hi!" ++ replicate 1021 0.
Definition hello_bytes : list Z := str "Hello!" ++ replicate 1018 0.

Lemma hi_length : length hi_bytes = 1024%nat.
Proof. done. Qed.
Lemma hello_length : length hello_bytes = 1024%nat.
Proof. done. Qed.

Lemma hi_written : strncpy_bytes (lit "Hi!") (Z.to_nat (SHM_SIZE - 1)) = Done (take 1023 hi_bytes).
Proof. by vm_compute. Qed.
Lemma hello_written : strncpy_bytes (lit "Hello!") (Z.to_nat (SHM_SIZE - 1)) = Done (take 1023 hello_bytes).
Proof. by vm_compute. Qed.

#[local] Opaque hi_bytes hello_bytes.

(** * A reply is whole when it is received *)

(** The formats with which the servers report the reply. *)
Definition reports_reply (c : call) : option (list (list Z)) :=
  match c with
  | c_print f args =>
      if String.eqb f "Server: received reply '%s'\n" || String.eqb f "Server: Received reply from client: '%s'\n"
      then Some args else None
  | _ => None
  end.

(** The progress of a writer of [bs]: the stores it has made, in order. *)
Definition in_order (bs : list Z) (n : nat) (c : call) : Prop :=
  match c with c_store i v => i = Z.of_nat n /\ bs !! n = Some v | _ => True end.
Definition stored (n : nat) (c : call) : nat := match c with c_store _ _ => S n | _ => n end.

(** The server: its stores, and how many characters of the reply it has found in place. *)
Definition waiter : monitor (nat * nat) := Monitor
  (fun w c => in_order hi_bytes w.1 c /\ forall args, reports_reply c = Some args -> w.2 = 7%nat /\ args = [str "Hello!"])
  (fun w c r => match c with
     | c_load i => forall n : nat, i = Z.of_nat n -> (n < w.2)%nat -> hello_bytes !! n = Some (r_val r)
     | _ => -1 <= r_val r
     end)
  (fun w c r => match c with
     | c_load i => if (w.1 =? 1024)%nat && (w.2 <? 7)%nat && (i =? Z.of_nat w.2) && bool_decide (hello_bytes !! w.2 = Some (r_val r))
                   then (w.1, S w.2) else w
     | _ => (stored w.1 c, w.2)
     end).

(** The client: its stores. *)
Definition replier : monitor nat := Monitor
  (fun n c => in_order hello_bytes n c) (fun _ c r => match c with c_load _ => True | _ => -1 <= r_val r end)
  (fun n c _ => stored n c).

(** The memory: what the server has stored is there, or the client has stored there. *)
Definition segment (m : list Z) (w : nat * nat) (n : nat) : Prop :=
  length m = 1024%nat /\
  (forall i, (i < w.1)%nat -> m !! i = hi_bytes !! i \/ (i < n)%nat /\ m !! i = hello_bytes !! i) /\
  (0 < w.2 -> w.1 = 1024)%nat /\
  (forall i, (i < w.2)%nat -> m !! i = hello_bytes !! i).

Lemma waiter_ok m w n c r m' : segment m w n -> pre waiter w c -> act m c r m' ->
  rep waiter w c r /\ segment m' (post waiter w c r) n.
Proof.
  intros (Hl & Hm & Hj & Hr) [Hp _] Ha. destruct Ha as [m i b Hb Hi|m i v Hi|m c r Hnl Hns Hv].
  - cbn in *. split.
    + intros k -> Hk. rewrite Nat2Z.id in Hb. by rewrite <- Hr, Hb.
    + destruct (_ && bool_decide _) eqn:E; [|done]. rewrite !andb_true_iff in E. destruct E as [[[E1 _] E2] Hd].
      apply Nat.eqb_eq in E1. apply Z.eqb_eq in E2 as ->. apply bool_decide_eq_true in Hd. cbn.
      split_and!; [done|done|done|].
      intros k Hk. cbn in Hk. destruct (decide (k = w.2)) as [->|]; [by rewrite Hd, <- Hb, Nat2Z.id|]. apply Hr. lia.
  - cbn in *. destruct Hp as [-> Hv]. rewrite Nat2Z.id. split; [lia|].
    pose proof (lookup_lt_Some _ _ _ Hv) as Hlt. rewrite hi_length in Hlt.
    assert (w.2 = 0%nat) as E by (destruct (decide (w.2 = 0%nat)); [done|]; specialize (Hj ltac:(lia)); lia).
    unfold segment. cbn [fst snd]. rewrite E, length_insert. split_and!; [done| |lia|lia].
    intros k Hk. destruct (decide (k = w.1)) as [->|].
    + left. rewrite list_lookup_insert_eq by lia. done.
    + rewrite list_lookup_insert_ne by done. apply Hm. lia.
  - assert (post waiter w c r = w /\ rep waiter w c r) as [-> Hrep].
    { destruct w, c; cbn; try done; try (by specialize (Hnl i)); by specialize (Hns i v). }
    done.
Qed.

Lemma replier_ok m w n c r m' : segment m w n -> pre replier n c -> act m c r m' ->
  rep replier n c r /\ segment m' w (post replier n c r).
Proof.
  intros (Hl & Hm & Hj & Hr) Hp Ha. destruct Ha as [m i b Hb Hi|m i v Hi|m c r Hnl Hns Hv].
  - by cbn.
  - cbn in *. destruct Hp as [-> Hv]. rewrite Nat2Z.id. split; [lia|].
    pose proof (lookup_lt_Some _ _ _ Hv) as Hlt. rewrite hello_length in Hlt.
    unfold segment. rewrite length_insert. split_and!; [done| |done|].
    + intros k Hk. destruct (decide (k = n)) as [->|].
      * right. rewrite list_lookup_insert_eq by lia. split; [lia|done].
      * rewrite list_lookup_insert_ne by done. destruct (Hm k Hk) as [?|[? ?]]; [by left|]. right. split; [lia|done].
    + intros k Hk. destruct (decide (k = n)) as [->|]; [by rewrite list_lookup_insert_eq by lia|].
      rewrite list_lookup_insert_ne by done. by apply Hr.
  - assert (post replier n c r = n /\ rep replier n c r) as [-> Hrep].
    { destruct c; cbn; try done. by specialize (Hns i v). }
    done.
Qed.

(** ** The programs under these monitors *)

Lemma hello_prefix i : (i < 7)%nat -> hello_bytes !! i = lit "Hello!" !! i.
Proof. intros H. do 7 (destruct i as [|i]; [by vm_compute|]). lia. Qed.

(** Stores in order, under a monitor that counts them. *)
Lemma wp_store_bytes {W A} (M : monitor W) (I : nat -> W) bs n (f : unit -> prog A) Q :
  (forall k v, bs !! k = Some v -> pre M (I (n + k)%nat) (c_store (Z.of_nat (n + k)) v) /\
     forall r, post M (I (n + k)%nat) (c_store (Z.of_nat (n + k)) v) r = I (S (n + k))) ->
  wp M (f tt) (I (n + length bs)%nat) Q -> wp M (prog_bind (store_bytes (Z.of_nat n) bs) f) (I n) Q.
Proof.
  revert n. induction bs as [|b bs IH]; intros n Hb Hf; cbn [store_bytes length] in *.
  - by rewrite Nat.add_0_r in Hf.
  - prog_simp. destruct (Hb 0%nat b eq_refl) as [Hp Hr]. rewrite Nat.add_0_r in Hp, Hr.
    apply wp_one; [done|]. intros r _. rewrite Hr. replace (Z.of_nat n + 1) with (Z.of_nat (S n)) by lia.
    apply IH; [|by replace (S n + length bs)%nat with (n + S (length bs))%nat by lia].
    intros k v Hv. destruct (Hb (S k) v Hv) as [Hp' Hr']. by replace (n + S k)%nat with (S n + k)%nat in * by lia.
Qed.

Lemma wp_write_text {W A} (M : monitor W) (I : nat -> W) s bs (f : unit -> prog A) Q :
  length bs = 1024%nat -> strncpy_bytes (lit s) (Z.to_nat (SHM_SIZE - 1)) = Done (take 1023 bs) -> bs !! 1023%nat = Some 0 ->
  (forall k v, bs !! k = Some v -> pre M (I k) (c_store (Z.of_nat k) v) /\
     forall r, post M (I k) (c_store (Z.of_nat k) v) r = I (S k)) ->
  wp M (f tt) (I 1024%nat) Q -> wp M (prog_bind (write_text s) f) (I 0%nat) Q.
Proof.
  intros Hl Hw Hz Hb Hf. unfold write_text. rewrite Hw. cbn [of_outcome]. unfold mbind, prog_mbind, sys_. cbn [prog_bind]. rewrite prog_bind_assoc.
  apply (wp_store_bytes M I (take 1023 bs) 0).
  - intros k v Hk. apply Hb. rewrite lookup_take in Hk. by case_decide.
  - rewrite length_take. replace (0 + 1023 `min` length bs)%nat with 1023%nat by lia. prog_simp.
    destruct (Hb 1023%nat 0 Hz) as [Hp Hr]. apply wp_one; [exact Hp|]. intros r _. by rewrite Hr.
Qed.

(** A string that the monitor knows. *)
Lemma wp_load_known {W A} (M : monitor W) w n i t (f : list Z -> prog A) Q :
  (forall k b, (t ++ [0]) !! k = Some b -> pre M w (c_load (i + Z.of_nat k)) /\
     forall r, rep M w (c_load (i + Z.of_nat k)) r -> r_val r = b /\ post M w (c_load (i + Z.of_nat k)) r = w) ->
  Forall (fun b => b <> 0) t -> (length t < n)%nat ->
  wp M (f t) w Q -> wp M (prog_bind (load_text n i) f) w Q.
Proof.
  intros Hk Ht. revert n i f Hk. induction Ht as [|b t Hb Ht IH]; intros [|n] i f Hk Hn Hf; cbn [length] in Hn; try lia;
    cbn [load_text]; prog_simp.
  - destruct (Hk 0%nat 0 eq_refl) as [Hp Hr]. rewrite Z.add_0_r in Hp, Hr. apply wp_one; [done|].
    intros r Hrr. destruct (Hr r Hrr) as [-> ->]. exact Hf.
  - destruct (Hk 0%nat b eq_refl) as [Hp Hr]. rewrite Z.add_0_r in Hp, Hr. apply wp_one; [done|].
    intros r Hrr. destruct (Hr r Hrr) as [-> ->]. destruct (Z.eqb_spec b 0); [done|].
    unfold mbind, prog_mbind. rewrite prog_bind_assoc. apply IH; [|lia|exact Hf].
    intros k c Hc. specialize (Hk (S k) c Hc). by replace (i + 1 + Z.of_nat k) with (i + Z.of_nat (S k)) by lia.
Qed.

(** A string of which nothing is known. *)
Lemma wp_load_any {W A} (M : monitor W) (I : W -> Prop) n i w (f : list Z -> prog A) Q :
  (forall w j, I w -> pre M w (c_load j) /\ forall r, rep M w (c_load j) r -> I (post M w (c_load j) r)) -> I w ->
  (forall w t, I w -> wp M (f t) w Q) -> (forall w, I w -> Q (Halted (Crashed OutOfBounds)) w) ->
  wp M (prog_bind (load_text n i) f) w Q.
Proof.
  intros HI Hw Hf HQ. revert i w f Hw Hf. induction n as [|n IH]; intros i w f Hw Hf; cbn [load_text]; [by apply HQ|].
  prog_simp. destruct (HI w i Hw) as [Hp Hr]. apply wp_one; [done|]. intros r Hrr.
  destruct (r_val r =? 0); [by apply Hf, Hr|]. unfold mbind, prog_mbind. rewrite prog_bind_assoc. apply IH; [by apply Hr|].
  intros w' t Hw'. by apply Hf.
Qed.

(** The state of a server that has written its message. *)
Definition listening (w : nat * nat) : Prop := w.1 = 1024%nat /\ (w.2 <= 7)%nat.

Lemma waiter_load w j : pre waiter w (c_load j).
Proof. split; [done|by intros ? ?]. Qed.

Lemma listening_load w j : listening w -> pre waiter w (c_load j) /\
  forall r, rep waiter w (c_load j) r -> listening (post waiter w (c_load j) r).
Proof.
  intros [H1 H2]. split; [apply waiter_load|]. intros r Hr. cbn.
  destruct (_ && _) eqn:E; [|done]. split; [done|]. cbn. rewrite !andb_true_iff in E. destruct E as [[[_ E] _] _].
  apply Nat.leb_le in E. lia.
Qed.

(** A comparison with the reply, from the [i]th character on. *)
Lemma wp_differs {A} n i j t (f : bool -> prog A) Q :
  t = drop i (lit "Hello!") -> (i < 7)%nat -> (i <= j <= 7)%nat -> (7 - i <= n)%nat ->
  (forall w, listening w -> wp waiter (f true) w Q) -> wp waiter (f false) (1024, 7)%nat Q ->
  wp waiter (prog_bind (differs n (Z.of_nat i) t) f) (1024, j)%nat Q.
Proof.
  intros Ht Hi Hj Hn Hd He. revert i j n Ht Hi Hj Hn. induction t as [|c t IH]; intros i j n Ht Hi Hj Hn.
  { apply (f_equal length) in Ht. rewrite length_drop in Ht. change (length (lit "Hello!")) with 7%nat in Ht. cbn in Ht. lia. }
  destruct n as [|n]; [lia|]. assert (Hc : hello_bytes !! i = Some c).
  { rewrite hello_prefix by done. rewrite <- (Nat.add_0_r i), <- lookup_drop, <- Ht. done. }
  assert (Ht' : t = drop (S i) (lit "Hello!")) by (by rewrite <- (drop_drop 1 i) || (rewrite <- Nat.add_1_r, <- drop_drop, <- Ht)).
  cbn [differs]. prog_simp. apply wp_one; [apply waiter_load|]. intros r Hr.
  assert (Hc0 : c = 0 <-> i = 6%nat).
  { rewrite hello_prefix in Hc by done. do 7 (destruct i as [|i]; [vm_compute in Hc; injection Hc as <-; split; intros; done || lia|]). lia. }
  assert (Hpost : post waiter (1024, j)%nat (c_load (Z.of_nat i)) r =
    (1024, if (i =? j)%nat && bool_decide (hello_bytes !! j = Some (r_val r)) then S j else j)%nat).
  { cbn. destruct (Nat.eqb_spec i j) as [->|Hne].
    - rewrite Z.eqb_refl. replace (j <=? 6)%nat with true by (symmetry; apply Nat.leb_le; lia). cbn. by case_bool_decide.
    - replace (Z.of_nat i =? Z.of_nat j) with false by lia. by rewrite !andb_false_r. }
  rewrite Hpost. destruct (Z.eqb_spec (r_val r) c) as [Er|Er].
  - assert (exists j', (if (i =? j)%nat && bool_decide (hello_bytes !! j = Some (r_val r)) then S j else j) = j' /\ (S i <= j' <= 7)%nat)
      as (j' & -> & Hj').
    { eexists. split; [done|]. destruct (Nat.eqb_spec i j) as [->|]; cbn [andb]; [|lia].
      rewrite bool_decide_eq_true_2 by congruence. lia. }
    destruct (Z.eqb_spec c 0) as [H0|H0].
    + apply Hc0 in H0. replace j' with 7%nat by lia. exact He.
    + replace (Z.of_nat i + 1) with (Z.of_nat (S i)) by lia. apply IH; [done| |lia|lia].
      assert (i <> 6%nat) by (intros E; by apply H0, Hc0). lia.
  - apply Hd. split; [done|]. cbn [fst snd]. destruct (Nat.eqb_spec i j) as [->|]; cbn [andb]; [|lia].
    rewrite bool_decide_eq_false_2 by congruence. lia.
Qed.

(** The loop ends with the reply in place. *)
Lemma wp_wait_reply {A} fuel w (f : unit -> prog A) Q :
  listening w -> (forall w, Q (Halted Cut) w) -> wp waiter (f tt) (1024, 7)%nat Q ->
  wp waiter (prog_bind (wait_reply fuel) f) w Q.
Proof.
  intros Hw HC Hf. apply wp_bind. unfold wait_reply.
  apply (wp_forever _ (fun _ w => listening w)); [|by intros; apply HC|done].
  clear w Hw. intros [] [k j] [Hk Hj]. cbn in Hk, Hj. subst k. unfold wait_round.
  change (Z.to_nat SHM_SIZE) with (7 + 1017)%nat. apply (wp_differs _ 0 j); [done|lia|lia|lia| |exact Hf].
  intros w Hw. prog_simp. apply wp_one; [split; [done|by intros ? ?]|]. intros r _. cbn. by destruct w.
Qed.

(** The reply as it is read then. *)
Lemma wp_read_reply {A} (f : list Z -> prog A) Q :
  wp waiter (f (str "Hello!")) (1024, 7)%nat Q -> wp waiter (prog_bind read_text f) (1024, 7)%nat Q.
Proof.
  intros Hf. apply (wp_load_known _ _ _ 0 (str "Hello!")); [|repeat constructor; by vm_compute|vm_compute; lia|exact Hf].
  intros k b Hk. change (str "Hello!" ++ [0]) with (lit "Hello!") in Hk. split; [apply waiter_load|].
  assert (k < 7)%nat by (by apply lookup_lt_Some in Hk). intros r Hr. cbn [rep waiter] in Hr.
  specialize (Hr k eq_refl ltac:(done)). rewrite hello_prefix in Hr by done. split; [congruence|done].
Qed.

Ltac pair_pre :=
  lazymatch goal with
  | |- pre waiter _ _ => split; [done|let a := fresh in let H := fresh in intros a H; first [by vm_compute in H | split; [done|by vm_compute in H; injection H]]]
  | |- pre replier _ _ => done
  end.
Ltac pair_steps :=
  repeat first
    [ progress prog_simp
    | lazymatch goal with
      | |- wp _ (Step _ _) _ _ => apply wp_one; [pair_pre|intros ?r ?Hr; cbn [post waiter replier stored fst snd]]
      | |- wp _ (prog_bind (if ?b then _ else _) _) _ _ => destruct b
      | |- wp _ (mbind _ (if ?b then _ else _)) _ _ => destruct b
      | |- wp _ (if ?b then _ else _) _ _ => destruct b
      | |- wp _ (Ret _) _ _ => done
      | |- wp _ (Halt _) _ _ => done
      | |- wp _ (die _ _) _ _ => unfold die; cbn [foreach]
      | |- wp waiter (mbind _ read_text) (1024%nat, 7%nat) _ => apply wp_read_reply
      | |- wp waiter (mbind _ (wait_reply _)) _ _ => apply wp_wait_reply; [first [done | split; cbn; lia]|done|]
      end ].

Definition anyhow {A W} (_ : result A) (_ : W) : Prop := True.

Lemma server_writes {A} (f : unit -> prog A) Q :
  wp waiter (f tt) (1024, 0)%nat Q -> wp waiter (prog_bind (write_text "Hi!") f) (0, 0)%nat Q.
Proof.
  intros Hf. apply (wp_write_text waiter (fun k => (k, 0)%nat) "Hi!" hi_bytes); [done|apply hi_written|by vm_compute| |exact Hf].
  intros k v Hv. split; [split; [done|by intros ? ?]|done].
Qed.

Lemma client_writes {A} (f : unit -> prog A) Q :
  wp replier (f tt) 1024%nat Q -> wp replier (prog_bind (write_text "Hello!") f) 0%nat Q.
Proof.
  intros Hf. apply (wp_write_text replier (fun k => k) "Hello!" hello_bytes); [done|apply hello_written|by vm_compute| |exact Hf].
  intros k v Hv. split; done.
Qed.

Lemma reads_any {A} w (f : list Z -> prog A) Q :
  listening w -> (forall w t, listening w -> wp waiter (f t) w Q) -> (forall w, Q (Halted (Crashed OutOfBounds)) w) ->
  wp waiter (prog_bind read_text f) w Q.
Proof. intros Hw Hf HQ. apply (wp_load_any _ listening); [apply listening_load|done|done|by intros]. Qed.

Lemma client_reads {A} n (f : list Z -> prog A) Q :
  (forall t, wp replier (f t) n Q) -> (forall w, Q (Halted (Crashed OutOfBounds)) w) ->
  wp replier (prog_bind read_text f) n Q.
Proof. intros Hf HQ. apply (wp_load_any _ (fun m => m = n)); [by intros ? ? ->|done|by intros ? t ->|by intros]. Qed.

Lemma posix_server_waits fuel : wp waiter (posix_server fuel) (0, 0)%nat anyhow.
Proof.
  unfold posix_server. pair_steps. unfold posix_server_talk. apply server_writes.
  apply reads_any; [split; cbn; lia| |done]. intros w t Hw. destruct w as [k j]. pose proof Hw as [E _]. cbn in E. subst k.
  pair_steps.
Qed.

Lemma sysv_server_waits fuel : wp waiter (sysv_server fuel) (0, 0)%nat anyhow.
Proof. unfold sysv_server. pair_steps. unfold sysv_server_talk. apply server_writes. pair_steps. Qed.

Lemma posix_client_replies : wp replier posix_client 0%nat anyhow.
Proof.
  unfold posix_client. pair_steps. apply client_reads; [|done]. intros t. pair_steps. apply client_writes.
  apply client_reads; [|done]. intros t'. pair_steps.
Qed.

Lemma sysv_client_replies : wp replier sysv_client 0%nat anyhow.
Proof.
  unfold sysv_client. pair_steps. apply client_reads; [|done]. intros t. pair_steps. apply client_writes. pair_steps.
Qed.

Definition next_call {A} (p : prog A) : option call := match p with Step c _ => Some c | _ => None end.

(** The pairs of programs. *)
Definition exchange (fuel : nat) (server client : prog Z) : Prop :=
  server = posix_server fuel /\ client = posix_client \/ server = sysv_server fuel /\ client = sysv_client.

(** C34 Whatever the segment held before, and however the single loads and stores of the two
    processes are interleaved: when the server reports the reply, it is the whole text
    Hello!, and it stands whole in the segment, never a part of it or a mixture with the
    message of the server. *)
Theorem reply_is_whole fuel server client m m' p q c args :
  exchange fuel server client -> length m = 1024%nat -> steps (m, server, client) (m', p, q) ->
  next_call p = Some c -> reports_reply c = Some args ->
  args = [str "Hello!"] /\ take 7 m' = lit "Hello!".
Proof.
  intros He Hm Hs Hc Ha.
  assert (Ht : together waiter replier segment anyhow anyhow (m, server, client)).
  { exists (0, 0)%nat, 0%nat. split; [split_and!; [done|cbn; lia..]|].
    destruct He as [[-> ->]|[-> ->]]; split;
      auto using posix_server_waits, posix_client_replies, sysv_server_waits, sysv_client_replies. }
  eapply together_rtc in Ht; [|intros; eapply waiter_ok; eassumption|intros; eapply replier_ok; eassumption|exact Hs].
  destruct Ht as (w & n & (Hl & _ & _ & Hr) & Hw & _). destruct p as [| |c' k]; try done. injection Hc as ->.
  destruct Hw as [[_ Hp] _]. destruct (Hp args Ha) as [E ->]. split; [done|]. rewrite E in Hr.
  apply list_eq. intros i. rewrite lookup_take. case_decide as Hi; [by rewrite Hr, hello_prefix|].
  symmetry. apply lookup_ge_None. change (length (lit "Hello!")) with 7%nat. lia.
Qed.

(** * One process running alone *)

Section alone.
Context {A : Type}.

Inductive solo : list Z * prog A -> list Z * prog A -> Prop :=
  | solo_step m c r m' k : act m c r m' -> solo (m, Step c k) (m', k r).

Lemma solo_call m c r k x : (forall i, c <> c_load i) -> (forall i v, c <> c_store i v) -> -1 <= r_val r ->
  rtc solo (m, k r) x -> rtc solo (m, Step c k) x.
Proof. intros. eapply rtc_l; [|done]. constructor. by apply act_other. Qed.

Lemma solo_load m i b k x : m !! Z.to_nat i = Some b -> 0 <= i -> rtc solo (m, k (value_reply b)) x -> rtc solo (m, Step (c_load i) k) x.
Proof. intros. eapply rtc_l; [|done]. constructor. by apply act_load. Qed.

Lemma solo_store_bytes m n bs (f : unit -> prog A) x : (n + length bs <= length m)%nat ->
  rtc solo (take n m ++ bs ++ drop (n + length bs) m, f tt) x ->
  rtc solo (m, prog_bind (store_bytes (Z.of_nat n) bs) f) x.
Proof.
  revert m n. induction bs as [|b bs IH]; intros m n Hn Hx; cbn [store_bytes length] in *.
  - by rewrite Nat.add_0_r, app_nil_l, take_drop in Hx.
  - prog_simp. eapply rtc_l; [constructor; apply act_store; lia|]. rewrite Nat2Z.id.
    replace (Z.of_nat n + 1) with (Z.of_nat (S n)) by lia. apply IH; [rewrite length_insert; lia|].
    assert (E : forall k, (n < k)%nat -> drop k (<[n:=b]> m) = drop k m) by (intros k Hk; by apply drop_insert_lt).
    rewrite E by lia. rewrite (take_S_r _ n b) by (apply list_lookup_insert_eq; lia).
    rewrite take_insert_ge by lia. rewrite <- app_assoc. by replace (S n + length bs)%nat with (n + S (length bs))%nat by lia.
Qed.

Lemma solo_write_text m s bs (f : unit -> prog A) x :
  length m = 1024%nat -> length bs = 1024%nat -> strncpy_bytes (lit s) (Z.to_nat (SHM_SIZE - 1)) = Done (take 1023 bs) ->
  bs !! 1023%nat = Some 0 -> rtc solo (bs, f tt) x -> rtc solo (m, prog_bind (write_text s) f) x.
Proof.
  intros Hm Hl Hw Hz Hx. unfold write_text. rewrite Hw. cbn [of_outcome]. unfold mbind, prog_mbind, sys_. cbn [prog_bind].
  rewrite prog_bind_assoc. apply (solo_store_bytes m 0); [rewrite length_take; lia|]. prog_simp.
  rewrite length_take, take_0, app_nil_l. replace (0 + 1023 `min` length bs)%nat with 1023%nat by lia.
  eapply rtc_l; [constructor; apply act_store; rewrite length_app, length_take, length_drop; unfold SHM_SIZE; lia|].
  replace (<[Z.to_nat (SHM_SIZE - 1):=0]> (take 1023 bs ++ drop 1023 m)) with bs; [done|].
  change (Z.to_nat (SHM_SIZE - 1)) with 1023%nat. rewrite insert_app_r_alt by (rewrite length_take; lia).
  rewrite length_take. replace (1023 - 1023 `min` length bs)%nat with 0%nat by lia.
  destruct (drop 1023 m) as [|y l] eqn:E; [apply (f_equal length) in E; rewrite length_drop in E; cbn in E; lia|].
  assert (l = []) as ->. { apply (f_equal length) in E. rewrite length_drop in E. cbn in E. destruct l; [done|cbn in E; lia]. }
  cbn. rewrite <- (take_S_r bs 1023 0 Hz). symmetry. apply take_ge. lia.
Qed.

Lemma solo_load_text m n i t rest (f : list Z -> prog A) x :
  drop i m = t ++ 0 :: rest -> text t -> (length t < n)%nat -> rtc solo (m, f t) x ->
  rtc solo (m, prog_bind (load_text n (Z.of_nat i)) f) x.
Proof.
  intros Hd Ht. revert n i f Hd. induction Ht as [|b t Hb Ht IH]; intros [|n] i f Hd Hn Hx; cbn [length] in Hn; try lia;
    cbn [load_text]; prog_simp.
  - apply (solo_load _ _ 0); [|lia|exact Hx]. rewrite Nat2Z.id, <- (Nat.add_0_r i), <- lookup_drop, Hd. done.
  - apply (solo_load _ _ b); [rewrite Nat2Z.id, <- (Nat.add_0_r i), <- lookup_drop, Hd; done|lia|]. cbn [r_val value_reply].
    apply nonzero_spec in Hb. destruct (Z.eqb_spec b 0); [done|]. unfold mbind, prog_mbind. rewrite prog_bind_assoc.
    replace (Z.of_nat i + 1) with (Z.of_nat (S i)) by lia. apply IH; [|lia|exact Hx].
    rewrite <- Nat.add_1_r, <- drop_drop, Hd. done.
Qed.

Lemma solo_read_text m t rest (f : list Z -> prog A) x :
  length m = 1024%nat -> m = t ++ 0 :: rest -> text t -> rtc solo (m, f t) x -> rtc solo (m, prog_bind read_text f) x.
Proof.
  intros Hl Hm Ht Hx. apply (solo_load_text m _ 0 t rest); [done|done| |done].
  change (Z.to_nat SHM_SIZE) with 1024%nat. rewrite Hm, length_app in Hl. cbn in Hl. lia.
Qed.

Lemma solo_differs m n i t rest (f : bool -> prog A) x :
  drop i m = t ++ 0 :: rest -> text t -> (length t < n)%nat -> rtc solo (m, f false) x ->
  rtc solo (m, prog_bind (differs n (Z.of_nat i) (t ++ [0])) f) x.
Proof.
  intros Hd Ht. revert n i f Hd. induction Ht as [|b t Hb Ht IH]; intros [|n] i f Hd Hn Hx; cbn [length] in Hn; try lia;
    cbn [app differs]; prog_simp.
  - apply (solo_load _ _ 0); [|lia|exact Hx]. rewrite Nat2Z.id, <- (Nat.add_0_r i), <- lookup_drop, Hd. done.
  - apply (solo_load _ _ b); [rewrite Nat2Z.id, <- (Nat.add_0_r i), <- lookup_drop, Hd; done|lia|]. cbn [r_val value_reply].
    apply nonzero_spec in Hb. rewrite Z.eqb_refl. destruct (Z.eqb_spec b 0); [done|].
    replace (Z.of_nat i + 1) with (Z.of_nat (S i)) by lia. apply IH; [|lia|exact Hx].
    rewrite <- Nat.add_1_r, <- drop_drop, Hd. done.
Qed.

Lemma solo_wait_reply fuel (f : unit -> prog A) x :
  rtc solo (hello_bytes, f tt) x -> rtc solo (hello_bytes, prog_bind (wait_reply (S fuel)) f) x.
Proof.
  intros Hx. unfold wait_reply, wait_round. cbn [forever]. unfold mbind, prog_mbind. rewrite !prog_bind_assoc.
  apply (solo_differs _ _ 0 (str "Hello!") (replicate 1017 0)); [by vm_compute|by repeat constructor|vm_compute; lia|]. exact Hx.
Qed.
End alone.

Lemma solo_left m m' p p' q : rtc solo (m, p) (m', p') -> steps (m, p, q) (m', p', q).
Proof.
  intros H. remember (m, p) as x eqn:E. remember (m', p') as y eqn:E'. revert m p E E'.
  induction H as [x|x y z Hs H IH]; intros m p -> E'; [by injection E' as -> ->|]. inversion Hs; subst.
  eapply rtc_l; [by constructor|]. by apply (IH _ _ eq_refl).
Qed.

Lemma solo_right m m' p q q' : rtc solo (m, q) (m', q') -> steps (m, p, q) (m', p, q').
Proof.
  intros H. remember (m, q) as x eqn:E. remember (m', q') as y eqn:E'. revert m q E E'.
  induction H as [x|x y z Hs H IH]; intros m q -> E'; [by injection E' as -> ->|]. inversion Hs; subst.
  eapply rtc_l; [by constructor|]. by apply (IH _ _ eq_refl).
Qed.

Ltac alone_call r := apply (solo_call _ _ r); [done|done|by cbn|]; cbn [r_val].
Ltac alone_print := prog_simp; alone_call ok0; prog_simp.

Lemma hi_text : hi_bytes = str "Hi!" ++ 0 :: replicate 1020 0.
Proof. by vm_compute. Qed.
Lemma hello_text : hello_bytes = str "Hello!" ++ 0 :: replicate 1017 0.
Proof. by vm_compute. Qed.

Lemma solo_posix_client m t rest : length m = 1024%nat -> m = t ++ 0 :: rest -> text t ->
  rtc solo (m, posix_client) (hello_bytes, Ret 0).
Proof.
  intros Hl Hm Ht. unfold posix_client. prog_simp. alone_call (value_reply 3). cbn. alone_call ok0. cbn.
  apply (solo_read_text m t rest); [done..|]. alone_print.
  apply (solo_write_text m "Hello!" hello_bytes); [done|done|apply hello_written|by vm_compute|].
  apply (solo_read_text _ (str "Hello!") (replicate 1017 0)); [done|apply hello_text|by repeat constructor|].
  alone_print. alone_call ok0. cbn. alone_call ok0. constructor.
Qed.

Lemma solo_sysv_client m t rest : length m = 1024%nat -> m = t ++ 0 :: rest -> text t ->
  rtc solo (m, sysv_client) (hello_bytes, Ret 0).
Proof.
  intros Hl Hm Ht. unfold sysv_client. prog_simp. do 4 (alone_call ok0; cbn).
  apply (solo_read_text m t rest); [done..|]. alone_print.
  apply (solo_write_text m "Hello!" hello_bytes); [done|done|apply hello_written|by vm_compute|].
  alone_print. alone_call ok0. constructor.
Qed.

(** The servers alone: their message is written, then they wait. *)
Lemma solo_posix_talk fuel shm_fd m : length m = 1024%nat ->
  exists p, rtc solo (m, posix_server_talk (S fuel) shm_fd) (hi_bytes, p) /\ rtc solo (hello_bytes, p) (hello_bytes, Ret 0).
Proof.
  intros Hm. eexists. split.
  - apply (solo_write_text m "Hi!" hi_bytes); [done|done|apply hi_written|by vm_compute|].
    apply (solo_read_text _ (str "Hi!") (replicate 1020 0)); [done|apply hi_text|by repeat constructor|].
    alone_print. apply rtc_refl.
  - apply solo_wait_reply. prog_simp.
    apply (solo_read_text _ (str "Hello!") (replicate 1017 0)); [done|apply hello_text|by repeat constructor|].
    alone_print. alone_call ok0. cbn. alone_call ok0. cbn. alone_call ok0. cbn. alone_call ok0. constructor.
Qed.

Lemma solo_sysv_talk fuel shmid m : length m = 1024%nat ->
  exists p, rtc solo (m, sysv_server_talk (S fuel) shmid) (hi_bytes, p) /\ rtc solo (hello_bytes, p) (hello_bytes, Ret 0).
Proof.
  intros Hm. eexists. split.
  - apply (solo_write_text m "Hi!" hi_bytes); [done|done|apply hi_written|by vm_compute|].
    alone_print. apply rtc_refl.
  - apply solo_wait_reply. prog_simp.
    apply (solo_read_text _ (str "Hello!") (replicate 1017 0)); [done|apply hello_text|by repeat constructor|].
    alone_print. alone_call ok0. cbn. alone_call ok0. cbn. alone_call ok0. constructor.
Qed.

(** The servers up to the point where the segment is mapped. *)
Lemma solo_posix_server fuel m : rtc solo (m, posix_server fuel) (m, posix_server_talk fuel 3).
Proof. unfold posix_server. prog_simp. alone_call (value_reply 3). cbn. alone_call ok0. cbn. alone_call ok0. constructor. Qed.

Lemma solo_sysv_server fuel m : rtc solo (m, sysv_server fuel) (m, sysv_server_talk fuel 0).
Proof. unfold sysv_server. prog_simp. do 4 (alone_call ok0; cbn). constructor. Qed.

(** What is left of a server that has mapped the segment. *)
Definition talks (fuel : nat) (server talk : prog Z) : Prop :=
  server = posix_server fuel /\ talk = posix_server_talk fuel 3 \/ server = sysv_server fuel /\ talk = sysv_server_talk fuel 0.

Lemma server_maps fuel server client : exchange fuel server client -> exists talk, talks fuel server talk /\
  forall m, rtc solo (m, server) (m, talk).
Proof.
  intros [[-> ->]|[-> ->]]; eexists; (split; [|intros m; apply solo_posix_server || apply solo_sysv_server]); [by left|by right].
Qed.

Lemma client_alone fuel server client m t rest : exchange fuel server client ->
  length m = 1024%nat -> m = t ++ 0 :: rest -> text t -> rtc solo (m, client) (hello_bytes, Ret 0).
Proof. intros [[_ ->]|[_ ->]]; [apply solo_posix_client|apply solo_sysv_client]. Qed.

(** An exchange can complete: whatever the segment of 1024 bytes held before, when the
    client starts after the server has written its message, both processes run to a return
    of 0 and the reply is left in the segment. *)
Theorem exchange_completes fuel server client m :
  exchange (S fuel) server client -> length m = 1024%nat ->
  steps (m, server, client) (hello_bytes, Ret 0, Ret 0).
Proof.
  intros He Hm. destruct (server_maps _ _ _ He) as (talk & Ht & Hmap).
  assert (exists p, rtc solo (m, talk) (hi_bytes, p) /\ rtc solo (hello_bytes, p) (hello_bytes, Ret 0)) as (p & H1 & H2).
  { destruct Ht as [[_ ->]|[_ ->]]; [by apply solo_posix_talk|by apply solo_sysv_talk]. }
  transitivity (hi_bytes, p, client); [apply solo_left; by rewrite Hmap|].
  transitivity (hello_bytes, p, Ret 0); [|by apply solo_left].
  apply solo_right. eapply client_alone; [exact He|done|apply hi_text|by repeat constructor].
Qed.

(** * An early client loses its reply *)

(** The server that overwrites the reply: its stores, and no report. *)
Definition deaf : monitor nat := Monitor
  (fun n c => in_order hi_bytes n c /\ reports_reply c = None)
  (fun n c r => match c with
     | c_load i => n = 1024%nat -> forall k : nat, i = Z.of_nat k -> hi_bytes !! k = Some (r_val r)
     | _ => -1 <= r_val r
     end)
  (fun n c _ => stored n c).
Definition gone : monitor unit := Monitor (fun _ _ => False) (fun _ _ _ => True) (fun _ _ _ => tt).

Definition overwritten (m : list Z) (n : nat) (_ : unit) : Prop :=
  length m = 1024%nat /\ forall i, (i < n)%nat -> m !! i = hi_bytes !! i.

Lemma deaf_ok m n u c r m' : overwritten m n u -> pre deaf n c -> act m c r m' ->
  rep deaf n c r /\ overwritten m' (post deaf n c r) u.
Proof.
  intros (Hl & Hm) [Hp _] Ha. destruct Ha as [m i b Hb Hi|m i v Hi|m c r Hnl Hns Hv].
  - cbn in *. split; [|done]. intros -> k ->. rewrite Nat2Z.id in Hb. rewrite <- Hm, Hb; [done|].
    apply lookup_lt_Some in Hb. lia.
  - cbn in *. destruct Hp as [-> Hv]. rewrite Nat2Z.id. split; [lia|]. split; [by rewrite length_insert|].
    intros k Hk. destruct (decide (k = n)) as [->|].
    + rewrite list_lookup_insert_eq by lia. done.
    + rewrite list_lookup_insert_ne by done. apply Hm. lia.
  - assert (post deaf n c r = n /\ rep deaf n c r) as [-> Hrep]; [|done].
    destruct c; cbn; try done; try (by edestruct Hnl); by edestruct Hns.
Qed.

Lemma wp_wait_deaf {A} fuel (f : unit -> prog A) : wp deaf (prog_bind (wait_reply fuel) f) 1024%nat anyhow.
Proof.
  apply wp_bind. unfold wait_reply. apply (wp_forever _ (fun _ n => n = 1024%nat)); [|done|done].
  intros [] n ->. unfold wait_round. 
  assert (exists n t, Z.to_nat SHM_SIZE = S (S n) /\ lit "Hello!" = 72 :: 101 :: t) as (n & t & -> & ->)
    by (by exists 1022%nat, (str "llo!" ++ [0])).
  cbn [differs]. prog_simp.
  apply wp_one; [done|]. intros r0 H0. pose proof (H0 eq_refl 0%nat eq_refl) as E0.
  rewrite hi_text in E0. injection E0 as <-. cbn [Z.eqb Pos.eqb post deaf stored]. prog_simp.
  apply wp_one; [done|]. intros r1 H1. pose proof (H1 eq_refl 1%nat eq_refl) as E1.
  rewrite hi_text in E1. injection E1 as <-. cbn [Z.eqb Pos.eqb post deaf stored]. prog_simp.
  apply wp_one; [done|]. intros r2 _. done.
Qed.

Lemma deaf_writes {A} (f : unit -> prog A) Q :
  wp deaf (f tt) 1024%nat Q -> wp deaf (prog_bind (write_text "Hi!") f) 0%nat Q.
Proof.
  intros Hf. apply (wp_write_text deaf (fun k => k) "Hi!" hi_bytes); [done|apply hi_written|by vm_compute| |exact Hf].
  intros k v Hv. done.
Qed.

Lemma deaf_reads {A} (f : list Z -> prog A) Q :
  wp deaf (f (str "Hi!")) 1024%nat Q -> wp deaf (prog_bind read_text f) 1024%nat Q.
Proof.
  intros Hf. apply (wp_load_known _ _ _ 0 (str "Hi!")); [|repeat constructor; by vm_compute|vm_compute; lia|exact Hf].
  intros k b Hk. split; [done|]. assert (k < 4)%nat by (by apply lookup_lt_Some in Hk). intros r Hr. cbn [rep deaf] in Hr.
  specialize (Hr eq_refl k eq_refl). rewrite hi_text in Hr. split; [|done].
  do 4 (destruct k as [|k]; [cbn in Hr, Hk; congruence|]). lia.
Qed.

Lemma talk_is_deaf fuel server talk : talks fuel server talk -> wp deaf talk 0%nat anyhow.
Proof.
  intros [[_ ->]|[_ ->]].
  - unfold posix_server_talk. apply deaf_writes, deaf_reads. prog_simp. apply wp_one; [done|]. intros r _. apply wp_wait_deaf.
  - unfold sysv_server_talk. apply deaf_writes. prog_simp. apply wp_one; [done|]. intros r _. apply wp_wait_deaf.
Qed.


(** * The theorems on concrete segments *)

(** A new segment, and one that still holds a text of its last use. *)
Definition fresh : list Z := replicate 1024 0.
Definition used : list Z := str "old" ++ replicate 1021 0.

Lemma server_hears : exists p, steps (used, sysv_server 1, sysv_client) (hello_bytes, p, Ret 0) /\
  next_call p = Some (c_print "Server: Received reply from client: '%s'\n" [str "Hello!"]).
Proof.
  eexists. split.
  - etransitivity; [apply solo_left, solo_sysv_server|]. unfold sysv_server_talk.
    etransitivity; [apply solo_left, (solo_write_text used "Hi!" hi_bytes); [done|done|apply hi_written|by vm_compute|]; alone_print; apply rtc_refl|].
    etransitivity; [apply solo_right, (solo_sysv_client _ (str "Hi!") (replicate 1020 0)); [done|apply hi_text|by repeat constructor]|].
    apply solo_left, solo_wait_reply. prog_simp.
    apply (solo_read_text _ (str "Hello!") (replicate 1017 0)); [done|apply hello_text|by repeat constructor|]. apply rtc_refl.
  - done.
Qed.

Lemma reply_is_whole_witness : exists m p, steps (used, sysv_server 1, sysv_client) (m, p, Ret 0) /\
  next_call p = Some (c_print "Server: Received reply from client: '%s'\n" [str "Hello!"]) /\ take 7 m = lit "Hello!".
Proof.
  destruct server_hears as (p & Hs & Hc). exists hello_bytes, p. split_and!; [done|done|].
  refine (proj2 (reply_is_whole 1 (sysv_server 1) sysv_client used hello_bytes p (Ret 0) _ [str "Hello!"] _ _ Hs Hc eq_refl)).
  - right. done.
  - reflexivity.
Defined.

Lemma exchange_completes_witness : steps (used, posix_server 1, posix_client) (hello_bytes, Ret 0, Ret 0).
Proof. apply (exchange_completes 0); [by left|reflexivity]. Defined.

