(* ===== verification/ChatShmMain.v ===== *)
(** The programs of src/hw14_shmemory/part2 over system calls: the creation and mapping of
    the segment, the name and the lines that are typed, the order in which a client joins,
    talks and leaves. What a process does between [sem_wait] and [sem_post] is one call
    here, [c_section], whose effect on the room is the section of ChatShm ([room_act]);
    that the sections cannot be seen half done is [ChatShm.room_consistent]. *)

From stdpp Require Import relations.
From S2P Require Import Prelude CInt CStr Stdio Sys ChatShm.

Definition MAX_NAME_LEN : Z := 32.
Definition MAX_MSG_LEN : Z := 256.
Definition SIZEOF_ROOM : Z := 14808.
Definition ncurses_mutex : Z := 1.

(** * The server *)

Definition server_round (_ : unit) : prog (unit + unit) :=
  sys_ (c_section "report" []);; sys_ (c_sleep 5);; Ret (inl tt).

Definition server_main (fuel : nat) : prog Z :=
  shm_fd ← sys (c_shm_open SHM_NAME true);
  if shm_fd =? -1 then sys_ (c_perror "shm_open");; exit 1 else
  t ← sys (c_ftruncate shm_fd SIZEOF_ROOM);
  if t =? -1 then sys_ (c_perror "ftruncate");; exit 1 else
  m ← sys (c_mmap shm_fd SIZEOF_ROOM);
  if m =? -1 then sys_ (c_perror "mmap");; exit 1 else
  sys_ (c_section "init" []);;
  sys_ (c_print "Chat server started with shared memory and semaphore.\n" []);;
  forever fuel server_round tt;;
  sys_ (c_munmap SIZEOF_ROOM);;
  sys_ (c_shm_unlink SHM_NAME);;
  Ret 0.

(** * The client *)

(** The second thread: the windows are drawn inside the section, and the mutex is taken
    and released after it with nothing in between. *)
Definition receive_round (_ : unit) : prog (unit + unit) :=
  sys_ (c_section "look" []);;
  sys_ (c_lock ncurses_mutex);;
  sys_ (c_unlock ncurses_mutex);;
  sys_ (c_usleep 200000);;
  Ret (inl tt).
Definition receive_thread (fuel : nat) : prog unit := forever fuel receive_round tt.

Definition init_windows : prog unit :=
  foreach ["initscr"; "cbreak"; "noecho"; "curs_set"; "getmaxyx"; "newwin(win_chat)"; "scrollok";
           "box(win_chat)"; "mvwprintw(win_chat)"; "wrefresh(win_chat)"; "newwin(win_users)";
           "box(win_users)"; "mvwprintw(win_users)"; "wrefresh(win_users)"; "newwin(win_input)";
           "box(win_input)"; "mvwprintw(win_input)"; "mvwprintw(win_input)"; "wrefresh(win_input)"]%string
    (fun op _ => sys_ (c_curses op [])) tt.

(** One line: [q] ends the loop, anything else is said. *)
Definition input_round (client_name input : list Z) : prog (list Z + unit) :=
  sys_ (c_lock ncurses_mutex);;
  sys_ (c_curses "werase(win_input)" []);;
  sys_ (c_curses "box(win_input)" []);;
  sys_ (c_curses "mvwprintw(win_input)" [str " Input (type 'q' to quit) "]);;
  sys_ (c_curses "mvwprintw(win_input)" [str "> "]);;
  sys_ (c_curses "wmove(win_input)" []);;
  sys_ (c_curses "echo" []);;
  sys_ (c_curses "wrefresh(win_input)" []);;
  sys_ (c_unlock ncurses_mutex);;
  '(n, data) ← sys_data (c_wgetnstr (MAX_MSG_LEN - 1));
  input ← of_outcome (put_at input 0 (data ++ [0]));
  is_q ← of_outcome (streq input (lit "q"));
  if (is_q : bool) then Ret (inr tt)
  else
    sys_ (c_section "say" [client_name; input]);;
    Ret (inl input).

(** [stack] is what the array [input] holds before the first line. *)
Definition client_main (fuel : nat) (stack : list Z) : prog Z :=
  sys_ (c_print "Enter your name: " []);;
  '(n, data) ← sys_data (c_gets MAX_NAME_LEN);
  if n <? 0 then sys_ (c_print "Failed to read name\n" []);; exit 1 else
  nm ← of_outcome (put_at (replicate 32 0) 0 (data ++ [0]));
  client_name ← of_outcome (chomp nm);
  len ← of_outcome (strlen client_name);
  if len =? 0 then sys_ (c_print "Empty name not allowed\n" []);; exit 1 else
  shm_fd ← sys (c_shm_open SHM_NAME false);
  if shm_fd =? -1 then sys_ (c_perror "shm_open");; exit 1 else
  m ← sys (c_mmap shm_fd SIZEOF_ROOM);
  if m =? -1 then sys_ (c_perror "mmap");; exit 1 else
  client_idx ← sys (c_section "join" [client_name]);
  if client_idx =? -1 then sys_ (c_print "Chat room is full. Cannot join.\n" []);; exit 1 else
  init_windows;;
  sys_ c_thread_create;;
  forever fuel (input_round client_name) stack;;
  sys_ (c_section "leave" [[client_idx]]);;
  sys_ c_thread_cancel;;
  sys_ c_thread_join;;
  sys_ (c_munmap SIZEOF_ROOM);;
  sys_ (c_curses "endwin" []);;
  Ret 0.

(** * The room they share *)

Definition member (nm : list Z) (idx : Z) (input : list Z) : process := Process nm idx input 0 0 0 [].

(** What a call does to the room and what it answers. *)
Inductive room_act : chat_room_t -> call -> reply -> chat_room_t -> Prop :=
  | act_init r : room_act r (c_section "init" []) ok0 (init_room (clients r) (messages r))
  | act_join r nm r' p' : section join_section (r, member nm (-1) (replicate 256 0)) = Done (r', p') ->
      room_act r (c_section "join" [nm]) (value_reply (client_idx p')) r'
  | act_say r nm input r' p' : section say_section (r, member nm 0 input) = Done (r', p') ->
      room_act r (c_section "say" [nm; input]) ok0 r'
  | act_leave r idx r' p' : section leave_section (r, member [] idx []) = Done (r', p') ->
      room_act r (c_section "leave" [[idx]]) ok0 r'
  | act_see r nm : nm = "look"%string \/ nm = "report"%string -> room_act r (c_section nm []) ok0 r
  | act_call r c x : (forall nm args, c <> c_section nm args) -> -1 <= r_val x ->
      (forall n, c = c_gets n -> 0 <= r_val x -> Z.of_nat (length (r_data x)) < n) ->
      (forall n, c = c_wgetnstr n -> Z.of_nat (length (r_data x)) <= n) ->
      room_act r c x r.

Definition room_steps : configuration (S := chat_room_t) (A := Z) (B := Z) -> configuration -> Prop := rtc (pair_step room_act).

(** * A client among others *)

(** Where a client is: it has not joined, it has a slot, or it has given it back. *)
Inductive seat := Lobby | Member (nm : list Z) (idx : Z) | Left.

(** The sections a client may enter, and with which arguments. *)
Inductive may : seat -> call -> Prop :=
  | may_join nm : length nm = 32%nat -> terminated nm -> cstr nm <> [] -> may Lobby (c_section "join" [nm])
  | may_say nm i input : length input = 256%nat -> terminated input -> cstr input <> str "q" ->
      may (Member nm i) (c_section "say" [nm; input])
  | may_leave nm i : may (Member nm i) (c_section "leave" [[i]])
  | may_call w c : (forall n args, c <> c_section n args) -> may w c.

Definition moved (w : seat) (c : call) (x : reply) : seat :=
  match c with
  | c_section n args =>
      if String.eqb n "join" then
        match args with [nm] => if r_val x =? -1 then Lobby else Member nm (r_val x) | _ => w end
      else if String.eqb n "leave" then Left else w
  | _ => w
  end.

Definition answered (w : seat) (c : call) (x : reply) : Prop :=
  -1 <= r_val x /\
  match c with
  | c_gets n => 0 <= r_val x -> Z.of_nat (length (r_data x)) < n
  | c_wgetnstr n => Z.of_nat (length (r_data x)) <= n
  | _ => True
  end.

(** The name that a client has when it joins is the one it keeps. *)
Definition named (w : seat) : Prop :=
  match w with Member nm _ => length nm = 32%nat /\ terminated nm | _ => True end.

Definition visitor : monitor seat := Monitor may answered moved.

(** A client that has ended has no slot; one that is observed in its loop has one. *)
Definition at_end (res : result Z) (w : seat) : Prop :=
  match res with
  | Returned _ => w = Left
  | Halted (Exited _) => w = Lobby
  | Halted Cut => exists nm i, w = Member nm i
  | Halted (Crashed _) => False
  end.

Ltac visit := apply wp_one; [apply may_call; done|intros ?r ?Hr; cbn [post visitor moved]].

Lemma wp_windows {A} w (f : unit -> prog A) Q : wp visitor (f tt) w Q -> wp visitor (prog_bind init_windows f) w Q.
Proof. intros H. unfold init_windows. cbn [foreach]. prog_simp. do 19 (visit; prog_simp). exact H. Qed.

Lemma input_round_says nm i input w : length input = 256%nat -> w = Member nm i ->
  wp visitor (input_round nm input) w (fun r w' => w' = Member nm i /\
    match r with Returned (inl input') => length input' = 256%nat | Returned (inr _) => True | Halted _ => False end).
Proof.
  intros Hi ->. unfold input_round. prog_simp. do 9 (visit; prog_simp). visit. destruct Hr8 as [_ Hd].
  unfold MAX_MSG_LEN in Hd. assert (Hl : (length (r_data r8) < 256)%nat) by lia.
  rewrite put_at_ok by (rewrite ?length_app; cbn [length]; lia). change (Z.to_nat 0) with 0%nat. rewrite take_0, app_nil_l.
  cbn [of_outcome mbind prog_mbind prog_bind]. set (line := _ ++ drop _ input).
  assert (Hlen : length line = 256%nat) by (unfold line; rewrite !length_app, length_drop; cbn [length]; lia).
  assert (Ht : terminated line) by (unfold line, terminated; rewrite !elem_of_app; left; right; by left).
  rewrite streq_terminated by (done || (apply elem_of_app; right; by left)).
  cbn [of_outcome mbind prog_mbind prog_bind]. case_bool_decide as Hq; [done|]. prog_simp.
  apply wp_one; [constructor; [done|done|by intros E; apply Hq; rewrite E]|]. intros x _. done.
Qed.

Lemma client_visits fuel stack : length stack = 256%nat -> wp visitor (client_main fuel stack) Lobby at_end.
Proof.
  intros Hs. unfold client_main. prog_simp. visit. prog_simp. visit. prog_simp.
  destruct (Z.ltb_spec (r_val r0) 0) as [|H0]; [prog_simp; visit; done|].
  destruct Hr0 as [_ Hd]. specialize (Hd H0). unfold MAX_NAME_LEN in Hd.
  destruct (line_of_read 32 (replicate 32 0) (r_data r0)) as (i1 & q & E1 & _ & E2 & Hl & Ht); [done|lia|].
  rewrite E1. cbn [of_outcome mbind prog_mbind prog_bind]. rewrite E2. cbn [of_outcome mbind prog_mbind prog_bind].
  set (nm := line_of (r_data r0)) in *. rewrite strlen_app by done. cbn [of_outcome mbind prog_mbind prog_bind].
  destruct (Z.eqb_spec (Z.of_nat (length nm)) 0) as [|Hne]; [prog_simp; visit; done|]. prog_simp.
  visit. destruct (r_val r1 =? -1); [prog_simp; visit; done|]. prog_simp.
  visit. destruct (r_val r2 =? -1); [prog_simp; visit; done|]. prog_simp.
  apply wp_one; [constructor; [done|apply elem_of_app; right; by left|rewrite cstr_app by done; by destruct nm]|].
  intros r3 Hr3. cbn [post visitor moved String.eqb Ascii.eqb Bool.eqb].
  destruct (Z.eqb_spec (r_val r3) (-1)); [prog_simp; visit; done|].
  apply wp_windows. prog_simp. visit.
  apply wp_bind. apply (wp_forever _ (fun input w => length input = 256%nat /\ w = Member (nm ++ 0 :: q) (r_val r3))); [| |done].
  - intros input w [Hi ->]. eapply wp_mono; [|by apply input_round_says].
    intros [[input'|[]]|h] w' [-> Hx]; [done| |done]. cbn [seq_post]. prog_simp.
    apply wp_one; [constructor|]. intros x _. cbn [post visitor moved String.eqb Ascii.eqb Bool.eqb]. do 4 (visit; prog_simp). done.
  - intros input w [_ ->]. by eexists _, _.
Qed.

(** ** Two clients and the room *)

Definition seats (w : seat) : Z := match w with Member _ _ => 1 | _ => 0 end.
Definition idx_of (w : seat) : option Z := match w with Member _ i => Some i | _ => None end.

(** The slot of a client is active. *)
Definition seated (r : chat_room_t) (w : seat) : Prop :=
  named w /\ forall i, idx_of w = Some i -> 0 <= i /\ exists c, clients r !! Z.to_nat i = Some c /\ c_active c <> 0.

(** The room is in order, the two own different slots, and [k] slots belong to others. *)
Record shared (k : Z) (r : chat_room_t) (w1 w2 : seat) : Prop := Shared {
  sh_room : room_ok r;
  sh_left : seated r w1;
  sh_right : seated r w2;
  sh_distinct : forall i, idx_of w1 = Some i -> idx_of w2 = Some i -> False;
  sh_count : client_count r = k + seats w1 + seats w2 }.

Lemma shared_sym k r w1 w2 : shared k r w1 w2 -> shared k r w2 w1.
Proof. intros []. split; [done..| |lia]. intros i H1 H2. by apply (sh_distinct0 i). Qed.

Lemma vars_ok_member nm idx input : length nm = 32%nat -> terminated nm -> length input = 256%nat -> terminated input ->
  vars_ok (member nm idx input).
Proof. by split. Qed.

(** Another slot than [i] is as it was. *)
Lemma seated_other r i c n w : seated r w -> idx_of w <> Some (Z.of_nat i) -> seated (with_client r i c n) w.
Proof.
  intros [Hn Hs] Hne. split; [done|]. intros j Hj. destruct (Hs j Hj) as (H0 & d & Hd & Ha). split; [done|]. exists d.
  split; [|done]. cbn. rewrite list_lookup_insert_ne; [done|]. intros ->. apply Hne. rewrite Hj. f_equal. lia.
Qed.

Lemma visitor_ok k r w1 w2 c x r' : shared k r w1 w2 -> may w1 c -> room_act r c x r' ->
  answered w1 c x /\ shared k r' (moved w1 c x) w2.
Proof.
  intros H Hm Ha. destruct H as [Hr [Hn1 H1] H2 Hd Hc]. destruct Ha as [r|r nm r' p' E|r nm input r' p' E|r idx r' p' E|r nm _|r c x Hns Hx Hg Hw];
    inversion Hm as [nm' Hl Ht Hne|nm' i input' Hl Ht Hq|nm' i|w c' Hns']; subst; try (by edestruct Hns); try (by edestruct Hns').
  - destruct (join_section_run r (member nm (-1) (replicate 256 0)) Hr) as [E'|(i & c & n & Hi & Hin & E' & Hln & Htn & _)].
    { apply vars_ok_member; try done. by apply elem_of_replicate. }
    + rewrite E' in E. injection E as <- <-. split; [done|]. by split.
    + rewrite E' in E. injection E as <- <-. cbn [client_idx set_idx set_pos value_reply r_val moved String.eqb Ascii.eqb Bool.eqb].
      destruct (Z.eqb_spec (Z.of_nat i) (-1)); [lia|]. split; [split; [cbn; lia|done]|]. pose proof (lookup_lt_Some _ _ _ Hi).
      assert (Hfree : idx_of w2 <> Some (Z.of_nat i)).
      { intros Hj. destruct H2 as [_ H2]. destruct (H2 _ Hj) as (_ & d & Hdd & Ha). rewrite Nat2Z.id in Hdd. congruence. }
      split.
      * apply (with_client_ok _ i c); try done. cbn. rewrite Hin. cbn. lia.
      * split; [done|]. intros j [= <-]. split; [lia|]. rewrite Nat2Z.id. exists (Client n 1). split; [|done].
        cbn. by apply list_lookup_insert_eq.
      * by apply seated_other.
      * intros j [= <-]. done.
      * cbn [client_count with_client seats]. cbn in Hc. lia.
  - destruct Hn1 as [Hn Htn]. destruct (say_section_run r (member nm 0 input) Hr) as (m & E' & Hf & Hmn & Hmt & _).
    { by apply vars_ok_member. }
    rewrite E' in E. injection E as <- <-. split; [done|]. split; [by apply said_room_ok|done..].
  - destruct (H1 idx eq_refl) as (H0 & c & Hi & Hact). rewrite (leave_section_run r (member [] idx []) c Hr H0 Hi) in E.
    injection E as <- <-. split; [done|]. pose proof (lookup_lt_Some _ _ _ Hi).
    assert (Hcl : length (c_name c) = 32%nat) by (pose proof (ro_names r Hr) as F; rewrite Forall_lookup in F; by apply (F _ _ Hi)).
    cbn [moved String.eqb Ascii.eqb Bool.eqb client_idx member]. split.
    + apply (with_client_ok _ _ c); try done. cbn. destruct (Z.eqb_spec (c_active c) 0); [done|lia].
    + by split.
    + apply seated_other; [done|]. rewrite Z2Nat.id by done. intros Hj. by apply (Hd idx).
    + done.
    + cbn [client_count with_client seats]. cbn in Hc. lia.
  - split.
    + split; [done|]. match goal with |- match ?c with _ => _ end => destruct c end; try done; [by apply Hw|by apply Hg].
    + match goal with |- shared _ _ (moved _ ?c _) _ => assert (moved w1 c x = w1) as -> by (destruct c; try done; by edestruct Hns) end. by split.
Qed.

Definition ended (p : prog Z) : bool := match p with Ret _ | Halt (Exited _) => true | _ => false end.

(** C23 Two clients run as whole programs in one room, whatever the others in it did before,
    whatever is typed and answered, and however their sections are interleaved: the room
    stays in order, neither client has undefined behaviour, and when both have ended, by
    [q] or by an error, the room counts as many clients as before. *)
Theorem clients_give_back r r' fuel1 fuel2 stack1 stack2 p q :
  room_ok r -> length stack1 = 256%nat -> length stack2 = 256%nat ->
  room_steps (r, client_main fuel1 stack1, client_main fuel2 stack2) (r', p, q) ->
  room_ok r' /\ (forall u, p <> Halt (Crashed u) /\ q <> Halt (Crashed u)) /\
  (ended p = true -> ended q = true -> client_count r' = client_count r).
Proof.
  intros Hr H1 H2 Hs.
  assert (Ht : together visitor visitor (shared (client_count r)) at_end at_end (r, client_main fuel1 stack1, client_main fuel2 stack2)).
  { exists Lobby, Lobby. split_and!; [split; try done; cbn; lia|by apply client_visits..]. }
  eapply together_rtc in Ht; [|intros; by eapply visitor_ok| |exact Hs].
  2: { intros s w1 w2 c x s' HJ Hp Ha. destruct (visitor_ok _ _ _ _ _ _ _ (shared_sym _ _ _ _ HJ) Hp Ha) as [? ?].
       split; [done|by apply shared_sym]. }
  destruct Ht as (w1 & w2 & [Hok _ _ _ Hc] & Hw1 & Hw2). split; [done|]. split.
  - intros u. split; intros ->; [exact Hw1|exact Hw2].
  - destruct p as [a|[s|u|]|]; try done; destruct q as [b|[t|v|]|]; try done; intros _ _; cbn in Hw1, Hw2; subst; cbn in Hc; lia.
Qed.

(** The server only uses the descriptor it opened, and on no path is the object removed:
    not after a failed [ftruncate] or [mmap], and the loop before [shm_unlink] never ends. *)
Lemma server_object_stays fuel : wp kernel (server_main fuel) start (fun res w =>
  res = Halted (Exited 1) /\ (fds w = ∅ \/ SHM_NAME ∈ names w) \/ res = Halted Cut /\ SHM_NAME ∈ names w).
Proof.
  unfold server_main.
  repeat (wp_step; try (exfalso; lia); try (left; split; [done|first [by left|right; cbn; set_solver]])).
  apply wp_bind. apply (wp_forever _ (fun _ w => SHM_NAME ∈ names w)).
  - intros [] w Hw. unfold server_round. by wp_steps.
  - intros _ w Hw. by right.
  - cbn. set_solver.
Qed.

(** * A player, and a concrete run *)

(** The answer to a call when every system call succeeds and the lines that are read are
    the next of [lines]. *)
Definition section_result (r : chat_room_t) (n : string) (args : list (list Z)) : option (reply * chat_room_t) :=
  let ran (m : outcome state) (f : process -> Z) :=
    match m with Done (r', p) => Some (value_reply (f p), r') | Undef _ => None end in
  match args with
  | [nm] =>
      if String.eqb n "join" then ran (section join_section (r, member nm (-1) (replicate 256 0))) client_idx
      else if String.eqb n "leave" then
        match nm with [idx] => ran (section leave_section (r, member [] idx [])) (fun _ => 0) | _ => None end
      else None
  | [nm; input] => if String.eqb n "say" then ran (section say_section (r, member nm 0 input)) (fun _ => 0) else None
  | _ => None
  end.

Definition answer (r : chat_room_t) (c : call) (lines : list (list Z)) : option (reply * chat_room_t * list (list Z)) :=
  match c with
  | c_section n args => '(x, r') ← section_result r n args; Some (x, r', lines)
  | c_gets n | c_wgetnstr n =>
      match lines with
      | l :: rest => if Z.of_nat (length l) <? n then Some (data_reply l, r, rest) else None
      | [] => None
      end
  | _ => Some (ok0, r, lines)
  end.

Lemma section_result_ok r n args x r' : section_result r n args = Some (x, r') -> room_act r (c_section n args) x r'.
Proof.
  unfold section_result. intros H. destruct args as [|nm [|input [|]]]; try done.
  - destruct (String.eqb_spec n "join") as [->|_].
    { destruct (section join_section _) as [[r1 p1]|] eqn:E; [|done]. injection H as <- <-. by apply act_join with (p' := p1). }
    destruct (String.eqb_spec n "leave") as [->|_]; [|done]. destruct nm as [|idx [|]]; try done.
    destruct (section leave_section _) as [[r1 p1]|] eqn:E; [|done]. injection H as <- <-. by apply act_leave with (p' := p1).
  - destruct (String.eqb_spec n "say") as [->|_]; [|done].
    destruct (section say_section _) as [[r1 p1]|] eqn:E; [|done]. injection H as <- <-. by apply act_say with (p' := p1).
Qed.

Lemma answer_ok r c lines x r' rest : answer r c lines = Some (x, r', rest) -> room_act r c x r'.
Proof.
  unfold answer. intros H.
  destruct c; try (injection H as <- <- <-; by apply act_call).
  - destruct (section_result r name args) as [[x1 r1]|] eqn:E; [|done]. injection H as <- <- <-. by apply section_result_ok.
  - destruct lines as [|l rest']; [done|]. destruct (Z.ltb_spec (Z.of_nat (length l)) n); [|done]. injection H as <- <- <-.
    apply act_call; [done|cbn; lia|done|]. intros m [= <-]. cbn. lia.
  - destruct lines as [|l rest']; [done|]. destruct (Z.ltb_spec (Z.of_nat (length l)) n); [|done]. injection H as <- <- <-.
    apply act_call; [done|cbn; lia| |done]. intros m [= <-] _. done.
Qed.

(** [n] calls of the first client, or of the second. *)
Fixpoint play (n : nat) (lines : list (list Z)) (r : chat_room_t) (p : prog Z) : option (list (list Z) * chat_room_t * prog Z) :=
  match n, p with
  | S n', Step c k => '(x, r', rest) ← answer r c lines; play n' rest r' (k x)
  | _, _ => Some (lines, r, p)
  end.

Lemma play_left n lines r p q rest r' p' : play n lines r p = Some (rest, r', p') -> room_steps (r, p, q) (r', p', q).
Proof.
  revert lines r p. induction n as [|n IH]; intros lines r p H; cbn in H; [by injection H as <- <- <-|].
  destruct p as [| |c k]; [by injection H as <- <- <-..|].
  destruct (answer r c lines) as [[[x r1] rest1]|] eqn:E; [|done]. apply answer_ok in E.
  eapply rtc_l; [by apply step_left|by eapply IH].
Qed.

Lemma play_right n lines r p q rest r' q' : play n lines r q = Some (rest, r', q') -> room_steps (r, p, q) (r', p, q').
Proof.
  revert lines r q. induction n as [|n IH]; intros lines r q H; cbn in H; [by injection H as <- <- <-|].
  destruct q as [| |c k]; [by injection H as <- <- <-..|].
  destruct (answer r c lines) as [[[x r1] rest1]|] eqn:E; [|done]. apply answer_ok in E.
  eapply rtc_l; [by apply step_right|by eapply IH].
Qed.

(** The first makes [n] calls, then the second all of its own, then the first the rest. *)
Definition nested (n fuel : nat) (lines1 lines2 : list (list Z)) (r : chat_room_t) (p q : prog Z) : option (chat_room_t * prog Z * prog Z) :=
  '(lines, r, p) ← play n lines1 r p;
  '(_, r, q) ← play fuel lines2 r q;
  '(_, r, p) ← play fuel lines r p;
  Some (r, p, q).

Lemma nested_steps n fuel lines1 lines2 r p q r' p' q' :
  nested n fuel lines1 lines2 r p q = Some (r', p', q') -> room_steps (r, p, q) (r', p', q').
Proof.
  intros E. apply bind_Some in E as ([[lines r1] p1] & E1 & E). apply bind_Some in E as ([[l2 r2] q2] & E2 & E).
  apply bind_Some in E as ([[l3 r3] p3] & E3 & E). injection E as <- <- <-.
  etransitivity; [eapply play_left, E1|]. etransitivity; [eapply play_right, E2|]. eapply play_left, E3.
Qed.

Definition demo_room : chat_room_t := room demo.

(** Ann joins, Bob joins, says a line and leaves, then Ann says one and leaves. *)
#[local] Notation demo_run :=
  (nested 26 200 [str "ann"; str "hello"; str "q"] [str "bob"; str "hi"; str "q"] demo_room
    (client_main 9 (replicate 256 0)) (client_main 9 (replicate 256 0))).

Lemma demo_room_ok : room_ok demo_room.
Proof. apply (initial_quiet demo demo_initial). Qed.

Definition demo_done (x : chat_room_t * prog Z * prog Z) : bool :=
  let '(r, p, q) := x in
  ended p && ended q && bool_decide (history r = [(str "bob", str "hi"); (str "ann", str "hello")]).

Lemma demo_run_ends : demo_done <$> demo_run = Some true.
Proof. by vm_compute. Qed.

Lemma clients_give_back_witness : exists r p q, demo_run = Some (r, p, q) /\ ended p = true /\ ended q = true /\
  history r = [(str "bob", str "hi"); (str "ann", str "hello")] /\ room_ok r /\ client_count r = 0.
Proof.
  pose proof demo_run_ends as H.
  destruct demo_run as [[[r p] q]|] eqn:E; [|done]. exists r, p, q. split; [done|].
  injection H as H. unfold demo_done in H. rewrite !andb_true_iff, bool_decide_eq_true in H. destruct H as [[H1 H2] H3].
  destruct (clients_give_back demo_room r 9 9 (replicate 256 0) (replicate 256 0) p q) as (Hr & _ & Hc).
  - exact demo_room_ok.
  - reflexivity.
  - reflexivity.
  - exact (nested_steps _ _ _ _ _ _ _ _ _ _ E).
  - split_and!; [exact H1|exact H2|exact H3|exact Hr|exact (Hc H1 H2)].
Defined.
