(* ===== verification/Sockets.v ===== *)
(** The clients and servers of src/hw16_sockets/p1, p3_broadcast_multicast and
    p4_RAW_socket: one message each way over internet and local sockets, datagrams to a
    broadcast address and to a multicast group, and a packet counter. The servers of
    p5_RAW_udp_header, p6_Raw_ip_header and p7_Raw_mac_header are the file of
    p1/inet_dgram. [buffer] is what the local array of [main] happens to hold. *)

From S2P Require Import Prelude CInt CStr Stdio Sys Endpoint.

Definition PORT : Z := 12345.
Definition BUF_SIZE : Z := 1024.
Definition SERVER_IP : string := "127.0.0.1".
Definition EXIT_SUCCESS : Z := 0.

(** The numbers of the system headers. *)
Definition AF_LOCAL : Z := 1.
Definition AF_INET : Z := 2.
Definition SOCK_STREAM : Z := 1.
Definition SOCK_DGRAM : Z := 2.
Definition SOCK_RAW : Z := 3.
Definition IPPROTO_IP : Z := 0.
Definition IPPROTO_TCP : Z := 6.
Definition SOL_SOCKET : Z := 1.
Definition SO_REUSEADDR : Z := 2.
Definition SO_BROADCAST : Z := 6.
Definition IP_ADD_MEMBERSHIP : Z := 35.

(** * p1: one message each way *)

Definition inet_stream_server (buffer : list Z) : prog Z :=
  server_fd ← sys (c_socket AF_INET SOCK_STREAM 0);
  if server_fd =? -1 then die "socked" [] else
  b ← sys (c_bind server_fd None);
  if b =? -1 then die "bind" [server_fd] else
  l ← sys (c_listen server_fd 1);
  if l =? -1 then die "listen" [server_fd] else
  sys_ (c_print "Server listening on port %d...\n" [print_d PORT]);;
  client_fd ← sys (c_accept server_fd);
  if client_fd =? -1 then die "accept" [server_fd] else
  '(recv_len, data) ← sys_data (c_recv client_fd (BUF_SIZE - 1));
  if recv_len =? -1 then die "recv" [client_fd; server_fd] else
  received "Received from client: %s\n" buffer data recv_len;;
  sys_ (c_send client_fd (str "Hi"));;
  sys_ (c_close client_fd);;
  sys_ (c_close server_fd);;
  Ret EXIT_SUCCESS.

Definition inet_stream_client (buffer : list Z) : prog Z :=
  sock_fd ← sys (c_socket AF_INET SOCK_STREAM 0);
  if sock_fd =? -1 then die "socket" [] else
  a ← sys (c_inet_pton SERVER_IP);
  if a <=? 0 then die "inet_pton" [sock_fd] else
  c ← sys (c_connect sock_fd);
  if c =? -1 then die "connect" [sock_fd] else
  sys_ (c_send sock_fd (str "Hello"));;
  '(recv_len, data) ← sys_data (c_recv sock_fd (BUF_SIZE - 1));
  if recv_len =? -1 then die "recv" [sock_fd] else
  received "Received from server: %s\n" buffer data recv_len;;
  sys_ (c_close sock_fd);;
  Ret EXIT_SUCCESS.

Definition inet_dgram_server (buffer : list Z) : prog Z :=
  sock_fd ← sys (c_socket AF_INET SOCK_DGRAM 0);
  if sock_fd =? -1 then die "socket" [] else
  b ← sys (c_bind sock_fd None);
  if b =? -1 then die "bind" [sock_fd] else
  '(recv_len, data) ← sys_data (c_recvfrom sock_fd (BUF_SIZE - 1));
  if recv_len =? -1 then die "recvfrom" [sock_fd] else
  received "Received from client: %s\n" buffer data recv_len;;
  sent_len ← sys (c_sendto sock_fd (str "Hi"));
  if sent_len =? -1 then die "sendto" [sock_fd] else
  sys_ (c_close sock_fd);;
  Ret EXIT_SUCCESS.

Definition inet_dgram_client (buffer : list Z) : prog Z :=
  sock_fd ← sys (c_socket AF_INET SOCK_DGRAM 0);
  if sock_fd =? -1 then die "socket" [] else
  a ← sys (c_inet_pton SERVER_IP);
  if a <=? 0 then die "inet_pron" [sock_fd] else
  sent_len ← sys (c_sendto sock_fd (str "Hello"));
  if sent_len =? -1 then die "sendto" [sock_fd] else
  '(recv_len, data) ← sys_data (c_recvfrom sock_fd (BUF_SIZE - 1));
  if recv_len =? -1 then die "recvfrom" [sock_fd] else
  received "Received from server: %s\n" buffer data recv_len;;
  sys_ (c_close sock_fd);;
  Ret EXIT_SUCCESS.

Definition SOCKET_PATH : list Z := str "/tmp/unix_socket".

Definition local_stream_server (buffer : list Z) : prog Z :=
  server_fd ← sys (c_socket AF_LOCAL SOCK_STREAM 0);
  if server_fd =? -1 then die "socket" [] else
  sys_ (c_unlink SOCKET_PATH);;
  b ← sys (c_bind server_fd (Some SOCKET_PATH));
  if b =? -1 then die "bind" [server_fd] else
  l ← sys (c_listen server_fd 5);
  if l =? -1 then die "listen" [server_fd] else
  sys_ (c_print "Server listening on %s\n" [SOCKET_PATH]);;
  client_fd ← sys (c_accept server_fd);
  if client_fd =? -1 then die "accept" [server_fd] else
  '(recv_len, data) ← sys_data (c_read client_fd (BUF_SIZE - 1));
  if recv_len =? -1 then die "read" [client_fd; server_fd] else
  received "Received from client: %s\n" buffer data recv_len;;
  w ← sys (c_write client_fd (str "Hi"));
  if w =? -1 then die "write" [client_fd; server_fd] else
  sys_ (c_close client_fd);;
  sys_ (c_close server_fd);;
  sys_ (c_unlink SOCKET_PATH);;
  Ret EXIT_SUCCESS.

Definition local_stream_client (buffer : list Z) : prog Z :=
  sock_fd ← sys (c_socket AF_LOCAL SOCK_STREAM 0);
  if sock_fd =? -1 then die "socket" [] else
  c ← sys (c_connect sock_fd);
  if c =? -1 then die "connect" [sock_fd] else
  w ← sys (c_write sock_fd (str "Hello"));
  if w =? -1 then die "write" [sock_fd] else
  '(recv_len, data) ← sys_data (c_read sock_fd (BUF_SIZE - 1));
  if recv_len =? -1 then die "read" [sock_fd] else
  received "Received from server: %s\n" buffer data recv_len;;
  sys_ (c_close sock_fd);;
  Ret EXIT_SUCCESS.

Definition DGRAM_PATH : list Z := str "/tmp/unix_dgram_socket".

Definition local_dgram_server (buffer : list Z) : prog Z :=
  sock_fd ← sys (c_socket AF_LOCAL SOCK_DGRAM 0);
  if sock_fd =? -1 then die "socket" [] else
  sys_ (c_unlink DGRAM_PATH);;
  b ← sys (c_bind sock_fd (Some DGRAM_PATH));
  if b =? -1 then die "bind" [sock_fd] else
  '(recv_len, data) ← sys_data (c_recvfrom sock_fd (BUF_SIZE - 1));
  if recv_len =? -1 then die "recvfrom" [sock_fd] else
  received "Received from client: %s\n" buffer data recv_len;;
  sent_len ← sys (c_sendto sock_fd (str "Hi"));
  if sent_len =? -1 then die "sendto" [sock_fd] else
  sys_ (c_close sock_fd);;
  sys_ (c_unlink DGRAM_PATH);;
  Ret EXIT_SUCCESS.

Definition CLIENT_SOCKET_PATH : list Z := str "/tmp/unix_dgram_client_socket".

(** [die] of the client that also removes its socket file. *)
Definition die_unlink {A} (what : string) (fd : Z) : prog A :=
  sys_ (c_perror what);; sys_ (c_close fd);; sys_ (c_unlink CLIENT_SOCKET_PATH);; exit 1.

Definition local_dgram_client (buffer : list Z) : prog Z :=
  sockfd ← sys (c_socket AF_LOCAL SOCK_DGRAM 0);
  if sockfd =? -1 then die "socket" [] else
  sys_ (c_unlink CLIENT_SOCKET_PATH);;
  b ← sys (c_bind sockfd (Some CLIENT_SOCKET_PATH));
  if b =? -1 then die "bind" [sockfd] else
  sent_len ← sys (c_sendto sockfd (str "Hello"));
  if sent_len =? -1 then die_unlink "sendto" sockfd else
  '(recv_len, data) ← sys_data (c_recvfrom sockfd (BUF_SIZE - 1));
  if recv_len =? -1 then die_unlink "recvfrom" sockfd else
  received "Received from server: %s\n" buffer data recv_len;;
  sys_ (c_close sockfd);;
  sys_ (c_unlink CLIENT_SOCKET_PATH);;
  Ret EXIT_SUCCESS.

(** * p3: one sender, many receivers *)

Definition MAXLINE : Z := 1024.

Definition broadcast_message : list Z := str "Broadcast message from server!".

(** A round of the sender: the message, then three seconds of sleep. *)
Definition broadcast_round (sockfd : Z) : prog (unit + Z) :=
  n ← sys (c_sendto sockfd broadcast_message);
  (if n <? 0 then sys_ (c_perror "sendto failed")
   else sys_ (c_print "Broadcast sent: %s\n" [broadcast_message]));;
  sys_ (c_sleep 3);;
  Ret (inl tt).

Definition broadcast_server (fuel : nat) : prog Z :=
  sockfd ← sys (c_socket AF_INET SOCK_DGRAM 0);
  if sockfd <? 0 then die "socket creation failed" [] else
  o ← sys (c_setsockopt sockfd SOL_SOCKET SO_BROADCAST);
  if o <? 0 then die "setsockopt SO_BROADCAST failed" [sockfd] else
  sys_ (c_print "Broadcast server started. Sending message every 3 seconds...\n" []);;
  r ← forever fuel (fun _ => broadcast_round sockfd) tt;
  sys_ (c_close sockfd);;
  Ret r.

(** A round of the receivers; a message of [MAXLINE] bytes fills the array. *)
Definition listen_round (sockfd : Z) (buffer : list Z) : prog (list Z + Z) :=
  '(n, data) ← sys_data (c_recvfrom sockfd MAXLINE);
  if n <? 0 then sys_ (c_perror "recvfrom failed");; Ret (inl buffer)
  else
    b ← received "Received broadcast message: %s\n" buffer data n;
    Ret (inl b).

Definition broadcast_client (fuel : nat) (buffer : list Z) : prog Z :=
  sockfd ← sys (c_socket AF_INET SOCK_DGRAM 0);
  if sockfd <? 0 then die "socket creation failed" [] else
  o ← sys (c_setsockopt sockfd SOL_SOCKET SO_REUSEADDR);
  if o <? 0 then die "setsockopt SO_REUSEADDR failed" [sockfd] else
  b ← sys (c_bind sockfd None);
  if b <? 0 then die "bind failed" [sockfd] else
  sys_ (c_print "Client started. Listening for broadcast on port %d...\n" [print_d PORT]);;
  r ← forever fuel (listen_round sockfd) buffer;
  sys_ (c_close sockfd);;
  Ret r.

Definition multicast_message : list Z := str "Multicast message from server!".
Definition MULTICAST_GROUP : list Z := str "224.0.0.1".

Definition multicast_round (sockfd : Z) : prog (unit + Z) :=
  n ← sys (c_sendto sockfd multicast_message);
  (if n <? 0 then sys_ (c_perror "sendto failed")
   else sys_ (c_print "Multicast sent: %s\n" [multicast_message]));;
  sys_ (c_sleep 3);;
  Ret (inl tt).

Definition multicast_server (fuel : nat) : prog Z :=
  sockfd ← sys (c_socket AF_INET SOCK_DGRAM 0);
  if sockfd <? 0 then die "socket creation failed" [] else
  sys_ (c_print "Multicast server started. Sending message every 3 seconds...\n" []);;
  r ← forever fuel (fun _ => multicast_round sockfd) tt;
  sys_ (c_close sockfd);;
  Ret r.

Definition multicast_client (fuel : nat) (buffer : list Z) : prog Z :=
  sockfd ← sys (c_socket AF_INET SOCK_DGRAM 0);
  if sockfd <? 0 then die "socket creation failed" [] else
  o ← sys (c_setsockopt sockfd SOL_SOCKET SO_REUSEADDR);
  if o <? 0 then die "setsockopt SO_REUSEADDR failed" [sockfd] else
  b ← sys (c_bind sockfd None);
  if b <? 0 then die "bind failed" [sockfd] else
  o ← sys (c_setsockopt sockfd IPPROTO_IP IP_ADD_MEMBERSHIP);
  if o <? 0 then die "setsockopt IP_ADD_MEMBERSHIP failed" [sockfd] else
  sys_ (c_print "Client joined multicast group %s, listening on port %d\n" [MULTICAST_GROUP; print_d PORT]);;
  r ← forever fuel (listen_round sockfd) buffer;
  sys_ (c_close sockfd);;
  Ret r.

(** * p4: every TCP packet is counted *)

Definition MAX_SIZE : Z := 65536.

Definition sniff_round (sockfd : Z) : prog (unit + Z) :=
  '(bytes, _) ← sys_data (c_recvfrom sockfd MAX_SIZE);
  if bytes <? 0 then die "recvfrom" [sockfd] else
  sys_ (c_print "Received TCP packet of %zd bytes\n" [print_d bytes]);;
  Ret (inl tt).

Definition sniffer (fuel : nat) : prog Z :=
  sockfd ← sys (c_socket AF_INET SOCK_RAW IPPROTO_TCP);
  if sockfd <? 0 then die "socket" [] else
  r ← forever fuel (fun _ => sniff_round sockfd) tt;
  sys_ (c_close sockfd);;
  Ret r.

(** * The programs *)

Inductive program :=
  | InetStreamServer | InetStreamClient | InetDgramServer | InetDgramClient
  | LocalStreamServer | LocalStreamClient | LocalDgramServer | LocalDgramClient
  | BroadcastServer | BroadcastClient | MulticastServer | MulticastClient | Sniffer.

(** [fuel] bounds the rounds of an endless loop that are observed. *)
Definition code (fuel : nat) (buffer : list Z) (p : program) : prog Z :=
  match p with
  | InetStreamServer => inet_stream_server buffer
  | InetStreamClient => inet_stream_client buffer
  | InetDgramServer => inet_dgram_server buffer
  | InetDgramClient => inet_dgram_client buffer
  | LocalStreamServer => local_stream_server buffer
  | LocalStreamClient => local_stream_client buffer
  | LocalDgramServer => local_dgram_server buffer
  | LocalDgramClient => local_dgram_client buffer
  | BroadcastServer => broadcast_server fuel
  | BroadcastClient => broadcast_client fuel buffer
  | MulticastServer => multicast_server fuel
  | MulticastClient => multicast_client fuel buffer
  | Sniffer => sniffer fuel
  end.

(** What a program may send, and what it may print besides the message it received. *)
Definition message (p : program) : option (list Z) :=
  match p with
  | InetStreamServer | InetDgramServer | LocalStreamServer | LocalDgramServer => Some (str "Hi")
  | InetStreamClient | InetDgramClient | LocalStreamClient | LocalDgramClient => Some (str "Hello")
  | BroadcastServer => Some broadcast_message
  | MulticastServer => Some multicast_message
  | BroadcastClient | MulticastClient | Sniffer => None
  end.

(** The programs that wait for ever, those whose array a message can fill, and the socket
    file a program that exits early leaves behind. *)
Definition endless (p : program) : bool :=
  match p with
  | BroadcastServer | BroadcastClient | MulticastServer | MulticastClient | Sniffer => true
  | _ => false
  end.
Definition fillable (p : program) : bool :=
  match p with BroadcastClient | MulticastClient => true | _ => false end.
Definition file (p : program) : gset (list Z) :=
  match p with
  | LocalStreamServer => {[SOCKET_PATH]}
  | LocalDgramServer => {[DGRAM_PATH]}
  | _ => ∅
  end.

(** The texts printed that are not a received message: the constants of the program and,
    by the sniffer, a number of bytes. *)
Definition note (p : program) (args : list (list Z)) : Prop :=
  match p with
  | InetStreamServer | BroadcastClient => args = [print_d PORT]
  | LocalStreamServer => args = [SOCKET_PATH]
  | MulticastClient => args = [MULTICAST_GROUP; print_d PORT]
  | BroadcastServer => args = [] \/ args = [broadcast_message]
  | MulticastServer => args = [] \/ args = [multicast_message]
  | Sniffer => exists n, args = [print_d n]
  | _ => False
  end.

(** * Descriptors *)

(** How a run may end. *)
Definition tidy (p : program) (r : result Z) (w : world) : Prop :=
  match r with
  | Returned v => v = EXIT_SUCCESS /\ fds w = ∅ /\ names w = ∅ /\ endless p = false
  | Halted (Exited s) => s = 1 /\ fds w = ∅ /\ names w ⊆ file p
  | Halted (Crashed u) => u = OutOfBounds /\ fillable p = true
  | Halted Cut => endless p = true
  end.

Ltac tidied := intros; endpoint; cbn [tidy fds names endless file fillable die_unlink]; try done; set_solver.

(** A listener goes on, until a message fills its array. *)
Lemma wp_listen fuel sockfd buffer w : length buffer = 1024%nat -> sockfd ∈ fds w ->
  wp kernel (forever fuel (listen_round sockfd) buffer) w
    (fun r _ => r = Halted Cut \/ r = Halted (Crashed OutOfBounds)).
Proof.
  intros Hl Hs. apply (wp_forever _ (fun b w' => length b = 1024%nat /\ w' = w)); [|by left|done].
  intros b _ [Hb ->]. unfold listen_round. endpoint; [done|]. split; [congruence|done].
Qed.

Lemma code_tidy p fuel buffer : length buffer = 1024%nat -> wp kernel (code fuel buffer p) start (tidy p).
Proof.
  intros Hl. destruct p; cbn [code].
  - unfold inet_stream_server. tidied.
  - unfold inet_stream_client. tidied.
  - unfold inet_dgram_server. tidied.
  - unfold inet_dgram_client. tidied.
  - unfold local_stream_server. tidied.
  - unfold local_stream_client. tidied.
  - unfold local_dgram_server. tidied.
  - unfold local_dgram_client, die_unlink. tidied.
  - unfold broadcast_server. endpoint; [tidied..|]. apply wp_bind, wp_beat; [|done].
    intros _. unfold broadcast_round. endpoint; done.
  - unfold broadcast_client. endpoint; [tidied..|]. eapply wp_seq; [apply wp_listen; [done|set_solver]|].
    by intros r' w' [->| ->].
  - unfold multicast_server. endpoint; [tidied..|]. apply wp_bind, wp_beat; [|done].
    intros _. unfold multicast_round. endpoint; done.
  - unfold multicast_client. endpoint; [tidied..|]. eapply wp_seq; [apply wp_listen; [done|set_solver]|].
    by intros r' w' [->| ->].
  - unfold sniffer. endpoint; [tidied..|]. apply wp_bind, wp_beat; [|done].
    intros _. unfold sniff_round. endpoint; cbn [tidy fds names endless file]; try done; set_solver.
Qed.

(** * What is sent and printed *)

Definition correspondent (p : program) : monitor (list Z) :=
  courier (fun _ d => message p = Some d) (fun _ => note p).

(** When a run has no defined meaning, the last message filled the array. *)
Definition full (r : result Z) (last : list Z) : Prop :=
  match r with Halted (Crashed _) => Z.of_nat (length last) = MAXLINE | _ => True end.

Lemma listen_corresponds p fuel sockfd buffer last : length buffer = 1024%nat ->
  wp (correspondent p) (forever fuel (listen_round sockfd) buffer) last full.
Proof.
  intros Hl. apply (wp_forever _ (fun b _ => length b = 1024%nat)); [|done..].
  intros b l Hb. unfold correspondent, listen_round. unfold full, MAXLINE in *. corresponds; [done|]. cbn. congruence.
Qed.

Lemma code_corresponds p fuel buffer : length buffer = 1024%nat ->
  wp (correspondent p) (code fuel buffer p) [] full.
Proof.
  intros Hl. unfold correspondent. destruct p; cbn [code].
  - unfold inet_stream_server. corresponds; done.
  - unfold inet_stream_client. corresponds; done.
  - unfold inet_dgram_server. corresponds; done.
  - unfold inet_dgram_client. corresponds; done.
  - unfold local_stream_server. corresponds; done.
  - unfold local_stream_client. corresponds; done.
  - unfold local_dgram_server. corresponds; done.
  - unfold local_dgram_client, die_unlink. corresponds; done.
  - unfold broadcast_server. corresponds; try done. apply wp_bind, (wp_forever _ (fun _ _ => True)); [|done..].
    intros [] l _. unfold broadcast_round. corresponds; done.
  - unfold broadcast_client. corresponds; try done. eapply wp_seq; [by apply (listen_corresponds BroadcastClient)|].
    intros [z|h] l; cbn; done.
  - unfold multicast_server. corresponds; try done. apply wp_bind, (wp_forever _ (fun _ _ => True)); [|done..].
    intros [] l _. unfold multicast_round. corresponds; done.
  - unfold multicast_client. corresponds; try done. eapply wp_seq; [by apply (listen_corresponds MulticastClient)|].
    intros [z|h] l; cbn; done.
  - unfold sniffer. corresponds; try done. apply wp_bind, (wp_forever _ (fun _ _ => True)); [|done..].
    intros [] l _. unfold sniff_round. corresponds; done.
Qed.

(** C39 In every run of every program, whatever the system replies: each call is on an open
    descriptor, what is sent is the one message of the program, what is printed is the
    message received last up to its first NUL, a run that ends leaves no descriptor open
    and no file but the socket of a local server that exits early, and only the endless
    receivers can leave the defined behaviour, by a message that fills their array. *)
Theorem sockets_safe p fuel buffer t w res :
  length buffer = 1024%nat -> exec kernel (code fuel buffer p) start t w res ->
  allowed kernel start t /\ allowed (correspondent p) [] t /\
  match res with Some r => tidy p r w /\ full r (final (correspondent p) [] t) | None => True end.
Proof.
  intros Hl H. destruct (wp_sound _ _ _ _ _ _ _ (code_tidy p fuel buffer Hl) H) as [H1 H2].
  destruct (courier_sound _ _ _ _ _ _ _ _ (code_corresponds p fuel buffer Hl) H) as [H3 H4].
  split_and!; [done..|]. by destruct res.
Qed.

(** * Runs *)

(** A datagram server answers; the text of the datagram ends at its NUL byte. *)
Definition answer_trace : trace :=
  [(c_socket AF_INET SOCK_DGRAM 0, value_reply 3); (c_bind 3 None, ok0);
   (c_recvfrom 3 1023, data_reply (str "Hello" ++ [0; 33]));
   (c_print "Received from client: %s\n" [str "Hello"], ok0);
   (c_sendto 3 (str "Hi"), value_reply 2); (c_close 3, ok0)].

Lemma answer_run : exists w,
  exec kernel (code 0 (replicate 1024 7) InetDgramServer) start answer_trace w (Some (Returned 0)).
Proof.
  eexists. unfold answer_trace. cbn [code]. unfold inet_dgram_server. prog_simp. do 3 run_call.
  apply (exec_received kernel _ (replicate 1024 7) (str "Hello" ++ [0; 33]) 7); [done..|reply_holds|]. intros b.
  do 2 run_call. apply exec_ret.
Qed.

(** A broadcast of 1024 bytes has no defined meaning for its receivers. *)
Lemma broadcast_overruns : exists w,
  exec kernel (code 1 (replicate 1024 7) BroadcastClient) start
    [(c_socket AF_INET SOCK_DGRAM 0, value_reply 3); (c_setsockopt 3 SOL_SOCKET SO_REUSEADDR, ok0);
     (c_bind 3 None, ok0); (c_print "Client started. Listening for broadcast on port %d...\n" [print_d PORT], ok0);
     (c_recvfrom 3 1024, data_reply (replicate 1024 65))] w (Some (Halted (Crashed OutOfBounds))).
Proof.
  eexists. cbn [code]. unfold broadcast_client. prog_simp. do 4 run_call. cbn [forever]. unfold listen_round. prog_simp.
  run_call.
  unfold received. cbn [Z.ltb]. rewrite fill_full by done. apply exec_halt.
Qed.

Lemma sockets_safe_witness :
  allowed (correspondent InetDgramServer) [] answer_trace /\
  exists w, fds w = ∅ /\ exec kernel (code 0 (replicate 1024 7) InetDgramServer) start answer_trace w (Some (Returned 0)).
Proof.
  destruct answer_run as [w H].
  destruct (sockets_safe InetDgramServer 0 (replicate 1024 7) answer_trace w (Some (Returned 0)) eq_refl H)
    as (_ & Hc & (_ & Hf & _) & _).
  split; [exact Hc|]. exists w. by split.
Defined.
