(* ===== verification/Exchange.v ===== *)
(** The servers and clients of src/hw16_sockets/p1 together: the program of a server and
    that of its client, over streams and datagrams of the internet and local domains, are
    the two processes of [Sys.many_step], with the connection between them as the object
    they share and the calls they made as its history.

    What is assumed of the system: a call fails only when it must. A stream, and a datagram
    of the local domain, needs the server to listen or to be bound, or the client is refused;
    a datagram to a port of the internet domain that nobody has bound is lost. A stream
    delivers its bytes in pieces of any size, and a server that closes a stream with bytes
    unread may reset it. *)

From stdpp Require Import relations.
From S2P Require Import Prelude CInt CStr Stdio Sys Endpoint Sockets.

Inductive kind := InetStream | LocalStream | InetDgram | LocalDgram.
Definition stream (k : kind) : bool := match k with InetStream | LocalStream => true | _ => false end.

Definition server (k : kind) (buffer : list Z) : prog Z :=
  match k with
  | InetStream => inet_stream_server buffer | LocalStream => local_stream_server buffer
  | InetDgram => inet_dgram_server buffer | LocalDgram => local_dgram_server buffer
  end.
Definition client (k : kind) (buffer : list Z) : prog Z :=
  match k with
  | InetStream => inet_stream_client buffer | LocalStream => local_stream_client buffer
  | InetDgram => inet_dgram_client buffer | LocalDgram => local_dgram_client buffer
  end.

(** * The connection *)

(** Whether the server can be reached, whether the client has reached it, what is under way
    to the server and to the client, and who has closed an end. *)
Record link := Link {
  ready : bool; joined : bool; up : list Z; down : list Z; client_gone : bool; server_gone : bool }.
Definition no_link : link := Link false false [] [] false false.

(** What a call is for the connection. *)
Inductive deed :=
  | Receive (n : Z) | Send (d : list Z) | Accept | Connect | Close
  | Bind | Listen | Parse | Say (f : string) (args : list (list Z)) | Other.

Definition deed_of (c : call) : deed :=
  match c with
  | c_recv _ n | c_read _ n | c_recvfrom _ n => Receive n
  | c_send _ d | c_write _ d | c_sendto _ d => Send d
  | c_accept _ => Accept | c_connect _ => Connect | c_close _ => Close
  | c_bind _ _ => Bind | c_listen _ _ => Listen | c_inet_pton _ => Parse
  | c_print f args => Say f args
  | _ => Other
  end.

(** From this deed of the server on it can be reached. *)
Definition opens (k : kind) (e : deed) : bool :=
  match e with Listen => stream k | Bind => negb (stream k) | _ => false end.
(** The other calls, which succeed. *)
Definition plain (e : deed) : bool :=
  match e with Bind | Listen | Parse | Say _ _ | Other => true | _ => false end.
(** The number of [inet_pton] is 1 for an address. *)
Definition succeeds (e : deed) (r : reply) : Prop := if e is Parse then r_val r = 1 else 0 <= r_val r.

(** What a receiving call takes of [q]: some bytes of a stream, the whole of a datagram. *)
Definition piece (k : kind) (q : list Z) (n : Z) (d rest : list Z) : Prop :=
  q = d ++ rest /\ d <> [] /\ Z.of_nat (length d) <= n /\ (stream k = false -> rest = []).

Definition sent_reply (d : list Z) : reply := value_reply (Z.of_nat (length d)).

Inductive serves (k : kind) (l : link) (c : call) : reply -> link -> Prop :=
  | serves_open : opens k (deed_of c) = true -> serves k l c ok0 (Link true (joined l) (up l) (down l) (client_gone l) (server_gone l))
  | serves_accept d : deed_of c = Accept -> joined l = true -> 0 <= d -> serves k l c (value_reply d) l
  | serves_receive n d rest :
      deed_of c = Receive n -> piece k (up l) n d rest ->
      serves k l c (data_reply d) (Link (ready l) (joined l) rest (down l) (client_gone l) (server_gone l))
  | serves_end n : deed_of c = Receive n -> stream k = true -> up l = [] -> client_gone l = true -> serves k l c (data_reply []) l
  | serves_send d :
      deed_of c = Send d ->
      serves k l c (sent_reply d) (Link (ready l) (joined l) (up l) (down l ++ d) (client_gone l) (server_gone l))
  | serves_close : deed_of c = Close -> serves k l c ok0 (Link (ready l) (joined l) (up l) (down l) (client_gone l) true)
  | serves_plain r : plain (deed_of c) = true -> opens k (deed_of c) = false -> succeeds (deed_of c) r -> serves k l c r l.

Inductive asks (k : kind) (l : link) (c : call) : reply -> link -> Prop :=
  | asks_connect : deed_of c = Connect -> ready l = true -> asks k l c ok0 (Link (ready l) true (up l) (down l) (client_gone l) (server_gone l))
  | asks_refused : deed_of c = Connect -> ready l = false -> asks k l c failed l
  | asks_send d :
      deed_of c = Send d -> stream k = true \/ ready l = true ->
      asks k l c (sent_reply d) (Link (ready l) true (up l ++ d) (down l) (client_gone l) (server_gone l))
  | asks_lost d : deed_of c = Send d -> k = InetDgram -> ready l = false -> asks k l c (sent_reply d) l
  | asks_nobody d : deed_of c = Send d -> k = LocalDgram -> ready l = false -> asks k l c failed l
  | asks_receive n d rest :
      deed_of c = Receive n -> piece k (down l) n d rest ->
      asks k l c (data_reply d) (Link (ready l) (joined l) (up l) rest (client_gone l) (server_gone l))
  | asks_end n : deed_of c = Receive n -> stream k = true -> down l = [] -> server_gone l = true -> asks k l c (data_reply []) l
  | asks_reset n : deed_of c = Receive n -> stream k = true -> up l <> [] -> server_gone l = true -> asks k l c failed l
  | asks_close : deed_of c = Close -> asks k l c ok0 (Link (ready l) (joined l) (up l) (down l) true (server_gone l))
  | asks_plain r : plain (deed_of c) = true -> succeeds (deed_of c) r -> asks k l c r l.

(** Process 0 is the server, process 1 the client; the history keeps who called what. *)
Definition history : Type := list (nat * call).

Definition acts (k : kind) (i : nat) (s : link * history) (c : call) (r : reply) (s' : link * history) : Prop :=
  s'.2 = s.2 ++ [(i, c)] /\ match i with O => serves k s.1 c r s'.1 | _ => asks k s.1 c r s'.1 end.

Definition both (k : kind) (bs bc : list Z) : system (S := link * history) (A := Z) := ((no_link, []), [server k bs; client k bc]).
Definition steps (k : kind) : relation (system (S := link * history) (A := Z)) := many_step (acts k).

(** What was printed of the messages: the format of side [i], and its arguments in [h]. *)
Definition format (i : nat) : string := match i with O => "Received from client: %s\n" | _ => "Received from server: %s\n" end.

Definition saying (i : nat) (x : nat * call) : option (list (list Z)) :=
  match deed_of x.2 with Say f args => if Nat.eqb x.1 i && String.eqb f (format i) then Some args else None | _ => None end.
Definition said (i : nat) (h : history) : list (list (list Z)) := omap (saying i) h.

(** The server had not yet opened when the client called it. *)
Definition opened_in (k : kind) (h : history) : bool :=
  existsb (fun x => match x.1 with O => opens k (deed_of x.2) | _ => false end) h.
Definition calling (e : deed) : bool := match e with Connect | Send _ => true | _ => false end.
Definition early (k : kind) (h : history) : Prop :=
  exists h1 c h2, h = h1 ++ (1%nat, c) :: h2 /\ calling (deed_of c) = true /\ opened_in k h1 = false.

(** * What each side does, in order *)

Inductive view :=
  | Deaf | Ready | Accepted | Heard (d : list Z) | Shown (d : list Z) | Answered (d : list Z)              (** the server *)
  | Away | Refused | Connected | Asked | Reset | Told (d : list Z) | Printed (d : list Z).               (** the client *)

Definition server_may (k : kind) (w : view) (c : call) : Prop :=
  match deed_of c with
  | Receive n => n = 1023 /\ w = if stream k then Accepted else Ready
  | Send d => d = str "Hi" /\ exists x, w = Shown x
  | Accept => w = Ready /\ stream k = true
  | Close => exists x, w = Answered x
  | Connect => False
  | Say f args => f = format 0 -> exists x, w = Heard x /\ args = [x]
  | e => opens k e = true -> w = Deaf
  end.

Definition client_may (k : kind) (w : view) (c : call) : Prop :=
  match deed_of c with
  | Receive n => n = 1023 /\ w = Asked
  | Send d => d = str "Hello" /\ w = if stream k then Connected else Away
  | Connect => w = Away /\ stream k = true
  | Close => w = Refused \/ w = Reset \/ exists x, w = Printed x
  | Accept => False
  | Say f args => f = format 1 -> exists x, w = Told x /\ args = [x]
  | _ => True
  end.

(** A message that arrived: not empty, a beginning of what was sent, all of a datagram. *)
Definition arrived (k : kind) (m d : list Z) : Prop :=
  d <> [] /\ d `prefix_of` m /\ (stream k = false -> d = m).

Definition server_gets (k : kind) (w : view) (c : call) (r : reply) : Prop :=
  match deed_of c with
  | Receive _ => exists d, r = data_reply d /\ arrived k (str "Hello") d
  | e => succeeds e r
  end.

Definition client_gets (k : kind) (w : view) (c : call) (r : reply) : Prop :=
  match deed_of c with
  | Receive _ => (exists d, r = data_reply d /\ arrived k (str "Hi") d) \/ r = failed /\ stream k = true
  | Send _ => 0 <= r_val r \/ r_val r = -1 /\ stream k = false
  | Connect => 0 <= r_val r \/ r_val r = -1
  | e => succeeds e r
  end.

Definition server_view (k : kind) (w : view) (c : call) (r : reply) : view :=
  match deed_of c with
  | Receive _ => Heard (r_data r)
  | Send _ => if w is Shown x then Answered x else w
  | Accept => Accepted
  | Say f args => if String.eqb f (format 0) then if w is Heard x then Shown x else w else w
  | e => if opens k e then Ready else w
  end.

Definition client_view (w : view) (c : call) (r : reply) : view :=
  match deed_of c with
  | Receive _ => if r_val r =? -1 then Reset else Told (r_data r)
  | Send _ => if r_val r =? -1 then Refused else Asked
  | Connect => if r_val r =? -1 then Refused else Connected
  | Say f args => if String.eqb f (format 1) then if w is Told x then Printed x else w else w
  | _ => w
  end.

Definition side (k : kind) (i : nat) : monitor view :=
  match i with
  | O => Monitor (server_may k) (server_gets k) (server_view k)
  | _ => Monitor (client_may k) (client_gets k) client_view
  end.

Definition ends (i : nat) (r : result Z) (w : view) : Prop :=
  match i with
  | O => r = Returned 0 /\ exists x, w = Answered x
  | _ => r = Returned 0 /\ (exists x, w = Printed x) \/ r = Halted (Exited 1) /\ (w = Refused \/ w = Reset)
  end.

(** ** The programs are these sides *)

Lemma cstr_of_text d : text d -> cstr d = d.
Proof. intros H. pose proof (cstr_app d [] H) as E. by rewrite cstr_ended in E. Qed.

(** A beginning of one of the two words is a string without NUL. *)
Lemma greeting_text m d : m = str "Hello" \/ m = str "Hi" -> d `prefix_of` m -> cstr d = d /\ (length d <= 5)%nat.
Proof.
  intros Hm [r E]. assert (Ht : text d).
  { assert (text m) as H by (destruct Hm as [->| ->]; repeat constructor). rewrite E in H. by apply Forall_app in H as [H _]. }
  split; [by apply cstr_of_text|]. apply (f_equal length) in E. rewrite length_app in E.
  destruct Hm as [->| ->]; cbn in E; lia.
Qed.

(** A message is received into the array and printed. *)
Lemma wp_word {B W} (M : monitor W) fmt buffer d n m k (f : list Z -> prog B) w Q :
  length buffer = 1024%nat -> arrived k m d -> m = str "Hello" \/ m = str "Hi" -> n = Z.of_nat (length d) ->
  pre M w (c_print fmt [d]) -> (forall r b, rep M w (c_print fmt [d]) r -> wp M (f b) (post M w (c_print fmt [d]) r) Q) ->
  wp M (prog_bind (received fmt buffer d n) f) w Q.
Proof.
  intros Hb (_ & Hd & _) Hm -> Hp Hf. destruct (greeting_text m d Hm Hd) as [Ht Hl].
  apply wp_received; [done|lia|by rewrite Ht|]. rewrite Ht. intros r b Hr _ _ _. by apply Hf.
Qed.
(** The cases of a reply. *)
Ltac split_reply :=
  repeat match goal with
  | H : exists _, _ |- _ => destruct H
  | H : _ \/ _ |- _ => destruct H
  | H : _ /\ _ |- _ => destruct H
  end; simplify_eq; cbn [r_val r_data data_reply value_reply ok0 failed].

(** The view after a call. *)
Ltac viewed :=
  lazymatch goal with |- wp ?M ?p ?w ?Q => let w' := eval cbn in w in change (wp M p w' Q) end.

(** A step of a side: the next call, or a test that a reply decides. *)
Ltac side_step :=
  prog_simp;
  lazymatch goal with
  | |- wp _ _ (if ?a =? ?b then _ else _) _ => destruct (Z.eqb_spec a b); try (exfalso; lia)
  | |- wp _ (Step _ _) _ _ =>
      apply wp_one;
      [ cbn; first [done | by eauto | by (intros; simplify_eq)]
      | let r := fresh "r" in let Hr := fresh "Hr" in intros r Hr; cbn -[str] in Hr; viewed; split_reply; try done ]
  | |- wp _ (if ?a =? ?b then _ else _) _ _ => destruct (Z.eqb_spec a b); try (exfalso; lia); try viewed
  | |- wp _ (if ?b then _ else _) _ _ => destruct b eqn:?; try (exfalso; lia); try viewed
  | |- wp _ (Ret _) _ _ => apply wp_ret; cbn [seq_post]
  | |- wp _ (Halt _) _ _ => apply wp_halt; cbn [seq_post]
  | |- wp _ (mbind _ (received _ _ _ _)) _ _ =>
      eapply wp_word; [done | eassumption | by eauto | done | cbn; intros _; by eauto | intros ?r ?b ?Hr; viewed]
  | |- wp _ (die _ _) _ _ => unfold die; cbn [foreach]
  end.
(** The end of a side. *)
Ltac sided := unfold EXIT_SUCCESS; cbn; eauto 7.

Lemma server_side k buffer : length buffer = 1024%nat -> wp (side k 0) (server k buffer) Deaf (ends 0).
Proof.
  intros Hb. destruct k; cbn [server].
  - unfold inet_stream_server. repeat side_step. sided.
  - unfold local_stream_server. repeat side_step. sided.
  - unfold inet_dgram_server. repeat side_step. sided.
  - unfold local_dgram_server. repeat side_step. sided.
Qed.

Lemma client_side k buffer : length buffer = 1024%nat -> wp (side k 1) (client k buffer) Away (ends 1).
Proof.
  intros Hb. destruct k; cbn [client].
  - unfold inet_stream_client. repeat side_step. all: sided.
  - unfold local_stream_client. repeat side_step. all: sided.
  - unfold inet_dgram_client. repeat side_step. all: sided.
  - unfold local_dgram_client, die_unlink. repeat side_step. all: sided.
Qed.

(** * The connection between the two *)

Definition got (a : view) : option (list Z) := match a with Heard d | Shown d | Answered d => Some d | _ => None end.
Definition met (a : view) : bool := match a with Accepted | Heard _ | Shown _ | Answered _ => true | _ => false end.
Definition answered (a : view) : bool := match a with Answered _ => true | _ => false end.
Definition sent (b : view) : bool := match b with Asked | Reset | Told _ | Printed _ => true | _ => false end.
Definition reached (b : view) : bool := match b with Connected => true | _ => sent b end.
Definition told (b : view) : option (list Z) := match b with Told d | Printed d => Some d | _ => None end.
Definition shown (w : view) : list (list (list Z)) := match w with Shown d | Answered d | Printed d => [[d]] | _ => [] end.
Definition finished (b : view) : bool := match b with Refused | Reset | Printed _ => true | _ => false end.

(** The connection, the history, and how far server and client have come. *)
Record linked (k : kind) (l : link) (h : history) (a b : view) : Prop := Linked {
  k_server : match a with Deaf | Ready => True | _ => met a = true end;
  k_client : match b with Away | Refused => True | _ => reached b = true end;
  k_ready : ready l = match a with Deaf => false | _ => true end;
  k_opened : ready l = opened_in k h;
  k_joined : joined l = true -> reached b = true;
  k_reached : k <> InetDgram -> reached b = true -> joined l = true;
  k_connected : b = Connected -> stream k = true;
  k_met : met a = true -> joined l = true;
  k_up : match got a with
    | Some d => arrived k (str "Hello") d /\ str "Hello" = d ++ up l /\ sent b = true
    | None => up l = if sent b && joined l then str "Hello" else []
    end;
  k_down : match told b with
    | Some x => arrived k (str "Hi") x
    | None => down l = if answered a then str "Hi" else []
    end;
  k_told : told b <> None \/ b = Reset -> answered a = true;
  k_refused : b = Refused -> k <> InetDgram;
  k_reset : b = Reset -> stream k = true /\ up l <> [];
  k_client_gone : client_gone l = true -> finished b = true;
  k_server_gone : server_gone l = true -> answered a = true;
  k_early : b = Refused \/ sent b = true /\ joined l = false -> early k h;
  k_said0 : said 0 h = shown a;
  k_said1 : said 1 h = shown b }.

Lemma said_snoc i h x : said i (h ++ [x]) = said i h ++ match saying i x with Some args => [args] | None => [] end.
Proof. unfold said. rewrite omap_app. cbn. by destruct (saying i x). Qed.

Lemma opened_snoc k h i c : opened_in k (h ++ [(i, c)]) = opened_in k h || match i with O => opens k (deed_of c) | _ => false end.
Proof. unfold opened_in. rewrite existsb_app. cbn. by rewrite orb_false_r. Qed.

Lemma early_snoc k h x : early k h -> early k (h ++ [x]).
Proof. intros (h1 & c & h2 & -> & H1 & H2). exists h1, c, (h2 ++ [x]). by rewrite <- app_assoc. Qed.

Lemma early_now k h c : calling (deed_of c) = true -> opened_in k h = false -> early k (h ++ [(1%nat, c)]).
Proof. intros H1 H2. by exists h, c, []. Qed.

(** What a side takes arrived, and the rest of a datagram is nothing. *)
Lemma piece_arrived k m n d rest : piece k m n d rest -> arrived k m d.
Proof. intros (-> & Hd & _ & Hr). split_and!; [done|by exists rest|]. intros Hs. by rewrite Hr, app_nil_r. Qed.

(** A call that only goes into the history. *)
Lemma linked_plain k l h a b x : linked k l h a b ->
  (match x.1 with O => opens k (deed_of x.2) | _ => false end) = false -> saying 0 x = None -> saying 1 x = None ->
  linked k l (h ++ [x]) a b.
Proof.
  intros [] Ho H0 H1. destruct x as [i c]. constructor; try done; cbn in *.
  - by rewrite opened_snoc, Ho, orb_false_r.
  - intros He. by apply early_snoc, k_early0.
  - by rewrite said_snoc, H0, app_nil_r.
  - by rewrite said_snoc, H1, app_nil_r.
Qed.

(** The fields of [linked] after a call, whose deed [Ec] gives. *)
Ltac relink Ec :=
  constructor; cbn [got met answered sent reached told shown finished ready joined up down client_gone server_gone fst snd];
  rewrite ?said_snoc, ?opened_snoc; unfold saying; cbn [fst snd]; rewrite ?Ec; cbn [Nat.eqb andb opens];
  rewrite ?app_nil_r, ?orb_false_r; try done; try by auto using early_snoc; try by intros [?|?]; auto using early_snoc.

(** What a waiting server finds is the word. *)
Lemma linked_heard k l h a b n d rest : linked k l h a b -> a = (if stream k then Accepted else Ready) ->
  piece k (up l) n d rest -> up l = str "Hello" /\ sent b = true /\ joined l = true.
Proof.
  intros [] Ha (Hu & Hd & _). destruct k, (sent b), (joined l); subst; cbn in *; try done; by destruct d; rewrite ?k_up0 in Hu.
Qed.

(** A step of the server is one it may make, and keeps the connection in order. *)
Lemma server_ok k l h a b c r l' : linked k l h a b -> server_may k a c -> serves k l c r l' ->
  server_gets k a c r /\ linked k l' (h ++ [(0%nat, c)]) (server_view k a c r) b.
Proof.
  intros H Hm Ha. unfold server_may, server_gets, server_view in *. pose proof H as [].
  destruct (deed_of c) as [n0|d0| | | | | | |f args|] eqn:Ec; destruct Ha as [E|d E Hj Hd|n d rest E Hp|n E Hstr Hup Hg|d E|E|r E Ho Hs];
    rewrite Ec in *; simplify_eq; cbn [opens plain] in *; try done.
  - destruct Hm as [-> Hw]. destruct (linked_heard _ _ _ _ _ _ _ _ H Hw Hp) as (Hu & Hsb & Hj).
    rewrite Hu in Hp. pose proof (piece_arrived _ _ _ _ _ Hp) as Hd. destruct Hp as (Hr & _).
    split; [by exists d|]. assert (a = Accepted \/ a = Ready) as [-> | ->] by (rewrite Hw; destruct (stream k); auto).
    all: relink Ec; intros ->; by specialize (k_told0 (or_intror eq_refl)).
  - destruct Hm as [_ Hw]. exfalso. rewrite Hstr in *. subst a. specialize (k_client_gone0 ltac:(done)). specialize (k_met0 eq_refl).
    specialize (k_joined0 k_met0). cbn in *. rewrite k_met0, andb_true_r, Hup in k_up0. by destruct b.
  - destruct Hm as [-> [x ->]]. split; [cbn; lia|]. relink Ec. cbn in *. destruct (told b); [done|]. by rewrite k_down0.
  - destruct Hm as [-> Hw]. split; [done|]. relink Ec.
  - destruct Hm as [x ->]. split; [done|]. relink Ec.
  - specialize (Hm E). subst a. rewrite E. split; [done|]. relink Ec. by rewrite E, orb_true_r.
  - rewrite Ho. split; [done|]. apply linked_plain; cbn; unfold saying; cbn; by rewrite ?Ec.
  - specialize (Hm E). subst a. rewrite E. split; [done|]. relink Ec. by rewrite E, orb_true_r.
  - rewrite Ho. split; [done|]. apply linked_plain; cbn; unfold saying; cbn; by rewrite ?Ec.
  - split; [done|]. apply linked_plain; cbn; unfold saying; cbn; by rewrite ?Ec.
  - split; [done|]. destruct (String.eqb_spec f (format 0)) as [->|Hf].
    + destruct (Hm eq_refl) as (x & -> & ->). relink Ec. cbn. by rewrite k_said2.
    + apply String.eqb_neq in Hf. apply linked_plain; cbn; unfold saying; cbn [fst snd]; by rewrite ?Ec, ?Hf.
  - split; [done|]. apply linked_plain; cbn; unfold saying; cbn; by rewrite ?Ec.
Qed.

(** A client that waits has taken nothing; what it finds is the word. *)
Lemma linked_told k l h a n d rest : linked k l h a Asked -> piece k (down l) n d rest ->
  down l = str "Hi" /\ answered a = true.
Proof. intros [] (Hu & Hd & _). cbn in *. destruct (answered a); [done|]. by destruct d; rewrite k_down0 in Hu. Qed.

Lemma client_ok k l h a b c r l' : linked k l h a b -> client_may k b c -> asks k l c r l' ->
  client_gets k b c r /\ linked k l' (h ++ [(1%nat, c)]) a (client_view b c r).
Proof.
  intros H Hm Ha. unfold client_may, client_gets, client_view in *. pose proof H as [].
  destruct (deed_of c) as [n0|d0| | | | | | |f args|] eqn:Ec;
    destruct Ha as [E Hr|E Hr|d E Hr|d E Hk Hr|d E Hk Hr|n d rest E Hp|n E Hstr Hdo Hg|n E Hstr Hu Hg|E|r E Hs];
    rewrite Ec in *; simplify_eq; cbn [plain] in *; try done.
  - destruct Hm as [-> ->]. destruct (linked_told _ _ _ _ _ _ _ H Hp) as [Hd Ha]. rewrite Hd in Hp.
    pose proof (piece_arrived _ _ _ _ _ Hp) as Hd'. split; [by left; exists d|]. cbn [r_val data_reply r_data].
    destruct (Z.eqb_spec (Z.of_nat (length d)) (-1)); [exfalso; lia|]. relink Ec.
  - exfalso. destruct Hm as [-> ->]. cbn in *. by rewrite (k_server_gone0 Hg), Hdo in k_down0.
  - destruct Hm as [-> ->]. split; [by right|]. relink Ec.
  - destruct Hm as [-> Hb]. split; [left; cbn; lia|]. replace (if _ =? -1 then _ else _) with Asked by done.
    assert (sent b = false /\ told b = None) as [Hs Ht] by (subst b; by destruct (stream k)).
    rewrite Hs, Ht in *. relink Ec.
    + destruct (got a); [by destruct k_up0 as (_ & _ & ?)|]. cbn in *. by rewrite k_up0.
    + intros Hg. specialize (k_client_gone0 Hg). subst b. by destruct (stream k).
    + intros [?|[_ ?]]; done.
    + rewrite k_said3. subst b. by destruct (stream k).
  - destruct Hm as [-> Hb]. split; [left; cbn; lia|]. replace (if _ =? -1 then _ else _) with Asked by done.
    cbn in Hb. subst b. relink Ec.
    + destruct (got a); [by destruct k_up0 as (_ & _ & ?)|]. destruct (joined l); [by specialize (k_joined0 eq_refl)|done].
    + intros _. apply early_now; [by rewrite Ec|congruence].
  - destruct Hm as [-> Hb]. split; [by right|]. replace (if _ =? -1 then _ else _) with Refused by done.
    cbn in Hb. subst b. relink Ec. intros _. apply early_now; [by rewrite Ec|congruence].
  - destruct Hm as [-> Hb]. split; [by left|]. replace (if _ =? -1 then _ else _) with Connected by done. relink Ec. intros [?|[? _]]; done.
  - destruct Hm as [-> Hb]. split; [by right|]. replace (if _ =? -1 then _ else _) with Refused by done. relink Ec.
    + intros _ ->. done.
    + intros _. apply early_now; [by rewrite Ec|congruence].
  - split; [done|]. relink Ec. by destruct Hm as [->|[->|[x ->]]].
  - split; [done|]. apply linked_plain; cbn; unfold saying; cbn; by rewrite ?Ec.
  - split; [done|]. apply linked_plain; cbn; unfold saying; cbn; by rewrite ?Ec.
  - split; [done|]. apply linked_plain; cbn; unfold saying; cbn; by rewrite ?Ec.
  - split; [done|]. destruct (String.eqb_spec f (format 1)) as [->|Hf].
    + destruct (Hm eq_refl) as (x & -> & ->). relink Ec. cbn. by rewrite k_said3.
    + apply String.eqb_neq in Hf. apply linked_plain; cbn; unfold saying; cbn [fst snd]; by rewrite ?Ec, ?Hf.
  - split; [done|]. apply linked_plain; cbn; unfold saying; cbn; by rewrite ?Ec.
Qed.

(** The views of the two, and the connection between them. *)
Definition joint (k : kind) (s : link * history) (ws : list view) : Prop := exists a b, ws = [a; b] /\ linked k s.1 s.2 a b.

Lemma joint_ok k i s ws w c r s' : joint k s ws -> ws !! i = Some w -> pre (side k i) w c -> acts k i s c r s' ->
  rep (side k i) w c r /\ joint k s' (<[i := post (side k i) w c r]> ws).
Proof.
  intros (a & b & -> & HL) Hi Hp [Hh Ha]. destruct s as [l h], s' as [l' h']. cbn in *. subst h'.
  destruct i as [|[|]]; cbn in *; simplify_eq.
  - destruct (server_ok _ _ _ _ _ _ _ _ HL Hp Ha). split; [done|]. by eexists _, _.
  - destruct (client_ok _ _ _ _ _ _ _ _ HL Hp Ha). split; [done|]. by eexists _, _.
Qed.

Lemma steps_view k bs bc l h ps : length bs = 1024%nat -> length bc = 1024%nat -> rtc (steps k) (both k bs bc) ((l, h), ps) ->
  exists a b p q, ps = [p; q] /\ linked k l h a b /\ wp (side k 0) p a (ends 0) /\ wp (side k 1) q b (ends 1).
Proof.
  intros Hs Hc H. pose proof (in_step_rtc (acts k) (side k) (joint k) ends (joint_ok k) _ _ H) as Hin.
  destruct Hin as (ws & Hl & (a & b & -> & HL) & Hw).
  - exists [Deaf; Away]. split_and!; [done| |].
    + exists Deaf, Away. split; [done|]. constructor; try done; intros [?|Hf]; try done; by destruct Hf.
    + intros [|[|i]] p w; cbn; intros; simplify_eq; [by apply server_side|by apply client_side].
  - cbn in *. destruct ps as [|p [|q []]]; try done. exists a, b, p, q. split_and!; [done|done|..].
    + by apply (Hw 0%nat).
    + by apply (Hw 1%nat).
Qed.

(** ** Where a run can stop *)

(** A side that waits for the other. *)
Definition awaits (p : prog Z) : Prop := exists c f, p = Step c f /\ (deed_of c = Accept \/ exists n, deed_of c = Receive n).

(** How a run stops: the client was served; it was cut off by a server that had not read
    everything; it was early and refused; or its datagram was lost and both wait for ever. *)
Inductive outcome (k : kind) (h : history) : list (prog Z) -> Prop :=
  | served d x :
      arrived k (str "Hello") d -> arrived k (str "Hi") x -> said 0 h = [[d]] -> said 1 h = [[x]] ->
      outcome k h [Ret 0; Ret 0]
  | cut_off d :
      stream k = true -> arrived k (str "Hello") d -> d <> str "Hello" -> said 0 h = [[d]] -> said 1 h = [] ->
      outcome k h [Ret 0; Halt (Exited 1)]
  | turned_away p :
      k <> InetDgram -> early k h -> awaits p -> said 0 h = [] -> said 1 h = [] -> outcome k h [p; Halt (Exited 1)]
  | stranded p q :
      k = InetDgram -> early k h -> awaits p -> awaits q -> said 0 h = [] -> said 1 h = [] -> outcome k h [p; q].

Lemma succeeds_one e : succeeds e (value_reply 1).
Proof. by destruct e; cbn. Qed.

Lemma piece_one k q n : q <> [] -> (Z.of_nat (length q) <= n) -> exists d rest, piece k q n d rest.
Proof. intros Hq Hn. exists q, []. split_and!; [by rewrite app_nil_r|done..]. Qed.

(** The server is done, or waits in vain, or can go on. *)
Lemma server_moves k l h a b p : linked k l h a b -> wp (side k 0) p a (ends 0) ->
  (p = Ret 0 /\ answered a = true) \/
  (awaits p /\ got a = None /\ (met a = false /\ stream k = true /\ joined l = false \/ up l = [])) \/
  exists c f r l', p = Step c f /\ serves k l c r l'.
Proof.
  intros HL Hw. destruct p as [v|hl|c f]; [destruct Hw as (E & x & ->); simplify_eq; by left|by destruct Hw|].
  right. destruct Hw as [Hp _]. cbn in Hp. unfold server_may in Hp.
  assert (Hgo : (exists r l', serves k l c r l') -> exists c' f' r l', Step c f = Step c' f' /\ serves k l c' r l').
  { intros (r & l' & H). by exists c, f, r, l'. }
  assert (Hplain : plain (deed_of c) = true -> exists r l', serves k l c r l').
  { intros Hpl. destruct (opens k (deed_of c)) eqn:Ho; [by eexists _, _; apply serves_open|].
    eexists _, _. by apply serves_plain, succeeds_one. }
  destruct (deed_of c) as [n|d| | | | | | |fm args|] eqn:Ec; try (right; by apply Hgo, Hplain); try done.
  - destruct Hp as [-> Ha]. assert (Hg : got a = None) by (subst a; by destruct (stream k)).
    destruct (decide (up l = [])) as [|Hu]; [left; split_and!; eauto; exists c, f; eauto|right; apply Hgo].
    destruct (piece_one k (up l) 1023) as (d & rest & Hd); [done| |by eexists _, _; eapply serves_receive].
    destruct HL. rewrite Hg in k_up0. rewrite k_up0. destruct (sent b && joined l); cbn; lia.
  - right. apply Hgo. by eexists _, _; apply serves_send.
  - destruct Hp as [-> Hs]. destruct (joined l) eqn:Hj.
    + right. apply Hgo. by eexists _, _; apply (serves_accept _ _ _ 0).
    + left. split_and!; [exists c, f; eauto|done|by left].
  - right. apply Hgo. by eexists _, _; apply serves_close.
Qed.

Lemma client_moves k l h a b q : linked k l h a b -> wp (side k 1) q b (ends 1) ->
  (q = Ret 0 /\ (exists x, b = Printed x) \/ q = Halt (Exited 1) /\ (b = Refused \/ b = Reset)) \/
  (awaits q /\ b = Asked /\ answered a = false) \/
  exists c f r l', q = Step c f /\ asks k l c r l'.
Proof.
  intros HL Hw. destruct q as [v|hl|c f]; [destruct Hw as [[E [x ->]]|[E _]]; simplify_eq; left; eauto| |].
  { destruct Hw as [[E _]|[E Hb]]; simplify_eq. left. by right. }
  right. destruct Hw as [Hp _]. cbn in Hp. unfold client_may in Hp.
  assert (Hgo : (exists r l', asks k l c r l') -> exists c' f' r l', Step c f = Step c' f' /\ asks k l c' r l').
  { intros (r & l' & H). by exists c, f, r, l'. }
  assert (Hplain : plain (deed_of c) = true -> exists r l', asks k l c r l').
  { intros Hpl. eexists _, _. by apply asks_plain, succeeds_one. }
  destruct (deed_of c) as [n|d| | | | | | |fm args|] eqn:Ec; try (right; by apply Hgo, Hplain); try done.
  - destruct Hp as [-> ->]. destruct (answered a) eqn:Ha; [right; apply Hgo|left; split_and!; eauto; exists c, f; eauto].
    destruct HL. cbn in k_down0. rewrite Ha in k_down0.
    destruct (piece_one k (down l) 1023) as (d & rest & Hd); [by rewrite k_down0|rewrite k_down0; cbn; lia|].
    by eexists _, _; eapply asks_receive.
  - right. apply Hgo. destruct (stream k) eqn:Hs; [by eexists _, _; apply asks_send; auto|].
    destruct (ready l) eqn:Hr; [by eexists _, _; apply asks_send; auto|].
    destruct k; try done; eexists _, _; [by apply asks_lost|by eapply asks_nobody].
  - right. apply Hgo. destruct (ready l) eqn:Hr; eexists _, _; [by apply asks_connect|by apply asks_refused].
  - right. apply Hgo. by eexists _, _; apply asks_close.
Qed.

(** C10 Whatever the schedule and the pieces the streams come in, server and client of each
    kind together always come to a stop: both return 0, each having printed once the
    message of the other (a beginning of it on a stream); or the stream is reset by a server
    that had read only a part, and the client exits with 1; or the client called before
    the server had opened and is refused, the server waiting on; and over datagrams of the
    internet such a client is not refused: both wait for ever. *)
Theorem exchange_outcomes k bs bc : length bs = 1024%nat -> length bc = 1024%nat ->
  sn (steps k) (both k bs bc) /\
  forall s ps, rtc (steps k) (both k bs bc) (s, ps) -> nf (steps k) (s, ps) -> outcome k s.2 ps.
Proof.
  intros Hs Hc. split; [apply many_step_sn|]. intros [l h] ps Hr Hn.
  destruct (steps_view _ _ _ _ _ _ Hs Hc Hr) as (a & b & p & q & -> & HL & Hp & Hq).
  assert (Hstuck : forall i c f r l', [p; q] !! i = Some (Step c f) -> match i with O => serves k l c r l' | _ => asks k l c r l' end -> False).
  { intros i c f r l' Hi Ha. apply Hn. eexists. by apply (step_of (acts k) (l, h) [p; q] i c f r (l', h ++ [(i, c)])). }
  destruct (server_moves _ _ _ _ _ _ HL Hp) as [[-> Ha]|[(Hwp & Hg & Hup)|(c & f & r & l' & -> & Ha)]]; [| |by destruct (Hstuck 0%nat c f r l')];
  (destruct (client_moves _ _ _ _ _ _ HL Hq) as [Hend|[(Hwq & -> & Hb)|(c & f & r & l' & -> & Hb)]]; [| |by destruct (Hstuck 1%nat c f r l')]).
  all: destruct HL; cbn [fst snd].
  - destruct a as [| | | | |d| | | | | | |]; try done. destruct k_up0 as (Hd & Hu & Hsb).
    destruct Hend as [[-> [x ->]]|[-> [->| ->]]]; [by apply (served k h d x)|done|].
    destruct (k_reset0 eq_refl) as [Hst Hn0]. apply (cut_off k h d); try done. intros ->.
    apply Hn0. by destruct (app_inv_head (str "Hello") [] (up l)).
  - congruence.
  - assert (answered a = false /\ shown a = []) as [Ha Hsh] by (by destruct a). rewrite Hsh, Ha in *.
    destruct Hend as [[-> [x ->]]|[-> [->| ->]]].
    + by specialize (k_told0 ltac:(by left)).
    + apply turned_away; auto.
    + by specialize (k_told0 ltac:(by right)).
  - assert (answered a = false /\ shown a = []) as [Ha Hsh] by (by destruct a). rewrite Hsh, Ha, Hg in *.
    destruct (joined l) eqn:Hj; [exfalso; destruct Hup as [(_ & _ & ?)|Hup]; [done|by rewrite Hup in k_up0]|].
    assert (k = InetDgram) by (destruct k; try done; by specialize (k_reached0 ltac:(done) eq_refl)).
    apply stranded; auto.
Qed.

(** ** Runs *)

(** The next call of side [i]. *)
Ltac call_of i rule :=
  eapply rtc_l; [eapply (step_of _ (_, _) _ i _ _ _ (_, _)); [reflexivity|split; [reflexivity|cbn [fst]; eapply rule; done]]|cbn].

(** Over datagrams of the internet a client that is early is never answered. *)
Lemma stranded_run : exists s ps,
  rtc (steps InetDgram) (both InetDgram (replicate 1024 7) (replicate 1024 7)) (s, ps) /\ nf (steps InetDgram) (s, ps) /\
  exists c f d g, ps = [Step c f; Step d g] /\ deed_of c = Receive 1023 /\ deed_of d = Receive 1023.
Proof.
  eexists _, _. split; [|split].
  - unfold both, steps, server, client, inet_dgram_server, inet_dgram_client, sys, sys_data, sys_. cbn.
    call_of 1%nat (fun k l c => asks_plain k l c (value_reply 3)).
    call_of 1%nat (fun k l c => asks_plain k l c (value_reply 1)).
    call_of 1%nat asks_lost.
    call_of 0%nat (fun k l c => serves_plain k l c (value_reply 3)).
    call_of 0%nat serves_open.
    apply rtc_refl.
  - intros [y Hy]. inversion Hy as [? ? i c k r s' Hi [Hh Ha]]; subst. cbn in *.
    destruct i as [|[|i]]; cbn in *; simplify_eq.
    + inversion Ha as [| |n d rest E (Hu & Hd & _)| | | |]; cbn in *; simplify_eq. by destruct d.
    + inversion Ha as [| | | | |n d rest E (Hu & Hd & _)| | | |]; cbn in *; simplify_eq. by destruct d.
  - by eexists _, _, _, _.
Qed.

Lemma exchange_outcomes_witness : exists s ps,
  rtc (steps InetDgram) (both InetDgram (replicate 1024 7) (replicate 1024 7)) (s, ps) /\ outcome InetDgram s.2 ps.
Proof.
  destruct stranded_run as (s & ps & Hr & Hn & _). exists s, ps. split; [exact Hr|].
  exact (proj2 (exchange_outcomes InetDgram (replicate 1024 7) (replicate 1024 7) eq_refl eq_refl) s ps Hr Hn).
Defined.
