(* ===== verification/Servers.v ===== *)
(** Servers of src/hw16_sockets/p2_server_template with many clients: the one that serves
    TCP and UDP on one port with epoll (multiprotocol_server), the one that starts a
    thread for every client (parallel server), and the clients of the servers of p2.

    The address of a peer, which is only printed, is not part of the model. *)

From S2P Require Import Prelude CInt CStr Stdio Sys Endpoint Sockets.

(** * multiprotocol_server *)

Definition MAX_EVENTS : Z := 10.
Definition BUFFER_SIZE : Z := 1024.
Definition SOMAXCONN : Z := 4096.

Definition tcp_response : list Z := str "Salut from TCP" ++ [newline].
Definition udp_response : list Z := str "Salut form UDP" ++ [newline].

(** A new connection: one message is read and the connection closed again. *)
Definition serve_tcp (tcp_socket : Z) (buffer : list Z) : prog (list Z) :=
  client_fd ← sys (c_accept tcp_socket);
  if client_fd <? 0 then sys_ (c_perror "accept");; Ret buffer
  else
    '(bytes, data) ← sys_data (c_read client_fd (BUFFER_SIZE - 1));
    if 0 <? bytes then
      buffer ← received "TCP recv: %s\n" buffer data bytes;
      same ← of_outcome (streq buffer (lit "Hello"));
      (if (same : bool) then sys_ (c_write client_fd tcp_response) else Ret tt);;
      sys_ (c_close client_fd);;
      Ret buffer
    else sys_ (c_close client_fd);; Ret buffer.

Definition serve_udp (udp_socket : Z) (buffer : list Z) : prog (list Z) :=
  '(bytes, data) ← sys_data (c_recvfrom udp_socket (BUFFER_SIZE - 1));
  if bytes <? 0 then sys_ (c_perror "recvfrom");; Ret buffer
  else
    buffer ← received "UDP recv from %s:%d: %s\n" buffer data bytes;
    same ← of_outcome (streq buffer (lit "Hi"));
    (if (same : bool) then sys_ (c_sendto udp_socket udp_response) else Ret tt);;
    Ret buffer.

Definition serve_event (tcp_socket udp_socket : Z) (ev : Z * Z) (buffer : list Z) : prog (list Z) :=
  if ev.1 =? tcp_socket then serve_tcp tcp_socket buffer
  else if ev.1 =? udp_socket then serve_udp udp_socket buffer
  else Ret buffer.

Definition multi_round (tcp_socket udp_socket epoll_fd : Z) (buffer : list Z) : prog (list Z + unit) :=
  '(n, data) ← sys_data (c_epoll_wait epoll_fd MAX_EVENTS);
  if n <? 0 then sys_ (c_perror "epoll_wait");; Ret (inr tt)
  else
    buffer ← foreach (take (Z.to_nat n) (events_of data)) (serve_event tcp_socket udp_socket) buffer;
    Ret (inl buffer).

Definition multi_server (fuel : nat) (buffer : list Z) : prog Z :=
  tcp_socket ← sys (c_socket AF_INET SOCK_STREAM 0);
  if tcp_socket <? 0 then die "socket_tcp" [] else
  udp_socket ← sys (c_socket AF_INET SOCK_DGRAM 0);
  if udp_socket <? 0 then die "socket_udp" [] else
  b ← sys (c_bind tcp_socket None);
  if negb (b =? 0) then die "bind_tcp" [tcp_socket; udp_socket] else
  b ← sys (c_bind udp_socket None);
  if negb (b =? 0) then die "bind_udp" [tcp_socket; udp_socket] else
  l ← sys (c_listen tcp_socket SOMAXCONN);
  if negb (l =? 0) then die "listen" [tcp_socket; udp_socket] else
  epoll_fd ← sys c_epoll_create;
  if epoll_fd <? 0 then die "epol_create1" [tcp_socket; udp_socket] else
  e ← sys (c_epoll_add epoll_fd tcp_socket);
  if e <? 0 then die "epoll_ctl tcp-socket" [tcp_socket; udp_socket; epoll_fd] else
  e ← sys (c_epoll_add epoll_fd udp_socket);
  if e <? 0 then die "epoll_ctl udp_socket" [tcp_socket; udp_socket; epoll_fd] else
  sys_ (c_print "Server running on port %d\n" [print_d PORT]);;
  forever fuel (multi_round tcp_socket udp_socket epoll_fd) buffer;;
  sys_ (c_close tcp_socket);;
  sys_ (c_close udp_socket);;
  sys_ (c_close epoll_fd);;
  Ret EXIT_SUCCESS.

(** Its client sends one message over each protocol. No reply is tested, the sockets are
    not either. *)
Definition multi_client (buffer : list Z) : prog Z :=
  sys_ (c_inet_pton SERVER_IP);;
  tcp_socket ← sys (c_socket AF_INET SOCK_STREAM 0);
  sys_ (c_connect tcp_socket);;
  sys_ (c_write tcp_socket (str "Hello"));;
  '(bytes, data) ← sys_data (c_read tcp_socket (BUFFER_SIZE - 1));
  buffer ← (if 0 <? bytes then received "TCP server replied: %s\n" buffer data bytes else Ret buffer);
  sys_ (c_close tcp_socket);;
  udp_socket ← sys (c_socket AF_INET SOCK_DGRAM 0);
  sys_ (c_sendto udp_socket (str "Hi"));;
  '(bytes, data) ← sys_data (c_recvfrom udp_socket (BUFFER_SIZE - 1));
  buffer ← (if 0 <? bytes then received "UDP server replied: %s\n" buffer data bytes else Ret buffer);
  sys_ (c_close udp_socket);;
  Ret EXIT_SUCCESS.

(** * parallel server *)

Definition BACKLOG : Z := 10.
Definition SIZEOF_INT : Z := 4.

(** The thread of a client. [arg] is the allocated cell, [client_sock] its content, [stamp]
    the text that [strftime] makes of the time. *)
Definition client_handler (stamp : list Z) (arg client_sock : Z) : prog unit :=
  sys_ (c_free arg);;
  sys_ c_time;;
  n ← of_outcome (strlen stamp);
  sys_ (c_send client_sock (take (Z.to_nat n) stamp));;
  sys_ (c_close client_sock);;
  Ret tt.

Definition parallel_round (server_sock : Z) (_ : unit) : prog (unit + Z) :=
  client_sock ← sys (c_malloc SIZEOF_INT);
  if client_sock =? 0 then sys_ (c_perror "malloc");; Ret (inl tt)
  else
    fd ← sys (c_accept server_sock);
    if fd <? 0 then
      sys_ (c_perror "accept");;
      sys_ (c_free client_sock);;
      Ret (inl tt)
    else
      sys_ (c_print "Connected client: %s:%d\n" []);;
      r ← sys (c_spawn client_sock fd);
      if negb (r =? 0) then
        sys_ (c_perror "pthread_create");;
        sys_ (c_close fd);;
        sys_ (c_free client_sock);;
        Ret (inl tt)
      else Ret (inl tt).

Definition parallel_server (fuel : nat) : prog Z :=
  server_sock ← sys (c_socket AF_INET SOCK_STREAM 0);
  if server_sock =? -1 then die "socket" [] else
  sys_ (c_setsockopt server_sock SOL_SOCKET SO_REUSEADDR);;
  b ← sys (c_bind server_sock None);
  if b <? 0 then die "bind" [server_sock] else
  l ← sys (c_listen server_sock BACKLOG);
  if l <? 0 then die "listen" [server_sock] else
  sys_ (c_print "Server is listening on port %d\n" [print_d PORT]);;
  r ← forever fuel (parallel_round server_sock) tt;
  sys_ (c_close server_sock);;
  Ret r.

(** * The clients *)

Definition CLIENT_BUFFER_SIZE : Z := 128.
Definition THREAD_COUNT : Z := 50.
Definition POOL_THREAD_COUNT : Z := 10.
Definition QUEUE_THREAD_COUNT : Z := 5.

(** A thread connects and asks for the time. *)
Definition client_thread (buffer : list Z) : prog unit :=
  sock ← sys (c_socket AF_INET SOCK_STREAM 0);
  if sock =? -1 then sys_ (c_perror "socket")
  else
    a ← sys (c_inet_pton SERVER_IP);
    if a <=? 0 then sys_ (c_perror "inet_pton");; sys_ (c_close sock)
    else
      c ← sys (c_connect sock);
      (if c =? 0 then
         '(len, data) ← sys_data (c_recv sock (CLIENT_BUFFER_SIZE - 1));
         if 0 <? len then received "Thread %lu got time: %s" buffer data len;; Ret tt
         else sys_ (c_print "Thread %lu: Error reading from the server\n" [])
       else sys_ (c_print "Thread %lu: Couldn't connect to the server\n" []));;
      sys_ (c_close sock).

(** The threads are started ten milliseconds apart and all joined; the identifier of a
    thread that was not created is indeterminate. The clients differ in their number. *)
Definition clients_main (thread_count : Z) : prog Z :=
  created ← foreach (seqZ 0 thread_count) (fun _ created =>
    r ← sys c_thread_create;
    (if negb (r =? 0) then sys_ (c_perror "pthread_create") else Ret tt);;
    sys_ (c_usleep 10000);;
    Ret (created ++ [r =? 0])) [];
  foreach created (fun (ok : bool) _ => if ok then sys_ c_thread_join else Halt (Crashed Uninitialised)) tt;;
  Ret EXIT_SUCCESS.

(** * The multiprotocol server keeps its descriptors *)

Lemma world_back x w : x ∉ fds w -> World (({[x]} ∪ fds w) ∖ {[x]}) (names w) = w.
Proof. destruct w. cbn. intros. f_equal. set_solver. Qed.

(** A step gives a buffer of the same size and leaves the world as it was. *)
Definition keeps (w : world) (r : result (list Z)) (w' : world) : Prop :=
  w' = w /\ match r with Returned b => length b = 1024%nat | Halted _ => False end.

(** A received text against a word of the program. *)
Lemma streq_word b s : terminated b -> text (str s) -> streq b (lit s) = Done (bool_decide (cstr b = str s)).
Proof. intros Hb Hs. destruct (text_str_lit s Hs) as [Ht Hc]. by rewrite streq_terminated, Hc. Qed.

Ltac words := rewrite streq_word by (done || (apply (bool_decide_unpack _); by vm_compute)); cbn [of_outcome].

Lemma wp_serve_tcp tcp buffer w : tcp ∈ fds w -> length buffer = 1024%nat ->
  wp kernel (serve_tcp tcp buffer) w (keeps w).
Proof.
  intros Ht Hl. unfold serve_tcp. endpoint; [done| |by split; [apply world_back|]].
  words. endpoint; (split; [by apply world_back|congruence]).
Qed.

Lemma wp_serve_udp udp buffer w : udp ∈ fds w -> length buffer = 1024%nat ->
  wp kernel (serve_udp udp buffer) w (keeps w).
Proof. intros Ht Hl. unfold serve_udp. endpoint; [done|]. words. endpoint; (split; [done|congruence]). Qed.

Lemma wp_serve_event tcp udp ev buffer w : tcp ∈ fds w -> udp ∈ fds w -> length buffer = 1024%nat ->
  wp kernel (serve_event tcp udp ev buffer) w (keeps w).
Proof.
  intros. unfold serve_event. destruct (_ =? tcp); [by apply wp_serve_tcp|].
  destruct (_ =? udp); [by apply wp_serve_udp|done].
Qed.

Lemma wp_multi_round tcp udp ep buffer w : tcp ∈ fds w -> udp ∈ fds w -> ep ∈ fds w -> length buffer = 1024%nat ->
  wp kernel (multi_round tcp udp ep buffer) w (fun r w' =>
    w' = w /\ match r with Returned (inl b) => length b = 1024%nat | Returned (inr _) => True | Halted _ => False end).
Proof.
  intros Ht Hu He Hl. unfold multi_round. endpoint; [done|].
  apply wp_bind, (wp_foreach _ (fun b w' => length b = 1024%nat /\ w' = w)); [|by intros b' w' [Hb ->]|done].
  intros ev b w' _ [Hb ->]. eapply wp_mono; [|by apply wp_serve_event]. by intros [b'|h] w' [-> ?].
Qed.

(** How a run of the server may end, with the sockets open. *)
Definition multi_ends (r : result Z) (w : world) : Prop :=
  match r with
  | Returned v => v = EXIT_SUCCESS /\ fds w = ∅
  | Halted (Exited s) => s = 1 /\ fds w = ∅
  | Halted (Crashed _) => False
  | Halted Cut => True
  end.

(** The run in which the second socket cannot be made: the first one stays open. *)
Definition half_open (t : trace) (w : world) : Prop :=
  exists tcp udp e, t = [(c_socket AF_INET SOCK_STREAM 0, tcp); (c_socket AF_INET SOCK_DGRAM 0, udp); (c_perror "socket_udp", e)] /\
    0 <= r_val tcp /\ r_val udp = -1 /\ fds w = {[r_val tcp]}.

Lemma socket_cases d ty pr w r : reply_ok w (c_socket d ty pr) r ->
  (r_val r = -1 /\ after w (c_socket d ty pr) r = w) \/
  (0 <= r_val r /\ r_val r ∉ fds w /\ after w (c_socket d ty pr) r = World ({[r_val r]} ∪ fds w) (names w)).
Proof.
  assert (H : wp kernel (Step (c_socket d ty pr) Ret) w (fun res w' => exists r, res = Returned r /\
    ((r_val r = -1 /\ w' = w) \/ (0 <= r_val r /\ r_val r ∉ fds w /\ w' = World ({[r_val r]} ∪ fds w) (names w))))).
  { apply wp_open; [done..|constructor| |]; intros r'; cbn; eauto 8. }
  intros Hr. destruct H as [_ H]. destruct (H r Hr) as (r' & E & H'). by injection E as <-.
Qed.

(** Its runs: every call is on an open descriptor, and the end. *)
Lemma multi_server_ends fuel buffer t w res : length buffer = 1024%nat -> exec kernel (multi_server fuel buffer) start t w res ->
  allowed kernel start t /\
  match res with Some r => multi_ends r w \/ r = Halted (Exited 1) /\ half_open t w | None => True end.
Proof.
  intros Hl H. unfold multi_server, sys, mbind, prog_mbind in H. cbn [prog_bind] in H.
  inversion H as [| | |c1 k1 tcp ? t1 ? ? Hr1 H1]; subst; [by split|]. clear H. cbn [kernel rep post] in Hr1, H1.
  cut (allowed kernel (after start (c_socket AF_INET SOCK_STREAM 0) tcp) t1 /\ match res with
    Some r => multi_ends r w \/ r = Halted (Exited 1) /\ half_open ((c_socket AF_INET SOCK_STREAM 0, tcp) :: t1) w | None => True end).
  { intros [Ha Hq]. split; [|done]. split; [by repeat constructor|done]. }
  destruct (socket_cases _ _ _ _ _ Hr1) as [[E Ew]|(E & _ & Ew)]; rewrite Ew in H1 |- *.
  { rewrite E in H1. cbn [Z.ltb Z.compare] in H1. eapply wp_sound with (Q := fun r w => multi_ends r w) in H1.
    - split; [apply H1|]. destruct res; [left; apply H1|done].
    - endpoint. done. }
  destruct (Z.ltb_spec (r_val tcp) 0); [lia|].
  inversion H1 as [| | |c2 k2 udp ? t2 ? ? Hr2 H2]; subst; [by split|]. clear H1. cbn [kernel rep post] in Hr2, H2.
  destruct (socket_cases _ _ _ _ _ Hr2) as [[E2 Ew2]|(E2 & Hne & Ew2)].
  - rewrite E2 in H2. cbn [Z.ltb Z.compare] in H2. cbn [allowed kernel pre post]. rewrite Ew2 in H2 |- *.
    inversion H2 as [| | |c3 k3 e ? t3 ? ? Hr3 H3]; subst; [split; [split; [by repeat constructor|done]|done]|].
    cbn in H3. rewrite (after_eq _ _ _ [] {[r_val tcp]} ∅) in H3; [|by apply opened_none|cbn; set_solver|cbn; case_match; set_solver].
    inversion H3; subst; (split; [by repeat constructor|]); [|done].
    right. split; [done|]. by exists tcp, udp, e.
  - destruct (Z.ltb_spec (r_val udp) 0); [lia|]. cbn [allowed kernel pre post]. rewrite Ew2 in H2 |- *.
    eapply wp_sound with (Q := multi_ends) in H2.
    + split; [split; [by repeat constructor|apply H2]|]. destruct res; [left; apply H2|done].
    + cbn [start fds names] in *. set (x := r_val tcp) in *. set (y := r_val udp) in *. clearbody x y. clear Ew Ew2 Hr1 Hr2 tcp udp H0.
      endpoint; try (split; [done|cbn [fds]; set_solver]).
      set (w0 := World _ _).
      eapply wp_seq with (P := fun r w' => w' = w0 /\ match r with Returned _ => True | Halted h => h = Cut end).
      * apply (wp_forever _ (fun b w' => length b = 1024%nat /\ w' = w0)); [|by intros b w' [_ ->]|done].
        intros b w' [Hb ->]. eapply wp_mono; [|apply wp_multi_round; [subst w0; fds_in..|done]].
        by intros [[b'|]|h] w' [-> ?].
      * intros [[]|h] w' [-> Hh]; [|by subst]. subst w0. cbn [seq_post]. endpoint. split; [done|]. cbn. set_solver.
Qed.

(** * Each client is answered, once, by the rule of its protocol *)

(** What was received last, and the reply that is due. *)
Record conversation := Conversation { last : list Z; owed : option call }.

Definition owes (word text : list Z) (c : call) : option call := if bool_decide (text = word) then Some c else None.

(** While a reply is due the next call that is not a line of output sends it. Lines print
    the text received last, or a number of the program. *)
Definition answers : monitor conversation := Monitor
  (fun s c => match c with
     | c_write _ _ | c_sendto _ _ => owed s = Some c
     | c_print _ args => args = [cstr (last s)] \/ args = [print_d PORT]
     | _ => owed s = None
     end)
  (fun _ c r => -1 <= r_val r /\ forall n, receives c = Some n ->
     r_val r <= n /\ (0 <= r_val r -> Z.of_nat (length (r_data r)) = r_val r))
  (fun s c r => match c with
     | c_read fd _ =>
         if 0 <? r_val r then Conversation (r_data r) (owes (str "Hello") (cstr (r_data r)) (c_write fd tcp_response)) else s
     | c_recvfrom fd _ =>
         if r_val r <? 0 then s
         else Conversation (r_data r) (owes (str "Hi") (cstr (r_data r)) (c_sendto fd udp_response))
     | c_write _ _ | c_sendto _ _ => Conversation (last s) None
     | _ => s
     end).

Lemma answers_size s c r n : rep answers s c r -> receives c = Some n -> r_val r <> -1 ->
  Z.of_nat (length (r_data r)) = r_val r /\ 0 <= r_val r <= n.
Proof. cbn. intros (H1 & H4) Hn Hr. destruct (H4 n Hn) as [H5 H6]. split; [apply H6|]; lia. Qed.

Definition settled (s : conversation) : Prop := owed s = None.

Definition settles (r : result (list Z)) (s : conversation) : Prop :=
  settled s /\ match r with Returned b => length b = 1024%nat | Halted _ => False end.

(** A text is printed, and answered when it is the word. *)
Lemma wp_answer word c fmt buffer data n (f : list Z -> bool -> prog (list Z)) Q :
  length buffer = 1024%nat -> Z.of_nat (length data) = n -> n <= 1023 -> text (str word) ->
  (forall b, length b = 1024%nat ->
     wp answers (f b (bool_decide (cstr data = str word))) (Conversation data (owes (str word) (cstr data) c)) Q) ->
  wp answers (b ← received fmt buffer data n; same ← of_outcome (streq b (lit word)); f b same)
    (Conversation data (owes (str word) (cstr data) c)) Q.
Proof.
  intros Hl Hd Hn Hw H. apply wp_received; [done|lia|by left|]. intros r b _ Hb Ht Hc. cbn [post answers].
  rewrite streq_word, Hc by done. cbn [of_outcome]. apply H. congruence.
Qed.

Ltac converse := repeat (wp_plain; cbn [pre post answers]; try done).

Lemma word_text : text (str "Hello") /\ text (str "Hi").
Proof. split; apply (bool_decide_unpack _); by vm_compute. Qed.

Lemma serve_tcp_answers tcp buffer s : settled s -> length buffer = 1024%nat ->
  wp answers (serve_tcp tcp buffer) s settles.
Proof.
  unfold settled. intros Hs Hl. unfold serve_tcp. converse.
  destruct (answers_size _ _ _ _ Hr0 eq_refl) as [Hd Hn]; [lia|]. cbn in Hn.
  apply wp_answer; [done|done|unfold BUFFER_SIZE in Hn; lia|apply word_text|]. intros b Hb. unfold owes.
  destruct (bool_decide _); converse.
Qed.

Lemma serve_udp_answers udp buffer s : settled s -> length buffer = 1024%nat ->
  wp answers (serve_udp udp buffer) s settles.
Proof.
  unfold settled. intros Hs Hl. unfold serve_udp. converse.
  destruct (answers_size _ _ _ _ Hr eq_refl) as [Hd Hn]; [lia|]. cbn in Hn.
  apply wp_answer; [done|done|unfold BUFFER_SIZE in Hn; lia|apply word_text|]. intros b Hb. unfold owes.
  destruct (bool_decide _); converse.
Qed.

Lemma multi_round_answers tcp udp ep buffer s : settled s -> length buffer = 1024%nat ->
  wp answers (multi_round tcp udp ep buffer) s (fun r s' =>
    settled s' /\ match r with Returned (inl b) => length b = 1024%nat | Returned (inr _) => True | Halted _ => False end).
Proof.
  intros Hs Hl. unfold multi_round. unfold settled in *. converse.
  apply wp_bind, (wp_foreach _ (fun b s' => length b = 1024%nat /\ settled s')); [|by intros b' s' [Hb Hs']|done].
  intros ev b s' _ [Hb Hs']. unfold serve_event.
  destruct (_ =? tcp); [|destruct (_ =? udp); [|done]].
  - eapply wp_mono; [|by apply serve_tcp_answers]. by intros [b'|h] w' [Hw Hr'].
  - eapply wp_mono; [|by apply serve_udp_answers]. by intros [b'|h] w' [Hw Hr'].
Qed.

Lemma multi_server_answers fuel buffer : length buffer = 1024%nat ->
  wp answers (multi_server fuel buffer) (Conversation [] None) (fun _ s => settled s).
Proof.
  intros Hl. unfold multi_server.
  repeat first [ lazymatch goal with |- wp _ (die _ _) _ _ => unfold die; cbn [foreach] end
               | wp_plain; cbn [pre post answers]; try done; try (by right) ].
  eapply wp_seq with (P := fun r s' => settled s').
  - apply (wp_forever _ (fun b s' => length b = 1024%nat /\ settled s')); [|by intros b s' [_ ?]|done].
    intros b s' [Hb Hs]. eapply wp_mono; [|by apply multi_round_answers]. by intros [[b'|]|h] w' [Hw Hr'].
  - unfold settled. intros [[]|h] s' Hs; cbn [seq_post]; [|done]. converse.
Qed.

(** C26 The server of two protocols is safe and polite in every run: each call is on an open
    descriptor and no buffer is overrun; a client whose text is Hello over TCP, or Hi over
    UDP, gets the reply of its protocol on its own descriptor before the server does
    anything else, and nobody else gets one; every line printed shows the text received
    last. Whether it returns or exits, all descriptors are closed, but in one run: when the
    second socket cannot be made it exits at once, and the first stays open. *)
Theorem multi_server_polite fuel buffer t w res :
  length buffer = 1024%nat -> exec kernel (multi_server fuel buffer) start t w res ->
  allowed kernel start t /\ allowed answers (Conversation [] None) t /\
  match res with
  | Some r => (multi_ends r w \/ r = Halted (Exited 1) /\ half_open t w) /\ settled (final answers (Conversation [] None) t)
  | None => True
  end.
Proof.
  intros Hl H. destruct (multi_server_ends fuel buffer t w res Hl H) as [H1 H2].
  destruct (exec_transfer kernel answers (multi_server fuel buffer) start t w res) with (w' := Conversation [] None)
    as [s Hx]; [|done|].
  { intros w0 w' c r (Hr & _ & _ & Hn & _). split; [done|]. intros n E. destruct (Hn n E) as [Hle Hd].
    split; [done|]. intros H0. by apply Hd. }
  pose proof (exec_final _ _ _ _ _ _ Hx) as ->.
  destruct (wp_sound _ _ _ _ _ _ _ (multi_server_answers fuel buffer Hl) Hx) as [H3 H4].
  split_and!; [done..|]. by destruct res.
Qed.

(** * The parallel server hands its clients over *)

(** What the server owns: sockets and allocated cells, and the client it has accepted and
    not yet offered to a thread. *)
Record ownership := Own { socks : gset Z; cells : gset Z; fresh : option Z }.

(** The server closes, frees and gives away only what it owns. A client that is accepted is
    given to a new thread, with a cell, before the server does anything but print. *)
Definition owner : monitor ownership := Monitor
  (fun s c => match c with
     | c_print _ _ => True
     | c_spawn p v => p ∈ cells s /\ v ∈ socks s /\ fresh s = Some v
     | c_close fd | c_accept fd | c_bind fd _ | c_listen fd _ | c_setsockopt fd _ _ => fd ∈ socks s /\ fresh s = None
     | c_free p => p ∈ cells s /\ fresh s = None
     | _ => fresh s = None
     end)
  (fun s c r => -1 <= r_val r /\
     match c with
     | c_socket _ _ _ | c_accept _ => r_val r ∉ socks s
     | c_malloc _ => r_val r ∉ cells s
     | _ => True
     end)
  (fun s c r => match c with
     | c_socket _ _ _ => if r_val r <? 0 then s else Own ({[r_val r]} ∪ socks s) (cells s) (fresh s)
     | c_accept _ => if r_val r <? 0 then s else Own ({[r_val r]} ∪ socks s) (cells s) (Some (r_val r))
     | c_malloc _ => if r_val r =? 0 then s else Own (socks s) ({[r_val r]} ∪ cells s) (fresh s)
     | c_close fd => Own (socks s ∖ {[fd]}) (cells s) (fresh s)
     | c_free p => Own (socks s) (cells s ∖ {[p]}) (fresh s)
     | c_spawn p v =>
         if r_val r =? 0 then Own (socks s ∖ {[v]}) (cells s ∖ {[p]}) None else Own (socks s) (cells s) None
     | _ => s
     end).

Ltac owns :=
  repeat (wp_plain; cbn [pre post rep owner socks cells fresh] in *; try done; try (by set_solver);
    try match goal with
        | E : (?v <? 0) = _ |- context [if ?v <? 0 then _ else _] => rewrite E; cbn [socks cells fresh]
        | E : (?v =? 0) = _ |- context [if ?v =? 0 then _ else _] => rewrite E; cbn [socks cells fresh]
        | E : (?v =? -1) = _ |- context [if ?v <? 0 then _ else _] =>
            destruct (Z.ltb_spec v 0); try (exfalso; lia); cbn [socks cells fresh]
        | E : negb (?v =? 0) = _ |- context [if ?v =? 0 then _ else _] => destruct (v =? 0); try done; cbn [socks cells fresh]
        end).

Lemma parallel_round_owns server :
  wp owner (parallel_round server tt) (Own {[server]} ∅ None) (fun r s => r = Returned (inl tt) /\ s = Own {[server]} ∅ None).
Proof. unfold parallel_round. owns; (split; [done|f_equal; set_solver]). Qed.

Lemma parallel_server_owns fuel : wp owner (parallel_server fuel) (Own ∅ ∅ None) (fun r s =>
  cells s = ∅ /\ fresh s = None /\
  match r with
  | Halted (Exited v) => v = 1 /\ socks s = ∅
  | Halted Cut => exists server, socks s = {[server]}
  | _ => False
  end).
Proof.
  unfold parallel_server.
  repeat first [ lazymatch goal with |- wp _ (die _ _) _ _ => unfold die; cbn [foreach] end
               | progress owns ].
  rewrite (right_id_L ∅ (∪)). apply wp_bind, (wp_forever _ (fun _ s => s = Own {[r_val r]} ∅ None)).
  - intros [] _ ->. eapply wp_mono; [|apply parallel_round_owns]. by intros r' w' [-> ->].
  - intros _ _ ->. split_and!; [done|done|]. by exists (r_val r).
  - done.
Qed.

(** C30 The server that starts a thread for each client loses nothing: in every run it
    closes, frees and hands over only what it owns; every client it accepts is offered, with
    the cell that holds its socket, to a new thread before anything else is done; between two
    clients it owns its listening socket and no memory; an exit leaves nothing behind. The
    thread, whatever is replied to it, frees the cell, asks for the time, sends its text on
    the socket of the client once, without the NUL, and closes the socket. *)
Theorem clients_handed_over stamp fuel t s res :
  text stamp -> exec owner (parallel_server fuel) (Own ∅ ∅ None) t s res ->
  allowed owner (Own ∅ ∅ None) t /\
  match res with
  | None => True
  | Some (Halted (Exited v)) => v = 1 /\ s = Own ∅ ∅ None
  | Some (Halted Cut) => exists server, s = Own {[server]} ∅ None
  | Some _ => False
  end /\
  forall arg sock, makes (client_handler (stamp ++ [0]) arg sock) [c_free arg; c_time; c_send sock stamp; c_close sock] tt.
Proof.
  intros Ht H. destruct (wp_sound _ _ _ _ _ _ _ (parallel_server_owns fuel) H) as [H1 H2]. split_and!; [done| |].
  - destruct s as [S C F]. cbn in H2.
    destruct res as [[v|[v|u|]]|]; [..|done]; destruct H2 as (-> & -> & H2); try done; [by destruct H2 as [-> ->]|].
    destruct H2 as [server ->]. by exists server.
  - intros arg sock. unfold client_handler. rewrite strlen_app by done. cbn. rewrite Nat2Z.id, take_app_length. by repeat split.
Qed.

(** * The clients *)

(** A thread of the client leaves no socket open. *)
Lemma client_thread_closes buffer : length buffer = 128%nat ->
  wp kernel (client_thread buffer) start (fun r w => r = Returned tt /\ fds w = ∅).
Proof. intros Hl. unfold client_thread. endpoint; cbn [fds]; (split; [done|set_solver]). Qed.

(** The state is whether every thread was created. *)
Definition creating : monitor bool := Monitor (fun _ _ => True) (fun _ _ _ => True)
  (fun ok c r => match c with c_thread_create => ok && (r_val r =? 0) | _ => ok end).

(** The client returns when all its threads were created, and joins an indeterminate thread
    otherwise. *)
Lemma clients_main_joins n : wp creating (clients_main n) true (fun r ok =>
  r = if ok then Returned 0 else Halted (Crashed Uninitialised)).
Proof.
  unfold clients_main. apply wp_bind.
  apply (wp_foreach _ (fun created ok => forallb id created = ok)); [| |done].
  - intros i created ok _ <-. wp_plains; cbn; rewrite forallb_app; cbn; by rewrite andb_true_r.
  - intros created ok <-. cbn [seq_post]. apply wp_bind. induction created as [|[] created IH]; [by wp_plains| |done].
    cbn [foreach]. wp_plains. exact IH.
Qed.

(** The client of both protocols sends its two words and prints the text of a reply; its
    calls need not be on open descriptors, since no socket is tested. *)
Lemma multi_client_says buffer : length buffer = 1024%nat ->
  wp (courier (fun _ d => d = str "Hello" \/ d = str "Hi") (fun _ _ => False)) (multi_client buffer) [] (fun r _ => r = Returned 0).
Proof.
  intros Hl. unfold multi_client. corresponds; try done; by left.
Qed.

(** * Runs *)

(** One client says Hello over TCP. *)
Definition hello_trace : trace :=
  [(c_socket AF_INET SOCK_STREAM 0, value_reply 3); (c_socket AF_INET SOCK_DGRAM 0, value_reply 4);
   (c_bind 3 None, ok0); (c_bind 4 None, ok0); (c_listen 3 SOMAXCONN, ok0); (c_epoll_create, value_reply 5);
   (c_epoll_add 5 3, ok0); (c_epoll_add 5 4, ok0); (c_print "Server running on port %d\n" [print_d PORT], ok0);
   (c_epoll_wait 5 MAX_EVENTS, Reply 1 [3; 1] 0); (c_accept 3, value_reply 6);
   (c_read 6 1023, data_reply (str "Hello")); (c_print "TCP recv: %s\n" [str "Hello"], ok0);
   (c_write 6 tcp_response, value_reply 15); (c_close 6, ok0)].

Lemma hello_run : exists w, exec kernel (multi_server 1 (replicate 1024 7)) start hello_trace w (Some (Halted Cut)).
Proof.
  eexists. unfold hello_trace, multi_server. prog_simp. do 9 run_call. cbn [forever]. unfold multi_round. prog_simp.
  do 1 run_call. cbn [Z.ltb Z.compare]. change (take (Z.to_nat 1) (events_of [3; 1])) with [(3, 1)]. cbn [foreach].
  unfold serve_event, serve_tcp. cbn [fst]. prog_simp. do 2 run_call.
  change (Z.of_nat (length (str "Hello"))) with 5. cbn [Z.ltb Z.compare]. unfold received.
  destruct (fill_ok (replicate 1024 7) (str "Hello") 5) as (b & -> & Hl & Ht & Hc); [done..|].
  cbn [of_outcome mbind prog_mbind prog_bind]. rewrite chars_terminated, Hc by done. prog_simp. run_call.
  rewrite streq_word, Hc by (done || apply word_text). cbn [of_outcome mbind prog_mbind prog_bind].
  rewrite bool_decide_true by done. do 2 run_call. apply exec_halt.
Qed.

Lemma multi_server_polite_witness :
  allowed answers (Conversation [] None) hello_trace /\
  exists w, exec kernel (multi_server 1 (replicate 1024 7)) start hello_trace w (Some (Halted Cut)).
Proof.
  destruct hello_run as [w H]. split; [|by exists w].
  apply (multi_server_polite 1 (replicate 1024 7) hello_trace w (Some (Halted Cut)) eq_refl H).
Defined.

(** A client is handed to a thread. *)
Definition handed_trace : trace :=
  [(c_socket AF_INET SOCK_STREAM 0, value_reply 3); (c_setsockopt 3 SOL_SOCKET SO_REUSEADDR, ok0); (c_bind 3 None, ok0);
   (c_listen 3 BACKLOG, ok0); (c_print "Server is listening on port %d\n" [print_d PORT], ok0);
   (c_malloc SIZEOF_INT, value_reply 4096); (c_accept 3, value_reply 4);
   (c_print "Connected client: %s:%d\n" [], ok0); (c_spawn 4096 4, ok0)].

Lemma clients_handed_over_witness :
  (exists s, exec owner (parallel_server 1) (Own ∅ ∅ None) handed_trace s (Some (Halted Cut)) /\ cells s = ∅) /\
  makes (client_handler (lit "12:00") 4096 4) [c_free 4096; c_time; c_send 4 (str "12:00"); c_close 4] tt.
Proof.
  assert (Ht : text (str "12:00")) by (apply (bool_decide_unpack _); by vm_compute).
  assert (H : exists s, exec owner (parallel_server 1) (Own ∅ ∅ None) handed_trace s (Some (Halted Cut))).
  { eexists. unfold handed_trace, parallel_server. prog_simp.
    do 5 (eapply exec_step; [cbn; split; [lia|try done; set_solver]|]; cbn [r_val value_reply ok0]).
    cbn [forever]. unfold parallel_round. prog_simp.
    do 4 (eapply exec_step; [cbn; split; [lia|try done; set_solver]|]; cbn [r_val value_reply ok0]). apply exec_halt. }
  destruct H as [s H].
  destruct (clients_handed_over (str "12:00") 1 handed_trace s (Some (Halted Cut)) Ht H) as (_ & [server ->] & Hm).
  split; [|by apply Hm]. eexists. split; [exact H|done].
Defined.
