(* ===== verification/RawClients.v ===== *)
(** The clients that build packets by hand: src/hw16_sockets/p5_RAW_udp_header (a UDP
    header), p6_Raw_ip_header (an IP and a UDP header) and p7_Raw_mac_header (an Ethernet
    frame). Each sends one message and waits for a packet from the port of the server.

    [buffer] is what the local array happens to hold: it keeps the bytes of earlier packets
    behind a shorter one. [inet_addr] of the C library is a parameter. The third is written
    with its interface and addresses as arguments ([mac_session]), which the client with
    options of OptClient.v shares. *)

From S2P Require Import Prelude CInt CStr Stdio Sys RawNet Endpoint.

Definition SERVER_PORT : Z := 12345.
Definition source_port : Z := 54321.
Definition msg : list Z := str "Hello, server".
Definition msg_len : Z := 13.

Definition AF_INET : Z := 2.
Definition AF_PACKET : Z := 17.
Definition SOCK_RAW : Z := 3.
Definition ETH_P_ALL : Z := 3.
Definition IPPROTO_IP : Z := 0.
Definition IP_HDRINCL : Z := 3.

(** The address of a header as the struct of its kind, and the fields of the UDP header. *)
Definition udp_header (b : list Z) (o : Z) : outcome (list Z) :=
  b ← store16 b (o + udp_source) (htons source_port);
  b ← store16 b (o + udp_dest) (htons SERVER_PORT);
  b ← store16 b (o + udp_len) (htons (UDPHDR + msg_len));
  store16 b (o + udp_check) 0.

(** What the clients do with a packet from the server: [data_len] is cut to the size of the
    array, the text ended and printed. *)
Definition deliver (size data bytes : Z) (b : list Z) : outcome (option (list Z)) :=
  let data_len := bytes - data in
  let data_len := if size <=? data_len then size - 1 else data_len in
  b ← zset b (data + data_len) 0;
  text ← chars (drop (Z.to_nat data) b);
  Done (Some text).

(** Packets until one is delivered: [None] is [continue]. *)
Definition receive_loop (fuel : nat) (fd size : Z) (receive : list Z -> Z -> outcome (option (list Z))) (buffer : list Z)
    : prog unit :=
  forever fuel (fun buffer =>
    '(bytes, data) ← sys_data (c_recvfrom fd size);
    if bytes <? 0 then die "recvfrom" [fd] else
    b ← of_outcome (put_at buffer 0 data);
    r ← of_outcome (receive b bytes);
    match r with
    | None => Ret (inl b)
    | Some text => sys_ (c_print "Received msg from server: %s\n" [text]);; Ret (inr tt)
    end) buffer.

(** * p5: a UDP header *)

Definition BUF_SIZE : Z := 1024.

Definition udp_packet (buffer : list Z) : outcome (list Z) :=
  b ← udp_header buffer 0;
  put_at b UDPHDR msg.

Definition udp_receive (b : list Z) (bytes : Z) : outcome (option (list Z)) :=
  ihl ← get_ihl b 0;
  let ip_hdr_len := ihl * 4 in
  if bytes <? ip_hdr_len + UDPHDR then Done None else
  source ← load16 b (ip_hdr_len + udp_source);
  if negb (htons source =? SERVER_PORT) then Done None else
  deliver BUF_SIZE (ip_hdr_len + UDPHDR) bytes b.

Definition udp_client (fuel : nat) (buffer : list Z) : prog Z :=
  sock_fd ← sys (c_socket AF_INET SOCK_RAW IPPROTO_UDP);
  if sock_fd <? 0 then die "socket" [] else
  a ← sys (c_inet_pton "127.0.0.1");
  if negb (a =? 1) then die "inet_pton" [sock_fd] else
  b ← of_outcome (udp_packet buffer);
  sent_bytes ← sys (c_sendto sock_fd (take (Z.to_nat (UDPHDR + msg_len)) b));
  if sent_bytes <? 0 then die "sendto" [sock_fd] else
  sys_ (c_print "Sent %zd bytes to server.\n" [print_d sent_bytes]);;
  receive_loop fuel sock_fd BUF_SIZE udp_receive b;;
  sys_ (c_close sock_fd);;
  Ret 0.

(** * p6: an IP header *)

Section addresses.
Context (inet_addr : string -> Z).

Definition ip_packet (buffer : list Z) : outcome (list Z) :=
  b ← put_at buffer 0 (replicate 20 0);
  b ← set_version b 0 4;
  b ← set_ihl b 0 5;
  b ← put_at b 1 [0];
  b ← store16 b ip_tot_len 0;
  b ← store16 b ip_id 0;
  b ← store16 b ip_frag_off 0;
  b ← put_at b ip_ttl [255];
  b ← put_at b ip_protocol [IPPROTO_UDP];
  b ← store16 b ip_check 0;
  b ← store32 b ip_saddr 0;
  b ← store32 b ip_daddr (inet_addr "127.0.0.1");
  b ← udp_header b IPHDR;
  put_at b (IPHDR + UDPHDR) msg.

(** The size is tested against a header of 20 bytes, the offset is that of the packet. *)
Definition ip_receive (b : list Z) (bytes : Z) : outcome (option (list Z)) :=
  if bytes <? IPHDR + UDPHDR then Done None else
  ihl ← get_ihl b 0;
  let recv_ip_header_len := ihl * 4 in
  source ← load16 b (recv_ip_header_len + udp_source);
  if negb (ntohs source =? SERVER_PORT) then Done None else
  deliver BUF_SIZE (recv_ip_header_len + UDPHDR) bytes b.

Definition ip_client (fuel : nat) (buffer : list Z) : prog Z :=
  sock_fd ← sys (c_socket AF_INET SOCK_RAW IPPROTO_UDP);
  if sock_fd <? 0 then die "socket" [] else
  sys_ (c_setsockopt sock_fd IPPROTO_IP IP_HDRINCL);;
  a ← sys (c_inet_pton "127.0.0.1");
  if negb (a =? 1) then die "inet_pton" [sock_fd] else
  b ← of_outcome (ip_packet buffer);
  sent_bytes ← sys (c_sendto sock_fd (take (Z.to_nat (IPHDR + UDPHDR + msg_len)) b));
  if sent_bytes <? 0 then die "sendto" [sock_fd] else
  sys_ (c_print "Sent %zd bytes to server.\n" [print_d sent_bytes]);;
  receive_loop fuel sock_fd BUF_SIZE ip_receive b;;
  sys_ (c_close sock_fd);;
  Ret 0.

(** * p7: an Ethernet frame *)

Definition MAC_BUF_SIZE : Z := 1500.
Definition client_mac : list Z := [0; 216; 97; 215; 247; 20].
Definition server_mac : list Z := [148; 187; 67; 13; 86; 163].

(** The addresses of a frame: the two MACs, and the IP addresses as [inet_addr] gives them. *)
Record ends := Ends { to_mac : list Z; from_mac : list Z; saddr : Z; daddr : Z }.
Definition p7_ends : ends := Ends server_mac client_mac (inet_addr "192.168.0.109") (inet_addr "192.168.0.104").

Definition mac_packet (e : ends) (buffer : list Z) : outcome (list Z) :=
  b ← put_at buffer 0 (to_mac e);
  b ← put_at b 6 (from_mac e);
  b ← put_at b 12 [8];
  b ← put_at b 13 [0];
  b ← put_at b ETH_HLEN (replicate 20 0);
  b ← set_version b ETH_HLEN 4;
  b ← set_ihl b ETH_HLEN 5;
  b ← put_at b (ETH_HLEN + 1) [0];
  b ← store16 b (ETH_HLEN + ip_tot_len) (htons (IPHDR + UDPHDR + msg_len));
  b ← store16 b (ETH_HLEN + ip_id) (htons 0);
  b ← store16 b (ETH_HLEN + ip_frag_off) 0;
  b ← put_at b (ETH_HLEN + ip_ttl) [255];
  b ← put_at b (ETH_HLEN + ip_protocol) [IPPROTO_UDP];
  b ← store16 b (ETH_HLEN + ip_check) 0;
  b ← store32 b (ETH_HLEN + ip_saddr) (saddr e);
  b ← store32 b (ETH_HLEN + ip_daddr) (daddr e);
  ihl ← get_ihl b ETH_HLEN;
  hdr ← get_at b ETH_HLEN (ihl * 4);
  b ← store16 b (ETH_HLEN + ip_check) (checksum hdr);
  b ← udp_header b (ETH_HLEN + ihl * 4);
  put_at b (ETH_HLEN + ihl * 4 + UDPHDR) msg.

Definition mac_receive (b : list Z) (bytes : Z) : outcome (option (list Z)) :=
  if bytes <? ETH_HLEN + IPHDR + UDPHDR then Done None else
  ihl ← get_ihl b ETH_HLEN;
  let recv_ip_header_len := ihl * 4 in
  let udp_recv := ETH_HLEN + recv_ip_header_len in
  protocol ← znth b (ETH_HLEN + ip_protocol);
  if negb (protocol =? IPPROTO_UDP) then Done None else
  source ← load16 b (udp_recv + udp_source);
  if negb (ntohs source =? SERVER_PORT) then Done None else
  dest ← load16 b (udp_recv + udp_dest);
  if negb (ntohs dest =? source_port) then Done None else
  deliver MAC_BUF_SIZE (udp_recv + UDPHDR) bytes b.

(** From the socket on, with the interface and the addresses. *)
Definition mac_session (if_name : list Z) (e : ends) (fuel : nat) (buffer : list Z) : prog Z :=
  sock_fd ← sys (c_socket AF_PACKET SOCK_RAW (htons ETH_P_ALL));
  if sock_fd <? 0 then die "socket" [] else
  ifindex ← sys (c_if_nametoindex if_name);
  if ifindex =? 0 then die "if_nametoindex" [sock_fd] else
  b ← of_outcome (mac_packet e buffer);
  tot_len ← of_outcome (load16 b (ETH_HLEN + ip_tot_len));
  sent_bytes ← sys (c_sendto sock_fd (take (Z.to_nat (ETH_HLEN + ntohs tot_len)) b));
  if sent_bytes <? 0 then die "sendto" [sock_fd] else
  sys_ (c_print "Sent %zd bytes to server.\n" [print_d sent_bytes]);;
  receive_loop fuel sock_fd MAC_BUF_SIZE mac_receive b;;
  sys_ (c_close sock_fd);;
  Ret 0.

Definition mac_client (fuel : nat) (buffer : list Z) : prog Z := mac_session (str "enp34s0") p7_ends fuel buffer.

(** * The three clients *)

(** The third with any addresses, as its form with options has them. *)
Inductive raw := RawUdp | RawIp | RawMac (if_name : list Z) (e : ends).

Definition room (k : raw) : Z := match k with RawMac _ _ => MAC_BUF_SIZE | _ => BUF_SIZE end.
Definition link (k : raw) : Z := match k with RawMac _ _ => ETH_HLEN | _ => 0 end.
(** MAC addresses have six bytes. *)
Definition addressed (k : raw) : Prop :=
  match k with RawMac _ e => length (to_mac e) = 6%nat /\ length (from_mac e) = 6%nat | _ => True end.

Definition raw_client (k : raw) (fuel : nat) (buffer : list Z) : prog Z :=
  match k with
  | RawUdp => udp_client fuel buffer
  | RawIp => ip_client fuel buffer
  | RawMac if_name e => mac_session if_name e fuel buffer
  end.

Definition raw_receive (k : raw) : list Z -> Z -> outcome (option (list Z)) :=
  match k with RawUdp => udp_receive | RawIp => ip_receive | RawMac _ _ => mac_receive end.

(** * What is sent *)

Definition be16 (v : Z) : list Z := [v / 256; v mod 256].

Definition udp_bytes : list Z := be16 source_port ++ be16 SERVER_PORT ++ be16 (UDPHDR + msg_len) ++ [0; 0] ++ msg.

(** The header of p7 around its checksum. *)
Definition mac_header_front : list Z :=
  [69; 0] ++ be16 (IPHDR + UDPHDR + msg_len) ++ [0; 0; 0; 0; 255; IPPROTO_UDP].
Definition addresses (e : ends) : list Z := le32 (saddr e) ++ le32 (daddr e).
Definition mac_header (e : ends) : list Z :=
  mac_header_front ++ le16 (checksum (mac_header_front ++ [0; 0] ++ addresses e)) ++ addresses e.

Definition sent (k : raw) : list Z :=
  match k with
  | RawUdp => udp_bytes
  | RawIp =>
      [69; 0; 0; 0; 0; 0; 0; 0; 255; IPPROTO_UDP; 0; 0; 0; 0; 0; 0] ++ le32 (inet_addr "127.0.0.1") ++ udp_bytes
  | RawMac _ e => to_mac e ++ from_mac e ++ [8; 0] ++ mac_header e ++ udp_bytes
  end.

Lemma mac_header_verifies e : checksum (mac_header e) = 0.
Proof.
  apply checksum_in_place; [done|by apply (bool_decide_unpack _); vm_compute|].
  apply Forall_app. split; apply le32_bytes.
Qed.

(** A store or load inside the front of a buffer. *)
Lemma put_front (pre rest : list Z) o src p : put_at pre o src = Done p -> put_at (pre ++ rest) o src = Done (p ++ rest).
Proof.
  intros (Ho & Hn & ->)%put_at_Done. rewrite put_at_ok by (rewrite ?length_app; lia).
  rewrite take_app_le, drop_app_le by lia. by rewrite <- !app_assoc.
Qed.

Lemma get_front (pre rest : list Z) o n r : get_at pre o n = Done r -> get_at (pre ++ rest) o n = Done r.
Proof.
  unfold get_at. rewrite length_app. zbool; cbn; try done; try lia. intros [= <-].
  rewrite drop_app_le by lia. by rewrite take_app_le by (rewrite length_drop; lia).
Qed.

Lemma znth_front (pre rest : list Z) o x : znth pre o = Done x -> znth (pre ++ rest) o = Done x.
Proof. intros [H0 H]%znth_Done. apply znth_Done. split; [done|]. by apply lookup_app_l_Some. Qed.

(** Building a packet in the front of the array leaves the rest alone. *)
Ltac front :=
  repeat match goal with
  | H : put_at ?pre ?o ?src = Done _ |- context [put_at (?pre ++ ?rest) ?o ?src] =>
      rewrite (put_front pre rest o src _ H); cbn [mbind outcome_bind]
  | H : znth ?pre ?o = Done _ |- context [znth (?pre ++ ?rest) ?o] =>
      rewrite (znth_front pre rest o _ H); cbn [mbind outcome_bind]
  | H : get_at ?pre ?o ?n = Done _ |- context [get_at (?pre ++ ?rest) ?o ?n] =>
      rewrite (get_front pre rest o n _ H); cbn [mbind outcome_bind]
  end.

Lemma udp_packet_front pre rest p : udp_packet pre = Done p -> udp_packet (pre ++ rest) = Done (p ++ rest).
Proof. unfold udp_packet, udp_header, store16. intros H. chain. front. done. Qed.

Lemma ip_packet_front pre rest p : ip_packet pre = Done p -> ip_packet (pre ++ rest) = Done (p ++ rest).
Proof. unfold ip_packet, udp_header, store16, store32, set_version, set_ihl. intros H. chain. front. done. Qed.

Lemma mac_packet_front e pre rest p : mac_packet e pre = Done p -> mac_packet e (pre ++ rest) = Done (p ++ rest).
Proof. unfold mac_packet, udp_header, store16, store32, set_version, set_ihl, get_ihl. intros H. chain. simplify_eq. front. done. Qed.

(** The packets, from an array of which the first bytes are known to be there. *)
Ltac explicit pre H :=
  repeat (destruct pre as [|? pre]; cbn [length] in H; [first [discriminate H | clear H] | first [discriminate H | apply Nat.succ_inj in H]]).

(** The four bytes of an address. *)
Ltac address v := unfold le32; generalize (v mod 256) (v / 256 mod 256) (v / 65536 mod 256) (v / 16777216 mod 256); intros.

Lemma udp_packet_eval pre : length pre = 21%nat -> udp_packet pre = Done (sent RawUdp).
Proof. intros H. explicit pre H. vm_compute. reflexivity. Qed.

Lemma ip_packet_eval pre : length pre = 41%nat -> ip_packet pre = Done (sent RawIp).
Proof.
  intros H. unfold ip_packet, sent, store32. address (inet_addr "127.0.0.1"). explicit pre H. vm_compute. reflexivity.
Qed.

#[local] Opaque checksum.

Lemma mac_packet_eval n e pre : addressed (RawMac n e) -> length pre = 55%nat -> mac_packet e pre = Done (sent (RawMac n e)).
Proof.
  destruct e as [to from s d]. intros [Ht Hf] H. cbn [to_mac from_mac] in *.
  unfold mac_packet, sent, mac_header, addresses, store32. cbn [to_mac from_mac saddr daddr].
  address s. address d. explicit to Ht. explicit from Hf. explicit pre H. lazy. reflexivity.
Qed.

#[local] Transparent checksum.

(** * What is received *)

(** Where the text of a packet starts, and whether its headers end inside it. *)
Definition text_offset (k : raw) (p : list Z) : Z := link k + Z.land (default 0 (p !! Z.to_nat (link k))) 15 * 4 + UDPHDR.
Definition header_fits (k : raw) (p : list Z) : bool := text_offset k p <=? Z.of_nat (length p).
Definition payload (k : raw) (p : list Z) : list Z := drop (Z.to_nat (text_offset k p)) p.

Lemma text_offset_range k p : link k + 8 <= text_offset k p <= link k + 68.
Proof.
  unfold text_offset, UDPHDR. change 15 with (Z.ones 4). rewrite Z.land_ones by lia.
  pose proof (Z.mod_pos_bound (default 0 (p !! Z.to_nat (link k))) (2 ^ 4) ltac:(lia)). lia.
Qed.

Lemma text_offset_ihl k b : link k < Z.of_nat (length b) ->
  exists ihl, get_ihl b (link k) = Done ihl /\ link k + ihl * 4 + UDPHDR = text_offset k b.
Proof.
  intros Hb. assert (0 <= link k) by (destruct k; cbn; unfold ETH_HLEN; lia).
  destruct (znth_ok b (link k)) as (x & Hx & Hl); [lia|]. unfold get_ihl, text_offset. rewrite Hx, Hl.
  cbn. by eexists.
Qed.

Lemma deliver_fits size off bytes b :
  Z.of_nat (length b) = size -> 0 <= off <= bytes -> bytes < size ->
  deliver size off bytes b = Done (Some (cstr (take (Z.to_nat (bytes - off)) (drop (Z.to_nat off) b)))).
Proof.
  intros Hl Ho Hb. unfold deliver. destruct (Z.leb_spec size (bytes - off)); [lia|].
  rewrite zset_ok by lia. obind. replace (off + (bytes - off)) with bytes by lia.
  rewrite (insert_take_drop b (Z.to_nat bytes) 0) by lia.
  rewrite drop_app_le by (rewrite length_take; lia). rewrite chars_terminated.
  - obind. do 2 f_equal. rewrite cstr_ended, take_drop_commute. do 3 f_equal. lia.
  - apply elem_of_app. right. left.
Qed.

Lemma deliver_full size off b : Z.of_nat (length b) = size -> 1 <= off <= size -> deliver size off size b = Undef OutOfBounds.
Proof.
  intros Hl Ho. unfold deliver. destruct (Z.leb_spec size (size - off)); [lia|].
  rewrite zset_oob by lia. done.
Qed.

(** A client passes a packet over, or delivers it from the end of its headers; the client of
    p5 only when they end inside it. *)
Lemma raw_receive_cases k b bytes :
  Z.of_nat (length b) = room k -> 0 <= bytes ->
  raw_receive k b bytes = Done None \/
  raw_receive k b bytes = deliver (room k) (text_offset k b) bytes b /\ link k < bytes /\
    (k = RawUdp -> text_offset k b <= bytes).
Proof.
  intros Hl Hb. assert (Hk : link k + 82 <= room k /\ 0 <= link k) by (destruct k; cbn; unfold BUF_SIZE, MAC_BUF_SIZE, ETH_HLEN; lia).
  destruct (text_offset_ihl k b) as (ihl & Hi & Ho); [lia|]. pose proof (text_offset_range k b) as Hr.
  assert (Hload : forall o, 0 <= o -> o + 2 <= link k + ihl * 4 + UDPHDR -> exists v, load16 b o = Done v).
  { intros o H0 H2. unfold load16. destruct (get_at_total b o 2) as (r & E & _); [lia..|]. rewrite E. by eexists. }
  unfold UDPHDR in *. destruct k; cbn [raw_receive room link] in *; unfold udp_receive, ip_receive, mac_receive, udp_source, udp_dest, UDPHDR.
  - rewrite Hi. obind. destruct (Z.ltb_spec bytes (ihl * 4 + 8)); [by left|].
    destruct (Hload (ihl * 4 + 0)) as [v ->]; [lia..|]. obind. case_match; [by left|]. right. rewrite <- Ho. split_and!; [done|lia..].
  - unfold IPHDR. destruct (Z.ltb_spec bytes (20 + 8)); [by left|]. rewrite Hi. obind.
    destruct (Hload (ihl * 4 + 0)) as [v ->]; [lia..|]. obind. case_match; [by left|]. right. rewrite <- Ho. split_and!; [done|lia|done].
  - unfold IPHDR. unfold ETH_HLEN in *. destruct (Z.ltb_spec bytes (14 + 20 + 8)); [by left|]. rewrite Hi. obind.
    destruct (znth_ok b (14 + ip_protocol)) as (x & -> & _); [unfold ip_protocol; lia|]. obind. case_match; [by left|].
    destruct (Hload (14 + ihl * 4 + 0)) as [v ->]; [lia..|]. obind. case_match; [by left|].
    destruct (Hload (14 + ihl * 4 + 2)) as [v' ->]; [lia..|]. obind. case_match; [by left|]. right. rewrite <- Ho. split_and!; [done|lia|done].
Qed.

Lemma raw_receive_short k b bytes : bytes < match k with RawUdp => 0 | RawIp => 28 | RawMac _ _ => 42 end -> 0 <= bytes ->
  raw_receive k b bytes = Done None.
Proof.
  intros H H0. destruct k; cbn [raw_receive]; [lia|..]; unfold ip_receive, mac_receive, IPHDR, UDPHDR, ETH_HLEN;
    by rewrite (proj2 (Z.ltb_lt _ _)) by lia.
Qed.

(** * Runs *)

(** The two bytes of a port, and whether a packet is the server's: its headers end inside
    it, and its UDP header names the port of the server (in p7 also UDP as the protocol and
    the port of the client). *)
Definition port_at (p : list Z) (o : Z) : list Z := take 2 (drop (Z.to_nat o) p).
Definition from_server (k : raw) (p : list Z) : bool :=
  header_fits k p && bool_decide (port_at p (text_offset k p - 8) = be16 SERVER_PORT) &&
  match k with
  | RawMac _ _ => bool_decide (p !! 23%nat = Some IPPROTO_UDP) && bool_decide (port_at p (text_offset k p - 6) = be16 source_port)
  | _ => true
  end.

(** Packets that are shorter are passed over without a look. *)
Definition shortest (k : raw) : Z := match k with RawUdp => 0 | RawIp => 28 | RawMac _ _ => 42 end.

(** What has happened: nothing is sent; the client waits for a packet; the text it has to
    print; a packet the clients are not ready for, of the server and as long as the array or
    with an IP header that claims to be longer than the packet; the text is printed. *)
Inductive heard := Unsent | Waiting | Due (text : list Z) | Odd (p : list Z) | Over.

Definition hear (k : raw) (p : list Z) : heard :=
  if Z.of_nat (length p) <? shortest k then Waiting else
  if header_fits k p then
    if from_server k p then
      if Z.of_nat (length p) =? room k then Odd p else Due (cstr (payload k p))
    else Waiting
  else match k with RawUdp => Waiting | _ => Odd p end.

(** The packet sent is that of the client, once and before anything is received. The text of
    a packet of the server is what is printed next, up to its first NUL, and then no other
    packet is taken; a packet that is not the server's is followed by the next. *)
Definition raw_watch (k : raw) : monitor heard := Monitor
  (fun s c => match s with
     | Due text => c = c_print "Received msg from server: %s\n" [text]
     | _ => match c with
         | c_sendto _ d => s = Unsent /\ d = sent k
         | c_recvfrom _ n => n = room k /\ (s = Waiting \/ exists p, s = Odd p)
         | c_print f _ => f = "Received msg from server: %s\n" -> exists p, s = Odd p
         | _ => True
         end
     end)
  (fun _ c r => -1 <= r_val r /\ forall n, receives c = Some n ->
     r_val r <= n /\ (0 <= r_val r -> Z.of_nat (length (r_data r)) = r_val r /\ Forall is_byte (r_data r)))
  (fun s c r => match c with
     | c_sendto _ _ => if r_val r <? 0 then s else Waiting
     | c_recvfrom _ _ => if r_val r <? 0 then Waiting else hear k (r_data r)
     | c_print f _ => if String.eqb f "Received msg from server: %s\n" then Over else s
     | _ => s
     end).

(** A run that returns has printed a text; one that stops owes none; and one without a
    defined meaning has just received a packet the clients are not ready for. *)
Definition raw_done (r : result Z) (s : heard) : Prop :=
  match r with
  | Returned _ => s = Over
  | Halted (Crashed u) => u = OutOfBounds /\ exists p, s = Odd p
  | Halted _ => s <> Over /\ forall text, s <> Due text
  end.

(** The array after a packet: the packet in front of older bytes. *)
Lemma received_front (b p b' : list Z) : put_at b 0 p = Done b' -> exists rest, b' = p ++ rest /\ length b' = length b.
Proof. intros E. pose proof (put_at_length _ _ _ _ E). apply put_at_Done in E as (_ & _ & ->). by eexists. Qed.

Lemma text_offset_front k p rest : link k < Z.of_nat (length p) -> text_offset k (p ++ rest) = text_offset k p.
Proof.
  intros H. assert (0 <= link k) by (destruct k; cbn; unfold ETH_HLEN; lia).
  unfold text_offset. by rewrite lookup_app_l by lia.
Qed.

(** A port of a packet, compared after [ntohs]. *)
Lemma port_test p rest o v : Forall is_byte p -> 0 <= o -> o + 2 <= Z.of_nat (length p) -> 0 <= v < 65536 ->
  exists x, load16 (p ++ rest) o = Done x /\ (ntohs x =? v) = bool_decide (port_at p o = be16 v).
Proof.
  intros Hp H0 H2 Hv. unfold load16. destruct (get_at_total p o 2) as (r & E & Hl); [lia..|].
  rewrite (get_front p rest o 2 r E). exists (of_le r). split; [done|].
  assert (Er : port_at p o = r) by (unfold get_at in E; unfold port_at; repeat case_match; simplify_eq; done).
  assert (Hr : Forall is_byte r) by (rewrite <- Er; unfold port_at; by apply Forall_take, Forall_drop).
  destruct r as [|x [|y [|? ?]]]; cbn in Hl; try lia. apply Forall_cons in Hr as [Hx Hr]. apply Forall_cons in Hr as [Hy _].
  rewrite ntohs_of_le, Er by done. unfold is_byte in *. unfold be16. case_bool_decide as Hc.
  - injection Hc as -> ->. apply Z.eqb_eq. pose proof (Z.div_mod v 256). lia.
  - apply Z.eqb_neq. intros <-. apply Hc. rewrite Z.div_add_l, Z.div_small, Z.add_0_r by lia. f_equal.
    by rewrite Z.add_comm, Z.mod_add, Z.mod_small by lia.
Qed.

(** When the headers end inside the packet, its fields decide what happens. *)
Lemma raw_receive_fits k p rest :
  Forall is_byte p -> Z.of_nat (length (p ++ rest)) = room k -> shortest k <= Z.of_nat (length p) -> header_fits k p = true ->
  raw_receive k (p ++ rest) (Z.of_nat (length p)) =
    if from_server k p then deliver (room k) (text_offset k p) (Z.of_nat (length p)) (p ++ rest) else Done None.
Proof.
  intros Hp Hl Hs Hf. unfold header_fits in Hf. apply Z.leb_le in Hf as Hf'. unfold from_server, header_fits. rewrite Hf.
  pose proof (text_offset_range k p) as Hr. pose proof (length_app p rest) as Hla.
  assert (H0 : 0 <= link k) by (destruct k; cbn; unfold ETH_HLEN; lia). assert (Hk : link k < Z.of_nat (length p)) by lia.
  destruct (text_offset_ihl k (p ++ rest)) as (ihl & Hi & Ho); [destruct k; cbn in *; unfold ETH_HLEN in *; lia|].
  rewrite text_offset_front in Ho by done. cbn [andb].
  assert (HS : 0 <= SERVER_PORT < 65536) by (unfold SERVER_PORT; lia). assert (HC : 0 <= source_port < 65536) by (unfold source_port; lia).
  destruct (port_test p rest (text_offset k p - 8) SERVER_PORT) as (x & Ex & Hx); [done|lia..|].
  unfold UDPHDR in *. destruct k; cbn [raw_receive room link shortest] in *; unfold udp_receive, ip_receive, mac_receive, udp_source, udp_dest, UDPHDR, IPHDR, ETH_HLEN in *;
    rewrite ?Hi; obind.
  - destruct (Z.ltb_spec (Z.of_nat (length p)) (ihl * 4 + 8)); [lia|]. replace (ihl * 4 + 0) with (text_offset RawUdp p - 8) by lia.
    rewrite Ex. obind. change (htons x) with (ntohs x). rewrite Hx, andb_true_r. case_bool_decide; cbn [negb]; [|done]. f_equal; lia.
  - destruct (Z.ltb_spec (Z.of_nat (length p)) (20 + 8)); [lia|]. obind. replace (ihl * 4 + 0) with (text_offset RawIp p - 8) by lia.
    rewrite Ex. obind. rewrite Hx, andb_true_r. case_bool_decide; cbn [negb]; [|done]. f_equal; lia.
  - destruct (Z.ltb_spec (Z.of_nat (length p)) (14 + 20 + 8)); [lia|].
    destruct (port_test p rest (text_offset (RawMac if_name e) p - 6) source_port) as (y & Ey & Hy); [done|lia..|].
    destruct (lookup_lt_is_Some_2 p 23) as [pr Hpr]; [lia|]. rewrite (znth_front p rest (14 + ip_protocol) pr) by (apply znth_Done; split; [done|exact Hpr]).
    obind. rewrite Hpr. replace (14 + ihl * 4 + 0) with (text_offset (RawMac if_name e) p - 8) by lia.
    replace (14 + ihl * 4 + 2) with (text_offset (RawMac if_name e) p - 6) by lia.
    destruct (Z.eqb_spec pr IPPROTO_UDP) as [->|Hne]; cbn [negb];
      [rewrite (bool_decide_eq_true_2 (Some IPPROTO_UDP = _)) by done
      |rewrite (bool_decide_eq_false_2 (Some pr = _)) by congruence; by rewrite andb_false_r].
    rewrite Ex. obind. rewrite Hx. destruct (bool_decide (_ = be16 SERVER_PORT)); cbn [negb andb]; [|done]. rewrite Ey. obind. rewrite Hy.
    destruct (bool_decide (_ = be16 source_port)); cbn [negb]; [|done]. f_equal; lia.
Qed.

(** What a client does with a packet is what [hear] says. *)
Lemma raw_receive_packet k p rest :
  Forall is_byte p -> Z.of_nat (length (p ++ rest)) = room k ->
  match raw_receive k (p ++ rest) (Z.of_nat (length p)) with
  | Done None => hear k p = Waiting \/ hear k p = Odd p
  | Done (Some text) => hear k p = Due text \/ hear k p = Odd p
  | Undef u => u = OutOfBounds /\ hear k p = Odd p
  end.
Proof.
  intros Hp Hl. pose proof Hl as Hla. rewrite length_app in Hla. pose proof (text_offset_range k p) as Hr. unfold hear.
  assert (0 <= link k /\ link k + 82 <= room k) as [Hk Hrm] by (destruct k; cbn; unfold ETH_HLEN, BUF_SIZE, MAC_BUF_SIZE; lia).
  destruct (Z.ltb_spec (Z.of_nat (length p)) (shortest k)) as [Hlt|Hge].
  { rewrite raw_receive_short by (destruct k; cbn in *; lia). by left. }
  destruct (header_fits k p) eqn:Hf.
  - rewrite raw_receive_fits by done. destruct (from_server k p); [|by left]. apply Z.leb_le in Hf.
    destruct (Z.eqb_spec (Z.of_nat (length p)) (room k)) as [Ef|Hnf].
    + rewrite Ef, deliver_full by (len || lia). done.
    + rewrite deliver_fits by (len || lia). left. unfold payload. f_equal.
      rewrite drop_app_le by lia. rewrite take_app_le by (rewrite length_drop; lia). by rewrite take_ge by (rewrite length_drop; lia).
  - apply Z.leb_gt in Hf.
    destruct (raw_receive_cases k (p ++ rest) (Z.of_nat (length p))) as [->|(-> & Hlk & Hu)]; [len|lia|destruct k; auto|].
    rewrite text_offset_front in * by lia. assert (Hodd : match k with RawUdp => Waiting | _ => Odd p end = Odd p) by (destruct k; [specialize (Hu eq_refl); lia|done..]).
    rewrite Hodd. unfold deliver. destruct (Z.leb_spec (room k) (Z.of_nat (length p) - text_offset k p)); [lia|].
    destruct (Z.eq_dec (Z.of_nat (length p)) (room k)) as [Ef|Hnf]; [rewrite zset_oob by len; done|].
    rewrite zset_ok by len. obind. destruct (chars _) as [text|u] eqn:E; obind; [by right|].
    split; [by apply chars_undef in E|done].
Qed.

Lemma raw_packet_sent k buffer : addressed k -> Z.of_nat (length buffer) = room k ->
  exists rest, Z.of_nat (length (sent k ++ rest)) = room k /\
    match k with RawUdp => udp_packet | RawIp => ip_packet | RawMac _ e => mac_packet e end buffer = Done (sent k ++ rest).
Proof.
  intros Ha Hl. assert (Hs : length (sent k) = match k with RawUdp => 21 | RawIp => 41 | RawMac _ _ => 55 end%nat).
  { destruct k as [| |n e]; [done..|]. destruct Ha as [Ht Hf]. cbn [sent]. rewrite !length_app, Ht, Hf. done. }
  exists (drop (length (sent k)) buffer). rewrite length_app, length_drop, <- Hl.
  assert (Hn : (length (sent k) <= length buffer)%nat) by (rewrite Hs; destruct k; cbn in Hl; unfold BUF_SIZE, MAC_BUF_SIZE in Hl; lia).
  split; [lia|]. rewrite <- (take_drop (length (sent k)) buffer) at 1.
  destruct k; [apply udp_packet_front, udp_packet_eval|apply ip_packet_front, ip_packet_eval|eapply mac_packet_front, mac_packet_eval; [exact Ha|]];
    rewrite length_take; lia.
Qed.

(** The run ends with its socket closed. *)
Definition raw_ends (r : result Z) (w : world) : Prop :=
  match r with
  | Returned v => v = 0 /\ fds w = ∅
  | Halted (Exited s) => s = 1 /\ fds w = ∅
  | _ => True
  end.

Lemma receive_loop_ends fuel fd size receive buffer w :
  fd ∈ fds w -> wp kernel (receive_loop fuel fd size receive buffer) w (fun r w' =>
    match r with
    | Returned _ => w' = w
    | Halted (Exited s) => s = 1 /\ w' = World (fds w ∖ {[fd]}) (names w)
    | _ => True
    end).
Proof.
  intros Hfd. apply (wp_forever _ (fun _ w' => w' = w)); [|done..]. intros b w' ->. endpoint.
  - split; [done|]. f_equal. set_solver.
  - apply wp_pure; [|done]. intros b' _. apply wp_pure; [|done]. intros [text|] _; endpoint; done.
Qed.

Ltac raw_closed := split; [done|cbn; set_solver].

Lemma raw_client_ends k fuel buffer : wp kernel (raw_client k fuel buffer) start raw_ends.
Proof.
  assert (Hend : forall fd size receive b,
    wp kernel (receive_loop fuel fd size receive b;; sys_ (c_close fd);; Ret 0) (World ({[fd]} ∪ fds start) (names start)) raw_ends).
  { intros fd size receive b. eapply wp_seq; [apply receive_loop_ends; fds_in|]. intros [[]|[s| |]] w'; [| |done..].
    - intros ->. cbn [seq_post]. endpoint. raw_closed.
    - intros [-> ->]. raw_closed. }
  destruct k; cbn [raw_client].
  - unfold udp_client. endpoint; try raw_closed. apply wp_pure; [|done]. intros b _. endpoint; [raw_closed|]. apply Hend.
  - unfold ip_client. endpoint; try raw_closed. apply wp_pure; [|done]. intros b _. endpoint; [raw_closed|]. apply Hend.
  - unfold mac_session. endpoint; try raw_closed. apply wp_pure; [|done]. intros b _. apply wp_pure; [|done]. intros l _.
    endpoint; [raw_closed|]. apply Hend.
Qed.

(** Between packets: the client waits, or has just passed over an odd one. *)
Definition listening (s : heard) : Prop := s = Waiting \/ exists p, s = Odd p.

Lemma listening_done s : listening s -> s <> Over /\ forall text, s <> Due text.
Proof. by intros [->|[p ->]]. Qed.

Ltac raws :=
  repeat first [ lazymatch goal with |- wp _ (die _ _) _ _ => unfold die; cbn [foreach] end
               | wp_plain; cbn [pre post raw_watch String.eqb Ascii.eqb Bool.eqb]; try done ].

Lemma receive_loop_watch k fuel fd buffer s (f : unit -> prog Z) :
  Z.of_nat (length buffer) = room k -> listening s -> wp (raw_watch k) (f tt) Over raw_done ->
  wp (raw_watch k) (prog_bind (receive_loop fuel fd (room k) (raw_receive k) buffer) f) s raw_done.
Proof.
  intros Hl Hs Hf. apply wp_bind, (wp_forever _ (fun b s => Z.of_nat (length b) = room k /\ listening s));
    [|intros ? ? [_ Hs']; by apply listening_done|done].
  clear s Hs. intros b s [Hb Hs]. split; [destruct Hs as [->|[p ->]]; cbn; eauto|]. intros r [Hr1 Hr2]. cbn [post raw_watch].
  destruct (Hr2 _ eq_refl) as [Hr3 Hr4]. prog_simp. destruct (Z.ltb_spec (r_val r) 0) as [Hn|Hn].
  { raws. }
  destruct (Hr4 Hn) as [Hlr Hbytes].
  destruct (put_at_total b 0 (r_data r)) as (b' & E & Hlb); [lia|lia|]. rewrite E. cbn [of_outcome mbind prog_mbind prog_bind].
  destruct (received_front _ _ _ E) as (rest & -> & _). rewrite <- Hlr.
  rewrite <- Hlb in Hb. pose proof (raw_receive_packet k (r_data r) rest Hbytes Hb) as Hp.
  destruct (raw_receive k _ _) as [[text|]|u]; cbn [of_outcome prog_bind].
  - assert (Hpre : pre (raw_watch k) (hear k (r_data r)) (c_print "Received msg from server: %s\n" [text]))
      by (destruct Hp as [->| ->]; cbn; eauto).
    split; [exact Hpre|]. intros r' _. exact Hf.
  - split; [done|]. destruct Hp as [->| ->]; [by left|right; eauto].
  - destruct Hp as [-> ->]. split; eauto.
Qed.

Lemma mac_tot_len n e rest : addressed (RawMac n e) ->
  load16 (sent (RawMac n e) ++ rest) (ETH_HLEN + ip_tot_len) = Done (htons 41).
Proof.
  destruct e as [to from s d]. intros [Ht Hf]. cbn [to_mac from_mac] in *. explicit to Ht. explicit from Hf.
  unfold load16. rewrite (get_front _ rest _ 2 [0; 41]) by reflexivity. done.
Qed.

Lemma mac_take n e rest : addressed (RawMac n e) ->
  take (Z.to_nat (ETH_HLEN + ntohs (htons 41))) (sent (RawMac n e) ++ rest) = sent (RawMac n e).
Proof.
  intros [Ht Hf]. apply take_app_length'. cbn [sent]. by rewrite !length_app, Ht, Hf.
Qed.

Lemma raw_client_watch k fuel buffer : addressed k -> Z.of_nat (length buffer) = room k ->
  wp (raw_watch k) (raw_client k fuel buffer) Unsent raw_done.
Proof.
  intros Ha Hl. destruct (raw_packet_sent k buffer Ha Hl) as (rest & Hlen & E).
  assert (Hend : forall fd s, listening s -> wp (raw_watch k)
    (receive_loop fuel fd (room k) (raw_receive k) (sent k ++ rest);; sys_ (c_close fd);; Ret 0) s raw_done).
  { intros fd s Hs. apply receive_loop_watch; [done..|]. raws. }
  destruct k; cbn [raw_client].
  - unfold udp_client. raws. rewrite E. cbn [of_outcome]. raws. apply Hend. by left.
  - unfold ip_client. raws. rewrite E. cbn [of_outcome]. raws. apply Hend. by left.
  - unfold mac_session. raws. rewrite E. cbn [of_outcome mbind prog_mbind prog_bind]. rewrite (mac_tot_len if_name) by done.
    cbn [of_outcome]. raws; [by rewrite (mac_take if_name)|]. apply Hend. by left.
Qed.


End addresses.

(** * Runs *)

Definition demo_buffer : list Z := replicate 1024 7.
Definition demo_addr (s : string) : Z := 16777343.

(** The answer of the server: an IP header of 20 bytes, a UDP header and two bytes. *)
Definition demo_answer : list Z := [69] ++ replicate 19 0 ++ [48; 57; 212; 49; 0; 10; 0; 0] ++ str "Hi".

Definition demo_trace : trace :=
  [(c_socket AF_INET SOCK_RAW IPPROTO_UDP, value_reply 3); (c_inet_pton "127.0.0.1", value_reply 1);
   (c_sendto 3 udp_bytes, value_reply 21); (c_print "Sent %zd bytes to server.\n" [print_d 21], ok0);
   (c_recvfrom 3 1024, data_reply demo_answer); (c_print "Received msg from server: %s\n" [str "Hi"], ok0);
   (c_close 3, ok0)].

Lemma demo_steps :
  (b ← udp_packet demo_buffer; b' ← put_at b 0 demo_answer; r ← udp_receive b' 30; Done (take 21 b, r))
    = Done (udp_bytes, Some (str "Hi")).
Proof. by vm_compute. Qed.

Lemma raw_run : exists w, exec kernel (raw_client demo_addr RawUdp 1 demo_buffer) start demo_trace w (Some (Returned 0)).
Proof.
  pose proof demo_steps as H. obind_inv H. rename a into b, Ha into E1. obind_inv H. rename a into b', Ha into E3.
  obind_inv H. rename Ha into E4. injection H as E2 ->. eexists. unfold demo_trace. cbn [raw_client]. unfold udp_client. prog_simp.
  do 2 run_call. cbn [Z.eqb Pos.eqb negb Z.ltb Z.compare]. rewrite E1. cbn [of_outcome mbind prog_mbind prog_bind].
  change (Z.to_nat (UDPHDR + msg_len)) with 21%nat. rewrite E2. do 2 run_call.
  unfold receive_loop. cbn [forever]. prog_simp. run_call. change (Z.of_nat (length demo_answer)) with 30. cbn [Z.ltb Z.compare].
  rewrite E3. cbn [of_outcome mbind prog_mbind prog_bind]. rewrite E4. cbn [of_outcome mbind prog_mbind prog_bind]. prog_simp.
  do 2 run_call. apply exec_ret.
Qed.


(** A packet of the port of the server that fills the array is written behind its end, and
    one of 28 bytes with a header of 60 is printed from the bytes an earlier packet left. *)
Lemma full_packet_overruns :
  (b ← put_at demo_buffer 0 (demo_answer ++ replicate 994 65); udp_receive b 1024) = Undef OutOfBounds.
Proof. by vm_compute. Qed.

Lemma short_packet_leaks :
  (b ← put_at (replicate 68 0 ++ str "secret" ++ replicate 950 0) 0 ([79] ++ replicate 27 0);
   b ← put_at b 60 [48; 57]; ip_receive b 28) = Done (Some (str "secret")).
Proof. by vm_compute. Qed.
