(* ===== verification/OptClient.v ===== *)
(** The client of src/hw16_sockets/p7_Raw_mac_header_with_getopt: the client of
    p7_Raw_mac_header with its interface and addresses taken from the command line. The file
    declares the array [ifname] and then writes [if_name]; the model reads both as one
    variable. The session after the options is [RawClients.mac_session].

    [getopt] is the C library's, as in EchoMain.v; [inet_addr] is a parameter. *)

From S2P Require Import Prelude CInt CStr Stdio Sys RawNet Endpoint EchoRaw EchoMain RawClients.

Section client.
Context (inet_addr : list Z -> Z) (argv0 : list Z).

(** The variables before the options. *)
Definition opt_settings0 : settings := Settings (array 16 "enp34s0")
  (Config (array 16 "192.168.1.100") (array 16 "192.168.1.200") [0; 17; 34; 51; 68; 85] [102; 119; 136; 153; 170; 187]).

Definition opt_option (st : settings) (o : option_arg) : prog (settings + Z) :=
  let '(Settings if_name (Config client_ip_str server_ip_str client_mac server_mac)) := st in
  let '(opt, optarg) := o in
  if opt =? letter "c" then
    client_ip_str ← of_outcome (strncpy_z client_ip_str optarg);
    Ret (inl (Settings if_name (Config client_ip_str server_ip_str client_mac server_mac)))
  else if opt =? letter "s" then
    server_ip_str ← of_outcome (strncpy_z server_ip_str optarg);
    Ret (inl (Settings if_name (Config client_ip_str server_ip_str client_mac server_mac)))
  else if opt =? letter "C" then
    '(ok, client_mac) ← of_outcome (parse_mac optarg client_mac);
    if (ok : bool) then Ret (inl (Settings if_name (Config client_ip_str server_ip_str client_mac server_mac)))
    else sys_ (c_print "Invalid client MAC format\n" []);; Ret (inr 1)
  else if opt =? letter "S" then
    '(ok, server_mac) ← of_outcome (parse_mac optarg server_mac);
    if (ok : bool) then Ret (inl (Settings if_name (Config client_ip_str server_ip_str client_mac server_mac)))
    else sys_ (c_print "Invalid serveer MAC format\n" []);; Ret (inr 1)
  else if opt =? letter "i" then
    if_name ← of_outcome (strncpy_z if_name optarg);
    Ret (inl (Settings if_name (Config client_ip_str server_ip_str client_mac server_mac)))
  else
    sys_ (c_print "Usage:%s[-c client ip][-s server_ip][-C client_mac][-S sever_mac]\n" [argv0]);;
    Ret (inr (-1)).

(** The settings are printed; then the session of p7 between the addresses. *)
Definition opt_session (fuel : nat) (st : settings) (buffer : list Z) : prog Z :=
  let '(Settings if_name (Config client_ip_str server_ip_str client_mac server_mac)) := st in
  client_ip ← of_outcome (chars client_ip_str);
  server_ip ← of_outcome (chars server_ip_str);
  sys_ (c_print "Client IP: %s\nServer IP: %s\n" [client_ip; server_ip]);;
  sys_ (c_print "Client MAC: %02x:%02x:%02x:%02x:%02x:%02x\n" [print_mac client_mac]);;
  sys_ (c_print "Server MAC: %02x:%02x:%02x:%02x:%02x:%02x\n" [print_mac server_mac]);;
  name ← of_outcome (chars if_name);
  mac_session name (Ends server_mac client_mac (inet_addr client_ip) (inet_addr server_ip)) fuel buffer.

Definition opt_main (fuel : nat) (opts : list option_arg) (buffer : list Z) : prog Z :=
  r ← options opt_option opts opt_settings0;
  match r with
  | inr s => Ret s
  | inl st => opt_session fuel st buffer
  end.
End client.

(** * Its runs *)

(** The socket is closed when the client stops. *)
Definition opt_ends (r : result Z) (w : world) : Prop :=
  match r with
  | Returned s => (s = 0 \/ s = 1 \/ s = -1) /\ fds w = ∅
  | Halted (Exited s) => s = 1 /\ fds w = ∅
  | _ => True
  end.

Section runs.
Context (inet_addr : list Z -> Z) (argv0 : list Z).

Lemma opt_option_ends st o w :
  wp kernel (opt_option argv0 st o) w (fun r w' => w' = w /\
    match r with Returned (inr s) => s = 1 \/ s = -1 | Returned _ => True | Halted h => exists u, h = Crashed u end).
Proof. destruct st as [n [c1 c2 m1 m2]], o as [c a]. unfold opt_option. may_crash; split; eauto. Qed.

Lemma opt_main_ends fuel opts buffer : wp kernel (opt_main inet_addr argv0 fuel opts buffer) start opt_ends.
Proof.
  unfold opt_main. eapply wp_seq; [apply (wp_options kernel _ (fun _ w => w = start) (fun r w => w = start /\
    match r with Returned (inr s) => s = 1 \/ s = -1 | Returned _ => True | Halted h => exists u, h = Crashed u end)); [|done]|].
  - intros st o w ->. eapply wp_mono; [|apply opt_option_ends]. by intros [[]|] w' [-> H].
  - intros [[[n [c1 c2 m1 m2]]|s]|h] w H; cbn [seq_post].
    + subst w. unfold opt_session. may_crash; try (cbn; exact I).
      eapply wp_mono; [|apply (raw_client_ends (fun _ => 0) (RawMac _ _))]. intros [v|[]] w; cbn; try done. intros [-> ->]; auto.
    + destruct H as [-> H]. by split; [right|].
    + by destruct H as [_ [u ->]].
Qed.

(** What has been printed; a frame is sent only after the settings were, and it is the one
    between the addresses that they show. *)
Definition announced (w : list (list (list Z))) (d : list Z) : Prop :=
  exists client_ip server_ip client_mac server_mac,
    w = [[client_ip; server_ip]; [print_mac client_mac]; [print_mac server_mac]] /\
    d = server_mac ++ client_mac ++ [8; 0]
        ++ mac_header (Ends server_mac client_mac (inet_addr client_ip) (inet_addr server_ip)) ++ udp_bytes.

Definition announcing : monitor (list (list (list Z))) := Monitor
  (fun w c => match c with c_sendto _ d => announced w d | _ => True end)
  (fun _ _ _ => True)
  (fun w c _ => match c with c_print _ args => w ++ [args] | _ => w end).

Definition macs_ok (st : settings) : Prop :=
  let '(Settings _ (Config _ _ cm sm)) := st in length cm = 6%nat /\ length sm = 6%nat.

Lemma parse_mac_from_length n : forall i s mac j mac', parse_mac_from n i s mac = Done (j, mac') -> length mac' = length mac.
Proof.
  induction n as [|n IH]; intros i s mac j mac' H; cbn in H; [by simplify_eq|].
  obind_inv H. destruct a as [v rest| |]; [|by simplify_eq..]. obind_inv H. rename a into m1.
  assert (length m1 = length mac) as <- by (by eapply zset_length).
  destruct n; [by simplify_eq|]. destruct rest as [|b rest]; [by simplify_eq|]. case_match; [by eapply IH|by simplify_eq].
Qed.

Lemma opt_option_macs st o w : macs_ok st ->
  wp announcing (opt_option argv0 st o) w (fun r w' => match r with Returned (inl st') => macs_ok st' /\ w' = w | _ => True end).
Proof.
  destruct st as [n [c1 c2 m1 m2]], o as [c a]. intros [H1 H2]. unfold opt_option.
  assert (Hmac : forall m ok m', parse_mac a m = Done (ok, m') -> length m' = length m).
  { intros m ok m' E. unfold parse_mac in E. obind_inv E. destruct a0. simplify_eq. by eapply parse_mac_from_length. }
  repeat case_match; cbn [macs_ok]; repeat first
    [ apply wp_pure; [intros ?b ?Hb|intros ?u ?Hu] | wp_plain | progress case_match ]; cbn; try done.
  all: apply Hmac in Hb; by split_and!; [congruence..|].
Qed.

(** The session under [announcing]. *)
Ltac announces :=
  repeat first [ lazymatch goal with |- wp _ (die _ _) _ _ => unfold die; cbn [foreach] end
               | lazymatch goal with
                 | |- wp _ (prog_bind (of_outcome _) _) _ _ => apply wp_pure; [intros ?b ?Hb|by intros ? _]
                 | |- wp _ (mbind _ (of_outcome _)) _ _ => apply wp_pure; [intros ?b ?Hb|by intros ? _]
                 end
               | wp_plain; cbn [pre post announcing]; try done ].

Lemma opt_session_announces fuel st buffer : macs_ok st -> length buffer = 1500%nat ->
  wp announcing (opt_session inet_addr fuel st buffer) [] (fun _ _ => True).
Proof.
  destruct st as [n [c1 c2 m1 m2]]. intros [H1 H2] Hb. unfold opt_session, mac_session. announces.
  - unfold announced. do 4 eexists. split; [done|].
    assert (Ha : addressed (RawMac b1 (Ends m2 m1 (inet_addr b) (inet_addr b0)))) by done.
    destruct (raw_packet_sent (fun _ => 0) _ buffer Ha) as (rest & _ & E); [cbn; by rewrite Hb|].
    assert (b2 = sent (fun _ => 0) (RawMac b1 (Ends m2 m1 (inet_addr b) (inet_addr b0))) ++ rest) as -> by congruence.
    rewrite mac_tot_len in Hb4 by exact Ha. injection Hb4 as <-. by rewrite mac_take.
  - apply wp_bind, (wp_forever _ (fun _ _ => True)); [|done..]. intros b' w _. announces.
    all: repeat case_match; announces.
Qed.

(** Whatever the options, the network and the system do: the socket is closed when the
    client stops, a frame is sent only after the settings were printed, and it is the frame
    between the addresses that were printed, with a valid header checksum. With the
    addresses of p7 the client is that of p7, after printing them. *)
Theorem opt_client_announces fuel opts buffer : length buffer = 1500%nat ->
  wp kernel (opt_main inet_addr argv0 fuel opts buffer) start opt_ends /\
  wp announcing (opt_main inet_addr argv0 fuel opts buffer) [] (fun _ _ => True) /\
  (forall e, checksum (mac_header e) = 0) /\
  opt_session inet_addr fuel (Settings (array 16 "enp34s0")
      (Config (array 16 "192.168.0.109") (array 16 "192.168.0.104") RawClients.client_mac RawClients.server_mac)) buffer =
    (sys_ (c_print "Client IP: %s\nServer IP: %s\n" [str "192.168.0.109"; str "192.168.0.104"]);;
     sys_ (c_print "Client MAC: %02x:%02x:%02x:%02x:%02x:%02x\n" [str "00:d8:61:d7:f7:14"]);;
     sys_ (c_print "Server MAC: %02x:%02x:%02x:%02x:%02x:%02x\n" [str "94:bb:43:0d:56:a3"]);;
     mac_client (fun s => inet_addr (str s)) fuel buffer).
Proof.
  intros Hb. split_and!; [apply opt_main_ends| |apply mac_header_verifies|].
  - unfold opt_main. eapply wp_seq; [apply (wp_options announcing _ (fun st w => macs_ok st /\ w = []) (fun _ _ => True)); [|done]|].
    + intros st o w [Hm ->]. eapply wp_mono; [|by apply opt_option_macs]. by intros [[]|].
    + intros [[st|s]|h] w H; cbn [seq_post]; [|done..]. destruct H as [Hm ->]. by apply opt_session_announces.
  - reflexivity.
Qed.

End runs.
