(* ===== verification/Ipc.v ===== *)
(** Exchanges of one message between processes, and signals: the pipe of src/hw12_pipe/part1
    and the FIFO of part2, the message queues of src/hw13_mqueue/part1 (POSIX and System V),
    the programs of src/hw15_signals, and the process trees of src/hw10_proc/p1 and p2; and the
    two that only print, src/hw18_fs_arm_slim and src/hw20_modules_linux/p1.

    Parent and child are the two branches after [fork]: the run in which it returns 0 and
    the run in which it returns the identifier of the child. [buffer] is what the local
    array of [main] happens to hold. *)

From S2P Require Import Prelude CInt CStr Stdio Sys Endpoint.

(** * hw18 slim, hw20 p1: programs that only print *)

(** The first process of a small file system. *)
Definition slim_init : prog Z :=
  sys_ (c_print "\nHelloo world!!!\n" []);;
  sys_ (c_sleep 20);;
  Ret 0.

(** A kernel module that tells when it is loaded and unloaded. *)
Definition init_module : prog Z := sys_ (c_print "My test module loaded!!!\n" []);; Ret 0.
Definition cleanup_module : prog unit := sys_ (c_print "My test module unloaded!!!\n" []).

(** * hw12: a pipe and a FIFO *)

Definition PIPE_BUF : Z := 10.

(** The result of [read] is not used: when it fails the array is printed as it was. *)
Definition pipe_main (buffer : list Z) : prog Z :=
  '(r, ends) ← sys_data c_pipe;
  if r =? -1 then sys_ (c_perror "pipe1");; exit 1 else
  pid ← sys c_fork;
  if pid =? -1 then sys_ (c_perror "fork");; exit 1 else
  rd ← of_outcome (znth ends 0);
  wr ← of_outcome (znth ends 1);
  if pid =? 0 then
    sys_ (c_close wr);;
    '(n, data) ← sys_data (c_read rd PIPE_BUF);
    buffer ← of_outcome (if 0 <=? n then put_at buffer 0 data else Done buffer);
    text ← of_outcome (chars buffer);
    sys_ (c_print "Client received: %s\n" [text]);;
    sys_ (c_close rd);;
    exit 0
  else
    sys_ (c_close rd);;
    sys_ (c_write wr (lit "Hi"));;
    sys_ c_wait;;
    sys_ (c_close wr);;
    Ret 0.

Definition fifo : list Z := str "/tmp/myfifo".

Definition fifo_server : prog Z :=
  m ← sys (c_mkfifo fifo);
  (if m =? -1 then sys_ (c_perror "mkfifo") else Ret tt);;
  fd ← sys (c_open fifo);
  if fd =? -1 then die "open" [] else
  n ← sys (c_write fd (lit "Hi!"));
  (if n =? -1 then sys_ (c_perror "write") else Ret tt);;
  sys_ (c_close fd);;
  Ret 0.

Definition FIFO_BUF : Z := 100.

Definition fifo_client (buffer : list Z) : prog Z :=
  fd ← sys (c_open fifo);
  if fd =? -1 then die "open" [] else
  '(len, data) ← sys_data (c_read fd (FIFO_BUF - 1));
  if len =? -1 then die "read" [fd] else
  received "Client resived: %s\n" buffer data len;;
  sys_ (c_close fd);;
  u ← sys (c_unlink fifo);
  (if u =? -1 then sys_ (c_perror "unlink") else Ret tt);;
  Ret 0.

(** * hw13 part1: message queues *)

Definition QUEUE_NAME_S2C : list Z := str "/srv_to_cli".
Definition QUEUE_NAME_C2S : list Z := str "/cli_to_srv".
Definition MAX_SIZE : Z := 1024.

(** When an open fails the handle -1 is closed, and the other queue is not. *)
Definition mq_client (buffer : list Z) : prog Z :=
  mq_s2c ← sys (c_mq_open QUEUE_NAME_S2C false);
  if mq_s2c =? -1 then
    sys_ (c_perror "Client: mq_open srv_to_cli");; sys_ (c_mq_close mq_s2c);; exit 1
  else
  mq_c2s ← sys (c_mq_open QUEUE_NAME_C2S false);
  if mq_c2s =? -1 then
    sys_ (c_perror "Client: mq_open cli_to_srv");; sys_ (c_mq_close mq_c2s);; exit 1
  else
  '(bytes_read, data) ← sys_data (c_mq_receive mq_s2c MAX_SIZE);
  (if 0 <=? bytes_read
   then received "Client: Received message from server: '%s'\n" buffer data bytes_read;; Ret tt
   else sys_ (c_perror "Client: mq_receive"));;
  s ← sys (c_mq_send mq_c2s (lit "Hello!"));
  (if s =? -1 then sys_ (c_perror "Client: mq_send")
   else sys_ (c_print "Client: Sent message 'Hello!' to server\n" []));;
  sys_ (c_mq_close mq_s2c);;
  sys_ (c_mq_close mq_c2s);;
  Ret 0.

(** The name that is unlinked when the first queue fails is that of the second. *)
Definition mq_server (buffer : list Z) : prog Z :=
  mq_s2c ← sys (c_mq_open QUEUE_NAME_S2C true);
  if mq_s2c =? -1 then
    sys_ (c_perror "Server: mq_open srv_to_cli");; sys_ (c_mq_close mq_s2c);;
    sys_ (c_mq_unlink QUEUE_NAME_C2S);; exit 1
  else
  mq_c2s ← sys (c_mq_open QUEUE_NAME_C2S true);
  if mq_c2s =? -1 then
    sys_ (c_perror "Server: mq_open cli_to_srv");; sys_ (c_mq_close mq_c2s);;
    sys_ (c_mq_unlink QUEUE_NAME_S2C);; exit 1
  else
  sys_ (c_print "Server: Queues created. Waiting for client...\n" []);;
  s ← sys (c_mq_send mq_s2c (lit "Hi!"));
  (if s =? -1 then sys_ (c_perror "Server: mq_send") else Ret tt);;
  sys_ (c_print "Server: Sent message 'Hi!' to client\n" []);;
  '(bytes_read, data) ← sys_data (c_mq_receive mq_c2s MAX_SIZE);
  (if 0 <=? bytes_read
   then received "Server: Received message from client: '%s'\n" buffer data bytes_read;; Ret tt
   else sys_ (c_perror "Server: mq_receive"));;
  sys_ (c_mq_close mq_s2c);;
  sys_ (c_mq_close mq_c2s);;
  sys_ (c_mq_unlink QUEUE_NAME_S2C);;
  sys_ (c_mq_unlink QUEUE_NAME_C2S);;
  sys_ (c_print "Server: Queues closed and unlinked. Exiting.\n" []);;
  Ret 0.

(** [strncpy(mtext, s, MAX_SIZE - 1); mtext[MAX_SIZE - 1] = 0], and the bytes sent: the
    string with its NUL. *)
Definition put_text (mtext : list Z) (s : string) : outcome (list Z * list Z) :=
  b ← strncpy mtext (lit s) (MAX_SIZE - 1);
  b ← zset b (MAX_SIZE - 1) 0;
  n ← strlen b;
  d ← get_at b 0 (n + 1);
  Done (b, d).

Definition msg_client (mtext : list Z) : prog Z :=
  key ← sys c_ftok;
  if key =? -1 then die "Server:ftok" [] else
  msgid ← sys (c_msgget false);
  if msgid =? -1 then die "Client: msgget" [] else
  sys_ (c_print "Client: mqueue accessed.\n" []);;
  '(msg_len, data) ← sys_data (c_msgrcv msgid MAX_SIZE 1);
  if msg_len =? -1 then die "Client: msgrcv" [] else
  mtext ← received "Client: Recvieved message from server: '%s'\n" mtext data msg_len;
  '(mtext, d) ← of_outcome (put_text mtext "Hello!");
  s ← sys (c_msgsnd msgid 2 d);
  if s =? -1 then die "Client: message" [] else
  sys_ (c_print "Client: Sent message 'Hello!' to server\n" []);;
  Ret 0.

Definition msg_server (mtext : list Z) : prog Z :=
  key ← sys c_ftok;
  if key =? -1 then die "Server:ftok" [] else
  msgid ← sys (c_msgget true);
  if msgid =? -1 then die "Server:msgget" [] else
  sys_ (c_print "Server: Message queue created.\n" []);;
  '(mtext, d) ← of_outcome (put_text mtext "Hi!");
  s ← sys (c_msgsnd msgid 1 d);
  (if s =? -1 then sys_ (c_perror "Server: message")
   else sys_ (c_print "Server: Sent message 'Hi' to client\n" []));;
  '(msg_len, data) ← sys_data (c_msgrcv msgid MAX_SIZE 2);
  (if msg_len =? -1 then sys_ (c_perror "Server: msgrcv")
   else received "Server: recieved message from client: '%s'\n" mtext data msg_len;; Ret tt);;
  c ← sys (c_msgctl_rmid msgid);
  if c =? -1 then die "Server: msgctl(IPC_RMID)" [] else
  sys_ (c_print "Server: mqueue removed.\n" []);;
  Ret 0.

(** * hw15: signals *)

Definition SIGINT : Z := 2.
Definition SIGUSR1 : Z := 10.

(** [atoi] reads as [%d] does, and gives 0 when there is no number. *)
Definition atoi (s : list Z) : outcome Z :=
  r ← scanf_d s; Done (match r with Matched v _ => v | _ => 0 end).

(** The senders: [args] are the arguments after the name of the program. *)
Definition usr1_sender (name : list Z) (args : list (list Z)) : prog Z :=
  match args with
  | [a] =>
      pid ← of_outcome (atoi a);
      k ← sys (c_kill pid SIGUSR1);
      if k =? -1 then sys_ (c_perror "kill");; Ret 1
      else sys_ (c_print "Sent SIGUSR1 to process %d\n" [print_d pid]);; Ret 0
  | _ => sys_ (c_print "Usage: %s <PID>\n" [name]);; Ret 1
  end.

Definition int_sender (name : list Z) (args : list (list Z)) : prog Z :=
  match args with
  | [a] =>
      pid ← of_outcome (atoi a);
      k ← sys (c_kill pid SIGINT);
      if k =? -1 then sys_ (c_perror "kill");; Ret 1
      else sys_ (c_print "Sent SIGINT to process %d\n" [print_d pid]);; Ret 0
  | _ => sys_ (c_print "Usage: %s <PID>\n" [name]);; Ret 1
  end.

(** [sigwait] stores the signal it took. *)
Definition event_round (_ : unit) : prog (unit + Z) :=
  '(r, data) ← sys_data c_sigwait;
  if negb (r =? 0) then die "sigwait" [] else
  sys_ (c_print "Received signal: %d (SIGUSR1)\n" [print_d (default 0 (data !! 0%nat))]);;
  Ret (inl tt).

Definition event_main (fuel : nat) : prog Z :=
  m ← sys (c_sigprocmask SIGUSR1);
  if m =? -1 then die "sigprocmask" [] else
  forever fuel event_round tt.

Definition sig_usr1_handler : prog unit := sys_ (c_print "Reseived SIGUSR1 signal!\n" []).

(** [pause] returns when a handler has run. *)
Definition sigaction_receiver (fuel : nat) : prog Z :=
  a ← sys (c_sigaction SIGUSR1);
  if a =? -1 then die "sigaction" [] else
  pid ← sys c_getpid;
  sys_ (c_print "Waiting for SIGUSR1 signal. PID: %d\n" [print_d pid]);;
  forever fuel (fun _ => sys_ c_pause;; sig_usr1_handler;; Ret (inl tt)) tt.

Definition sigprocmask_receiver (fuel : nat) : prog Z :=
  ret ← sys (c_sigprocmask SIGINT);
  if negb (ret =? 0) then die "sigprocmask" [] else
  pid ← sys c_getpid;
  sys_ (c_print "SIGINT is blocked. PID=%d\n" [print_d pid]);;
  forever fuel (fun _ => sys_ c_pause;; Ret (inl tt)) tt.

(** * hw10: trees of processes *)

Definition report (fmt : string) : prog unit :=
  pid ← sys c_getpid;
  ppid ← sys c_getppid;
  sys_ (c_print fmt [print_d pid; print_d ppid]).

Definition WEXITSTATUS (status : Z) : Z := Z.land (Z.shiftr status 8) 255.

(** [status] is what the variable happens to hold; [wait] stores the status of a child. *)
Definition one_child (status : Z) : prog Z :=
  child_pid ← sys c_fork;
  if child_pid =? 0 then report "Child pid = %d\nChild ppid = %d\n";; exit 5
  else
    report "Parent pid = %d\nParent ppid = %d\n";;
    '(r, st) ← sys_data c_wait;
    sys_ (c_print "Status = %d\n" [print_d (WEXITSTATUS (if 0 <=? r then default status (st !! 0%nat) else status))]);;
    Ret 0.

Definition process_tree : prog Z :=
  proc1 ← sys c_fork;
  if proc1 =? 0 then
    proc3 ← sys c_fork;
    if proc3 =? 0 then report "Proc3 pid = %d, ppid = %d\n";; exit 3 else
    proc4 ← sys c_fork;
    if proc4 =? 0 then report "Proc4 pid = %d, ppid = %d\n";; exit 4 else
    report "Proc1 pid = %d, ppid = %d\n";;
    sys_ (c_waitpid proc3);;
    sys_ (c_waitpid proc4);;
    exit 1
  else
    proc2 ← sys c_fork;
    if proc2 =? 0 then
      proc5 ← sys c_fork;
      if proc5 =? 0 then report "Proc5 pid = %d, ppid = %d\n";; exit 5 else
      report "Proc2 pid = %d, ppid = %d\n";;
      sys_ (c_waitpid proc5);;
      exit 2
    else
      report "Parent pid = %d, ppid = %d\n";;
      sys_ (c_waitpid proc1);;
      sys_ (c_waitpid proc2);;
      Ret 0.

(** * The exchanges *)

Inductive exchange := Pipe | FifoServer | FifoClient | MqClient | MqServer | MsgClient | MsgServer.

Definition code (e : exchange) (buffer : list Z) : prog Z :=
  match e with
  | Pipe => pipe_main buffer
  | FifoServer => fifo_server
  | FifoClient => fifo_client buffer
  | MqClient => mq_client buffer
  | MqServer => mq_server buffer
  | MsgClient => msg_client buffer
  | MsgServer => msg_server buffer
  end.

(** The size of the local array. *)
Definition room (e : exchange) : Z := match e with Pipe => PIPE_BUF | FifoServer | FifoClient => FIFO_BUF | _ => MAX_SIZE end.

(** The handle -1 of a queue that did not open is closed as well: the system refuses it. *)
Definition handles (e : exchange) : gset Z := match e with MqClient | MqServer => {[-1]} | _ => ∅ end.

(** The name that stays: the FIFO, which its client removes. *)
Definition stays (e : exchange) : gset (list Z) := match e with FifoServer => {[fifo]} | _ => ∅ end.

(** The one message of a program; the exchanges whose array a message can fill. *)
Definition message (e : exchange) : list Z :=
  match e with
  | Pipe => lit "Hi"
  | FifoServer | MqServer | MsgServer => lit "Hi!"
  | FifoClient => []
  | MqClient | MsgClient => lit "Hello!"
  end.
Definition fillable (e : exchange) : bool := match e with FifoServer | FifoClient => false | _ => true end.

(** How a run may end: a program that succeeds leaves nothing behind; one that fails leaves
    at most one queue or the two ends of the pipe open; the child of the pipe exits with 0. *)
Definition tidy (e : exchange) (r : result Z) (w : world) : Prop :=
  match r with
  | Returned v => v = 0 /\ fds w = handles e /\ names w ⊆ stays e
  | Halted (Exited s) =>
      names w ⊆ stays e /\ (size (fds w) <= 2)%nat /\ (s = 1 \/ s = 0 /\ e = Pipe /\ fds w = ∅)
  | Halted (Crashed u) => u = OutOfBounds /\ fillable e = true
  | Halted Cut => False
  end.

Definition start_of (e : exchange) : world := World (handles e) ∅.

Lemma put_text_ok mtext s : Z.of_nat (length mtext) = MAX_SIZE -> text (str s) -> (length (str s) < 1023)%nat ->
  exists b, put_text mtext s = Done (b, lit s) /\ length b = length mtext.
Proof.
  intros Hl Hs Hn. unfold put_text.
  assert (E : exists b, strncpy_z mtext (str s ++ [0]) = Done b /\ length b = length mtext /\ terminated b /\ cstr b = str s).
  { destruct (strncpy_z_spec mtext (str s) []) as (b & Hb & Hlb & Ht & Hc); [done|unfold MAX_SIZE in Hl; lia|].
    exists b. split_and!; [done..|]. rewrite Hc. apply take_ge. unfold MAX_SIZE in Hl. lia. }
  destruct E as (b & Hb & Hlb & Ht & Hc). unfold strncpy_z in Hb. rewrite Hl in Hb. unfold lit at 1.
  destruct (strncpy mtext (str s ++ [0]) (MAX_SIZE - 1)) as [b0|] eqn:E0; [|done]. cbn [mbind outcome_bind] in *.
  rewrite Hb. cbn [mbind outcome_bind]. rewrite strlen_terminated, Hc by done. cbn [mbind outcome_bind].
  apply terminated_split in Ht as [r Hr]. rewrite Hc in Hr. exists b. split; [|done].
  rewrite Hr at 1. unfold get_at. zbool; rewrite ?length_app in *; cbn [andb length] in *; try lia.
  cbn [mbind outcome_bind]. do 2 f_equal. change (Z.to_nat 0) with 0%nat. rewrite drop_0.
  replace (Z.to_nat _) with (length (str s) + 1)%nat by lia. unfold lit. by rewrite take_app_add.
Qed.

Lemma two_fds (X : gset Z) a b : X ⊆ {[a; b]} -> (size X <= 2)%nat.
Proof.
  intros H. etrans; [by apply subseteq_size|]. rewrite size_union_alt, size_singleton.
  assert (size ({[b]} ∖ {[a]} : gset Z) <= size ({[b]} : gset Z))%nat by (apply subseteq_size; set_solver).
  rewrite size_singleton in *. lia.
Qed.

Ltac tidied :=
  cbn [tidy fds names handles stays fillable start_of]; split_and?; try done; try set_solver;
  try (right; split_and!; [done..|set_solver]);
  try match goal with r : reply |- (size _ <= 2)%nat => solve [apply (two_fds _ (r_val r) (-1)); set_solver] end.

Lemma pipe_tidy buffer : Z.of_nat (length buffer) = 10 -> wp kernel (pipe_main buffer) start (tidy Pipe).
Proof.
  intros Hl. unfold pipe_main. endpoint; [tidied| |].
  { tidied. apply (two_fds _ a b). set_solver. }
  rewrite Hd. change (znth [a; b] 0) with (Done a). change (znth [a; b] 1) with (Done b). cbn [of_outcome]. endpoint; [|tidied].
  - apply wp_pure.
    + intros b1 _. apply wp_pure; [|by intros u ->%chars_undef]. intros text _. endpoint. tidied.
    + intros u. destruct (Z.leb_spec 0 (r_val r2)); [|done].
      destruct (reply_size _ _ _ _ Hr1 eq_refl) as [Hs Hn]; [lia|]. unfold PIPE_BUF in Hn.
      destruct (put_at_total buffer 0 (r_data r2)) as (x & -> & _); [lia|lia|done].
Qed.

(** The programs put their text into the array they received into. *)
Ltac puts s :=
  match goal with
  | |- wp _ (mbind _ (of_outcome (put_text ?b s))) _ _ =>
      let x := fresh "b" in let E := fresh "E" in let L := fresh "L" in
      destruct (put_text_ok b s) as (x & E & L);
        [unfold MAX_SIZE; lia | apply (bool_decide_unpack _); by vm_compute | cbn; lia | rewrite E; cbn [of_outcome] ]
  end.

Lemma msg_client_tidy buffer : Z.of_nat (length buffer) = 1024 -> wp kernel (msg_client buffer) start (tidy MsgClient).
Proof. intros Hl. unfold msg_client. endpoint; try tidied. puts "Hello!". endpoint; tidied. Qed.

Lemma msg_server_tidy buffer : Z.of_nat (length buffer) = 1024 -> wp kernel (msg_server buffer) start (tidy MsgServer).
Proof. intros Hl. unfold msg_server. endpoint; try tidied. puts "Hi!". endpoint; tidied. Qed.

Lemma exchange_tidy e buffer : Z.of_nat (length buffer) = room e -> wp kernel (code e buffer) (start_of e) (tidy e).
Proof.
  intros Hl. destruct e; cbn [code]; unfold room, MAX_SIZE, PIPE_BUF, FIFO_BUF in Hl.
  - by apply pipe_tidy.
  - unfold fifo_server. endpoint; tidied.
  - unfold fifo_client. endpoint; tidied.
  - unfold mq_client. endpoint; tidied.
  - unfold mq_server. endpoint; tidied.
  - by apply msg_client_tidy.
  - by apply msg_server_tidy.
Qed.

(** * What is sent, received and printed *)

(** How a program prints the message it received; the queues of the POSIX programs, and the
    types of the System V messages, that it receives from and sends to. *)
Definition heard_as (e : exchange) : string :=
  match e with
  | Pipe => "Client received: %s\n"
  | FifoClient => "Client resived: %s\n"
  | MqClient => "Client: Received message from server: '%s'\n"
  | MqServer => "Server: Received message from client: '%s'\n"
  | MsgClient => "Client: Recvieved message from server: '%s'\n"
  | MsgServer => "Server: recieved message from client: '%s'\n"
  | FifoServer => ""
  end.
Definition in_name (e : exchange) : list Z := match e with MqServer => QUEUE_NAME_C2S | _ => QUEUE_NAME_S2C end.
Definition out_name (e : exchange) : list Z := match e with MqServer => QUEUE_NAME_S2C | _ => QUEUE_NAME_C2S end.
Definition in_type (e : exchange) : Z := match e with MsgServer => 2 | _ => 1 end.
Definition out_type (e : exchange) : Z := match e with MsgServer => 1 | _ => 2 end.

(** What has become of the one message a program receives: it is awaited, its text has to be
    printed, the failure has to be reported, both is done; or the message leaves the array
    without an end. And of the System V queue a program made. *)
Inductive ear := Listening | Owes (text : list Z) | Deaf | Heard | Reported | Loose.
Inductive queue := NoQueue | Made | Stuck | Removed.

(** The descriptors or the queue to receive from and to send to, whether the one message was
    sent, and whether the process is the child of a fork. *)
Record talk := Talk { hears : ear; inward : option Z; outward : option Z; said : bool; child : bool; made : queue }.
Definition silence : talk := Talk Listening None None false false NoQueue.

Definition hearing (x : ear) (s : talk) : talk := Talk x (inward s) (outward s) (said s) (child s) (made s).

(** After the call that receives. In the pipe a text is whole when it has its NUL, and the
    failure of [read] goes unnoticed; elsewhere the array has to have room for a NUL. *)
Definition overheard (e : exchange) (r : reply) : ear :=
  let d := r_data r in
  match e with
  | Pipe => if r_val r <? 0 then Loose else if decide (terminated d) then Owes (cstr d) else Loose
  | _ => if r_val r <? 0 then Deaf else if r_val r <? room e then Owes (cstr d) else Loose
  end.

(** A text that has to be printed is printed next, and a failure reported next. The one
    message is sent once, where it belongs, and one message is received from where it comes;
    of the pipe the parent is the sender. A queue is removed once. *)
Definition talker (e : exchange) : monitor talk := Monitor
  (fun s c => match hears s with
     | Owes text => c = c_print (heard_as e) [text]
     | Deaf => exists what, c = c_perror what
     | x => match c with
         | c_write fd d | c_mq_send fd d => outward s = Some fd /\ d = message e /\ said s = false /\ child s = false
         | c_msgsnd id t d => outward s = Some id /\ t = out_type e /\ d = message e /\ said s = false
         | c_read fd _ | c_mq_receive fd _ => inward s = Some fd /\ x = Listening /\ (e = Pipe -> child s = true)
         | c_msgrcv id _ t => inward s = Some id /\ t = in_type e /\ x = Listening
         | c_print f _ => f = heard_as e -> x = Loose
         | c_msgctl_rmid id => inward s = Some id /\ made s = Made
         | c_wait => child s = false
         | c_open n | c_mkfifo n => n = fifo
         | _ => True
         end
     end)
  (fun _ c r => -1 <= r_val r /\
     (forall n, receives c = Some n -> r_val r <= n /\ (0 <= r_val r -> Z.of_nat (length (r_data r)) = r_val r)) /\
     (c = c_pipe -> 0 <= r_val r -> length (r_data r) = 2%nat))
  (fun s c r => match c with
     | c_write _ _ | c_mq_send _ _ | c_msgsnd _ _ _ => Talk (hears s) (inward s) (outward s) true (child s) (made s)
     | c_read _ _ | c_mq_receive _ _ | c_msgrcv _ _ _ => hearing (overheard e r) s
     | c_print f _ => if String.eqb f (heard_as e) then hearing Heard s else s
     | c_perror _ => match hears s with Deaf => hearing Reported s | _ => s end
     | c_pipe => if r_val r =? -1 then s else Talk (hears s) (r_data r !! 0%nat) (r_data r !! 1%nat) (said s) (child s) (made s)
     | c_open _ => if r_val r =? -1 then s else Talk (hears s) (Some (r_val r)) (Some (r_val r)) (said s) (child s) (made s)
     | c_mq_open n _ =>
         if r_val r =? -1 then s
         else if decide (n = in_name e) then Talk (hears s) (Some (r_val r)) (outward s) (said s) (child s) (made s)
         else if decide (n = out_name e) then Talk (hears s) (inward s) (Some (r_val r)) (said s) (child s) (made s)
         else s
     | c_msgget create =>
         if r_val r =? -1 then s
         else Talk (hears s) (Some (r_val r)) (Some (r_val r)) (said s) (child s) (if create then Made else made s)
     | c_msgctl_rmid _ => Talk (hears s) (inward s) (outward s) (said s) (child s) (if r_val r =? -1 then Stuck else Removed)
     | c_fork => Talk (hears s) (inward s) (outward s) (said s) (r_val r =? 0) (made s)
     | _ => s
     end).

(** A program that returns has sent its message and printed the one it received; only the
    programs of the POSIX queues and the System V server go on when that fails, and the FIFO's
    server and the parent of the pipe receive nothing. It is not the child of the pipe, which
    exits with 0, and the server has removed its System V queue. One that fails owes nothing,
    and leaves a System V queue only if it could not remove it. *)
Definition talked (e : exchange) (r : result Z) (s : talk) : Prop :=
  match r with
  | Returned _ =>
      said s = match e with FifoClient => false | _ => true end /\
      match e with
      | Pipe | FifoServer => hears s = Listening
      | FifoClient | MsgClient => hears s = Heard
      | MqClient | MqServer | MsgServer => hears s = Heard \/ hears s = Reported
      end /\
      child s = false /\ made s = match e with MsgServer => Removed | _ => NoQueue end
  | Halted (Exited v) =>
      match hears s with Owes _ | Deaf => False | _ => True end /\ made s <> Made /\
      (v = 0 -> e = Pipe /\ child s = true /\ hears s = Heard)
  | Halted (Crashed u) => hears s = Loose
  | Halted Cut => False
  end.

(** A string that is ended in the bytes received does not go on in those behind them. *)
Lemma terminated_front d r : terminated d -> terminated (d ++ r) /\ cstr (d ++ r) = cstr d.
Proof.
  intros [x Hx]%terminated_split. split; [rewrite Hx; apply elem_of_app; left; apply elem_of_app; right; left|].
  rewrite Hx at 1. rewrite <- app_assoc. cbn. by apply cstr_app, cstr_text.
Qed.

Lemma wp_hears {B} e s fmt buffer r (f : list Z -> prog B) Q :
  e <> Pipe -> Z.of_nat (length buffer) = room e -> fmt = heard_as e ->
  Z.of_nat (length (r_data r)) = r_val r -> 0 <= r_val r <= room e ->
  (forall b, length b = length buffer -> wp (talker e) (f b) (hearing Heard s) Q) ->
  (r_val r = room e -> Q (Halted (Crashed OutOfBounds)) (hearing Loose s)) ->
  wp (talker e) (received fmt buffer (r_data r) (r_val r) ≫= f) (hearing (overheard e r) s) Q.
Proof.
  intros He Hl -> Hd [H0 Hr] Hf Hc.
  assert (Ho : overheard e r = if r_val r <? room e then Owes (cstr (r_data r)) else Loose)
    by (unfold overheard; destruct (Z.ltb_spec (r_val r) 0); [lia|]; by destruct e).
  rewrite Ho. destruct (Z.ltb_spec (r_val r) (room e)).
  - apply wp_received; [done|lia|done|]. intros r' b _ Hb _ _. cbn [post talker]. rewrite String.eqb_refl. by apply Hf.
  - apply wp_received_or; [done|lia|lia|]. intros _. apply Hc. lia.
Qed.

(** A size, from the test of the code. *)
Lemma heard_size e s c r n : rep (talker e) s c r -> receives c = Some n -> 0 <= r_val r ->
  Z.of_nat (length (r_data r)) = r_val r /\ 0 <= r_val r <= n.
Proof. intros (_ & H & _) Hn H0. destruct (H n Hn) as [H1 H2]. split; [by apply H2|lia]. Qed.

Lemma overheard_failed e r : e <> Pipe -> r_val r < 0 -> overheard e r = Deaf.
Proof. intros He H. unfold overheard. destruct (Z.ltb_spec (r_val r) 0); [|lia]. by destruct e. Qed.

Ltac talk_fields :=
  cbn [post pre talker hears inward outward said child made hearing heard_as message in_name out_name in_type out_type silence
       String.eqb Ascii.eqb Bool.eqb].

(** The descriptor of a queue is known by its name. *)
Ltac talk_names :=
  repeat match goal with
  | |- context [decide (?x = ?y)] =>
      first [rewrite (decide_True (P := x = y)) by reflexivity | rewrite (decide_False (P := x = y)) by (by vm_compute)]
  end.

(** A received message, or the report that there is none. *)
Ltac talk_received :=
  lazymatch goal with
  | |- wp (talker ?e) (mbind _ (received _ _ (r_data ?r) _)) (hearing (overheard _ ?r) ?s) _ =>
      match goal with H : rep _ _ _ r |- _ =>
        destruct (heard_size _ _ _ _ _ H eq_refl) as [? ?]; [destruct H; lia|];
        apply (wp_hears e s); [done|cbn [room]; unfold FIFO_BUF, MAX_SIZE in *; lia|done|done|cbn [room]; unfold FIFO_BUF, MAX_SIZE in *; lia|intros ?b ?Hb|intros ?Hfull];
        unfold hearing; talk_fields
      end
  | H : rep _ _ _ ?r |- wp _ (Step (c_perror _) _) (hearing (overheard _ ?r) _) _ =>
      rewrite (overheard_failed _ r) by first [done | destruct H; lia]; unfold hearing; talk_fields
  | |- wp _ (prog_bind (mbind _ (received _ _ _ _)) _) _ _ => apply wp_bind
  | |- wp _ (mbind _ (mbind _ (received _ _ _ _))) _ _ => apply wp_bind
  end.

Ltac talks :=
  repeat first
    [ progress prog_simp
    | talk_received
    | lazymatch goal with |- wp _ (die _ _) _ _ => unfold die; cbn [foreach] end
    | wp_plain; talk_fields; talk_names; try done; try (by eexists); try solve [split_and!; auto] ].

(** The child prints the text that [read] stored, if it has its NUL; the parent writes. *)
Lemma pipe_talks buffer : Z.of_nat (length buffer) = 10 -> wp (talker Pipe) (pipe_main buffer) silence (talked Pipe).
Proof.
  intros Hl. unfold pipe_main. talks. rename Hr into Hp.
  destruct Hp as (Hge & _ & Hp). specialize (Hp eq_refl ltac:(lia)).
  destruct (r_data r) as [|rd [|wr [|]]]; [done|done| |done]. change (znth [rd; wr] 0) with (Done rd). change (znth [rd; wr] 1) with (Done wr).
  cbn [of_outcome mbind prog_mbind prog_bind lookup list_lookup]. destruct (r_val r0 =? 0); [|by talks].
  wp_plain. talk_fields. apply wp_one; [by split_and!|]. intros r2 Hr2. talk_fields.
  assert (Hrd : exists b1, (if 0 <=? r_val r2 then put_at buffer 0 (r_data r2) else Done buffer) = Done b1 /\
    (overheard Pipe r2 = Loose \/ terminated b1 /\ overheard Pipe r2 = Owes (cstr b1))).
  { destruct Hr2 as (Hge2 & Hrec & _). destruct (Hrec _ eq_refl) as [Hle Hdata]. unfold PIPE_BUF in Hle. unfold overheard.
    destruct (Z.leb_spec 0 (r_val r2)), (Z.ltb_spec (r_val r2) 0); try lia; [|eexists; split; [done|by left]].
    specialize (Hdata ltac:(done)). rewrite put_at_ok by lia. eexists. split; [done|].
    change (Z.to_nat 0) with 0%nat. rewrite take_0, app_nil_l. destruct (decide _) as [Ht|]; [right|by left].
    destruct (terminated_front (r_data r2) (drop (0 + length (r_data r2)) buffer) Ht) as [H1 H2]. split; [done|by rewrite H2]. }
  destruct Hrd as (b1 & -> & Hb). cbn [of_outcome mbind prog_mbind prog_bind]. apply wp_pure.
  - intros text Ht. assert (Hpr : pre (talker Pipe) (hearing (overheard Pipe r2) (Talk Listening (Some rd) (Some wr) false true NoQueue))
      (c_print "Client received: %s\n" [text])).
    { destruct Hb as [->|[Hb ->]]; cbn; [done|]. rewrite chars_terminated in Ht by done. congruence. }
    prog_simp. apply wp_one; [exact Hpr|]. intros r3 _. unfold hearing. talk_fields. by talks.
  - intros u Hu. destruct Hb as [->|[Hb _]]; [done|]. by rewrite chars_terminated in Hu.
Qed.

Lemma exchange_talks e buffer : Z.of_nat (length buffer) = room e -> wp (talker e) (code e buffer) silence (talked e).
Proof.
  intros Hl. destruct e; cbn [code]; unfold room, MAX_SIZE, PIPE_BUF, FIFO_BUF in Hl.
  - by apply pipe_talks.
  - unfold fifo_server. by talks.
  - unfold fifo_client. by talks.
  - unfold mq_client. by talks.
  - unfold mq_server. by talks.
  - unfold msg_client. talks; try done. puts "Hello!". by talks.
  - unfold msg_server. talks; try done. puts "Hi!". by talks.
Qed.

(** C40 In every run of the pipe, the FIFO and the queues, whatever the system replies: each
    call is on an open descriptor, but for the handle -1 of a queue that did not open. The
    one text of the program is sent with its NUL, at most once, into its own pipe end, FIFO,
    queue or type of message, and one message is received from where the other program sends.
    Its text is what is printed next, and a failure to receive is what is reported next. A
    run that returns 0 has tried to send, has printed or reported, has removed the System V
    queue if it is its server, and leaves no descriptor open and no name but the FIFO of its
    server; one that fails leaves no queue name, and a System V queue only if it could not be
    removed. The only undefined behaviour is a message that fills the array of a queue
    program, or, in the child of the pipe, a text without a NUL or a failure of [read]. *)
Theorem exchanges_safe e buffer t w res :
  Z.of_nat (length buffer) = room e -> exec kernel (code e buffer) (start_of e) t w res ->
  allowed kernel (start_of e) t /\ allowed (talker e) silence t /\
  match res with Some r => tidy e r w /\ talked e r (final (talker e) silence t) | None => True end.
Proof.
  intros Hl H. destruct (wp_sound _ _ _ _ _ _ _ (exchange_tidy e buffer Hl) H) as [H1 H2].
  destruct (exec_transfer kernel (talker e) (code e buffer) (start_of e) t w res) with (w' := silence) as [s Hx]; [|done|].
  { intros w0 w' c r (Hr & _ & _ & Hn & _ & Hp & _). split_and!; [done| |intros ->; by auto].
    intros n E. destruct (Hn n E) as [Hle Hd]. split; [done|]. intros H0. by apply Hd. }
  pose proof (exec_final _ _ _ _ _ _ Hx) as ->.
  destruct (wp_sound _ _ _ _ _ _ _ (exchange_talks e buffer Hl) Hx) as [H3 H4]. split_and!; [done..|]. by destruct res.
Qed.

(** * Signals *)

(** A sender signals the process its one argument names, with its own signal, or nobody. *)
Definition aims (args : list (list Z)) (signo : Z) : monitor unit := Monitor
  (fun _ c => match c with c_kill pid s => exists a, args = [a] /\ atoi a = Done pid /\ s = signo | _ => True end)
  (fun _ _ r => -1 <= r_val r) (fun _ _ _ => tt).

Lemma usr1_sender_aims name args :
  wp (aims args SIGUSR1) (usr1_sender name args) tt (fun r _ => r <> Halted Cut).
Proof.
  destruct args as [|a [|b l]]; unfold usr1_sender; wp_plains; try done.
  apply wp_pure; [|done]. intros pid E. wp_plains; try done. by exists a.
Qed.

Lemma int_sender_aims name args :
  wp (aims args SIGINT) (int_sender name args) tt (fun r _ => r <> Halted Cut).
Proof.
  destruct args as [|a [|b l]]; unfold int_sender; wp_plains; try done.
  apply wp_pure; [|done]. intros pid E. wp_plains; try done. by exists a.
Qed.

(** A word that is not a number makes the target 0: the process group of the sender. *)
Lemma atoi_word : atoi (str "abc") = Done 0.
Proof. by vm_compute. Qed.

(** The waiting programs never end, unless a call fails at the start. *)
Lemma receivers_wait fuel :
  wp kernel (event_main fuel) start (fun r _ => r = Halted Cut \/ r = Halted (Exited 1)) /\
  wp kernel (sigaction_receiver fuel) start (fun r _ => r = Halted Cut \/ r = Halted (Exited 1)) /\
  wp kernel (sigprocmask_receiver fuel) start (fun r _ => r = Halted Cut \/ r = Halted (Exited 1)).
Proof.
  split_and!.
  - unfold event_main. endpoint; [by right|]. apply wp_beat; [|by left].
    intros []. unfold event_round. endpoint; [by right|done].
  - unfold sigaction_receiver. endpoint; [by right|]. apply wp_beat; [|by left].
    intros []. unfold sig_usr1_handler. by endpoint.
  - unfold sigprocmask_receiver. endpoint; [by right|]. apply wp_beat; [|by left].
    intros []. by endpoint.
Qed.

(** * Families of processes *)

(** A process that has ended: its identifier and that of its parent, what it printed and
    whom it waited for, in order, and its status. *)
Record process := Process { self : Z; parent : Z; did : list call; status : Z }.

(** [family p me up next zombies] runs [p] as the process [me], child of [up]; every [fork]
    succeeds and gives the next free identifier; [wait] reaps the children in the order of
    their creation. The result is every process of the tree, this one first, and the next
    free identifier. *)
Fixpoint family (p : prog Z) (me up next : Z) (zombies : list (Z * Z)) (done : list call) : list process * Z :=
  match p with
  | Ret v => ([Process me up done v], next)
  | Halt (Exited v) => ([Process me up done v], next)
  | Halt _ => ([], next)
  | Step c k =>
      match c with
      | c_fork =>
          let '(kids, next1) := family (k (value_reply 0)) next me (next + 1) [] [] in
          let code := match kids with kid :: _ => status kid | [] => 0 end in
          let '(rest, next2) := family (k (value_reply next)) me up next1 (zombies ++ [(next, code)]) done in
          (rest ++ kids, next2)
      | c_wait =>
          match zombies with
          | (kid, code) :: zs => family (k (Reply kid [Z.shiftl code 8] 0)) me up next zs (done ++ [c])
          | [] => family (k failed) me up next [] (done ++ [c])
          end
      | c_waitpid _ => family (k ok0) me up next zombies (done ++ [c])
      | c_getpid => family (k (value_reply me)) me up next zombies done
      | c_getppid => family (k (value_reply up)) me up next zombies done
      | _ => family (k ok0) me up next zombies (done ++ [c])
      end
  end.

(** The line a process prints about itself. *)
Definition says (fmt : string) (pid ppid : Z) : call := c_print fmt [print_d pid; print_d ppid].

(** The program of p1: the parent prints the status 5 of its child. *)
Lemma one_child_family me up next st : 0 < next ->
  (family (one_child st) me up next [] []).1 =
    [Process me up [says "Parent pid = %d\nParent ppid = %d\n" me up; c_wait; c_print "Status = %d\n" [str "5"]] 0;
     Process next me [says "Child pid = %d\nChild ppid = %d\n" next me] 5].
Proof.
  intros Hn. unfold one_child. cbn. destruct (Z.eqb_spec next 0); [lia|]. cbn.
  destruct (Z.leb_spec 0 next); [done|lia].
Qed.

(** The program of p2: each process is forked by the one the drawing of the task names,
    prints its line, waits for its own children in the order of their creation and for
    nobody else, and exits with its number. *)
Lemma process_tree_family me up n : 0 < n ->
  (family process_tree me up n [] []).1 =
    [Process me up [says "Parent pid = %d, ppid = %d\n" me up; c_waitpid n; c_waitpid (n + 1 + 1 + 1)] 0;
     Process (n + 1 + 1 + 1) me
       [says "Proc2 pid = %d, ppid = %d\n" (n + 1 + 1 + 1) me; c_waitpid (n + 1 + 1 + 1 + 1)] 2;
     Process (n + 1 + 1 + 1 + 1) (n + 1 + 1 + 1)
       [says "Proc5 pid = %d, ppid = %d\n" (n + 1 + 1 + 1 + 1) (n + 1 + 1 + 1)] 5;
     Process n me [says "Proc1 pid = %d, ppid = %d\n" n me; c_waitpid (n + 1); c_waitpid (n + 1 + 1)] 1;
     Process (n + 1 + 1) n [says "Proc4 pid = %d, ppid = %d\n" (n + 1 + 1) n] 4;
     Process (n + 1) n [says "Proc3 pid = %d, ppid = %d\n" (n + 1) n] 3].
Proof.
  intros Hn. unfold process_tree, report. cbn.
  repeat match goal with |- context [?x =? 0] => destruct (Z.eqb_spec x 0); [lia|]; cbn end. done.
Qed.

(** * Runs *)

(** The client of the FIFO prints what its server wrote. *)
Definition fifo_trace : trace :=
  [(c_open fifo, value_reply 3); (c_read 3 99, data_reply (lit "Hi!"));
   (c_print "Client resived: %s\n" [str "Hi!"], ok0); (c_close 3, ok0); (c_unlink fifo, ok0)].

Lemma fifo_run : exists w, exec kernel (code FifoClient (replicate 100 7)) (start_of FifoClient) fifo_trace w (Some (Returned 0)).
Proof.
  eexists. unfold fifo_trace. cbn [code]. unfold fifo_client. prog_simp. do 2 run_call.
  apply (exec_received kernel _ (replicate 100 7) (lit "Hi!") 4); [done..|reply_holds|]. intros b.
  do 2 run_call. apply exec_ret.
Qed.

Lemma exchanges_safe_witness :
  allowed (talker FifoClient) silence fifo_trace /\
  exists w, fds w = ∅ /\ exec kernel (code FifoClient (replicate 100 7)) (start_of FifoClient) fifo_trace w (Some (Returned 0)).
Proof.
  destruct fifo_run as [w H].
  destruct (exchanges_safe FifoClient (replicate 100 7) fifo_trace w (Some (Returned 0)) eq_refl H)
    as (_ & Hc & (_ & Hf & _) & _).
  split; [exact Hc|]. exists w. by split.
Defined.

(** A message of 1024 bytes has no defined meaning for the receivers of the queues. *)
Lemma mq_overruns :
  (fill (replicate 1024 7) (replicate 1024 65) 1024) = Undef OutOfBounds.
Proof. by vm_compute. Qed.
